(** * Organization chart data layer: a shallow embedding of OrgCrudService.js

  The development follows src/cc/OrgCrudService.js function by function:
  the Team List reader, the structural-node deriver, the parent resolver,
  the tree assembler [getAllData], and the write API ([addPerson],
  [updatePerson], [deletePerson]) together with [_generateNextHid] and
  [getByEmail].  Spreadsheet cells are JavaScript values; the sheets, the
  two cache keys and the permission gate form an explicit [World] that the
  stateful functions thread through. *)

From Stdlib Require Import ZArith Ascii String List Bool Lia.
From stdpp Require Import base strings gmap list pretty.

Local Open Scope string_scope.
Local Open Scope list_scope.

(* ===================================================================== *)
(** ** JavaScript strings and values *)
(* ===================================================================== *)

Module Js.

(** Strings are texts in UTF-8: an ASCII character is one byte, any other
    character is a sequence of two to four bytes above 127.  Equality,
    [startsWith], [split(' ')] and [replace] with ASCII patterns act on
    these bytes as the operations of the source act on code units.  White
    space and case are those of ECMAScript, which takes them from the
    Unicode Character Database (version 14.0 here). *)

(** *** White space: [trim] *)

(** TAB, LF, VT, FF, CR and SP. *)
Definition isWhiteSpace (c : ascii) : bool :=
  let n := nat_of_ascii c in
  Nat.eqb n 32 || (Nat.leb 9 n && Nat.leb n 13).

(** U+00A0, the bytes C2 A0. *)
Definition isWhiteSpace2 (a b : ascii) : bool :=
  Nat.eqb (nat_of_ascii a) 194 && Nat.eqb (nat_of_ascii b) 160.

(** U+1680 (E1 9A 80); U+2000 to U+200A, U+2028, U+2029 and U+202F
    (E2 80 followed by 80 to 8A, A8, A9 or AF); U+205F (E2 81 9F);
    U+3000 (E3 80 80); U+FEFF (EF BB BF). *)
Definition isWhiteSpace3 (a b c : ascii) : bool :=
  let x := nat_of_ascii a in
  let y := nat_of_ascii b in
  let z := nat_of_ascii c in
  (Nat.eqb x 225 && Nat.eqb y 154 && Nat.eqb z 128)
  || (Nat.eqb x 226 && Nat.eqb y 128
      && ((Nat.leb 128 z && Nat.leb z 138)
          || Nat.eqb z 168 || Nat.eqb z 169 || Nat.eqb z 175))
  || (Nat.eqb x 226 && Nat.eqb y 129 && Nat.eqb z 159)
  || (Nat.eqb x 227 && Nat.eqb y 128 && Nat.eqb z 128)
  || (Nat.eqb x 239 && Nat.eqb y 187 && Nat.eqb z 191).

(** The text past its leading white space; read [backwards], the bytes of
    a character come in reverse order. *)
Fixpoint skipWhiteSpace (backwards : bool) (s : string) : string :=
  match s with
  | EmptyString => s
  | String a s1 =>
      if isWhiteSpace a then skipWhiteSpace backwards s1
      else
        match s1 with
        | EmptyString => s
        | String b s2 =>
            if (if backwards then isWhiteSpace2 b a else isWhiteSpace2 a b)
            then skipWhiteSpace backwards s2
            else
              match s2 with
              | EmptyString => s
              | String c s3 =>
                  if (if backwards then isWhiteSpace3 c b a else isWhiteSpace3 a b c)
                  then skipWhiteSpace backwards s3
                  else s
              end
        end
  end.

Definition trimStart (s : string) : string := skipWhiteSpace false s.

Definition trimEnd (s : string) : string :=
  String.rev (skipWhiteSpace true (String.rev s)).

Definition trim (s : string) : string := trimEnd (trimStart s).

(** *** Case: [toLowerCase] *)

Definition lowerChar (c : ascii) : ascii :=
  let n := nat_of_ascii c in
  if Nat.leb 65 n && Nat.leb n 90 then ascii_of_nat (n + 32) else c.

Fixpoint isAscii (s : string) : bool :=
  match s with
  | EmptyString => true
  | String c s' => Nat.ltb (nat_of_ascii c) 128 && isAscii s'
  end.

(** On a text of ASCII characters only A to Z have a lowercase. *)
Fixpoint lowerAscii (s : string) : string :=
  match s with
  | EmptyString => EmptyString
  | String c s' => String (lowerChar c) (lowerAscii s')
  end.

(** The value of a continuation byte 10xxxxxx. *)
Definition continuation (c : ascii) : option N :=
  let n := N_of_ascii c in
  if (128 <=? n)%N && (n <? 192)%N then Some (n - 128)%N else None.

(** The first code point of a text and the text after it.  A byte that
    starts no well-formed sequence is taken alone, as a number above the
    code space (1114112 and the byte), and [encodeCodePoint] gives it
    back. *)
Definition headCodePoint (s : string) : option (N * string) :=
  match s with
  | EmptyString => None
  | String a s1 =>
      let x := N_of_ascii a in
      let stray := Some (1114112 + x, s1)%N in
      if (x <? 128)%N then Some (x, s1)
      else
        match s1 with
        | String b s2 =>
            match continuation b with
            | Some y =>
                if (194 <=? x)%N && (x <? 224)%N
                then Some ((x - 192) * 64 + y, s2)%N
                else
                  match s2 with
                  | String c s3 =>
                      match continuation c with
                      | Some z =>
                          let p3 := ((x - 224) * 4096 + y * 64 + z)%N in
                          if (224 <=? x)%N && (x <? 240)%N && (2048 <=? p3)%N
                             && negb ((55296 <=? p3)%N && (p3 <? 57344)%N)
                          then Some (p3, s3)
                          else
                            match s3 with
                            | String d s4 =>
                                match continuation d with
                                | Some u =>
                                    let p4 :=
                                      ((x - 240) * 262144 + y * 4096 + z * 64 + u)%N in
                                    if (240 <=? x)%N && (x <? 245)%N
                                       && (65536 <=? p4)%N && (p4 <? 1114112)%N
                                    then Some (p4, s4)
                                    else stray
                                | None => stray
                                end
                            | EmptyString => stray
                            end
                      | None => stray
                      end
                  | EmptyString => stray
                  end
            | None => stray
            end
        | EmptyString => stray
        end
  end.

Fixpoint codePoints (fuel : nat) (s : string) : list N :=
  match fuel with
  | 0 => []
  | S fuel' =>
      match headCodePoint s with
      | Some (p, rest) => p :: codePoints fuel' rest
      | None => []
      end
  end.

(** Every code point takes a byte at least, so the length is fuel enough. *)
Definition toCodePoints (s : string) : list N := codePoints (String.length s) s.

Definition encodeCodePoint (p : N) : string :=
  let b (n : N) := String (ascii_of_N n) EmptyString in
  if (p <? 128)%N then b p
  else if (p <? 2048)%N then b (192 + p / 64)%N +:+ b (128 + p mod 64)%N
  else if (p <? 65536)%N then
    b (224 + p / 4096)%N +:+ b (128 + (p / 64) mod 64)%N +:+ b (128 + p mod 64)%N
  else if (p <? 1114112)%N then
    b (240 + p / 262144)%N +:+ b (128 + (p / 4096) mod 64)%N
    +:+ b (128 + (p / 64) mod 64)%N +:+ b (128 + p mod 64)%N
  else b (p - 1114112)%N.

Definition fromCodePoints (l : list N) : string :=
  String.concat "" (map encodeCodePoint l).

(** The lowercase mappings of the Unicode Character Database to a single
    code point, as runs [(first, last, step, offset)]: every [step]-th code
    point from [first] to [last] has the code point [offset] further as its
    lowercase. *)
Definition LOWERCASE : list (N * N * N * Z) :=
  [
    (65, 90, 1, 32%Z); (192, 214, 1, 32%Z); (216, 222, 1, 32%Z);
    (256, 302, 2, 1%Z); (306, 310, 2, 1%Z); (313, 327, 2, 1%Z);
    (330, 374, 2, 1%Z); (376, 376, 1, (-121)%Z); (377, 381, 2, 1%Z);
    (385, 385, 1, 210%Z); (386, 388, 2, 1%Z); (390, 390, 1, 206%Z);
    (391, 391, 1, 1%Z); (393, 394, 1, 205%Z); (395, 395, 1, 1%Z);
    (398, 398, 1, 79%Z); (399, 399, 1, 202%Z); (400, 400, 1, 203%Z);
    (401, 401, 1, 1%Z); (403, 403, 1, 205%Z); (404, 404, 1, 207%Z);
    (406, 406, 1, 211%Z); (407, 407, 1, 209%Z); (408, 408, 1, 1%Z);
    (412, 412, 1, 211%Z); (413, 413, 1, 213%Z); (415, 415, 1, 214%Z);
    (416, 420, 2, 1%Z); (422, 422, 1, 218%Z); (423, 423, 1, 1%Z);
    (425, 425, 1, 218%Z); (428, 428, 1, 1%Z); (430, 430, 1, 218%Z);
    (431, 431, 1, 1%Z); (433, 434, 1, 217%Z); (435, 437, 2, 1%Z);
    (439, 439, 1, 219%Z); (440, 440, 1, 1%Z); (444, 444, 1, 1%Z);
    (452, 452, 1, 2%Z); (453, 453, 1, 1%Z); (455, 455, 1, 2%Z);
    (456, 456, 1, 1%Z); (458, 458, 1, 2%Z); (459, 475, 2, 1%Z);
    (478, 494, 2, 1%Z); (497, 497, 1, 2%Z); (498, 500, 2, 1%Z);
    (502, 502, 1, (-97)%Z); (503, 503, 1, (-56)%Z); (504, 542, 2, 1%Z);
    (544, 544, 1, (-130)%Z); (546, 562, 2, 1%Z); (570, 570, 1, 10795%Z);
    (571, 571, 1, 1%Z); (573, 573, 1, (-163)%Z); (574, 574, 1, 10792%Z);
    (577, 577, 1, 1%Z); (579, 579, 1, (-195)%Z); (580, 580, 1, 69%Z);
    (581, 581, 1, 71%Z); (582, 590, 2, 1%Z); (880, 882, 2, 1%Z);
    (886, 886, 1, 1%Z); (895, 895, 1, 116%Z); (902, 902, 1, 38%Z);
    (904, 906, 1, 37%Z); (908, 908, 1, 64%Z); (910, 911, 1, 63%Z);
    (913, 929, 1, 32%Z); (931, 939, 1, 32%Z); (975, 975, 1, 8%Z);
    (984, 1006, 2, 1%Z); (1012, 1012, 1, (-60)%Z); (1015, 1015, 1, 1%Z);
    (1017, 1017, 1, (-7)%Z); (1018, 1018, 1, 1%Z); (1021, 1023, 1, (-130)%Z);
    (1024, 1039, 1, 80%Z); (1040, 1071, 1, 32%Z); (1120, 1152, 2, 1%Z);
    (1162, 1214, 2, 1%Z); (1216, 1216, 1, 15%Z); (1217, 1229, 2, 1%Z);
    (1232, 1326, 2, 1%Z); (1329, 1366, 1, 48%Z); (4256, 4293, 1, 7264%Z);
    (4295, 4295, 1, 7264%Z); (4301, 4301, 1, 7264%Z);
    (5024, 5103, 1, 38864%Z); (5104, 5109, 1, 8%Z);
    (7312, 7354, 1, (-3008)%Z); (7357, 7359, 1, (-3008)%Z);
    (7680, 7828, 2, 1%Z); (7838, 7838, 1, (-7615)%Z); (7840, 7934, 2, 1%Z);
    (7944, 7951, 1, (-8)%Z); (7960, 7965, 1, (-8)%Z);
    (7976, 7983, 1, (-8)%Z); (7992, 7999, 1, (-8)%Z);
    (8008, 8013, 1, (-8)%Z); (8025, 8031, 2, (-8)%Z);
    (8040, 8047, 1, (-8)%Z); (8072, 8079, 1, (-8)%Z);
    (8088, 8095, 1, (-8)%Z); (8104, 8111, 1, (-8)%Z);
    (8120, 8121, 1, (-8)%Z); (8122, 8123, 1, (-74)%Z);
    (8124, 8124, 1, (-9)%Z); (8136, 8139, 1, (-86)%Z);
    (8140, 8140, 1, (-9)%Z); (8152, 8153, 1, (-8)%Z);
    (8154, 8155, 1, (-100)%Z); (8168, 8169, 1, (-8)%Z);
    (8170, 8171, 1, (-112)%Z); (8172, 8172, 1, (-7)%Z);
    (8184, 8185, 1, (-128)%Z); (8186, 8187, 1, (-126)%Z);
    (8188, 8188, 1, (-9)%Z); (8486, 8486, 1, (-7517)%Z);
    (8490, 8490, 1, (-8383)%Z); (8491, 8491, 1, (-8262)%Z);
    (8498, 8498, 1, 28%Z); (8544, 8559, 1, 16%Z); (8579, 8579, 1, 1%Z);
    (9398, 9423, 1, 26%Z); (11264, 11311, 1, 48%Z); (11360, 11360, 1, 1%Z);
    (11362, 11362, 1, (-10743)%Z); (11363, 11363, 1, (-3814)%Z);
    (11364, 11364, 1, (-10727)%Z); (11367, 11371, 2, 1%Z);
    (11373, 11373, 1, (-10780)%Z); (11374, 11374, 1, (-10749)%Z);
    (11375, 11375, 1, (-10783)%Z); (11376, 11376, 1, (-10782)%Z);
    (11378, 11378, 1, 1%Z); (11381, 11381, 1, 1%Z);
    (11390, 11391, 1, (-10815)%Z); (11392, 11490, 2, 1%Z);
    (11499, 11501, 2, 1%Z); (11506, 11506, 1, 1%Z); (42560, 42604, 2, 1%Z);
    (42624, 42650, 2, 1%Z); (42786, 42798, 2, 1%Z); (42802, 42862, 2, 1%Z);
    (42873, 42875, 2, 1%Z); (42877, 42877, 1, (-35332)%Z);
    (42878, 42886, 2, 1%Z); (42891, 42891, 1, 1%Z);
    (42893, 42893, 1, (-42280)%Z); (42896, 42898, 2, 1%Z);
    (42902, 42920, 2, 1%Z); (42922, 42922, 1, (-42308)%Z);
    (42923, 42923, 1, (-42319)%Z); (42924, 42924, 1, (-42315)%Z);
    (42925, 42925, 1, (-42305)%Z); (42926, 42926, 1, (-42308)%Z);
    (42928, 42928, 1, (-42258)%Z); (42929, 42929, 1, (-42282)%Z);
    (42930, 42930, 1, (-42261)%Z); (42931, 42931, 1, 928%Z);
    (42932, 42946, 2, 1%Z); (42948, 42948, 1, (-48)%Z);
    (42949, 42949, 1, (-42307)%Z); (42950, 42950, 1, (-35384)%Z);
    (42951, 42953, 2, 1%Z); (42960, 42960, 1, 1%Z); (42966, 42968, 2, 1%Z);
    (42997, 42997, 1, 1%Z); (65313, 65338, 1, 32%Z); (66560, 66599, 1, 40%Z);
    (66736, 66771, 1, 40%Z); (66928, 66938, 1, 39%Z);
    (66940, 66954, 1, 39%Z); (66956, 66962, 1, 39%Z);
    (66964, 66965, 1, 39%Z); (68736, 68786, 1, 64%Z);
    (71840, 71871, 1, 32%Z); (93760, 93791, 1, 32%Z);
    (125184, 125217, 1, 34%Z)
  ]%N.

(** The code points that are case-ignorable, as ranges. *)
Definition CASE_IGNORABLE : list (N * N) :=
  [
    (39, 39); (46, 46); (58, 58); (94, 94); (96, 96); (168, 168); (173, 173);
    (175, 175); (180, 180); (183, 184); (688, 879); (884, 885); (890, 890);
    (900, 901); (903, 903); (1155, 1161); (1369, 1369); (1375, 1375);
    (1425, 1469); (1471, 1471); (1473, 1474); (1476, 1477); (1479, 1479);
    (1524, 1524); (1536, 1541); (1552, 1562); (1564, 1564); (1600, 1600);
    (1611, 1631); (1648, 1648); (1750, 1757); (1759, 1768); (1770, 1773);
    (1807, 1807); (1809, 1809); (1840, 1866); (1958, 1968); (2027, 2037);
    (2042, 2042); (2045, 2045); (2070, 2093); (2137, 2139); (2184, 2184);
    (2192, 2193); (2200, 2207); (2249, 2306); (2362, 2362); (2364, 2364);
    (2369, 2376); (2381, 2381); (2385, 2391); (2402, 2403); (2417, 2417);
    (2433, 2433); (2492, 2492); (2497, 2500); (2509, 2509); (2530, 2531);
    (2558, 2558); (2561, 2562); (2620, 2620); (2625, 2626); (2631, 2632);
    (2635, 2637); (2641, 2641); (2672, 2673); (2677, 2677); (2689, 2690);
    (2748, 2748); (2753, 2757); (2759, 2760); (2765, 2765); (2786, 2787);
    (2810, 2815); (2817, 2817); (2876, 2876); (2879, 2879); (2881, 2884);
    (2893, 2893); (2901, 2902); (2914, 2915); (2946, 2946); (3008, 3008);
    (3021, 3021); (3072, 3072); (3076, 3076); (3132, 3132); (3134, 3136);
    (3142, 3144); (3146, 3149); (3157, 3158); (3170, 3171); (3201, 3201);
    (3260, 3260); (3263, 3263); (3270, 3270); (3276, 3277); (3298, 3299);
    (3328, 3329); (3387, 3388); (3393, 3396); (3405, 3405); (3426, 3427);
    (3457, 3457); (3530, 3530); (3538, 3540); (3542, 3542); (3633, 3633);
    (3636, 3642); (3654, 3662); (3761, 3761); (3764, 3772); (3782, 3782);
    (3784, 3789); (3864, 3865); (3893, 3893); (3895, 3895); (3897, 3897);
    (3953, 3966); (3968, 3972); (3974, 3975); (3981, 3991); (3993, 4028);
    (4038, 4038); (4141, 4144); (4146, 4151); (4153, 4154); (4157, 4158);
    (4184, 4185); (4190, 4192); (4209, 4212); (4226, 4226); (4229, 4230);
    (4237, 4237); (4253, 4253); (4348, 4348); (4957, 4959); (5906, 5908);
    (5938, 5939); (5970, 5971); (6002, 6003); (6068, 6069); (6071, 6077);
    (6086, 6086); (6089, 6099); (6103, 6103); (6109, 6109); (6155, 6159);
    (6211, 6211); (6277, 6278); (6313, 6313); (6432, 6434); (6439, 6440);
    (6450, 6450); (6457, 6459); (6679, 6680); (6683, 6683); (6742, 6742);
    (6744, 6750); (6752, 6752); (6754, 6754); (6757, 6764); (6771, 6780);
    (6783, 6783); (6823, 6823); (6832, 6862); (6912, 6915); (6964, 6964);
    (6966, 6970); (6972, 6972); (6978, 6978); (7019, 7027); (7040, 7041);
    (7074, 7077); (7080, 7081); (7083, 7085); (7142, 7142); (7144, 7145);
    (7149, 7149); (7151, 7153); (7212, 7219); (7222, 7223); (7288, 7293);
    (7376, 7378); (7380, 7392); (7394, 7400); (7405, 7405); (7412, 7412);
    (7416, 7417); (7468, 7530); (7544, 7544); (7579, 7679); (8125, 8125);
    (8127, 8129); (8141, 8143); (8157, 8159); (8173, 8175); (8189, 8190);
    (8203, 8207); (8216, 8217); (8228, 8228); (8231, 8231); (8234, 8238);
    (8288, 8292); (8294, 8303); (8305, 8305); (8319, 8319); (8336, 8348);
    (8400, 8432); (11388, 11389); (11503, 11505); (11631, 11631);
    (11647, 11647); (11744, 11775); (11823, 11823); (12293, 12293);
    (12330, 12333); (12337, 12341); (12347, 12347); (12441, 12446);
    (12540, 12542); (40981, 40981); (42232, 42237); (42508, 42508);
    (42607, 42610); (42612, 42621); (42623, 42623); (42652, 42655);
    (42736, 42737); (42752, 42785); (42864, 42864); (42888, 42890);
    (42994, 42996); (43000, 43001); (43010, 43010); (43014, 43014);
    (43019, 43019); (43045, 43046); (43052, 43052); (43204, 43205);
    (43232, 43249); (43263, 43263); (43302, 43309); (43335, 43345);
    (43392, 43394); (43443, 43443); (43446, 43449); (43452, 43453);
    (43471, 43471); (43493, 43494); (43561, 43566); (43569, 43570);
    (43573, 43574); (43587, 43587); (43596, 43596); (43632, 43632);
    (43644, 43644); (43696, 43696); (43698, 43700); (43703, 43704);
    (43710, 43711); (43713, 43713); (43741, 43741); (43756, 43757);
    (43763, 43764); (43766, 43766); (43867, 43871); (43881, 43883);
    (44005, 44005); (44008, 44008); (44013, 44013); (64286, 64286);
    (64434, 64450); (65024, 65039); (65043, 65043); (65056, 65071);
    (65106, 65106); (65109, 65109); (65279, 65279); (65287, 65287);
    (65294, 65294); (65306, 65306); (65342, 65342); (65344, 65344);
    (65392, 65392); (65438, 65439); (65507, 65507); (65529, 65531);
    (66045, 66045); (66272, 66272); (66422, 66426); (67456, 67461);
    (67463, 67504); (67506, 67514); (68097, 68099); (68101, 68102);
    (68108, 68111); (68152, 68154); (68159, 68159); (68325, 68326);
    (68900, 68903); (69291, 69292); (69446, 69456); (69506, 69509);
    (69633, 69633); (69688, 69702); (69744, 69744); (69747, 69748);
    (69759, 69761); (69811, 69814); (69817, 69818); (69821, 69821);
    (69826, 69826); (69837, 69837); (69888, 69890); (69927, 69931);
    (69933, 69940); (70003, 70003); (70016, 70017); (70070, 70078);
    (70089, 70092); (70095, 70095); (70191, 70193); (70196, 70196);
    (70198, 70199); (70206, 70206); (70367, 70367); (70371, 70378);
    (70400, 70401); (70459, 70460); (70464, 70464); (70502, 70508);
    (70512, 70516); (70712, 70719); (70722, 70724); (70726, 70726);
    (70750, 70750); (70835, 70840); (70842, 70842); (70847, 70848);
    (70850, 70851); (71090, 71093); (71100, 71101); (71103, 71104);
    (71132, 71133); (71219, 71226); (71229, 71229); (71231, 71232);
    (71339, 71339); (71341, 71341); (71344, 71349); (71351, 71351);
    (71453, 71455); (71458, 71461); (71463, 71467); (71727, 71735);
    (71737, 71738); (71995, 71996); (71998, 71998); (72003, 72003);
    (72148, 72151); (72154, 72155); (72160, 72160); (72193, 72202);
    (72243, 72248); (72251, 72254); (72263, 72263); (72273, 72278);
    (72281, 72283); (72330, 72342); (72344, 72345); (72752, 72758);
    (72760, 72765); (72767, 72767); (72850, 72871); (72874, 72880);
    (72882, 72883); (72885, 72886); (73009, 73014); (73018, 73018);
    (73020, 73021); (73023, 73029); (73031, 73031); (73104, 73105);
    (73109, 73109); (73111, 73111); (73459, 73460); (78896, 78904);
    (92912, 92916); (92976, 92982); (92992, 92995); (94031, 94031);
    (94095, 94111); (94176, 94177); (94179, 94180); (110576, 110579);
    (110581, 110587); (110589, 110590); (113821, 113822); (113824, 113827);
    (118528, 118573); (118576, 118598); (119143, 119145); (119155, 119170);
    (119173, 119179); (119210, 119213); (119362, 119364); (121344, 121398);
    (121403, 121452); (121461, 121461); (121476, 121476); (121499, 121503);
    (121505, 121519); (122880, 122886); (122888, 122904); (122907, 122913);
    (122915, 122916); (122918, 122922); (123184, 123197); (123566, 123566);
    (123628, 123631); (125136, 125142); (125252, 125259); (127995, 127999);
    (917505, 917505); (917536, 917631); (917760, 917999)
  ]%N.

(** The code points that are cased and not case-ignorable, as ranges. *)
Definition CASED : list (N * N) :=
  [
    (65, 90); (97, 122); (170, 170); (181, 181); (186, 186); (192, 214);
    (216, 246); (248, 442); (444, 447); (452, 659); (661, 687); (880, 883);
    (886, 887); (891, 893); (895, 895); (902, 902); (904, 906); (908, 908);
    (910, 929); (931, 1013); (1015, 1153); (1162, 1327); (1329, 1366);
    (1376, 1416); (4256, 4293); (4295, 4295); (4301, 4301); (4304, 4346);
    (4349, 4351); (5024, 5109); (5112, 5117); (7296, 7304); (7312, 7354);
    (7357, 7359); (7424, 7467); (7531, 7543); (7545, 7578); (7680, 7957);
    (7960, 7965); (7968, 8005); (8008, 8013); (8016, 8023); (8025, 8025);
    (8027, 8027); (8029, 8029); (8031, 8061); (8064, 8116); (8118, 8124);
    (8126, 8126); (8130, 8132); (8134, 8140); (8144, 8147); (8150, 8155);
    (8160, 8172); (8178, 8180); (8182, 8188); (8450, 8450); (8455, 8455);
    (8458, 8467); (8469, 8469); (8473, 8477); (8484, 8484); (8486, 8486);
    (8488, 8488); (8490, 8493); (8495, 8500); (8505, 8505); (8508, 8511);
    (8517, 8521); (8526, 8526); (8544, 8575); (8579, 8580); (9398, 9449);
    (11264, 11387); (11390, 11492); (11499, 11502); (11506, 11507);
    (11520, 11557); (11559, 11559); (11565, 11565); (42560, 42605);
    (42624, 42651); (42786, 42863); (42865, 42887); (42891, 42894);
    (42896, 42954); (42960, 42961); (42963, 42963); (42965, 42969);
    (42997, 42998); (43002, 43002); (43824, 43866); (43872, 43880);
    (43888, 43967); (64256, 64262); (64275, 64279); (65313, 65338);
    (65345, 65370); (66560, 66639); (66736, 66771); (66776, 66811);
    (66928, 66938); (66940, 66954); (66956, 66962); (66964, 66965);
    (66967, 66977); (66979, 66993); (66995, 67001); (67003, 67004);
    (68736, 68786); (68800, 68850); (71840, 71903); (93760, 93823);
    (119808, 119892); (119894, 119964); (119966, 119967); (119970, 119970);
    (119973, 119974); (119977, 119980); (119982, 119993); (119995, 119995);
    (119997, 120003); (120005, 120069); (120071, 120074); (120077, 120084);
    (120086, 120092); (120094, 120121); (120123, 120126); (120128, 120132);
    (120134, 120134); (120138, 120144); (120146, 120485); (120488, 120512);
    (120514, 120538); (120540, 120570); (120572, 120596); (120598, 120628);
    (120630, 120654); (120656, 120686); (120688, 120712); (120714, 120744);
    (120746, 120770); (120772, 120779); (122624, 122633); (122635, 122654);
    (125184, 125251); (127280, 127305); (127312, 127337); (127344, 127369)
  ]%N.

Definition inRanges (ranges : list (N * N)) (p : N) : bool :=
  existsb (λ r, (fst r <=? p)%N && (p <=? snd r)%N) ranges.

(** The lowercase of one code point out of context; U+0130 alone has a
    lowercase of two code points. *)
Definition lowerCodePoint (p : N) : list N :=
  if (p =? 304)%N then [105; 775]%N
  else
    match List.find (λ r, let '(first, last, step, _) := r in
             (first <=? p)%N && (p <=? last)%N && ((p - first) mod step =? 0)%N)
            LOWERCASE with
    | Some (_, _, _, offset) => [Z.to_N (Z.of_N p + offset)]
    | None => [p]
    end.

(** The nearest code point that is not case-ignorable is a cased letter. *)
Fixpoint nextIsCased (l : list N) : bool :=
  match l with
  | [] => false
  | p :: l' => if inRanges CASE_IGNORABLE p then nextIsCased l' else inRanges CASED p
  end.

(** The lowercase of a text, [before] being the code points already
    passed, nearest first: U+03A3 becomes U+03C2 at the end of a word (a
    cased letter before it, none after it) and U+03C3 elsewhere. *)
Fixpoint lowerCodePoints (before l : list N) : list N :=
  match l with
  | [] => []
  | p :: l' =>
      (if (p =? 931)%N
       then if nextIsCased before && negb (nextIsCased l') then [962]%N else [963]%N
       else lowerCodePoint p)
      ++ lowerCodePoints (p :: before) l'
  end.

(** [s.toLowerCase()] *)
Definition toLowerCase (s : string) : string :=
  if isAscii s then lowerAscii s
  else fromCodePoints (lowerCodePoints [] (toCodePoints s)).

(** [s.startsWith(p)] *)
Definition startsWith (s p : string) : bool := String.prefix p s.

(** Truthiness of a string: only the empty string is falsy. *)
Definition nonEmpty (s : string) : bool := negb (String.eqb s "").

(** [a || b] on strings. *)
Definition orElse (a b : string) : string := if nonEmpty a then a else b.

(** [s.charAt(0)]; the callers only compare it with ASCII digits. *)
Definition charAt0 (s : string) : string :=
  match s with
  | EmptyString => EmptyString
  | String c _ => String c EmptyString
  end.

(** [s.padStart(width, '0')], for the texts of digits that it is called
    on. *)
Definition padStart0 (width : nat) (s : string) : string :=
  String.concat "" (repeat "0" (width - String.length s)) +:+ s.

(** [name.split(' ')]: only [parts[0]] and [parts.slice(1).join(' ')] are
    used by the callers, that is, the text before and after the first
    space. *)
Fixpoint splitFirstSpace (s : string) : string * string :=
  match s with
  | EmptyString => (EmptyString, EmptyString)
  | String c s' =>
      if Ascii.eqb c " "%char then (EmptyString, s')
      else let '(a, b) := splitFirstSpace s' in (String c a, b)
  end.

(** *** Plain objects used as maps

    An object written [{}] inherits the members of [Object.prototype]:
    reading one of these names finds the inherited member, not what a map
    would hold, and an assignment to [__proto__] stores no entry.  For any
    other key such an object is a finite map, and is a [gmap] below; the
    statements about these maps are made for data whose keys are
    [ownKey]s. *)
Definition OBJECT_PROTOTYPE : list string :=
  [ "constructor"; "__defineGetter__"; "__defineSetter__"; "hasOwnProperty";
    "__lookupGetter__"; "__lookupSetter__"; "isPrototypeOf";
    "propertyIsEnumerable"; "toString"; "valueOf"; "__proto__";
    "toLocaleString" ].

Definition ownKey (k : string) : bool :=
  negb (existsb (String.eqb k) OBJECT_PROTOTYPE).

(** *** Numbers: [parseInt(s, 10)] and [String(n)] on integers

    A number is an IEEE 754 double.  [Int z] is the double of the integer
    value [z]; the integers of magnitude up to 2^53 are all doubles, a
    larger one is a double when it fits 53 significant bits. *)

Inductive Number : Type :=
| Int (z : Z)
| Infinity
| NegInfinity.

Global Instance Number_eq_dec : EqDecision Number.
Proof. solve_decision. Defined.

(** The double nearest to the integer [n >= 0], ties to even. *)
Definition nearestDouble (n : Z) : Z :=
  let e := (Z.log2 n - 52)%Z in
  if (e <=? 0)%Z then n
  else
    let q := Z.shiftr n e in
    let r := Z.land n (Z.ones e) in
    let half := Z.shiftl 1 (e - 1) in
    let q := if (half <? r)%Z || ((r =? half)%Z && Z.odd q) then (q + 1)%Z else q in
    Z.shiftl q e.

(** The number that an integer value becomes; past the largest double it
    is an infinity. *)
Definition toNumber (n : Z) : Number :=
  let m := nearestDouble (Z.abs n) in
  if (2 ^ 1024 <=? m)%Z then (if (n <? 0)%Z then NegInfinity else Infinity)
  else Int (Z.sgn n * m).

(** [a > b] *)
Definition gtb (a b : Number) : bool :=
  match a, b with
  | Int x, Int y => (y <? x)%Z
  | Infinity, Infinity => false
  | Infinity, _ => true
  | _, NegInfinity => negb (bool_decide (a = NegInfinity))
  | _, _ => false
  end.

(** [a + 1] *)
Definition succ (a : Number) : Number :=
  match a with
  | Int z => toNumber (z + 1)
  | _ => a
  end.

Definition digitValue (c : ascii) : option Z :=
  let n := nat_of_ascii c in
  if Nat.leb 48 n && Nat.leb n 57 then Some (Z.of_nat (n - 48)) else None.

(** Reads the longest prefix of decimal digits; [seen] tells whether a
    digit was consumed already and [acc] is the value read so far. *)
Fixpoint parseDigits (s : string) (seen : bool) (acc : Z) : option Z :=
  match s with
  | EmptyString => if seen then Some acc else None
  | String c s' =>
      match digitValue c with
      | Some d => parseDigits s' true (10 * acc + d)%Z
      | None => if seen then Some acc else None
      end
  end.

(** The integer that [parseInt(s, 10)] reads: leading white space is
    skipped, one sign is accepted, then digits are read up to the first
    other character.  [None] when there is no digit. *)
Definition readInteger (s : string) : option Z :=
  match trimStart s with
  | String "-"%char s' => Z.opp <$> parseDigits s' false 0%Z
  | String "+"%char s' => parseDigits s' false 0%Z
  | s' => parseDigits s' false 0%Z
  end.

(** [parseInt(s, 10)]; [None] is NaN. *)
Definition parseInt10 (s : string) : option Number := toNumber <$> readInteger s.

Definition digitCount (n : Z) : nat := String.length (pretty n).

(** [String(x)] for a double [x >= 2^53]: the least number [k] of digits
    [s] such that [s * 10^(n-k)] is a decimal of the double, then zeros up
    to [n] digits, or the exponent form from 21 digits on. *)
Definition shortestDigits (x : Z) : Z * nat * nat :=
  let d := digitCount x in
  if (nearestDouble (10 ^ Z.of_nat d) =? x)%Z then (1%Z, 1, S d)
  else
    let candidate (k : nat) : option Z :=
      let unit := (10 ^ Z.of_nat (d - k))%Z in
      let lo := (x / unit)%Z in
      let ok (s : Z) :=
        (10 ^ Z.of_nat (k - 1) <=? s)%Z && (s <? 10 ^ Z.of_nat k)%Z
        && (nearestDouble (s * unit) =? x)%Z in
      match ok lo, ok (lo + 1)%Z with
      | true, true =>
          if (Z.abs (x - lo * unit) <? Z.abs ((lo + 1) * unit - x))%Z then Some lo
          else if (Z.abs ((lo + 1) * unit - x) <? Z.abs (x - lo * unit))%Z
          then Some (lo + 1)%Z
          else Some (if Z.even lo then lo else lo + 1)%Z
      | true, false => Some lo
      | false, true => Some (lo + 1)%Z
      | false, false => None
      end in
    match omap (λ k, (λ s, (s, k, d)) <$> candidate k) (seq 1 17) with
    | r :: _ => r
    | [] => (x, d, d)
    end.

Definition printDouble (x : Z) : string :=
  let '(s, k, n) := shortestDigits x in
  let digits := pretty s in
  if Nat.leb n 21 then digits +:+ String.concat "" (repeat "0" (n - k))
  else
    match digits with
    | String c rest =>
        String c (if Nat.eqb k 1 then "" else String "."%char rest)
        +:+ "e+" +:+ pretty (n - 1)
    | EmptyString => digits
    end.

(** [String(n)] *)
Definition numberToString (a : Number) : string :=
  match a with
  | Int z =>
      let x := Z.abs z in
      (if (z <? 0)%Z then "-" else "")
      +:+ (if (x <? 2 ^ 53)%Z then pretty x else printDouble x)
  | Infinity => "Infinity"
  | NegInfinity => "-Infinity"
  end.

(** *** Cell values

    What [getValues()] puts in a cell: a string (the empty string for an
    empty cell), a number (an integer here, [CNum n] being the double
    nearest to [n]), a boolean, or a Date, which carries its
    [toISOString()] and its [String()] renderings.  A cell read through a
    column that the header row does not have is [undefined], here
    [None]. *)

Inductive Cell : Type :=
| CStr (s : string)
| CNum (n : Z)
| CBool (b : bool)
| CDate (iso text : string).

Global Instance Cell_eq_dec : EqDecision Cell.
Proof. solve_decision. Defined.

Definition Value : Type := option Cell.

Definition truthy (v : Value) : bool :=
  match v with
  | None => false
  | Some (CStr s) => nonEmpty s
  | Some (CNum n) => negb (Z.eqb n 0)
  | Some (CBool b) => b
  | Some (CDate _ _) => true
  end.

(** [String(v)] *)
Definition toStr (v : Value) : string :=
  match v with
  | None => "undefined"
  | Some (CStr s) => s
  | Some (CNum n) => numberToString (toNumber n)
  | Some (CBool true) => "true"
  | Some (CBool false) => "false"
  | Some (CDate _ text) => text
  end.

(** [String(v || '')] *)
Definition strOr (v : Value) : string :=
  if truthy v then toStr v else "".

(** [v instanceof Date ? v.toISOString() : String(v || '')] *)
Definition isoOr (v : Value) : string :=
  match v with
  | Some (CDate iso _) => iso
  | _ => strOr v
  end.

(** [v === false || v === 'FALSE' || v === 'false'] *)
Definition isFalseFlag (v : Value) : bool :=
  bool_decide (v = Some (CBool false)) ||
  bool_decide (v = Some (CStr "FALSE")) ||
  bool_decide (v = Some (CStr "false")).

(** [v === true || v === 'TRUE' || v === 'Yes'] *)
Definition isTrueFlag (v : Value) : bool :=
  bool_decide (v = Some (CBool true)) ||
  bool_decide (v = Some (CStr "TRUE")) ||
  bool_decide (v = Some (CStr "Yes")).

End Js.

Import Js.

(* ===================================================================== *)
(** ** Data model *)
(* ===================================================================== *)

(** The Team List as [sheet.getDataRange().getValues()] returns it: the
    header row [data[0]] and the rows below it ([getValues] never returns
    an empty array, and its rows all have the width of the range). *)
Record Sheet : Type := {
  headers : list Cell;
  body : list (list Cell)
}.

(** One record produced by [_readTeamListRaw]. *)
Module Person.
Record t : Type := {
  employeeCode : string;
  upid : string;
  cpc : string;
  hid : string;
  supervisorEmail : string;
  supervisorUpid : string;
  company : string;
  contract : string;
  task : string;
  primaryWorkstream : string;
  secondaryWorkstream : string;
  firstName : string;
  lastName : string;
  name : string;
  email : string;
  primaryRole : string;
  secondaryRole : string;
  primaryRoleStartDate : string;
  profilePicture : string;
  eod : string;
  personnelContractStatus : string;
  departureDate : string;
  departureMeetingDate : string;
  contractLcat : string;
  location : string;
  tenure : Cell;
  nodeType : string;
  portfolioLeadership : bool;
  activeInOrg : bool;
  _rowIndex : nat
}.
End Person.

(** One Team Mappings row as [TeamsCrudService.getAllTeams()] returns it. *)
Module Team.
Record t : Type := {
  contract : string;
  task : string;
  taskName : string;
  teamId : string;
  teamName : string;
  isActive : bool;
  color : string;
  description : string;
  defaultSlaThreshold : string;
  notifyOnEscalation : bool;
  displayOrder : Z;
  rowIndex : nat
}.
End Team.

(** Task-level metadata, [TeamsCrudService.getTaskMetadata()]. *)
Module TaskMeta.
Record t : Type := {
  taskId : string;
  taskName : string;
  contract : string;
  color : string;
  description : string;
  defaultSlaThreshold : string;
  notifyOnEscalation : bool;
  displayOrder : Z
}.
End TaskMeta.

(** One active Vacant Positions row,
    [TeamsCrudService.getAllVacantPositions()]. *)
Module Vacant.
Record t : Type := {
  vacantId : string;
  contract : string;
  task : string;
  team : string;
  title : string;
  supervisorUpid : string;
  targetHireDate : string;
  requirements : string;
  rowIndex : nat
}.
End Vacant.

(** The unified node of [getAllData].  [parentId], [task] and [team] are
    [null] where the source writes [null]; a field that the source puts on
    some nodes only is [None] on the others, and the two flags
    [_isStructural] and [_isVacantPosition], only ever tested for truth,
    are [false] where they are absent. *)
Module Node.
Record t : Type := {
  id : string;
  parentId : option string;
  company : string;
  contract : string;
  task : option string;
  team : option string;
  name : string;
  email : string;
  title : string;
  type : string;
  active : bool;
  notifyOnEscalation : option bool;
  defaultSlaThreshold : option string;
  color : option string;
  description : option string;
  displayOrder : option Z;
  _isStructural : bool;
  employeeCode : option string;
  firstName : option string;
  lastName : option string;
  upid : option string;
  cpc : option string;
  hid : option string;
  supervisorUpid : option string;
  supervisorEmail : option string;
  primaryWorkstream : option string;
  secondaryWorkstream : option string;
  primaryRole : option string;
  secondaryRoles : option string;
  profilePicture : option string;
  eod : option string;
  personnelContractStatus : option string;
  primaryRoleStartDate : option string;
  departureDate : option string;
  departureMeetingDate : option string;
  contractLcat : option string;
  location : option string;
  tenure : option Cell;
  portfolioLeadership : option bool;
  targetHireDate : option string;
  requirements : option string;
  _isVacantPosition : bool
}.
End Node.

Definition ID_PREFIX_TASK : string := "task:".
Definition ID_PREFIX_TEAM : string := "team:".
Definition ID_ROOT : string := "root".

(** [CONFIG.ORG.CPC_LEVEL_MAP] of config.js, which is also the literal the
    reader falls back to. *)
Definition CPC_LEVEL_MAP : gmap string string :=
  list_to_map [("1", "director"); ("2", "deputy"); ("3", "lead"); ("4", "person")].

(** Column order of the Team List, [TEAM_LIST_HEADERS]. *)
Definition TEAM_LIST_HEADERS : list string :=
  [ "Employee Code"; "Company"; "Contract"; "Task"; "Primary Workstream";
    "Secondary Workstream"; "First Name"; "Last Name"; "Email";
    "Primary Role"; "Secondary Role"; "Primary Role Start Date";
    "Contract Personnel Code (CPC)"; "Heirarchy Identifier (HID)";
    "Unique Personnel ID (UPID)"; "Supervisor Email"; "Supervisor UPID";
    "Portfolio Leadership?"; "Profile Picture"; "EOD";
    "Personnel Contract Status"; "Departure Date"; "Departure Meeting Date";
    "Contract LCAT"; "Location (City, ST)"; "Tenure (Days)"; "Node Type";
    "Active In Org" ].

(* ===================================================================== *)
(** ** Personnel reader: the loop of [_readTeamListRaw] *)
(* ===================================================================== *)

(** [headers.forEach((header, index) => colMap[String(header).trim()] = index)],
    a later column of the same name overwriting an earlier one. *)
Fixpoint buildColMap (hs : list Cell) (index : nat) (colMap : gmap string nat)
  : gmap string nat :=
  match hs with
  | [] => colMap
  | header :: hs' =>
      buildColMap hs' (S index) (<[trim (toStr (Some header)) := index]> colMap)
  end.

Definition colMapOf (hs : list Cell) : gmap string nat := buildColMap hs 0 ∅.

(** [row[colMap[header]]] *)
Definition cell (colMap : gmap string nat) (row : list Cell) (header : string)
  : Value :=
  match colMap !! header with
  | Some i => row !! i
  | None => None
  end.

(** [row[...] || ''] kept as a value. *)
Definition cellOrEmpty (v : Value) : Cell :=
  match v with
  | Some c => if truthy v then c else CStr ""
  | None => CStr ""
  end.

(** Node type of a row: the explicit Node Type cell, else the CPC level map
    with the Portfolio Leadership promotion, then the departure rule. *)
Definition deriveNodeType (colMap : gmap string nat) (row : list Cell) : string :=
  let get := cell colMap row in
  let personnelStatus := trim (strOr (get "Personnel Contract Status")) in
  let activeInOrg := get "Active In Org" in
  let nodeType := toLowerCase (trim (strOr (get "Node Type"))) in
  let nodeType :=
    if nonEmpty nodeType then nodeType
    else
      let cpc := strOr (get "Contract Personnel Code (CPC)") in
      let nodeType :=
        if nonEmpty cpc then
          match CPC_LEVEL_MAP !! charAt0 cpc with
          | Some ty => orElse ty "person"
          | None => "person"
          end
        else "person" in
      if isTrueFlag (get "Portfolio Leadership?") then
        if String.eqb nodeType "person" then "director" else nodeType
      else nodeType in
  if String.eqb personnelStatus "Departed" && negb (isFalseFlag activeInOrg)
  then "vacant" else nodeType.

(** One iteration of the loop over [data[i]], [i >= 1]: [None] when the row
    is skipped by a [continue]. *)
Definition readRow (colMap : gmap string nat) (i : nat) (row : list Cell)
  : option Person.t :=
  let get := cell colMap row in
  let upid := get "Unique Personnel ID (UPID)" in
  let email := get "Email" in
  if negb (truthy upid) && negb (truthy email) then None
  else
    let personnelStatus := trim (strOr (get "Personnel Contract Status")) in
    let activeInOrg := get "Active In Org" in
    if String.eqb personnelStatus "Departed" && isFalseFlag activeInOrg then None
    else
      let firstName := trim (strOr (get "First Name")) in
      let lastName := trim (strOr (get "Last Name")) in
      let fullName :=
        String.concat " " (filter (λ s, nonEmpty s = true) [firstName; lastName]) in
      Some {|
        Person.employeeCode := strOr (get "Employee Code");
        Person.upid := strOr upid;
        Person.cpc := strOr (get "Contract Personnel Code (CPC)");
        Person.hid := strOr (get "Heirarchy Identifier (HID)");
        Person.supervisorEmail := trim (strOr (get "Supervisor Email"));
        Person.supervisorUpid := trim (strOr (get "Supervisor UPID"));
        Person.company := strOr (get "Company");
        Person.contract := strOr (get "Contract");
        Person.task := strOr (get "Task");
        Person.primaryWorkstream := strOr (get "Primary Workstream");
        Person.secondaryWorkstream := strOr (get "Secondary Workstream");
        Person.firstName := firstName;
        Person.lastName := lastName;
        Person.name := fullName;
        Person.email := trim (strOr email);
        Person.primaryRole := strOr (get "Primary Role");
        Person.secondaryRole := strOr (get "Secondary Role");
        Person.primaryRoleStartDate := isoOr (get "Primary Role Start Date");
        Person.profilePicture := strOr (get "Profile Picture");
        Person.eod := isoOr (get "EOD");
        Person.personnelContractStatus := personnelStatus;
        Person.departureDate := isoOr (get "Departure Date");
        Person.departureMeetingDate := isoOr (get "Departure Meeting Date");
        Person.contractLcat := strOr (get "Contract LCAT");
        Person.location := strOr (get "Location (City, ST)");
        Person.tenure := cellOrEmpty (get "Tenure (Days)");
        Person.nodeType := deriveNodeType colMap row;
        Person.portfolioLeadership := isTrueFlag (get "Portfolio Leadership?");
        Person.activeInOrg := negb (isFalseFlag activeInOrg);
        Person._rowIndex := i + 1
      |}.

(** The loop [for (let i = 1; i < data.length; i++)], pushing the records
    of the rows that are not skipped, in row order. *)
Fixpoint readRowsFrom (colMap : gmap string nat) (i : nat) (rows : list (list Cell))
  : list Person.t :=
  match rows with
  | [] => []
  | row :: rows' =>
      match readRow colMap i row with
      | Some record => record :: readRowsFrom colMap (S i) rows'
      | None => readRowsFrom colMap (S i) rows'
      end
  end.

(** The body of [_readTeamListRaw] past the cache check, on the values of
    the sheet ([data.length < 2] gives no record, as the loop does). *)
Definition readRows (sheet : Sheet) : list Person.t :=
  readRowsFrom (colMapOf (headers sheet)) 1 (body sheet).

(* ===================================================================== *)
(** ** Structural node deriver *)
(* ===================================================================== *)

(** [x || null] on a string. *)
Definition orNull (s : string) : option string :=
  if nonEmpty s then Some s else None.

(** [set.add(x)] on a [Set] kept in insertion order. *)
Definition setAdd (x : string) (s : list string) : list string :=
  if bool_decide (x ∈ s) then s else s ++ [x].

(** [TeamsCrudService.getTaskMetadata()]: the first row of a task creates
    its entry, later rows only fill fields that are still empty.  The
    object [taskMeta] is a map on tasks that are [ownKey]s. *)
Definition getTaskMetadata (teams : list Team.t) : gmap string TaskMeta.t :=
  fold_left (λ (taskMeta : gmap string TaskMeta.t) (team : Team.t),
    if negb (nonEmpty (Team.task team)) then taskMeta
    else match taskMeta !! Team.task team with
      | None =>
          <[Team.task team := {|
            TaskMeta.taskId := Team.task team;
            TaskMeta.taskName := orElse (Team.taskName team) (Team.task team);
            TaskMeta.contract := Team.contract team;
            TaskMeta.color := Team.color team;
            TaskMeta.description := Team.description team;
            TaskMeta.defaultSlaThreshold := Team.defaultSlaThreshold team;
            TaskMeta.notifyOnEscalation := Team.notifyOnEscalation team;
            TaskMeta.displayOrder := Team.displayOrder team |}]> taskMeta
      | Some meta =>
          <[Team.task team := {|
            TaskMeta.taskId := TaskMeta.taskId meta;
            TaskMeta.taskName := orElse (TaskMeta.taskName meta) (Team.taskName team);
            TaskMeta.contract := TaskMeta.contract meta;
            TaskMeta.color := orElse (TaskMeta.color meta) (Team.color team);
            TaskMeta.description :=
              orElse (TaskMeta.description meta) (Team.description team);
            TaskMeta.defaultSlaThreshold :=
              orElse (TaskMeta.defaultSlaThreshold meta) (Team.defaultSlaThreshold team);
            TaskMeta.notifyOnEscalation :=
              TaskMeta.notifyOnEscalation meta || Team.notifyOnEscalation team;
            TaskMeta.displayOrder := TaskMeta.displayOrder meta |}]> taskMeta
      end) teams ∅.

(** The task-id universe: tasks of active mappings, then tasks seen on
    personnel, each once, in first-seen order. *)
Definition taskIdsOf (teams : list Team.t) (personnel : list Person.t) : list string :=
  let fromTeams :=
    fold_left (λ ids t,
      if nonEmpty (Team.task t) && Team.isActive t then setAdd (Team.task t) ids else ids)
      teams [] in
  fold_left (λ ids p,
    if nonEmpty (Person.task p) then setAdd (Person.task p) ids else ids)
    personnel fromTeams.

(** [teamToTask], filled from the active mappings that have a team id. *)
Definition teamToTaskOf (teams : list Team.t) : gmap string string :=
  fold_left (λ (m : gmap string string) t,
    if nonEmpty (Team.teamId t) && Team.isActive t
    then <[Team.teamId t := Team.task t]> m else m) teams ∅.

(** [contractDirectors]: the last director of a contract wins.  The object
    is a map on contracts that are [ownKey]s. *)
Definition contractDirectorsOf (personnel : list Person.t) : gmap string string :=
  fold_left (λ (m : gmap string string) p,
    if String.eqb (Person.nodeType p) "director"
       && nonEmpty (Person.contract p) && nonEmpty (Person.upid p)
    then <[Person.contract p := Person.upid p]> m else m) personnel ∅.

(** The task node that the loop over [taskIds] pushes, for a task id and a
    contract that are [ownKey]s of [taskMeta] and [contractDirectors]. *)
Definition taskNodeOf (taskMeta : gmap string TaskMeta.t)
    (contractDirectors : gmap string string) (taskId : string) : Node.t :=
  let meta := taskMeta !! taskId in
  let contract := from_option TaskMeta.contract "" meta in
  let directorUpid :=
    match contractDirectors !! contract with
    | Some u => orNull u
    | None => None
    end in
  {| Node.id := ID_PREFIX_TASK +:+ taskId;
     Node.parentId := Some (from_option id ID_ROOT directorUpid);
     Node.company := "";
     Node.contract := contract;
     Node.task := Some taskId;
     Node.team := None;
     Node.name := orElse (from_option TaskMeta.taskName "" meta) taskId;
     Node.email := "";
     Node.title := from_option TaskMeta.description "" meta;
     Node.type := "task";
     Node.active := true;
     Node.notifyOnEscalation := Some (from_option TaskMeta.notifyOnEscalation false meta);
     Node.defaultSlaThreshold := Some (from_option TaskMeta.defaultSlaThreshold "" meta);
     Node.color := Some (from_option TaskMeta.color "" meta);
     Node.description := Some (from_option TaskMeta.description "" meta);
     Node.displayOrder := Some (from_option TaskMeta.displayOrder 0%Z meta);
     Node._isStructural := true;
     Node.employeeCode := None;
     Node.firstName := None;
     Node.lastName := None;
     Node.upid := None;
     Node.cpc := None;
     Node.hid := None;
     Node.supervisorUpid := None;
     Node.supervisorEmail := None;
     Node.primaryWorkstream := None;
     Node.secondaryWorkstream := None;
     Node.primaryRole := None;
     Node.secondaryRoles := None;
     Node.profilePicture := None;
     Node.eod := None;
     Node.personnelContractStatus := None;
     Node.primaryRoleStartDate := None;
     Node.departureDate := None;
     Node.departureMeetingDate := None;
     Node.contractLcat := None;
     Node.location := None;
     Node.tenure := None;
     Node.portfolioLeadership := None;
     Node.targetHireDate := None;
     Node.requirements := None;
     Node._isVacantPosition := false |}.

Definition teamNodeOf (t : Team.t) : Node.t :=
  {| Node.id := ID_PREFIX_TEAM +:+ Team.teamId t;
     Node.parentId := Some (ID_PREFIX_TASK +:+ Team.task t);
     Node.company := "";
     Node.contract := Team.contract t;
     Node.task := Some (Team.task t);
     Node.team := Some (Team.teamId t);
     Node.name := orElse (Team.teamName t) (Team.teamId t);
     Node.email := "";
     Node.title := "";
     Node.type := "team";
     Node.active := true;
     Node.notifyOnEscalation := None;
     Node.defaultSlaThreshold := None;
     Node.color := Some (Team.color t);
     Node.description := Some (Team.description t);
     Node.displayOrder := None;
     Node._isStructural := true;
     Node.employeeCode := None;
     Node.firstName := None;
     Node.lastName := None;
     Node.upid := None;
     Node.cpc := None;
     Node.hid := None;
     Node.supervisorUpid := None;
     Node.supervisorEmail := None;
     Node.primaryWorkstream := None;
     Node.secondaryWorkstream := None;
     Node.primaryRole := None;
     Node.secondaryRoles := None;
     Node.profilePicture := None;
     Node.eod := None;
     Node.personnelContractStatus := None;
     Node.primaryRoleStartDate := None;
     Node.departureDate := None;
     Node.departureMeetingDate := None;
     Node.contractLcat := None;
     Node.location := None;
     Node.tenure := None;
     Node.portfolioLeadership := None;
     Node.targetHireDate := None;
     Node.requirements := None;
     Node._isVacantPosition := false |}.

Definition rootNode : Node.t :=
  {| Node.id := ID_ROOT;
     Node.parentId := None;
     Node.company := "";
     Node.contract := "";
     Node.task := None;
     Node.team := None;
     Node.name := "";
     Node.email := "";
     Node.title := "";
     Node.type := "hidden";
     Node.active := true;
     Node.notifyOnEscalation := None;
     Node.defaultSlaThreshold := None;
     Node.color := None;
     Node.description := None;
     Node.displayOrder := None;
     Node._isStructural := true;
     Node.employeeCode := None;
     Node.firstName := None;
     Node.lastName := None;
     Node.upid := None;
     Node.cpc := None;
     Node.hid := None;
     Node.supervisorUpid := None;
     Node.supervisorEmail := None;
     Node.primaryWorkstream := None;
     Node.secondaryWorkstream := None;
     Node.primaryRole := None;
     Node.secondaryRoles := None;
     Node.profilePicture := None;
     Node.eod := None;
     Node.personnelContractStatus := None;
     Node.primaryRoleStartDate := None;
     Node.departureDate := None;
     Node.departureMeetingDate := None;
     Node.contractLcat := None;
     Node.location := None;
     Node.tenure := None;
     Node.portfolioLeadership := None;
     Node.targetHireDate := None;
     Node.requirements := None;
     Node._isVacantPosition := false |}.

Record Structural : Type := {
  taskNodes : list Node.t;
  teamNodes : list Node.t;
  taskMeta : gmap string TaskMeta.t;
  teamToTask : gmap string string
}.

(** [_deriveStructuralNodes(personnel)], with the result of
    [TeamsCrudService.getAllTeams()] as [teams]; the root node is the
    constant [rootNode]. *)
Definition _deriveStructuralNodes (teams : list Team.t) (personnel : list Person.t)
  : Structural :=
  let taskMeta := getTaskMetadata teams in
  let contractDirectors := contractDirectorsOf personnel in
  {| taskNodes := map (taskNodeOf taskMeta contractDirectors) (taskIdsOf teams personnel);
     teamNodes :=
       map teamNodeOf
         (filter (λ t, nonEmpty (Team.teamId t) && Team.isActive t = true) teams);
     taskMeta := taskMeta;
     teamToTask := teamToTaskOf teams |}.

(* ===================================================================== *)
(** ** Parent resolver *)
(* ===================================================================== *)

(** [_resolveParentId(person, upidMap, teamToTask, teamNodeIds, taskNodeIds)];
    [teams] is what [TeamsCrudService.getAllTeams()] returns inside it. *)
Definition _resolveParentId (teams : list Team.t) (person : Person.t)
    (upidMap : gmap string Person.t) (teamToTask : gmap string string)
    (teamNodeIds taskNodeIds : gset string) : string :=
  let viaSupervisor :=
    (* 3. direct supervisor link, 4. root *)
    if nonEmpty (Person.supervisorUpid person)
       && bool_decide (is_Some (upidMap !! Person.supervisorUpid person))
    then Person.supervisorUpid person
    else ID_ROOT in
  (* 1. directors and deputies report to root *)
  if String.eqb (Person.nodeType person) "director"
     || String.eqb (Person.nodeType person) "deputy"
  then ID_ROOT
  else if nonEmpty (Person.task person) then
    (* 2a. the team node of the matching workstream *)
    let matchedTeam :=
      if nonEmpty (Person.primaryWorkstream person) then
        List.find (λ t,
          String.eqb (Team.teamName t) (Person.primaryWorkstream person)
          && String.eqb (Team.task t) (Person.task person)
          && Team.isActive t) teams
      else None in
    let teamNodeId :=
      match matchedTeam with
      | Some t =>
          if nonEmpty (Team.teamId t)
             && bool_decide (ID_PREFIX_TEAM +:+ Team.teamId t ∈ teamNodeIds)
          then Some (ID_PREFIX_TEAM +:+ Team.teamId t) else None
      | None => None
      end in
    match teamNodeId with
    | Some tid => tid
    | None =>
        (* 2b. a supervisor on the same task *)
        let sameTaskSupervisor :=
          if nonEmpty (Person.supervisorUpid person) then
            match upidMap !! Person.supervisorUpid person with
            | Some supervisor => String.eqb (Person.task supervisor) (Person.task person)
            | None => false
            end
          else false in
        if sameTaskSupervisor then Person.supervisorUpid person
        (* 2c. the task node *)
        else if bool_decide (ID_PREFIX_TASK +:+ Person.task person ∈ taskNodeIds)
        then ID_PREFIX_TASK +:+ Person.task person
        else viaSupervisor
    end
  else viaSupervisor.

(* ===================================================================== *)
(** ** Tree assembler: the [try] block of [getAllData] *)
(* ===================================================================== *)

(** [upidMap], a later record of the same UPID replacing an earlier one. *)
Definition upidMapOf (personnel : list Person.t) : gmap string Person.t :=
  fold_left (λ (m : gmap string Person.t) p,
    if nonEmpty (Person.upid p) then <[Person.upid p := p]> m else m) personnel ∅.

(** [p.upid || p.email || p.employeeCode] *)
Definition personId (p : Person.t) : string :=
  orElse (Person.upid p) (orElse (Person.email p) (Person.employeeCode p)).

Definition personRecord (p : Person.t) (parentId : string) : Node.t :=
  let isVacant := String.eqb (Person.nodeType p) "vacant" in
  {| Node.id := personId p;
     Node.parentId := Some parentId;
     Node.company := Person.company p;
     Node.contract := Person.contract p;
     Node.task := orNull (Person.task p);
     Node.team := orNull (Person.primaryWorkstream p);
     Node.name := if isVacant then "VACANT - " +:+ orElse (Person.name p) "Position"
       else Person.name p;
     Node.email := Person.email p;
     Node.title := Person.primaryRole p;
     Node.type := Person.nodeType p;
     Node.active := true;
     Node.notifyOnEscalation := None;
     Node.defaultSlaThreshold := None;
     Node.color := None;
     Node.description := None;
     Node.displayOrder := None;
     Node._isStructural := false;
     Node.employeeCode := Some (Person.employeeCode p);
     Node.firstName := Some (Person.firstName p);
     Node.lastName := Some (Person.lastName p);
     Node.upid := Some (Person.upid p);
     Node.cpc := Some (Person.cpc p);
     Node.hid := Some (Person.hid p);
     Node.supervisorUpid := Some (Person.supervisorUpid p);
     Node.supervisorEmail := Some (Person.supervisorEmail p);
     Node.primaryWorkstream := Some (Person.primaryWorkstream p);
     Node.secondaryWorkstream := Some (Person.secondaryWorkstream p);
     Node.primaryRole := orNull (Person.primaryRole p);
     Node.secondaryRoles := orNull (Person.secondaryRole p);
     Node.profilePicture := orNull (Person.profilePicture p);
     Node.eod := orNull (Person.eod p);
     Node.personnelContractStatus := orNull (Person.personnelContractStatus p);
     Node.primaryRoleStartDate := orNull (Person.primaryRoleStartDate p);
     Node.departureDate := orNull (Person.departureDate p);
     Node.departureMeetingDate := orNull (Person.departureMeetingDate p);
     Node.contractLcat := orNull (Person.contractLcat p);
     Node.location := orNull (Person.location p);
     Node.tenure := if truthy (Some (Person.tenure p)) then Some (Person.tenure p) else None;
     Node.portfolioLeadership := if Person.portfolioLeadership p then Some true else None;
     Node.targetHireDate := if isVacant then Some "" else None;
     Node.requirements := if isVacant then Some "" else None;
     Node._isVacantPosition := false |}.

(** Parent of a never-filled vacancy: the supervisor when it is a known
    UPID, else the team, else the task, else root. *)
Definition vacantParentId (upidMap : gmap string Person.t) (v : Vacant.t) : string :=
  let vParentId := orNull (Vacant.supervisorUpid v) in
  match vParentId with
  | Some s =>
      if bool_decide (is_Some (upidMap !! s)) then s
      else if nonEmpty (Vacant.team v) then ID_PREFIX_TEAM +:+ Vacant.team v
      else if nonEmpty (Vacant.task v) then ID_PREFIX_TASK +:+ Vacant.task v
      else ID_ROOT
  | None =>
      if nonEmpty (Vacant.team v) then ID_PREFIX_TEAM +:+ Vacant.team v
      else if nonEmpty (Vacant.task v) then ID_PREFIX_TASK +:+ Vacant.task v
      else ID_ROOT
  end.

Definition vacantRecord (upidMap : gmap string Person.t) (v : Vacant.t) : Node.t :=
  {| Node.id := Vacant.vacantId v;
     Node.parentId := Some (vacantParentId upidMap v);
     Node.company := "";
     Node.contract := Vacant.contract v;
     Node.task := orNull (Vacant.task v);
     Node.team := orNull (Vacant.team v);
     Node.name := "VACANT";
     Node.email := "";
     Node.title := orElse (Vacant.title v) "Vacant Position";
     Node.type := "vacant";
     Node.active := true;
     Node.notifyOnEscalation := None;
     Node.defaultSlaThreshold := None;
     Node.color := None;
     Node.description := None;
     Node.displayOrder := None;
     Node._isStructural := false;
     Node.employeeCode := None;
     Node.firstName := None;
     Node.lastName := None;
     Node.upid := None;
     Node.cpc := None;
     Node.hid := None;
     Node.supervisorUpid := None;
     Node.supervisorEmail := None;
     Node.primaryWorkstream := None;
     Node.secondaryWorkstream := None;
     Node.primaryRole := None;
     Node.secondaryRoles := None;
     Node.profilePicture := None;
     Node.eod := None;
     Node.personnelContractStatus := None;
     Node.primaryRoleStartDate := None;
     Node.departureDate := None;
     Node.departureMeetingDate := None;
     Node.contractLcat := None;
     Node.location := None;
     Node.tenure := None;
     Node.portfolioLeadership := None;
     Node.targetHireDate := Some (Vacant.targetHireDate v);
     Node.requirements := Some (Vacant.requirements v);
     Node._isVacantPosition := true |}.

(** Parent of one personnel record as step 4 of [getAllData] computes it. *)
Definition resolvedParent (teams : list Team.t) (personnel : list Person.t)
    (p : Person.t) : string :=
  let s := _deriveStructuralNodes teams personnel in
  _resolveParentId teams p (upidMapOf personnel) (teamToTask s)
    (list_to_set (map Node.id (teamNodes s)))
    (list_to_set (map Node.id (taskNodes s))).

Definition personRecords (teams : list Team.t) (personnel : list Person.t)
  : list Node.t :=
  map (λ p, personRecord p (resolvedParent teams personnel p)) personnel.

Definition vacantRecords (personnel : list Person.t) (vacants : list Vacant.t)
  : list Node.t :=
  map (vacantRecord (upidMapOf personnel)) vacants.

(** Steps 2 to 6 of [getAllData]:
    [[rootNode, ...taskNodes, ...teamNodes, ...personRecords, ...vacantRecords]]. *)
Definition assemble (teams : list Team.t) (vacants : list Vacant.t)
    (personnel : list Person.t) : list Node.t :=
  let s := _deriveStructuralNodes teams personnel in
  rootNode :: taskNodes s ++ teamNodes s
    ++ personRecords teams personnel ++ vacantRecords personnel vacants.

(* ===================================================================== *)
(** ** Results and sheets written in place *)
(* ===================================================================== *)

(** What the write functions return: [{success, id, error}]. *)
Record Result : Type := {
  success : bool;
  id : option string;
  error : option string
}.

Definition succeeded (i : string) : Result :=
  {| success := true; id := Some i; error := None |}.

Definition failed (message : string) : Result :=
  {| success := false; id := None; error := Some message |}.

(** [sheet.appendRow(newRow)]; the row is as wide as the sheet at least. *)
Definition appendRow (newRow : list Cell) (sheet : Sheet) : Sheet :=
  {| headers := headers sheet;
     body := body sheet
       ++ [newRow ++ repeat (CStr "") (List.length (headers sheet) - List.length newRow)] |}.

(** [sheet.getRange(rowIndex, col).setValue(value)], both indices counted
    from 1 and row 1 being the header row. *)
Definition setValue (rowIndex col : nat) (value : Cell) (sheet : Sheet) : Sheet :=
  match rowIndex with
  | 0 => sheet
  | 1 => {| headers := <[col - 1 := value]> (headers sheet); body := body sheet |}
  | S (S r) =>
      {| headers := headers sheet;
         body := alter (λ row, <[col - 1 := value]> row) r (body sheet) |}
  end.

(* ===================================================================== *)
(** ** TeamsCrudService: what this service calls and what serves it *)
(* ===================================================================== *)

Module TeamsCrudService.

(** [getTeamById(teamId)] on what [getAllTeams()] returns. *)
Definition getTeamById (teamId : string) (teams : list Team.t) : option Team.t :=
  List.find (λ t, String.eqb (Team.teamId t) teamId) teams.

(** [getTeamsByTask(task)] *)
Definition getTeamsByTask (task : string) (teams : list Team.t) : list Team.t :=
  List.filter (λ t, String.eqb (Team.task t) task && Team.isActive t) teams.

(** [getTaskColors()]: the default colour, then the colour of every task
    whose metadata has one. *)
Definition getTaskColors (teams : list Team.t) : gmap string string :=
  let taskMeta := getTaskMetadata teams in
  fold_left (λ (colors : gmap string string) (entry : string * TaskMeta.t),
    if nonEmpty (TaskMeta.color (snd entry))
    then <[fst entry := TaskMeta.color (snd entry)]> colors
    else colors)
    (map_to_list taskMeta) {["default" := "#95a5a6"]}.

(** [getTaskFriendlyNames()] *)
Definition getTaskFriendlyNames (teams : list Team.t) : gmap string string :=
  let taskMeta := getTaskMetadata teams in
  fold_left (λ (names : gmap string string) (entry : string * TaskMeta.t),
    <[fst entry := orElse (TaskMeta.taskName (snd entry)) (fst entry)]> names)
    (map_to_list taskMeta) ∅.

(** [\d] *)
Definition isDigit (c : ascii) : bool :=
  match digitValue c with
  | Some _ => true
  | None => false
  end.

(** The longest prefix of digits, what [\d*] consumes. *)
Fixpoint digitsPrefix (s : string) : string :=
  match s with
  | EmptyString => EmptyString
  | String c s' => if isDigit c then String c (digitsPrefix s') else EmptyString
  end.

(** [s.slice(n)] *)
Fixpoint slice (n : nat) (s : string) : string :=
  match n, s with
  | 0, _ => s
  | S n', String _ s' => slice n' s'
  | S _, EmptyString => EmptyString
  end.

(** [s.match(/TEAM-(\d+)/)]: the capture group of the leftmost match, the
    digits that follow the first occurrence of TEAM- that a digit follows;
    [None] when there is no match. *)
Fixpoint matchTeamNumber (s : string) : option string :=
  match s with
  | EmptyString => None
  | String _ s' =>
      let digits := if startsWith s "TEAM-" then digitsPrefix (slice 5 s) else "" in
      if nonEmpty digits then Some digits else matchTeamNumber s'
  end.

(** The loop of [_generateTeamId]: [maxNum] after visiting the teams. *)
Definition maxTeamNumber (teams : list Team.t) : Number :=
  fold_left (λ (maxNum : Number) team,
    match matchTeamNumber (Team.teamId team) with
    | Some digits =>
        match parseInt10 digits with
        | Some num => if gtb num maxNum then num else maxNum
        | None => maxNum
        end
    | None => maxNum
    end) teams (Int 0).

(** [_generateTeamId()] *)
Definition _generateTeamId (teams : list Team.t) : string :=
  "TEAM-" +:+ padStart0 3 (numberToString (succ (maxTeamNumber teams))).

(** *** Vacant positions *)

(** Column order of the Vacant Positions sheet, [VACANT_HEADERS]. *)
Definition VACANT_HEADERS : list string :=
  [ "Vacant ID"; "Contract"; "Task ID"; "Team ID"; "Title"; "Supervisor UPID";
    "Target Hire Date"; "Requirements"; "Is Active" ].

(** [headers.forEach((h, i) => colIdx[h] = i)]: the header is the key as
    it is, a later column of the same name overwriting an earlier one. *)
Fixpoint buildColIdx (hs : list Cell) (i : nat) (colIdx : gmap string nat)
  : gmap string nat :=
  match hs with
  | [] => colIdx
  | h :: hs' => buildColIdx hs' (S i) (<[toStr (Some h) := i]> colIdx)
  end.

Definition colIdxOf (hs : list Cell) : gmap string nat := buildColIdx hs 0 ∅.

(** [String(v || fallback)] *)
Definition strOrElse (v : Value) (fallback : string) : string :=
  if truthy v then toStr v else fallback.

(** One iteration of the loop of [getAllVacantPositions] over [data[i]]:
    [None] when the row is skipped by a [continue]. *)
Definition readVacantRow (colIdx : gmap string nat) (i : nat) (row : list Cell)
  : option Vacant.t :=
  let get := cell colIdx row in
  if negb (truthy (get "Vacant ID")) then None
  else
    let isActive := get "Is Active" in
    if bool_decide (isActive = Some (CBool false))
       || bool_decide (isActive = Some (CStr "FALSE"))
    then None
    else
      Some {|
        Vacant.vacantId := toStr (get "Vacant ID");
        Vacant.contract := strOr (get "Contract");
        Vacant.task := strOr (get "Task ID");
        Vacant.team := strOr (get "Team ID");
        Vacant.title := strOrElse (get "Title") "Vacant Position";
        Vacant.supervisorUpid := strOr (get "Supervisor UPID");
        Vacant.targetHireDate := isoOr (get "Target Hire Date");
        Vacant.requirements := strOr (get "Requirements");
        Vacant.rowIndex := i + 1
      |}.

(** The loop [for (let i = 1; i < data.length; i++)]. *)
Fixpoint readVacantRowsFrom (colIdx : gmap string nat) (i : nat)
    (rows : list (list Cell)) : list Vacant.t :=
  match rows with
  | [] => []
  | row :: rows' =>
      match readVacantRow colIdx i row with
      | Some vacant => vacant :: readVacantRowsFrom colIdx (S i) rows'
      | None => readVacantRowsFrom colIdx (S i) rows'
      end
  end.

Definition readVacantRows (sheet : Sheet) : list Vacant.t :=
  readVacantRowsFrom (colIdxOf (headers sheet)) 1 (body sheet).

(** The Vacant Positions sheet and the cache entry [teams:vacants].
    [vacantSheet] is [None] while the sheet does not exist; [vacantsCache]
    is [None] when [AppCache] is not defined and [Some None] when the key
    holds nothing. *)
Record Store : Type := {
  vacantSheet : option Sheet;
  vacantsCache : option (option (list Vacant.t))
}.

(** [_getVacantSheet()]: the sheet, created with its header row when it
    does not exist. *)
Definition _getVacantSheet (s : Store) : Sheet * Store :=
  match vacantSheet s with
  | Some sheet => (sheet, s)
  | None =>
      let sheet := {| headers := map CStr VACANT_HEADERS; body := [] |} in
      (sheet, {| vacantSheet := Some sheet; vacantsCache := vacantsCache s |})
  end.

(** [AppCache.invalidate(CACHE_KEY_VACANTS)] when [AppCache] is defined. *)
Definition invalidateVacants (s : Store) : Store :=
  {| vacantSheet := vacantSheet s;
     vacantsCache := match vacantsCache s with
                     | Some _ => Some None
                     | None => None
                     end |}.

(** [getAllVacantPositions()]; a cached array, empty or not, is returned as
    it is. *)
Definition getAllVacantPositions (s : Store) : list Vacant.t * Store :=
  let fresh (s : Store) : list Vacant.t * Store :=
    let '(sheet, s) := _getVacantSheet s in
    match body sheet with
    | [] => ([], s)
    | _ =>
        let vacants := readVacantRows sheet in
        match vacantsCache s with
        | Some _ =>
            (vacants, {| vacantSheet := vacantSheet s;
                         vacantsCache := Some (Some vacants) |})
        | None => (vacants, s)
        end
    end in
  match vacantsCache s with
  | Some (Some cached) => (cached, s)
  | _ => fresh s
  end.

(** The object handed to [createVacantPosition]; a missing field is the
    empty string, and [None] for [task], which is also compared as it
    is. *)
Module VacantInput.
Record t : Type := {
  vacantId : string;
  contract : string;
  task : option string;
  team : string;
  title : string;
  supervisorUpid : string;
  targetHireDate : string;
  requirements : string
}.
End VacantInput.

(** [s.replace(pattern, '')] for a non-empty string pattern: the first
    occurrence is removed. *)
Fixpoint removeFirst (pattern : string) (s : string) : string :=
  match s with
  | EmptyString => EmptyString
  | String c s' =>
      if startsWith s pattern then slice (String.length pattern) s
      else String c (removeFirst pattern s')
  end.

(** The id that [createVacantPosition] gives to the new vacancy. *)
Definition newVacantId (vacantData : VacantInput.t) (existing : list Vacant.t)
  : string :=
  let taskSuffix :=
    removeFirst "TASK-" (orElse (default "" (VacantInput.task vacantData)) "UNKNOWN") in
  let count :=
    List.length
      (List.filter (λ v, bool_decide (Some (Vacant.task v) = VacantInput.task vacantData))
         existing) + 1 in
  orElse (VacantInput.vacantId vacantData)
    ("VAC-" +:+ taskSuffix +:+ "-" +:+ numberToString (toNumber (Z.of_nat count))).

(** The row that [createVacantPosition] appends. *)
Definition vacantRowData (vacantId : string) (vacantData : VacantInput.t) : list Cell :=
  [ CStr vacantId;
    CStr (VacantInput.contract vacantData);
    CStr (default "" (VacantInput.task vacantData));
    CStr (VacantInput.team vacantData);
    CStr (orElse (VacantInput.title vacantData) "Vacant Position");
    CStr (VacantInput.supervisorUpid vacantData);
    CStr (VacantInput.targetHireDate vacantData);
    CStr (VacantInput.requirements vacantData);
    CBool true ].

(** What [createVacantPosition] returns:
    [{ success: true, vacantId: vacantId }] or
    [{ success: false, error: error.message }]. *)
Module VacantResult.
Record t : Type := {
  success : bool;
  vacantId : option string;
  error : option string
}.
End VacantResult.

(** [createVacantPosition(vacantData)] *)
Definition createVacantPosition (vacantData : VacantInput.t) (s : Store)
  : VacantResult.t * Store :=
  let '(sheet, s) := _getVacantSheet s in
  let '(existing, s) := getAllVacantPositions s in
  let vacantId := newVacantId vacantData existing in
  let s := {| vacantSheet := Some (appendRow (vacantRowData vacantId vacantData) sheet);
              vacantsCache := vacantsCache s |} in
  ({| VacantResult.success := true;
      VacantResult.vacantId := Some vacantId;
      VacantResult.error := None |}, invalidateVacants s).

(** [deleteVacantPosition(vacantId)]: the Is Active cell of the row of the
    first vacancy of that id, found at the position that [VACANT_HEADERS]
    gives it, is set to [false]. *)
Definition deleteVacantPosition (vacantId : string) (s : Store) : Result * Store :=
  let '(vacants, s) := getAllVacantPositions s in
  match List.find (λ v, String.eqb (Vacant.vacantId v) vacantId) vacants with
  | None => (failed ("Vacant position not found: " +:+ vacantId), s)
  | Some vacant =>
      let '(sheet, s) := _getVacantSheet s in
      let s := {| vacantSheet := Some (setValue (Vacant.rowIndex vacant) 9 (CBool false) sheet);
                  vacantsCache := vacantsCache s |} in
      ({| success := true; id := None; error := None |}, invalidateVacants s)
  end.

End TeamsCrudService.

(* ===================================================================== *)
(** ** The world: sheets, caches, permission gate *)
(* ===================================================================== *)

(** What [TeamsCrudService] serves: the mapping rows that [getAllTeams()]
    returns, and the store of the vacancies. *)
Record TeamsData : Type := {
  allTeams : list Team.t;
  vacantStore : TeamsCrudService.Store
}.

(** What [getAllVacantPositions()] returns from that store. *)
Definition allVacantPositions (d : TeamsData) : list Vacant.t :=
  fst (TeamsCrudService.getAllVacantPositions (vacantStore d)).

(** Modelled from the spec: the cache collaborator [AppCache] (absent from
    the sources), [get(key)] returning the stored value or null,
    [set(key, value, ttl)] and [invalidate(key)], for the two keys this
    service uses.  An expired entry is an absent one. *)
Record Cache : Type := {
  all_data : option (list Node.t);
  teamlist_raw : option (list Person.t)
}.

(** Accesses to the stores and to the cache, latest first: one entry for
    each store a call consults and for each cache key it looks up. *)
Inductive Access : Type :=
| CacheGet (key : string)
| SheetRead
| TeamsRead
| VacantsRead.

(** Modelled from the spec: the permission gate
    [PermissionService.requirePermission(action)] (absent from the sources)
    returns when the caller holds the capability and throws otherwise;
    [permitted] tells which. *)
Record World : Type := {
  teamList : option Sheet;            (* None: no Team List sheet is found *)
  teamsCrudService : option TeamsData; (* None: the service is not defined *)
  appCache : option Cache;            (* None: AppCache is not defined *)
  permitted : bool;
  accesses : list Access
}.

Definition CACHE_KEY_ALL_DATA : string := "org:all_data".
Definition CACHE_KEY_TEAM_LIST_RAW : string := "org:teamlist_raw".

(** A value or a thrown error with its message. *)
Inductive Exc (A : Type) : Type :=
| Ok (a : A)
| Throw (message : string).
Arguments Ok {A} a.
Arguments Throw {A} message.

Definition logAccess (a : Access) (w : World) : World :=
  {| teamList := teamList w; teamsCrudService := teamsCrudService w;
     appCache := appCache w; permitted := permitted w;
     accesses := a :: accesses w |}.

Definition setTeamList (sheet : Sheet) (w : World) : World :=
  {| teamList := Some sheet; teamsCrudService := teamsCrudService w;
     appCache := appCache w; permitted := permitted w;
     accesses := accesses w |}.

Definition setCache (c : Cache) (w : World) : World :=
  {| teamList := teamList w; teamsCrudService := teamsCrudService w;
     appCache := Some c; permitted := permitted w;
     accesses := accesses w |}.

Definition setTeamsData (d : TeamsData) (w : World) : World :=
  {| teamList := teamList w; teamsCrudService := Some d;
     appCache := appCache w; permitted := permitted w;
     accesses := accesses w |}.

(** The message of the error of [_getTeamListSheet]. *)
Definition SHEET_NOT_FOUND : string :=
  let q := String (ascii_of_nat 34) EmptyString in
  "[OrgCrudService] Team List sheet not found. Register the external spreadsheet via DataStoreRegistry.setSpreadsheetId("
  +:+ q +:+ "teamlist" +:+ q +:+ ", " +:+ q +:+ "SPREADSHEET_ID" +:+ q +:+ ")".

(** [_getTeamListSheet()]: the sheet, or the error it throws. *)
Definition _getTeamListSheet (w : World) : Exc Sheet :=
  match teamList w with
  | Some sheet => Ok sheet
  | None =>
      Throw SHEET_NOT_FOUND
  end.

(** [_invalidateCache()]: both keys of this service are dropped.  The cache
    that [TeamConfigService] keeps for itself is not part of this world. *)
Definition _invalidateCache (w : World) : World :=
  match appCache w with
  | Some _ => setCache {| all_data := None; teamlist_raw := None |} w
  | None => w
  end.

(** [TeamsCrudService.getAllTeams()], or [[]] without the service. *)
Definition getAllTeams (w : World) : list Team.t * World :=
  match teamsCrudService w with
  | Some d => (allTeams d, logAccess TeamsRead w)
  | None => ([], w)
  end.

(** [TeamsCrudService.getAllVacantPositions()], or [[]] without the service. *)
Definition getAllVacantPositions (w : World) : list Vacant.t * World :=
  match teamsCrudService w with
  | Some d =>
      let '(vacants, s) := TeamsCrudService.getAllVacantPositions (vacantStore d) in
      (vacants,
       logAccess VacantsRead (setTeamsData {| allTeams := allTeams d; vacantStore := s |} w))
  | None => ([], w)
  end.

(** [_readTeamListRaw()] *)
Definition _readTeamListRaw (w : World) : Exc (list Person.t) * World :=
  let fresh (w : World) : Exc (list Person.t) * World :=
    match _getTeamListSheet w with
    | Throw m => (Throw m, w)
    | Ok sheet =>
        let w := logAccess SheetRead w in
        match body sheet with
        | [] => (Ok [], w)
        | _ =>
            let records := readRows sheet in
            match appCache w with
            | Some c =>
                (Ok records,
                 setCache {| all_data := all_data c; teamlist_raw := Some records |} w)
            | None => (Ok records, w)
            end
        end
    end in
  match appCache w with
  | Some c =>
      let w := logAccess (CacheGet CACHE_KEY_TEAM_LIST_RAW) w in
      match teamlist_raw c with
      | Some cached => (Ok cached, w)
      | None => fresh w
      end
  | None => fresh w
  end.

(** [getAllData()] *)
Definition getAllData (w : World) : list Node.t * World :=
  let compute (w : World) : list Node.t * World :=
    match _readTeamListRaw w with
    | (Throw _, w) => ([], w)          (* catch: return [] *)
    | (Ok personnel, w) =>
        let '(teams, w) := getAllTeams w in
        let '(vacants, w) := getAllVacantPositions w in
        let allRecords := assemble teams vacants personnel in
        match appCache w with
        | Some c =>
            (allRecords,
             setCache {| all_data := Some allRecords; teamlist_raw := teamlist_raw c |} w)
        | None => (allRecords, w)
        end
    end in
  match appCache w with
  | Some c =>
      let w := logAccess (CacheGet CACHE_KEY_ALL_DATA) w in
      match all_data c with
      | Some cached => (cached, w)
      | None => compute w
      end
  | None => compute w
  end.

(** [getById(id)] *)
Definition getById (id : string) (w : World) : option Node.t * World :=
  let '(data, w) := getAllData w in
  (List.find (λ p, String.eqb (Node.id p) id) data, w).

(** [getByEmail(email)]; [None] is a null or undefined argument. *)
Definition getByEmail (email : option string) (w : World) : list Node.t * World :=
  match email with
  | None => ([], w)
  | Some e =>
      if negb (nonEmpty e) then ([], w)
      else
        let normalizedEmail := trim (toLowerCase e) in
        let '(data, w) := getAllData w in
        (List.filter (λ p,
           nonEmpty (Node.email p)
           && String.eqb (trim (toLowerCase (Node.email p))) normalizedEmail) data,
         w)
  end.

(* ===================================================================== *)
(** ** Write API *)
(* ===================================================================== *)

(** A call either returns a result or lets an exception escape. *)
Inductive Outcome : Type :=
| Returned (r : Result)
| Threw (message : string).

(** The message of the error of the permission gate; the service is absent
    from the sources and nothing depends on the text. *)
Definition PERMISSION_DENIED : string := "Permission denied: org.edit".

(** The message of a [TypeError] raised by the engine (calling a string
    method on a value that has none). *)
Definition TYPE_ERROR : string := "TypeError".

(** The message of the exception of [sheet.getRange(row, column)] for a
    column that is not a number. *)
Definition RANGE_ERROR : string := "Exception: invalid range".

(** The person object handed to [addPerson]; a missing field is the empty
    string, [false], or [None] for [activeInOrg]. *)
Module PersonInput.
Record t : Type := {
  employeeCode : string;
  company : string;
  contract : string;
  task : string;
  primaryWorkstream : string;
  team : string;
  secondaryWorkstream : string;
  firstName : string;
  lastName : string;
  name : string;
  email : string;
  primaryRole : string;
  title : string;
  secondaryRole : string;
  secondaryRoles : string;
  primaryRoleStartDate : string;
  cpc : string;
  hid : string;
  upid : string;
  supervisorEmail : string;
  supervisorUpid : string;
  reportsTo : string;
  portfolioLeadership : bool;
  profilePicture : string;
  eod : string;
  personnelContractStatus : string;
  departureDate : string;
  departureMeetingDate : string;
  contractLcat : string;
  location : string;
  tenure : string;
  nodeType : string;
  type : string;
  activeInOrg : option bool
}.
End PersonInput.

(** [_buildTeamListRow(person)] *)
Definition _buildTeamListRow (person : PersonInput.t) : list Cell :=
  let s := CStr in
  [ s (PersonInput.employeeCode person);
    s (PersonInput.company person);
    s (PersonInput.contract person);
    s (PersonInput.task person);
    s (orElse (PersonInput.primaryWorkstream person) (PersonInput.team person));
    s (PersonInput.secondaryWorkstream person);
    s (PersonInput.firstName person);
    s (PersonInput.lastName person);
    s (PersonInput.email person);
    s (PersonInput.primaryRole person);
    s (orElse (PersonInput.secondaryRole person) (PersonInput.secondaryRoles person));
    s (PersonInput.primaryRoleStartDate person);
    s (PersonInput.cpc person);
    s (PersonInput.hid person);
    s (PersonInput.upid person);
    s (PersonInput.supervisorEmail person);
    s (PersonInput.supervisorUpid person);
    s (if PersonInput.portfolioLeadership person then "TRUE" else "");
    s (PersonInput.profilePicture person);
    s (PersonInput.eod person);
    s (orElse (PersonInput.personnelContractStatus person) "Active");
    s (PersonInput.departureDate person);
    s (PersonInput.departureMeetingDate person);
    s (PersonInput.contractLcat person);
    s (PersonInput.location person);
    s (PersonInput.tenure person);
    s (orElse (PersonInput.nodeType person) (orElse (PersonInput.type person) "person"));
    s (if bool_decide (PersonInput.activeInOrg person = Some false)
       then "FALSE" else "TRUE") ].

(** The loop of [_generateNextHid]: [maxHid] after visiting [personnel]. *)
Definition maxHidOf (personnel : list Person.t) : Number :=
  fold_left (λ (maxHid : Number) p,
    match parseInt10 (Person.hid p) with
    | Some num => if gtb num maxHid then num else maxHid
    | None => maxHid
    end) personnel (Int 0).

(** [_generateNextHid()] *)
Definition _generateNextHid (w : World) : Exc string * World :=
  match _readTeamListRaw w with
  | (Throw m, w) => (Throw m, w)
  | (Ok personnel, w) =>
      (Ok (padStart0 3 (numberToString (succ (maxHidOf personnel)))), w)
  end.

(** The person object after the steps of [addPerson] that precede
    [_buildTeamListRow]: the UPID is set, a single [name] is split into
    first and last name, [title] stands in for [primaryRole] and
    [reportsTo] for [supervisorUpid]. *)
Definition prepared (upid : string) (person : PersonInput.t) : PersonInput.t :=
  let split :=
    nonEmpty (PersonInput.name person)
    && (negb (nonEmpty (PersonInput.firstName person))
        || negb (nonEmpty (PersonInput.lastName person))) in
  let parts := splitFirstSpace (PersonInput.name person) in
  {| PersonInput.employeeCode := PersonInput.employeeCode person;
     PersonInput.company := PersonInput.company person;
     PersonInput.contract := PersonInput.contract person;
     PersonInput.task := PersonInput.task person;
     PersonInput.primaryWorkstream := PersonInput.primaryWorkstream person;
     PersonInput.team := PersonInput.team person;
     PersonInput.secondaryWorkstream := PersonInput.secondaryWorkstream person;
     PersonInput.firstName :=
       if split then orElse (PersonInput.firstName person) (fst parts)
       else PersonInput.firstName person;
     PersonInput.lastName :=
       if split then orElse (PersonInput.lastName person) (snd parts)
       else PersonInput.lastName person;
     PersonInput.name := PersonInput.name person;
     PersonInput.email := PersonInput.email person;
     PersonInput.primaryRole :=
       orElse (PersonInput.primaryRole person) (PersonInput.title person);
     PersonInput.title := PersonInput.title person;
     PersonInput.secondaryRole := PersonInput.secondaryRole person;
     PersonInput.secondaryRoles := PersonInput.secondaryRoles person;
     PersonInput.primaryRoleStartDate := PersonInput.primaryRoleStartDate person;
     PersonInput.cpc := PersonInput.cpc person;
     PersonInput.hid := PersonInput.hid person;
     PersonInput.upid := upid;
     PersonInput.supervisorEmail := PersonInput.supervisorEmail person;
     PersonInput.supervisorUpid :=
       orElse (PersonInput.supervisorUpid person) (PersonInput.reportsTo person);
     PersonInput.reportsTo := PersonInput.reportsTo person;
     PersonInput.portfolioLeadership := PersonInput.portfolioLeadership person;
     PersonInput.profilePicture := PersonInput.profilePicture person;
     PersonInput.eod := PersonInput.eod person;
     PersonInput.personnelContractStatus := PersonInput.personnelContractStatus person;
     PersonInput.departureDate := PersonInput.departureDate person;
     PersonInput.departureMeetingDate := PersonInput.departureMeetingDate person;
     PersonInput.contractLcat := PersonInput.contractLcat person;
     PersonInput.location := PersonInput.location person;
     PersonInput.tenure := PersonInput.tenure person;
     PersonInput.nodeType := PersonInput.nodeType person;
     PersonInput.type := PersonInput.type person;
     PersonInput.activeInOrg := PersonInput.activeInOrg person |}.

(** [addPerson(person)].  The permission gate stands before the [try]; an
    error thrown inside it becomes a failure result. *)
Definition addPerson (person : PersonInput.t) (w : World) : Outcome * World :=
  if negb (permitted w) then (Threw PERMISSION_DENIED, w)
  else
    match _getTeamListSheet w with
    | Throw m => (Returned (failed m), w)
    | Ok sheet =>
        (* Generate UPID if not provided *)
        let '(upid, w) :=
          if nonEmpty (PersonInput.upid person) then (Ok (PersonInput.upid person), w)
          else
            let cpc := orElse (PersonInput.cpc person) "400" in
            if nonEmpty (PersonInput.hid person)
            then (Ok (cpc +:+ "-" +:+ PersonInput.hid person), w)
            else
              match _generateNextHid w with
              | (Ok hid, w) => (Ok (cpc +:+ "-" +:+ hid), w)
              | (Throw m, w) => (Throw m, w)
              end in
        match upid with
        | Throw m => (Returned (failed m), w)
        | Ok upid =>
            let newRow := _buildTeamListRow (prepared upid person) in
            let w := setTeamList (appendRow newRow sheet) w in
            let w := _invalidateCache w in
            (Returned (succeeded upid), w)
        end
    end.

(** A property value of the [updates] object. *)
Inductive Arg : Type :=
| AUndefined
| ANull
| AVal (c : Cell).

(** The [updates] object: its own properties in insertion order, which is
    the order of [Object.keys]. *)
Definition Updates : Type := list (string * Arg).

(** [updates[field]] *)
Definition getProp (updates : Updates) (field : string) : Arg :=
  match List.find (λ kv, String.eqb (fst kv) field) updates with
  | Some kv => snd kv
  | None => AUndefined
  end.

(** [updates[field] = value]: an existing property keeps its place. *)
Fixpoint setProp (field : string) (value : Arg) (updates : Updates) : Updates :=
  match updates with
  | [] => [(field, value)]
  | kv :: rest =>
      if String.eqb (fst kv) field then (field, value) :: rest
      else kv :: setProp field value rest
  end.

(** The table [fieldToHeader] of [updatePerson]. *)
Definition FIELD_TO_HEADER : list (string * string) :=
  [ ("employeeCode", "Employee Code");
    ("company", "Company");
    ("contract", "Contract");
    ("task", "Task");
    ("primaryWorkstream", "Primary Workstream");
    ("team", "Primary Workstream");
    ("secondaryWorkstream", "Secondary Workstream");
    ("firstName", "First Name");
    ("lastName", "Last Name");
    ("email", "Email");
    ("title", "Primary Role");
    ("primaryRole", "Primary Role");
    ("secondaryRole", "Secondary Role");
    ("secondaryRoles", "Secondary Role");
    ("primaryRoleStartDate", "Primary Role Start Date");
    ("cpc", "Contract Personnel Code (CPC)");
    ("hid", "Heirarchy Identifier (HID)");
    ("upid", "Unique Personnel ID (UPID)");
    ("supervisorEmail", "Supervisor Email");
    ("supervisorUpid", "Supervisor UPID");
    ("reportsTo", "Supervisor UPID");
    ("portfolioLeadership", "Portfolio Leadership?");
    ("profilePicture", "Profile Picture");
    ("eod", "EOD");
    ("personnelContractStatus", "Personnel Contract Status");
    ("departureDate", "Departure Date");
    ("departureMeetingDate", "Departure Meeting Date");
    ("contractLcat", "Contract LCAT");
    ("location", "Location (City, ST)");
    ("nodeType", "Node Type");
    ("type", "Node Type");
    ("activeInOrg", "Active In Org") ].

Definition fieldToHeader (field : string) : option string :=
  snd <$> List.find (λ kv, String.eqb (fst kv) field) FIELD_TO_HEADER.

(** [String(data[i][upidCol]).trim() === String(id).trim()] *)
Definition rowHasUpid (colMap : gmap string nat) (id : string) (row : list Cell)
  : bool :=
  String.eqb (trim (toStr (cell colMap row "Unique Personnel ID (UPID)"))) (trim id).

(** The search loop of [updatePerson] and [deletePerson]: the index [i] in
    [data] of the first row whose UPID is [id]. *)
Fixpoint findRowFrom (colMap : gmap string nat) (id : string) (i : nat)
    (rows : list (list Cell)) : option nat :=
  match rows with
  | [] => None
  | row :: rows' =>
      if rowHasUpid colMap id row then Some i
      else findRowFrom colMap id (S i) rows'
  end.

Definition findRow (id : string) (sheet : Sheet) : option nat :=
  findRowFrom (colMapOf (headers sheet)) id 1 (body sheet).

(** [value === null || value === undefined ? '' : value] *)
Definition argCell (value : Arg) : Cell :=
  match value with
  | AVal c => c
  | _ => CStr ""
  end.

(** [updates.name !== undefined]: split into first and last name. *)
Definition splitName (updates : Updates) : Exc Updates :=
  match getProp updates "name" with
  | AUndefined => Ok updates
  | AVal (CStr name) =>
      let parts := splitFirstSpace name in
      Ok (setProp "lastName" (AVal (CStr (snd parts)))
            (setProp "firstName" (AVal (CStr (fst parts))) updates))
  | _ => Throw TYPE_ERROR
  end.

(** [updates.parentId !== undefined]: a parent that is not a structural id
    becomes the supervisor UPID. *)
Definition parentToSupervisor (updates : Updates) : Exc Updates :=
  match getProp updates "parentId" with
  | AUndefined => Ok updates
  | AVal (CStr parentId) =>
      if negb (startsWith parentId "task:") && negb (startsWith parentId "team:")
         && negb (String.eqb parentId "root")
      then Ok (setProp "supervisorUpid" (AVal (CStr parentId)) updates)
      else Ok updates
  | _ => Throw TYPE_ERROR
  end.

(** [Object.keys(updates).forEach(...)]: one [setValue] per field that has
    a header present in the sheet. *)
Definition writeUpdates (colMap : gmap string nat) (rowIndex : nat)
    (updates : Updates) (sheet : Sheet) : Sheet :=
  fold_left (λ sheet (kv : string * Arg),
    match fieldToHeader (fst kv) with
    | Some headerName =>
        match colMap !! headerName with
        | Some c => setValue rowIndex (c + 1) (argCell (snd kv)) sheet
        | None => sheet
        end
    | None => sheet
    end) updates sheet.

(** [updatePerson(id, updates)] *)
Definition updatePerson (id : string) (updates : Updates) (w : World)
  : Outcome * World :=
  if negb (permitted w) then (Threw PERMISSION_DENIED, w)
  else
    match _getTeamListSheet w with
    | Throw m => (Returned (failed m), w)
    | Ok sheet =>
        let colMap := colMapOf (headers sheet) in
        match findRow id sheet with
        | None => (Returned (failed ("Person not found with UPID: " +:+ id)), w)
        | Some i =>
            let rowIndex := i + 1 in
            match splitName updates with
            | Throw m => (Returned (failed m), w)
            | Ok updates =>
                match parentToSupervisor updates with
                | Throw m => (Returned (failed m), w)
                | Ok updates =>
                    let w := setTeamList (writeUpdates colMap rowIndex updates sheet) w in
                    let w := _invalidateCache w in
                    (Returned (succeeded id), w)
                end
            end
        end
    end.

(** [TeamsCrudService.deleteVacantPosition(vacantId)] on the store of the
    service. *)
Definition deleteVacantPosition (vacantId : string) (d : TeamsData) (w : World)
  : Result * World :=
  let '(r, s) := TeamsCrudService.deleteVacantPosition vacantId (vacantStore d) in
  (r, logAccess VacantsRead (setTeamsData {| allTeams := allTeams d; vacantStore := s |} w)).

(** [deletePerson(id)]: a soft delete, two cells of the row are rewritten.
    A column that the sheet lacks makes [getRange] throw at that point. *)
Definition deletePerson (id : string) (w : World) : Outcome * World :=
  if negb (permitted w) then (Threw PERMISSION_DENIED, w)
  else if nonEmpty id && startsWith id "VAC-" then
    match teamsCrudService w with
    | Some d =>
        let '(r, w) := deleteVacantPosition id d w in (Returned r, w)
    | None =>
        (Returned (failed "Cannot delete vacant position: TeamsCrudService not available"), w)
    end
  else
    match _getTeamListSheet w with
    | Throw m => (Returned (failed m), w)
    | Ok sheet =>
        let colMap := colMapOf (headers sheet) in
        match findRow id sheet with
        | None => (Returned (failed ("Person not found with UPID: " +:+ id)), w)
        | Some i =>
            let rowIndex := i + 1 in
            match colMap !! "Active In Org" with
            | None => (Returned (failed RANGE_ERROR), w)
            | Some activeInOrgCol =>
                let sheet := setValue rowIndex (activeInOrgCol + 1) (CStr "FALSE") sheet in
                match colMap !! "Personnel Contract Status" with
                | None => (Returned (failed RANGE_ERROR), setTeamList sheet w)
                | Some statusCol =>
                    let sheet := setValue rowIndex (statusCol + 1) (CStr "Departed") sheet in
                    let w := setTeamList sheet w in
                    let w := _invalidateCache w in
                    (Returned (succeeded id), w)
                end
            end
        end
    end.

(* ===================================================================== *)
(** ** Notions used by the statements *)
(* ===================================================================== *)

Definition teamsOf (w : World) : list Team.t :=
  from_option allTeams [] (teamsCrudService w).

Definition vacantsOf (w : World) : list Vacant.t :=
  from_option allVacantPositions [] (teamsCrudService w).

(** What the [try] block of [getAllData] computes from the stores. *)
Definition freshData (w : World) (sheet : Sheet) : list Node.t :=
  assemble (teamsOf w) (vacantsOf w) (readRows sheet).

(** The cache holds nothing stale: an entry under either key is what a
    read of the stores would compute now.  A cold cache, or no cache at
    all, is coherent. *)
Definition coherent (w : World) : Prop :=
  match appCache w with
  | None => True
  | Some c =>
      match teamList w with
      | Some sheet =>
          from_option (λ r, r = readRows sheet) True (teamlist_raw c)
          ∧ from_option (λ l, l = freshData w sheet) True (all_data c)
      | None => teamlist_raw c = None ∧ all_data c = None
      end
  end.

(** [data.find(n => n.id === id)], the lookup of [getById]. *)
Definition nodeById (data : list Node.t) (id : string) : option Node.t :=
  List.find (λ n, String.eqb (Node.id n) id) data.


(** An id of the structural name space: [root], [task:...] or [team:...]. *)
Definition isStructuralId (s : string) : bool :=
  String.eqb s ID_ROOT || startsWith s ID_PREFIX_TASK || startsWith s ID_PREFIX_TEAM.

(** Person ids are pairwise distinct and none lies in the structural name
    space. *)
Definition wellFormedIds (personnel : list Person.t) : bool :=
  bool_decide (NoDup (map personId personnel))
  && forallb (λ p, negb (isStructuralId (personId p))) personnel.



(** The type a row has after type derivation, in the words of the spec:
    the explicit Node Type cell lowercased, else the CPC level map applied
    to the first digit of the CPC, else [person]. *)
Definition derivedTypeSpec (colMap : gmap string nat) (row : list Cell) : string :=
  let explicit := toLowerCase (trim (strOr (cell colMap row "Node Type"))) in
  if nonEmpty explicit then explicit
  else
    let cpc := strOr (cell colMap row "Contract Personnel Code (CPC)") in
    match CPC_LEVEL_MAP !! charAt0 cpc with
    | Some ty => ty
    | None => "person"
    end.

(** The row is forced to [vacant] by the departure rule. *)
Definition departedVacancy (colMap : gmap string nat) (row : list Cell) : bool :=
  String.eqb (trim (strOr (cell colMap row "Personnel Contract Status"))) "Departed"
  && negb (isFalseFlag (cell colMap row "Active In Org")).

(** The UPID index in the words of the spec: the non-empty UPIDs of the
    personnel records. *)
Definition inUpidIndex (personnel : list Person.t) (u : string) : bool :=
  existsb (λ p, nonEmpty (Person.upid p) && String.eqb (Person.upid p) u) personnel.

(** The vacancy cascade in the words of the spec. *)
Definition vacancyParentSpec (personnel : list Person.t) (v : Vacant.t) : string :=
  if inUpidIndex personnel (Vacant.supervisorUpid v) then Vacant.supervisorUpid v
  else if nonEmpty (Vacant.team v) then "team:" +:+ Vacant.team v
  else if nonEmpty (Vacant.task v) then "task:" +:+ Vacant.task v
  else "root".

(** The largest HID among the records whose HID [parseInt] can read, as
    an integer, and 0 when there is none above it. *)
Definition maxParseableHid (personnel : list Person.t) : Z :=
  fold_right Z.max 0%Z (omap (λ p, readInteger (Person.hid p)) personnel).

(** The integer is one that numbers hold exactly, with its neighbours:
    [Number.isSafeInteger]. *)
Definition safeInteger (z : Z) : bool := (Z.abs z <? 2 ^ 53)%Z.

(** The HIDs that [parseInt] reads a number from are within that range. *)
Definition safeHids (personnel : list Person.t) : bool :=
  forallb (λ p, from_option safeInteger true (readInteger (Person.hid p))) personnel.

(** A team mapping matches a record: same name as the record's workstream,
    same task, active. *)
Definition teamMatches (person : Person.t) (t : Team.t) : bool :=
  String.eqb (Team.teamName t) (Person.primaryWorkstream person)
  && String.eqb (Team.task t) (Person.task person)
  && Team.isActive t.

(** The keys under which the plain objects of [getTaskMetadata] and
    [_deriveStructuralNodes] are written and read, the tasks and contracts
    of the mapping rows and of the records, are own keys: none is the name
    of a member of [Object.prototype]. *)
Definition plainKeys (teams : list Team.t) (personnel : list Person.t) : bool :=
  forallb (λ t, ownKey (Team.task t) && ownKey (Team.contract t)) teams
  && forallb (λ p, ownKey (Person.task p) && ownKey (Person.contract p)) personnel.

(** The same for the keys of [getTaskMetadata] alone, the tasks of the
    mapping rows. *)
Definition plainTasks (teams : list Team.t) : bool :=
  forallb (λ t, ownKey (Team.task t)) teams.

(** The same for the keys of the objects that [getModuleSummary] and
    [getManagementEmails] build from the nodes: types, contracts and
    tasks. *)
Definition plainNodes (nodes : list Node.t) : bool :=
  forallb (λ n, ownKey (Node.type n) && ownKey (Node.contract n)
                && ownKey (default "" (Node.task n))) nodes.

(** The match of the spec on ASCII texts, case- and whitespace-insensitive,
    said without [trim] and [toLowerCase]: a blank is one of TAB, LF, VT,
    FF, CR and SP. *)
Definition isBlank (c : ascii) : bool :=
  existsb (Ascii.eqb c) [ "009"; "010"; "011"; "012"; "013"; " " ]%char.

Fixpoint dropBlanks (s : string) : string :=
  match s with
  | EmptyString => EmptyString
  | String c s' => if isBlank c then dropBlanks s' else s
  end.

(** The text without its leading and trailing blanks. *)
Definition strip (s : string) : string :=
  String.rev (dropBlanks (String.rev (dropBlanks s))).

(** The position of a letter in the alphabet, whatever its case. *)
Definition letterIndex (c : ascii) : option nat :=
  let n := nat_of_ascii c in
  if Nat.leb 65 n && Nat.leb n 90 then Some (n - 65)
  else if Nat.leb 97 n && Nat.leb n 122 then Some (n - 97)
  else None.

(** The same character, or the same letter in either case. *)
Definition sameLetter (a b : ascii) : bool :=
  Ascii.eqb a b
  || match letterIndex a, letterIndex b with
     | Some i, Some j => Nat.eqb i j
     | _, _ => false
     end.

Fixpoint sameLetters (a b : string) : bool :=
  match a, b with
  | EmptyString, EmptyString => true
  | String x a', String y b' => sameLetter x y && sameLetters a' b'
  | _, _ => false
  end.

Definition sameAddress (a b : string) : bool := sameLetters (strip a) (strip b).

(* ===================================================================== *)
(** ** Concrete rosters *)
(* ===================================================================== *)

(** A row in the column order of [TEAM_LIST_HEADERS] from named cells, the
    others empty. *)
Definition mkRow (cells : list (string * Cell)) : list Cell :=
  map (λ h,
    match List.find (λ kv, String.eqb (fst kv) h) cells with
    | Some kv => snd kv
    | None => CStr ""
    end) TEAM_LIST_HEADERS.

Definition mkSheet (rows : list (list Cell)) : Sheet :=
  {| headers := map CStr TEAM_LIST_HEADERS; body := rows |}.

Definition mkTeam (contract task teamId teamName : string) (isActive : bool)
  : Team.t :=
  {| Team.contract := contract; Team.task := task; Team.taskName := "";
     Team.teamId := teamId; Team.teamName := teamName; Team.isActive := isActive;
     Team.color := ""; Team.description := ""; Team.defaultSlaThreshold := "";
     Team.notifyOnEscalation := false; Team.displayOrder := 0; Team.rowIndex := 2 |}.

Definition mkVacant (rowIndex : nat) (vacantId task team supervisorUpid : string)
  : Vacant.t :=
  {| Vacant.vacantId := vacantId; Vacant.contract := "SQuAT"; Vacant.task := task;
     Vacant.team := team; Vacant.title := "Vacant Position";
     Vacant.supervisorUpid := supervisorUpid; Vacant.targetHireDate := "";
     Vacant.requirements := ""; Vacant.rowIndex := rowIndex |}.

(** The row of the Vacant Positions sheet that holds an open vacancy, in
    the column order of [VACANT_HEADERS]. *)
Definition mkVacantRow (v : Vacant.t) : list Cell :=
  [ CStr (Vacant.vacantId v); CStr (Vacant.contract v); CStr (Vacant.task v);
    CStr (Vacant.team v); CStr (Vacant.title v); CStr (Vacant.supervisorUpid v);
    CStr (Vacant.targetHireDate v); CStr (Vacant.requirements v); CBool true ].

(** A Vacant Positions sheet that holds the vacancies, one a row from row 2
    on. *)
Definition mkVacantSheet (vacants : list Vacant.t) : Sheet :=
  {| headers := map CStr TeamsCrudService.VACANT_HEADERS;
     body := map mkVacantRow vacants |}.

(** That sheet and a cache entry that holds nothing. *)
Definition mkStore (vacants : list Vacant.t) : TeamsCrudService.Store :=
  {| TeamsCrudService.vacantSheet := Some (mkVacantSheet vacants);
     TeamsCrudService.vacantsCache := Some None |}.

(** A world with a cold cache and an authorised caller. *)
Definition mkWorld (sheet : Sheet) (teams : list Team.t) (vacants : list Vacant.t)
  : World :=
  {| teamList := Some sheet;
     teamsCrudService := Some {| allTeams := teams; vacantStore := mkStore vacants |};
     appCache := Some {| all_data := None; teamlist_raw := None |};
     permitted := true;
     accesses := [] |}.

(** The director of contract SQuAT. *)
Definition rowDirector : list Cell :=
  mkRow [ ("Unique Personnel ID (UPID)", CStr "100-001");
          ("Contract Personnel Code (CPC)", CStr "100");
          ("Heirarchy Identifier (HID)", CStr "001");
          ("Contract", CStr "SQuAT");
          ("Email", CStr "Director@Example.org");
          ("Personnel Contract Status", CStr "Active");
          ("Active In Org", CBool true) ].

(** Scenario A: a lead of TASK-001 in the Program Management Team whose
    supervisor is the director. *)
Definition rowScenarioA : list Cell :=
  mkRow [ ("Unique Personnel ID (UPID)", CStr "310-003");
          ("Contract Personnel Code (CPC)", CStr "310");
          ("Heirarchy Identifier (HID)", CStr "003");
          ("Contract", CStr "SQuAT");
          ("Task", CStr "TASK-001");
          ("Primary Workstream", CStr "Program Management Team");
          ("Supervisor UPID", CStr "100-001");
          ("Email", CStr "lead@example.org");
          ("Personnel Contract Status", CStr "Active");
          ("Active In Org", CBool true) ].

(** A departed analyst of TASK-001 whose position stays open. *)
Definition rowDeparted : list Cell :=
  mkRow [ ("Unique Personnel ID (UPID)", CStr "410-007");
          ("Contract Personnel Code (CPC)", CStr "410");
          ("Heirarchy Identifier (HID)", CStr "007");
          ("Contract", CStr "SQuAT");
          ("Task", CStr "TASK-001");
          ("Email", CStr "gone@example.org");
          ("Personnel Contract Status", CStr "Departed");
          ("Active In Org", CBool true) ].

(** The same row after a soft delete. *)
Definition rowDeleted : list Cell :=
  mkRow [ ("Unique Personnel ID (UPID)", CStr "410-008");
          ("Contract Personnel Code (CPC)", CStr "410");
          ("Heirarchy Identifier (HID)", CStr "008");
          ("Contract", CStr "SQuAT");
          ("Task", CStr "TASK-001");
          ("Email", CStr "deleted@example.org");
          ("Personnel Contract Status", CStr "Departed");
          ("Active In Org", CStr "FALSE") ].

Definition teamPM : Team.t :=
  mkTeam "SQuAT" "TASK-001" "TEAM-001" "Program Management Team" true.

Definition sheetA : Sheet := mkSheet [rowDirector; rowScenarioA; rowDeparted; rowDeleted].

Definition worldA : World := mkWorld sheetA [teamPM] [].




(** Scenario E, and a vacancy whose team has no mapping. *)
Definition row330 : list Cell :=
  mkRow [ ("Unique Personnel ID (UPID)", CStr "330-012");
          ("Contract Personnel Code (CPC)", CStr "330");
          ("Heirarchy Identifier (HID)", CStr "012");
          ("Task", CStr "TASK-003");
          ("Email", CStr "lead3@example.org");
          ("Personnel Contract Status", CStr "Active") ].

Definition vacantE : Vacant.t := mkVacant 2 "VAC-003-1" "TASK-003" "" "330-012".

Definition vacantOrphan : Vacant.t := mkVacant 3 "VAC-003-2" "TASK-003" "TEAM-999" "".

Definition worldVacancies : World :=
  mkWorld (mkSheet [row330]) [] [vacantE; vacantOrphan].

(** A person with an explicit Node Type [person] and the leadership flag. *)
Definition rowExplicitPerson : list Cell :=
  mkRow [ ("Unique Personnel ID (UPID)", CStr "410-020");
          ("Contract Personnel Code (CPC)", CStr "410");
          ("Email", CStr "pl@example.org");
          ("Portfolio Leadership?", CStr "TRUE");
          ("Personnel Contract Status", CStr "Active");
          ("Node Type", CStr "person");
          ("Active In Org", CStr "TRUE") ].

(** The same person without the explicit Node Type. *)
Definition rowDerivedPerson : list Cell :=
  mkRow [ ("Unique Personnel ID (UPID)", CStr "410-021");
          ("Contract Personnel Code (CPC)", CStr "410");
          ("Email", CStr "pl2@example.org");
          ("Portfolio Leadership?", CStr "TRUE");
          ("Personnel Contract Status", CStr "Active");
          ("Active In Org", CStr "TRUE") ].

(** A roster whose largest HID is 999. *)
Definition row999 : list Cell :=
  mkRow [ ("Unique Personnel ID (UPID)", CStr "410-999");
          ("Contract Personnel Code (CPC)", CStr "410");
          ("Heirarchy Identifier (HID)", CStr "999");
          ("Email", CStr "last@example.org");
          ("Personnel Contract Status", CStr "Active") ].

Definition world999 : World := mkWorld (mkSheet [row999]) [] [].

(** A new hire described by a name and an email only. *)
Definition newHire : PersonInput.t :=
  {| PersonInput.employeeCode := ""; PersonInput.company := "";
     PersonInput.contract := "SQuAT"; PersonInput.task := "TASK-001";
     PersonInput.primaryWorkstream := ""; PersonInput.team := "";
     PersonInput.secondaryWorkstream := ""; PersonInput.firstName := "";
     PersonInput.lastName := ""; PersonInput.name := "Test Team Member";
     PersonInput.email := "test.member@integration.test";
     PersonInput.primaryRole := ""; PersonInput.title := "Analyst";
     PersonInput.secondaryRole := ""; PersonInput.secondaryRoles := "";
     PersonInput.primaryRoleStartDate := ""; PersonInput.cpc := "";
     PersonInput.hid := ""; PersonInput.upid := "";
     PersonInput.supervisorEmail := ""; PersonInput.supervisorUpid := "";
     PersonInput.reportsTo := "310-003"; PersonInput.portfolioLeadership := false;
     PersonInput.profilePicture := ""; PersonInput.eod := "";
     PersonInput.personnelContractStatus := ""; PersonInput.departureDate := "";
     PersonInput.departureMeetingDate := ""; PersonInput.contractLcat := "";
     PersonInput.location := ""; PersonInput.tenure := "";
     PersonInput.nodeType := ""; PersonInput.type := "";
     PersonInput.activeInOrg := None |}.

(** An active mapping that names a team and no task. *)
Definition worldTeamNoTask : World :=
  mkWorld (mkSheet []) [mkTeam "SQuAT" "" "TEAM-007" "Floating" true] [].

(* ===================================================================== *)
(** ** Notions used by the statements on the write path *)
(* ===================================================================== *)

(** What the writes of [updatePerson] make of the matched row: the fold of
    [writeUpdates] seen from that row. *)
Definition writeRow (colMap : gmap string nat) (updates : Updates) (row : list Cell)
  : list Cell :=
  fold_left (λ row (kv : string * Arg),
    match fieldToHeader (fst kv) with
    | Some headerName =>
        match colMap !! headerName with
        | Some c => <[c := argCell (snd kv)]> row
        | None => row
        end
    | None => row
    end) updates row.

(** The fields of [updates] that are written into column [c]. *)
Definition writesTo (colMap : gmap string nat) (c : nat) (kv : string * Arg) : bool :=
  match fieldToHeader (fst kv) with
  | Some headerName => bool_decide (colMap !! headerName = Some c)
  | None => false
  end.

(** All rows of the sheet are as wide as its header row, as the rows of
    [getValues()] are. *)
Definition rectangular (sheet : Sheet) : bool :=
  forallb (λ row, Nat.eqb (List.length row) (List.length (headers sheet))) (body sheet).

(* ===================================================================== *)
(** ** Query operations *)
(* ===================================================================== *)

(** [Array.prototype.sort()] without a comparator, on strings: ascending
    in the order of the code units.  The result is the one ascending
    arrangement of the elements; it is built here by insertion. *)
Fixpoint insertSorted (x : string) (l : list string) : list string :=
  match l with
  | [] => [x]
  | y :: l' => if String.leb x y then x :: l else y :: insertSorted x l'
  end.

Definition sort (l : list string) : list string := fold_right insertSorted [] l.

(** The [Set] that [getTasks] fills: the truthy [task] of every node, each
    once, in first-seen order. *)
Definition tasksOf (data : list Node.t) : list string :=
  fold_left (λ tasks node,
    match Node.task node with
    | Some task => if nonEmpty task then setAdd task tasks else tasks
    | None => tasks
    end) data [].

(** [getTasks()] *)
Definition getTasks (w : World) : list string * World :=
  let '(data, w) := getAllData w in
  (sort (tasksOf data), w).

(** The object that [getModuleSummary] returns. *)
Module Stats.
Record t : Type := {
  total : nat;
  byType : gmap string nat;
  vacantCount : nat;
  taskCount : nat
}.
End Stats.

(** The loop of [getModuleSummary] over the non-structural nodes: the
    counter of each type, and the counter of vacancies.  The object
    [byType] is a map on types that are [ownKey]s. *)
Definition countTypes (nonStructural : list Node.t) : gmap string nat * nat :=
  fold_left (λ (stats : gmap string nat * nat) node,
    (<[Node.type node := default 0 (fst stats !! Node.type node) + 1]> (fst stats),
     if String.eqb (Node.type node) "vacant" then snd stats + 1 else snd stats))
    nonStructural (∅, 0).

(** [getModuleSummary()] *)
Definition getModuleSummary (w : World) : Stats.t * World :=
  let '(data, w) := getAllData w in
  let nonStructural := List.filter (λ n, negb (Node._isStructural n)) data in
  let stats := countTypes nonStructural in
  let '(tasks, w) := getTasks w in
  ({| Stats.total := List.length nonStructural;
      Stats.byType := fst stats;
      Stats.vacantCount := snd stats;
      Stats.taskCount := List.length tasks |}, w).

(** [getTotalCount()]; nothing inside its [try] throws. *)
Definition getTotalCount (w : World) : nat * World :=
  let '(data, w) := getAllData w in
  (List.length
     (List.filter (λ n,
        negb (Node._isStructural n) && negb (String.eqb (Node.type n) "hidden")) data),
   w).

(** The entry of [contractManagers] for one contract; a property that was
    never assigned is [None]. *)
Module Managers.
Record t : Type := {
  director : option string;
  deputy : option string
}.
End Managers.

(** The entry of [managementEmails] for one task. *)
Module ManagementEmails.
Record t : Type := {
  contractManagerEmail : string;
  deputyManagerEmail : string;
  taskLeadEmail : string;
  teamLeadEmail : string
}.
End ManagementEmails.

(** The first loop of [getManagementEmails]: directors and deputies by
    contract, a later node of the same contract replacing an earlier one.
    The object [contractManagers] is a map on contracts that are
    [ownKey]s. *)
Definition contractManagersOf (nodes : list Node.t) : gmap string Managers.t :=
  fold_left (λ (contractManagers : gmap string Managers.t) node,
    let contractManagers :=
      if String.eqb (Node.type node) "director"
         && nonEmpty (Node.contract node) && nonEmpty (Node.email node)
      then
        <[Node.contract node :=
            {| Managers.director := Some (Node.email node);
               Managers.deputy :=
                 contractManagers !! Node.contract node ≫= Managers.deputy |}]>
          contractManagers
      else contractManagers in
    if String.eqb (Node.type node) "deputy"
       && nonEmpty (Node.contract node) && nonEmpty (Node.email node)
    then
      <[Node.contract node :=
          {| Managers.director :=
               contractManagers !! Node.contract node ≫= Managers.director;
             Managers.deputy := Some (Node.email node) |}]>
        contractManagers
    else contractManagers) nodes ∅.

(** [x || ''] on a property that may be missing. *)
Definition orEmpty (x : option string) : string := default "" x.

(** The second loop: one entry per task id.  The object
    [managementEmails] is a map on tasks that are [ownKey]s. *)
Definition initialEmails (nodes : list Node.t) (contractManagers : gmap string Managers.t)
    (taskIds : list string) : gmap string ManagementEmails.t :=
  fold_left (λ (managementEmails : gmap string ManagementEmails.t) taskId,
    let taskNode :=
      List.find (λ n,
        String.eqb (Node.type n) "task" && bool_decide (Node.task n = Some taskId))
        nodes in
    let contract := from_option Node.contract "" taskNode in
    <[taskId :=
        {| ManagementEmails.contractManagerEmail :=
             orEmpty (contractManagers !! contract ≫= Managers.director);
           ManagementEmails.deputyManagerEmail :=
             orEmpty (contractManagers !! contract ≫= Managers.deputy);
           ManagementEmails.taskLeadEmail := "";
           ManagementEmails.teamLeadEmail := "" |}]> managementEmails)
    taskIds ∅.

(** The third loop: the first lead of a task that has an email. *)
Definition withLeads (nodes : list Node.t)
    (managementEmails : gmap string ManagementEmails.t)
  : gmap string ManagementEmails.t :=
  fold_left (λ (managementEmails : gmap string ManagementEmails.t) node,
    match Node.task node with
    | Some task =>
        if nonEmpty task && nonEmpty (Node.email node)
           && String.eqb (Node.type node) "lead"
        then
          match managementEmails !! task with
          | Some entry =>
              if negb (nonEmpty (ManagementEmails.teamLeadEmail entry)) then
                <[task :=
                    {| ManagementEmails.contractManagerEmail :=
                         ManagementEmails.contractManagerEmail entry;
                       ManagementEmails.deputyManagerEmail :=
                         ManagementEmails.deputyManagerEmail entry;
                       ManagementEmails.taskLeadEmail :=
                         ManagementEmails.taskLeadEmail entry;
                       ManagementEmails.teamLeadEmail := Node.email node |}]>
                  managementEmails
              else managementEmails
          | None => managementEmails
          end
        else managementEmails
    | None => managementEmails
    end) nodes managementEmails.

(** [getManagementEmails()]; nothing inside its [try] throws. *)
Definition getManagementEmails (w : World)
  : gmap string ManagementEmails.t * World :=
  let '(nodes, w) := getAllData w in
  let contractManagers := contractManagersOf nodes in
  let '(taskIds, w) := getTasks w in
  (withLeads nodes (initialEmails nodes contractManagers taskIds), w).

(** The profile that [getUserProfile] returns. *)
Module Profile.
Record t : Type := {
  id : string;
  name : string;
  email : string;
  title : string;
  type : string;
  company : string;
  profilePicture : option string;
  upid : option string;
  tasks : list string;
  teams : list string;
  contracts : list string;
  primaryTask : option string;
  primaryTeam : option string;
  entries : list Node.t
}.
End Profile.

(** [[...new Set(values.filter(Boolean))]]: the truthy values, each once,
    in first-seen order. *)
Definition distinctTruthy (values : list (option string)) : list string :=
  fold_left (λ seen value,
    match value with
    | Some s => if nonEmpty s then setAdd s seen else seen
    | None => seen
    end) values [].

(** [getUserProfile(email)]; [None] is the [null] it returns. *)
Definition getUserProfile (email : option string) (w : World)
  : option Profile.t * World :=
  let '(entries, w) := getByEmail email w in
  match entries with
  | [] => (None, w)
  | primary :: _ =>
      let tasks := distinctTruthy (map Node.task entries) in
      let teams := distinctTruthy (map Node.team entries) in
      let contracts := distinctTruthy (map (λ e, Some (Node.contract e)) entries) in
      (Some {| Profile.id := Node.id primary;
               Profile.name := Node.name primary;
               Profile.email := Node.email primary;
               Profile.title := Node.title primary;
               Profile.type := Node.type primary;
               Profile.company := Node.company primary;
               Profile.profilePicture := Node.profilePicture primary ≫= orNull;
               Profile.upid := Node.upid primary ≫= orNull;
               Profile.tasks := tasks;
               Profile.teams := teams;
               Profile.contracts := contracts;
               Profile.primaryTask := head tasks;
               Profile.primaryTeam := head teams;
               Profile.entries := entries |}, w)
  end.


(** The node is a director or deputy ([role]) of the contract and has an
    email. *)
Definition managerOf (role contract : string) (n : Node.t) : bool :=
  String.eqb (Node.type n) role && nonEmpty (Node.contract n)
  && nonEmpty (Node.email n) && String.eqb (Node.contract n) contract.

(** The node is a lead of the task and has an email. *)
Definition leadOf (task : string) (n : Node.t) : bool :=
  bool_decide (Node.task n = Some task) && nonEmpty (Node.email n)
  && String.eqb (Node.type n) "lead".

(** The contract of the first node of type task that carries the task. *)
Definition contractOfTask (nodes : list Node.t) (task : string) : string :=
  from_option Node.contract ""
    (List.find (λ n,
       String.eqb (Node.type n) "task" && bool_decide (Node.task n = Some task)) nodes).

(** The first truthy value of a list of optional strings. *)
Definition firstTruthy (values : list (option string)) : option string :=
  match List.find (λ v, from_option nonEmpty false v) values with
  | Some v => v
  | None => None
  end.

(** The first non-empty string of a list, or the empty string. *)
Definition firstNonEmpty (l : list string) : string :=
  default "" (List.find nonEmpty l).

(** The Team Mappings rows that name the task, active or not, in row
    order. *)
Definition rowsOfTask (task : string) (teams : list Team.t) : list Team.t :=
  List.filter (λ t, String.eqb (Team.task t) task) teams.

(** The property value is undefined or a string, so that the string
    methods that [updatePerson] calls on it exist. *)
Definition undefinedOrString (a : Arg) : bool :=
  match a with
  | AUndefined | AVal (CStr _) => true
  | _ => false
  end.

(** The record is a director of the contract and has a UPID. *)
Definition directorOf (contract : string) (p : Person.t) : bool :=
  String.eqb (Person.nodeType p) "director" && nonEmpty (Person.contract p)
  && nonEmpty (Person.upid p) && String.eqb (Person.contract p) contract.

(** The string has no space. *)
Fixpoint noSpace (s : string) : bool :=
  match s with
  | EmptyString => true
  | String c s' => negb (Ascii.eqb c " "%char) && noSpace s'
  end.

(** [getTaskColors()] of this service: the colours of [TeamsCrudService],
    or the default colour alone without that service. *)
Definition getTaskColors (w : World) : gmap string string * World :=
  match teamsCrudService w with
  | Some d => (TeamsCrudService.getTaskColors (allTeams d), logAccess TeamsRead w)
  | None => ({["default" := "#95a5a6"]}, w)
  end.

(** [getTaskFriendlyNames()] of this service; nothing inside its [try]
    throws. *)
Definition getTaskFriendlyNames (w : World) : gmap string string * World :=
  match teamsCrudService w with
  | Some d => (TeamsCrudService.getTaskFriendlyNames (allTeams d), logAccess TeamsRead w)
  | None => (∅, w)
  end.

(** The cache entry of the vacancies holds nothing stale: a cached list is
    what the loop of [getAllVacantPositions] reads from the sheet now. *)
Definition vacantsCoherent (s : TeamsCrudService.Store) : Prop :=
  match TeamsCrudService.vacantsCache s with
  | Some (Some cached) =>
      cached = from_option TeamsCrudService.readVacantRows []
                 (TeamsCrudService.vacantSheet s)
  | _ => True
  end.

(* ===================================================================== *)
(** The numbers that [/TEAM-(\d+)/] and [parseInt] read in the ids of the
    teams, as exact integers. *)
Definition teamNumbers (teams : list Team.t) : list Z :=
  omap (λ t, TeamsCrudService.matchTeamNumber (Team.teamId t) ≫= readInteger) teams.

(** Every team number is an integer that a Number holds exactly. *)
Definition safeTeamNumbers (teams : list Team.t) : bool :=
  forallb safeInteger (teamNumbers teams).

(** The largest team number, 0 when there is none. *)
Definition maxReadTeamNumber (teams : list Team.t) : Z :=
  foldr Z.max 0%Z (teamNumbers teams).

(** ** More concrete data *)
(* ===================================================================== *)

(** A world in which no Team List sheet is found. *)
Definition worldNoSheet : World :=
  {| teamList := None;
     teamsCrudService := Some {| allTeams := [teamPM]; vacantStore := mkStore [] |};
     appCache := Some {| all_data := None; teamlist_raw := None |};
     permitted := true;
     accesses := [] |}.

(** The world of the vacancies after a first [getAllData], which warms the
    cache. *)
Definition worldVacanciesWarm : World := snd (getAllData worldVacancies).

(** The store of the vacancies in that world: the cache entry holds what
    was read. *)
Definition storeVacanciesWarm : TeamsCrudService.Store :=
  {| TeamsCrudService.vacantSheet := Some (mkVacantSheet [vacantE; vacantOrphan]);
     TeamsCrudService.vacantsCache := Some (Some [vacantE; vacantOrphan]) |}.

(** Mapping rows of TASK-002: the first one has no name and no colour and
    is inactive, the second one names and colours the task. *)
Definition teamBare : Team.t :=
  {| Team.contract := "Forward"; Team.task := "TASK-002"; Team.taskName := "";
     Team.teamId := "TEAM-002"; Team.teamName := "Quality"; Team.isActive := false;
     Team.color := ""; Team.description := ""; Team.defaultSlaThreshold := "";
     Team.notifyOnEscalation := false; Team.displayOrder := 2; Team.rowIndex := 3 |}.

Definition teamNamed : Team.t :=
  {| Team.contract := "SQuAT"; Team.task := "TASK-002";
     Team.taskName := "Task 2 - Quality"; Team.teamId := "TEAM-003";
     Team.teamName := "Audits"; Team.isActive := true; Team.color := "#9b59b6";
     Team.description := "Audits of deliverables"; Team.defaultSlaThreshold := "80";
     Team.notifyOnEscalation := true; Team.displayOrder := 5; Team.rowIndex := 4 |}.

(** A Vacant Positions sheet with two open vacancies of TASK-003 and one
    that was closed. *)
Definition vacantSheetA : Sheet :=
  {| headers := map CStr TeamsCrudService.VACANT_HEADERS;
     body :=
       [ [ CStr "VAC-003-1"; CStr "SQuAT"; CStr "TASK-003"; CStr ""; CStr "Analyst";
           CStr "330-012"; CStr ""; CStr ""; CBool true ];
         [ CStr "VAC-003-2"; CStr "SQuAT"; CStr "TASK-003"; CStr "TEAM-999"; CStr "";
           CStr ""; CStr ""; CStr ""; CBool false ];
         [ CStr "VAC-003-3"; CStr "SQuAT"; CStr "TASK-003"; CStr ""; CStr "";
           CStr ""; CStr ""; CStr ""; CStr "TRUE" ] ] |}.

Definition storeA : TeamsCrudService.Store :=
  {| TeamsCrudService.vacantSheet := Some vacantSheetA;
     TeamsCrudService.vacantsCache := Some None |}.

(** A vacancy of TASK-003 described by its task and title only. *)
Definition vacantInputA : TeamsCrudService.VacantInput.t :=
  {| TeamsCrudService.VacantInput.vacantId := "";
     TeamsCrudService.VacantInput.contract := "SQuAT";
     TeamsCrudService.VacantInput.task := Some "TASK-003";
     TeamsCrudService.VacantInput.team := "";
     TeamsCrudService.VacantInput.title := "";
     TeamsCrudService.VacantInput.supervisorUpid := "330-012";
     TeamsCrudService.VacantInput.targetHireDate := "";
     TeamsCrudService.VacantInput.requirements := "" |}.

(** The roster after the same new hire has been added twice: two rows carry
    the UPID 400-008. *)
Definition worldTwoHires : World :=
  snd (addPerson newHire (snd (addPerson newHire worldA))).

Definition sheetTwoHires : Sheet := default sheetA (teamList worldTwoHires).

(** An analyst whose email has a letter outside ASCII: é is the bytes
    C3 A9. *)
Definition emailRene : string :=
  "Ren" +:+ String "195"%char (String "169"%char "@Example.org").

Definition rowRene : list Cell :=
  mkRow [ ("Unique Personnel ID (UPID)", CStr "410-030");
          ("Contract Personnel Code (CPC)", CStr "410");
          ("Email", CStr emailRene);
          ("Personnel Contract Status", CStr "Active") ].

Definition worldRene : World := mkWorld (mkSheet [rowRene]) [] [].

(** The same address in capitals (É is the bytes C3 89), after a no-break
    space (C2 A0) and before a space. *)
Definition queryRene : string :=
  String "194"%char (String "160"%char
    ("REN" +:+ String "195"%char (String "137"%char "@EXAMPLE.ORG "))).




(** Two more active mappings of TASK-001 that carry the name of [teamPM]:
    one without a Team ID, one with another Team ID. *)
Definition teamNoId : Team.t :=
  mkTeam "SQuAT" "TASK-001" "" "Program Management Team" true.

Definition teamTwin : Team.t :=
  mkTeam "SQuAT" "TASK-001" "TEAM-009" "Program Management Team" true.

(* ===================================================================== *)
(** ** Properties *)
(* ===================================================================== *)

(** *** The read path *)

Lemma readRows_nil (sheet : Sheet) : body sheet = [] → readRows sheet = [].
Proof. intros H. unfold readRows. by rewrite H. Qed.

(** A second [getAllVacantPositions] serves what the first one served. *)
Lemma getAllVacantPositions_again (s : TeamsCrudService.Store) :
  fst (TeamsCrudService.getAllVacantPositions
         (snd (TeamsCrudService.getAllVacantPositions s)))
  = fst (TeamsCrudService.getAllVacantPositions s).
Proof.
  unfold TeamsCrudService.getAllVacantPositions, TeamsCrudService._getVacantSheet.
  destruct s as [[sheet|] [[cached|]|]]; cbn; try done.
  - destruct (body sheet) eqn:Hb; cbn; [by rewrite Hb|done].
  - destruct (body sheet) eqn:Hb; cbn; by rewrite Hb.
Qed.

(** The step of the read path that asks for the vacancies: what it serves,
    and that a later step is served the same. *)
Ltac served d :=
  let vs := fresh "vs" in
  let s1 := fresh "s" in
  let E := fresh "E" in
  let Hagain := fresh "Hagain" in
  pose proof (getAllVacantPositions_again (vacantStore d)) as Hagain;
  unfold allVacantPositions in *;
  destruct (TeamsCrudService.getAllVacantPositions (vacantStore d)) as [vs s1] eqn:E;
  cbn [fst snd] in *; simpl; rewrite ?Hagain; try done.

(** With a coherent cache and a Team List in place, [getAllData] returns
    what its [try] block computes from the stores, cache hit or not. *)
Lemma getAllData_fresh (w : World) (sheet : Sheet) :
  coherent w → teamList w = Some sheet →
  fst (getAllData w) = freshData w sheet.
Proof.
  intros Hc Hs. unfold coherent in Hc. rewrite Hs in Hc.
  unfold getAllData, _readTeamListRaw, _getTeamListSheet, getAllTeams,
    getAllVacantPositions, freshData, teamsOf, vacantsOf.
  destruct w as [tl tc ac pm acc]. simpl in *. subst tl.
  destruct ac as [[ad tr]|]; simpl in *.
  - destruct Hc as [Hr Ha].
    destruct ad as [l|]; simpl in *; [done|].
    destruct tr as [r|]; simpl in *.
    + subst r. destruct tc as [d|]; simpl; [served d|reflexivity].
    + destruct (body sheet) eqn:Hb.
      * rewrite (readRows_nil _ Hb). destruct tc as [d|]; simpl; [served d|reflexivity].
      * destruct tc as [d|]; simpl; [served d|reflexivity].
  - destruct (body sheet) eqn:Hb.
    + rewrite (readRows_nil _ Hb). destruct tc as [d|]; simpl; [served d|reflexivity].
    + destruct tc as [d|]; simpl; [served d|reflexivity].
Qed.

(** Without a Team List the [catch] branch answers with the empty list. *)
Lemma getAllData_no_sheet (w : World) :
  coherent w → teamList w = None → fst (getAllData w) = [].
Proof.
  intros Hc Hs. unfold coherent in Hc. rewrite Hs in Hc.
  unfold getAllData, _readTeamListRaw, _getTeamListSheet.
  destruct w as [tl tc ac pm acc]. simpl in *. subst tl.
  destruct ac as [[ad tr]|]; simpl in *; [|done].
  destruct Hc as [-> ->]. done.
Qed.

Ltac skip_guards H :=
  repeat match type of H with
  | (if ?b then _ else _) = _ => destruct b; [discriminate|]
  end.

Lemma readRow_rowIndex colMap i row p :
  readRow colMap i row = Some p → Person._rowIndex p = i + 1.
Proof. unfold readRow. intros H. skip_guards H. by inversion H. Qed.

Lemma readRow_nodeType colMap i row p :
  readRow colMap i row = Some p → Person.nodeType p = deriveNodeType colMap row.
Proof. unfold readRow. intros H. skip_guards H. by inversion H. Qed.

(** The records of the reader are those of the rows that [readRow] keeps,
    each tagged with the position of its row. *)
Lemma readRowsFrom_elem colMap rows : ∀ i p,
  p ∈ readRowsFrom colMap i rows ↔
  ∃ k row, rows !! k = Some row ∧ readRow colMap (i + k) row = Some p.
Proof.
  induction rows as [|r rows IH]; intros i p; simpl.
  - split; [by intros ?%elem_of_nil | by intros (k & row & ? & _)].
  - split.
    + intros H. destruct (readRow colMap i r) as [q|] eqn:Hq.
      * apply elem_of_cons in H as [->|H].
        -- exists 0, r. by rewrite Nat.add_0_r.
        -- apply IH in H as (k & row & Hk & Hr). exists (S k), row.
           split; [done|]. by rewrite <- Nat.add_succ_comm.
      * apply IH in H as (k & row & Hk & Hr). exists (S k), row.
        split; [done|]. by rewrite <- Nat.add_succ_comm.
    + intros (k & row & Hk & Hr). destruct k as [|k]; simpl in Hk.
      * inversion Hk; subst. rewrite Nat.add_0_r in Hr. rewrite Hr.
        apply elem_of_cons; by left.
      * rewrite <- Nat.add_succ_comm in Hr.
        assert (p ∈ readRowsFrom colMap (S i) rows) by (apply IH; eauto).
        destruct (readRow colMap i r); [apply elem_of_cons; by right | done].
Qed.




Lemma personRecord_in_assemble teams vacants personnel p :
  p ∈ personnel →
  personRecord p (resolvedParent teams personnel p) ∈ assemble teams vacants personnel.
Proof.
  intros Hp. unfold assemble, personRecords.
  apply elem_of_cons; right. apply elem_of_app; right. apply elem_of_app; right.
  apply elem_of_app; left.
  apply list_elem_of_In.
  apply (in_map (λ q, personRecord q (resolvedParent teams personnel q))).
  by apply list_elem_of_In.
Qed.

(** *** Cache coherence *)

(** The caches stay coherent along the read path and after every write
    to the Team List, which ends with [_invalidateCache]. *)
Lemma coherent_invalidateCache (w : World) : coherent (_invalidateCache w).
Proof.
  unfold coherent, _invalidateCache.
  destruct (appCache w) as [c|] eqn:Hc; simpl; [|by rewrite Hc].
  by destruct (teamList w).
Qed.

Lemma getAllData_coherent (w : World) : coherent w → coherent (snd (getAllData w)).
Proof.
  unfold coherent, getAllData, _readTeamListRaw, _getTeamListSheet, getAllTeams,
    getAllVacantPositions, freshData, teamsOf, vacantsOf.
  destruct w as [tl tc ac pm acc]. simpl.
  destruct ac as [[ad tr]|]; simpl; [|destruct tl as [sheet|]; simpl].
  - destruct tl as [sheet|]; simpl.
    + intros [Hr Ha]. destruct ad as [l|]; simpl in *; [done|].
      destruct tr as [r|]; simpl in *.
      * subst r. destruct tc as [d|]; simpl; [served d|done].
      * destruct (body sheet) eqn:Hb; simpl.
        -- destruct tc as [d|]; unfold readRows; simpl; rewrite ?Hb;
             [served d; by rewrite Hb|done].
        -- destruct tc as [d|]; unfold readRows; simpl; rewrite ?Hb;
             [served d; by rewrite Hb|done].
    + intros [-> ->]. simpl. done.
  - intros _. destruct (body sheet); simpl; destruct tc as [d|]; simpl;
      first [done|served d].
  - done.
Qed.

Lemma updatePerson_coherent (id : string) (updates : Updates) (w : World) :
  coherent w → coherent (snd (updatePerson id updates w)).
Proof.
  intros Hc. unfold updatePerson.
  destruct (negb (permitted w)); [done|].
  destruct (_getTeamListSheet w) as [sheet|m]; [|done].
  destruct (findRow id sheet); [|done].
  destruct (splitName updates) as [u1|m]; [|done].
  destruct (parentToSupervisor u1) as [u2|m]; [|done].
  apply coherent_invalidateCache.
Qed.

Lemma addPerson_coherent (person : PersonInput.t) (w : World) :
  coherent w → coherent (snd (addPerson person w)).
Proof.
  intros Hc. unfold addPerson.
  destruct (negb (permitted w)); [done|].
  destruct (_getTeamListSheet w) as [sheet|m]; [|done].
  destruct (nonEmpty (PersonInput.upid person)); [apply coherent_invalidateCache|].
  destruct (nonEmpty (PersonInput.hid person)); [apply coherent_invalidateCache|].
  unfold _generateNextHid.
  destruct (_readTeamListRaw w) as [[r|m] w'] eqn:Hr; simpl.
  - apply coherent_invalidateCache.
  - (* _readTeamListRaw threw: the world is the one it left *)
    revert Hr. unfold _readTeamListRaw, _getTeamListSheet.
    destruct w as [tl tc ac pm acc]. simpl.
    unfold coherent in Hc. simpl in Hc.
    destruct ac as [[ad tr]|]; simpl.
    + destruct tr as [r0|]; simpl; [discriminate|].
      destruct tl as [sh|]; simpl.
      * destruct (body sh); simpl; discriminate.
      * intros [= <- <-]. unfold coherent. simpl. done.
    + destruct tl as [sh|]; simpl.
      * destruct (body sh); simpl; discriminate.
      * intros [= <- <-]. done.
Qed.

(** *** Vacancy classification *)




(** *** Node type derivation *)

Lemma CPC_LEVEL_MAP_nonEmpty k ty :
  CPC_LEVEL_MAP !! k = Some ty → nonEmpty ty = true.
Proof.
  intros H. apply elem_of_list_to_map_2 in H.
  repeat (apply elem_of_cons in H as [H|H]; [by inversion H|]).
  by apply elem_of_nil in H.
Qed.

Lemma CPC_LEVEL_MAP_empty_key : CPC_LEVEL_MAP !! "" = None.
Proof. by vm_compute. Qed.

(** Without an explicit Node Type, the type that the reader computes
    before the leadership promotion is the derived type of the spec. *)
Lemma cpc_type_spec colMap row :
  nonEmpty (toLowerCase (trim (strOr (cell colMap row "Node Type")))) = false →
  (if nonEmpty (strOr (cell colMap row "Contract Personnel Code (CPC)")) then
     match CPC_LEVEL_MAP
             !! charAt0 (strOr (cell colMap row "Contract Personnel Code (CPC)")) with
     | Some ty => orElse ty "person"
     | None => "person"
     end
   else "person") = derivedTypeSpec colMap row.
Proof.
  intros He. unfold derivedTypeSpec. rewrite He.
  destruct (strOr (cell colMap row "Contract Personnel Code (CPC)")) as [|c s] eqn:Hc.
  - simpl. by rewrite CPC_LEVEL_MAP_empty_key.
  - change (nonEmpty (String c s)) with true. cbv iota.
    destruct (CPC_LEVEL_MAP !! charAt0 (String c s)) as [ty|] eqn:Hl; [|done].
    unfold orElse. by rewrite (CPC_LEVEL_MAP_nonEmpty _ _ Hl).
Qed.

(** C6, as amended.  For a row that the reader keeps and that the
    departure rule does not force to [vacant]: when the Node Type cell is
    empty, the type derived from the CPC (or the [person] default) is
    [person] and the Portfolio Leadership? cell is true, 'TRUE' or 'Yes',
    the record's node type is [director]; when the Node Type cell holds an
    explicit type, the record keeps that type, lowercased, whatever the
    leadership flag says. *)
Theorem leadership_override (colMap : gmap string nat) (i : nat) (row : list Cell)
    (p : Person.t) :
  readRow colMap i row = Some p →
  departedVacancy colMap row = false →
  (nonEmpty (toLowerCase (trim (strOr (cell colMap row "Node Type")))) = false →
   derivedTypeSpec colMap row = "person" →
   isTrueFlag (cell colMap row "Portfolio Leadership?") = true →
   Person.nodeType p = "director")
  ∧ (nonEmpty (toLowerCase (trim (strOr (cell colMap row "Node Type")))) = true →
     Person.nodeType p = toLowerCase (trim (strOr (cell colMap row "Node Type")))).
Proof.
  intros Hr Hv. rewrite (readRow_nodeType _ _ _ _ Hr).
  unfold departedVacancy in Hv. unfold deriveNodeType. rewrite Hv.
  split.
  - intros He Hd Hf. rewrite He, Hf. rewrite (cpc_type_spec _ _ He), Hd. reflexivity.
  - intros He. by rewrite He.
Qed.

(** A CPC 410 row with the leadership flag and no Node Type is read as a
    director. *)
Lemma leadership_override_witness :
  ∃ p, readRow (colMapOf (headers (mkSheet []))) 1 rowDerivedPerson = Some p
    ∧ Person.nodeType p = "director".
Proof.
  destruct (readRow (colMapOf (headers (mkSheet []))) 1 rowDerivedPerson)
    as [p|] eqn:Hr; [|vm_compute in Hr; discriminate].
  exists p. split; [reflexivity|].
  destruct (leadership_override _ _ _ _ Hr) as [H _].
  - vm_compute. reflexivity.
  - apply H; vm_compute; reflexivity.
Defined.

(** C6 as stated fails: the row [rowExplicitPerson] has the explicit Node
    Type [person] and the leadership flag 'TRUE', it is neither excluded
    nor departed, and its record stays a [person]. *)
Lemma leadership_override_counterexample :
  ¬ (∀ (colMap : gmap string nat) (i : nat) (row : list Cell) (p : Person.t),
       readRow colMap i row = Some p →
       derivedTypeSpec colMap row = "person" →
       isTrueFlag (cell colMap row "Portfolio Leadership?") = true →
       departedVacancy colMap row = false →
       Person.nodeType p = "director").
Proof.
  intros H.
  destruct (readRow (colMapOf (headers (mkSheet []))) 1 rowExplicitPerson)
    as [p|] eqn:Hr; [|vm_compute in Hr; discriminate].
  specialize (H _ _ _ _ Hr).
  rewrite (readRow_nodeType _ _ _ _ Hr) in H.
  assert (deriveNodeType (colMapOf (headers (mkSheet []))) rowExplicitPerson
          = "person") as E by (vm_compute; reflexivity).
  rewrite E in H.
  discriminate H; vm_compute; reflexivity.
Qed.

(** *** Parent resolution *)

Lemma find_first_match {A} (f : A → bool) (l : list A) (x : A) :
  x ∈ l → f x = true → ∃ y, List.find f l = Some y ∧ y ∈ l ∧ f y = true.
Proof.
  intros Hin Hf. destruct (List.find f l) as [y|] eqn:E.
  - exists y. apply find_some in E as [? ?]. split; [done|].
    split; [by apply list_elem_of_In | done].
  - apply list_elem_of_In in Hin. pose proof (find_none _ _ E _ Hin). congruence.
Qed.

Lemma teamNode_id_elem teams personnel t :
  t ∈ teams → nonEmpty (Team.teamId t) = true → Team.isActive t = true →
  ID_PREFIX_TEAM +:+ Team.teamId t
  ∈@{gset string} list_to_set (map Node.id (teamNodes (_deriveStructuralNodes teams personnel))).
Proof.
  intros Hin Hid Hact. apply elem_of_list_to_set. simpl.
  apply list_elem_of_In. rewrite map_map. simpl.
  apply (in_map (λ t, ID_PREFIX_TEAM +:+ Team.teamId t)).
  apply list_elem_of_In, list_elem_of_filter. split; [|done].
  by rewrite Hid, Hact.
Qed.

(** C4.  A record that is neither director nor deputy, has a task and a
    primary workstream, and whose workstream is the name of an active team
    mapping [t] of the same task (a team: it has a team id, and the name
    denotes one team within the task): [_resolveParentId], called with the
    team node ids that [getAllData] derives from the mappings, returns
    ['team:' + t.teamId], whatever the UPID index holds, so also when the
    record's supervisor is an existing record of the same task. *)
Theorem team_match_precedence (teams : list Team.t) (personnel : list Person.t)
    (person : Person.t) (t : Team.t)
    (upidMap : gmap string Person.t) (teamToTask : gmap string string)
    (taskNodeIds : gset string) :
  String.eqb (Person.nodeType person) "director" = false →
  String.eqb (Person.nodeType person) "deputy" = false →
  nonEmpty (Person.task person) = true →
  nonEmpty (Person.primaryWorkstream person) = true →
  t ∈ teams → teamMatches person t = true →
  nonEmpty (Team.teamId t) = true →
  (∀ t', t' ∈ teams → teamMatches person t' = true → Team.teamId t' = Team.teamId t) →
  _resolveParentId teams person upidMap teamToTask
    (list_to_set (map Node.id (teamNodes (_deriveStructuralNodes teams personnel))))
    taskNodeIds
  = "team:" +:+ Team.teamId t.
Proof.
  intros Hdir Hdep Htask Hws Hin Hm Hid Huniq.
  unfold _resolveParentId. rewrite Hdir, Hdep, Htask, Hws. simpl.
  destruct (find_first_match (teamMatches person) teams t Hin Hm) as (y & Hf & Hy & Hmy).
  unfold teamMatches in Hf. rewrite Hf.
  pose proof (Huniq y Hy Hmy) as Heq. rewrite Heq, Hid. simpl.
  rewrite bool_decide_eq_true_2; [done|].
  rewrite <- Heq. apply (teamNode_id_elem teams personnel y); [done| by rewrite Heq |].
  unfold teamMatches in Hmy. by apply andb_true_iff in Hmy as [_ ?].
Qed.

(** Scenario A: the lead 310-003 of TASK-001, supervised by 100-001, is
    placed under [team:TEAM-001]. *)
Lemma team_match_precedence_witness :
  ∃ p, readRow (colMapOf (headers sheetA)) 2 rowScenarioA = Some p
    ∧ Person.supervisorUpid p = "100-001"
    ∧ resolvedParent [teamPM] (readRows sheetA) p = "team:TEAM-001".
Proof.
  destruct (readRow (colMapOf (headers sheetA)) 2 rowScenarioA) as [p|] eqn:Hr;
    [|vm_compute in Hr; discriminate].
  vm_compute in Hr. inversion Hr as [Hp]. clear Hr.
  eexists. split; [reflexivity|]. split; [reflexivity|].
  unfold resolvedParent.
  apply (team_match_precedence [teamPM] (readRows sheetA) _ teamPM);
    try (vm_compute; reflexivity).
  - apply list_elem_of_singleton. reflexivity.
  - intros t' Ht' _. apply list_elem_of_singleton in Ht'. by subst t'.
Defined.

(** C4 as stated fails: the record of Scenario A matches the active mapping
    [teamPM] of its task by name, and so does [teamNoId], a mapping without
    a Team ID that comes first; [find] stops at that one, no team node is
    chosen, and the record is placed under the task node.  With [teamTwin]
    first, a mapping of the same name and task with another Team ID, the
    record is placed under [team:TEAM-009]. *)
Lemma team_match_precedence_counterexample :
  ¬ (∀ (teams : list Team.t) (personnel : list Person.t) (person : Person.t)
       (t : Team.t),
       String.eqb (Person.nodeType person) "director" = false →
       String.eqb (Person.nodeType person) "deputy" = false →
       nonEmpty (Person.task person) = true →
       t ∈ teams → teamMatches person t = true →
       resolvedParent teams personnel person = "team:" +:+ Team.teamId t)
  ∧ ∃ p, readRow (colMapOf (headers sheetA)) 2 rowScenarioA = Some p
      ∧ resolvedParent [teamNoId; teamPM] (readRows sheetA) p = "task:TASK-001"
      ∧ resolvedParent [teamTwin; teamPM] (readRows sheetA) p = "team:TEAM-009".
Proof.
  destruct (readRow (colMapOf (headers sheetA)) 2 rowScenarioA) as [p|] eqn:Hr;
    [|vm_compute in Hr; discriminate].
  vm_compute in Hr. inversion Hr as [Hp]. clear Hr.
  split.
  - intros H.
    assert (resolvedParent [teamNoId; teamPM] (readRows sheetA) p
            = "team:" +:+ Team.teamId teamPM) as E.
    { apply H; try (rewrite <- ?Hp; vm_compute; reflexivity).
      apply elem_of_cons; right. apply elem_of_cons; by left. }
    rewrite <- ?Hp in E. vm_compute in E. discriminate E.
  - eexists. split; [reflexivity|]. rewrite <- ?Hp. split; vm_compute; reflexivity.
Qed.

(** *** Never-filled vacancies *)

Lemma nonEmpty_true s : nonEmpty s = true ↔ s ≠ "".
Proof.
  unfold nonEmpty. destruct (String.eqb_spec s ""); simpl; split; congruence.
Qed.

(** The UPID index built by the assembler holds exactly the non-empty UPIDs
    of the personnel records. *)
Lemma upidMapOf_fold (personnel : list Person.t) : ∀ (m : gmap string Person.t) u,
  is_Some (fold_left (λ (m : gmap string Person.t) p,
      if nonEmpty (Person.upid p) then <[Person.upid p := p]> m else m) personnel m !! u)
  ↔ is_Some (m !! u) ∨ inUpidIndex personnel u = true.
Proof.
  induction personnel as [|p ps IH]; intros m u; simpl.
  - split; [by left | by intros [?|?]].
  - rewrite IH. destruct (nonEmpty (Person.upid p)) eqn:Hne; simpl.
    + destruct (String.eqb_spec (Person.upid p) u) as [->|Hneq]; simpl.
      * rewrite lookup_insert_eq. split; intros _; [by right | left; eauto].
      * by rewrite lookup_insert_ne.
    + done.
Qed.

Lemma upidMapOf_has personnel u :
  bool_decide (is_Some (upidMapOf personnel !! u)) = inUpidIndex personnel u.
Proof.
  apply eq_true_iff_eq. rewrite bool_decide_eq_true. unfold upidMapOf.
  rewrite upidMapOf_fold. rewrite lookup_empty. split; [|by right].
  intros [[? ?]|?]; done.
Qed.

Lemma inUpidIndex_empty personnel : inUpidIndex personnel "" = false.
Proof.
  unfold inUpidIndex. induction personnel as [|p ps IH]; [done|]. simpl.
  rewrite IH, orb_false_r. unfold nonEmpty.
  by destruct (Person.upid p =? "")%string.
Qed.

(** The parent computed in step 5 of [getAllData] is the cascade of the
    spec. *)
Lemma vacantParentId_spec personnel v :
  vacantParentId (upidMapOf personnel) v = vacancyParentSpec personnel v.
Proof.
  unfold vacantParentId, vacancyParentSpec, orNull.
  destruct (nonEmpty (Vacant.supervisorUpid v)) eqn:Hs.
  - by rewrite upidMapOf_has.
  - unfold nonEmpty in Hs. apply negb_false_iff, String.eqb_eq in Hs.
    by rewrite Hs, inUpidIndex_empty.
Qed.

(** C5.  The result of [getAllData] ends with one node per vacant-position
    record, in order, and these are its only never-filled vacancy nodes;
    the node of a record [v] has [v]'s id and its [parentId] is
    [v.supervisorUpid] when that UPID is in the personnel UPID index, else
    ['team:' + v.team] when [v.team] is non-empty, else ['task:' + v.task]
    when [v.task] is non-empty, else ['root']. *)
Theorem vacancy_parent_cascade (w : World) (sheet : Sheet) :
  coherent w → teamList w = Some sheet →
  ∃ others nodes,
    fst (getAllData w) = others ++ nodes
    ∧ Forall (λ n, Node._isVacantPosition n = false) others
    ∧ Forall2 (λ v n,
        Node.id n = Vacant.vacantId v
        ∧ Node._isVacantPosition n = true
        ∧ Node.parentId n = Some (vacancyParentSpec (readRows sheet) v))
      (vacantsOf w) nodes.
Proof.
  intros Hc Hs. rewrite (getAllData_fresh _ _ Hc Hs).
  unfold freshData, assemble.
  set (s := _deriveStructuralNodes (teamsOf w) (readRows sheet)).
  exists (rootNode :: taskNodes s ++ teamNodes s ++ personRecords (teamsOf w) (readRows sheet)),
    (vacantRecords (readRows sheet) (vacantsOf w)).
  split; [simpl; by rewrite <- !app_assoc|]. split.
  - apply Forall_cons; split; [done|].
    rewrite !Forall_app. repeat split; apply Forall_forall; intros n Hn.
    + subst s. simpl in Hn. apply list_elem_of_In, in_map_iff in Hn as (x & <- & _). done.
    + subst s. simpl in Hn. apply list_elem_of_In, in_map_iff in Hn as (x & <- & _). done.
    + unfold personRecords in Hn. apply list_elem_of_In, in_map_iff in Hn as (x & <- & _). done.
  - unfold vacantRecords. induction (vacantsOf w) as [|v vs IH]; simpl; constructor; [|done].
    simpl. by rewrite vacantParentId_spec.
Qed.

(** Scenario E: the vacancy of TASK-003 without a team, whose supervisor
    330-012 is on the roster, hangs under 330-012. *)
Lemma vacancy_parent_cascade_witness :
  ∃ n, n ∈ fst (getAllData worldVacancies)
    ∧ Node.id n = "VAC-003-1" ∧ Node.parentId n = Some "330-012".
Proof.
  destruct (vacancy_parent_cascade worldVacancies (mkSheet [row330]))
    as (others & nodes & Heq & _ & HF).
  - vm_compute. split; exact I.
  - reflexivity.
  - change (vacantsOf worldVacancies) with [vacantE; vacantOrphan] in HF.
    inversion HF as [|v n vs ns (Hid & _ & Hpar) _]; subst.
    exists n. split; [|split].
    + rewrite Heq. apply elem_of_app; right. apply elem_of_cons; by left.
    + exact Hid.
    + rewrite Hpar. vm_compute. reflexivity.
Defined.

(** *** Lookup by email *)

Lemma filter_bool_prop {A} (f : A → bool) (P : A → Prop) `{∀ x, Decision (P x)}
    (l : list A) :
  (∀ x, f x = true ↔ P x) → List.filter f l = filter P l.
Proof.
  intros Hf. induction l as [|x l IH]; [done|]. simpl.
  rewrite filter_cons. destruct (f x) eqn:E.
  - rewrite decide_True by (by apply Hf). by rewrite IH.
  - rewrite decide_False; [done|]. intros HP%Hf. congruence.
Qed.

(** A property of characters that holds of each of the 256. *)
Lemma ascii_all (P : ascii → bool) :
  forallb P (map ascii_of_nat (seq 0 256)) = true → ∀ c, P c = true.
Proof.
  intros H c. rewrite forallb_forall in H. apply H.
  rewrite <- (ascii_nat_embedding c). apply in_map, in_seq.
  pose proof (nat_ascii_bounded c). lia.
Qed.

Lemma isBlank_isWhiteSpace c : isWhiteSpace c = isBlank c.
Proof.
  apply Bool.eqb_prop.
  apply (ascii_all (λ c, Bool.eqb (isWhiteSpace c) (isBlank c))).
  vm_compute. reflexivity.
Qed.

Lemma isBlank_lowerChar c : isBlank (lowerChar c) = isBlank c.
Proof.
  apply Bool.eqb_prop.
  apply (ascii_all (λ c, Bool.eqb (isBlank (lowerChar c)) (isBlank c))).
  vm_compute. reflexivity.
Qed.

Lemma isAscii_lowerChar c :
  Nat.ltb (nat_of_ascii (lowerChar c)) 128 = Nat.ltb (nat_of_ascii c) 128.
Proof.
  apply Bool.eqb_prop.
  apply (ascii_all (λ c, Bool.eqb (Nat.ltb (nat_of_ascii (lowerChar c)) 128)
                           (Nat.ltb (nat_of_ascii c) 128))).
  vm_compute. reflexivity.
Qed.

Lemma lowerChar_sameLetter x y :
  Ascii.eqb (lowerChar x) (lowerChar y) = sameLetter x y.
Proof.
  apply Bool.eqb_prop. revert y.
  apply (ascii_all (λ y, Bool.eqb (Ascii.eqb (lowerChar x) (lowerChar y)) (sameLetter x y))).
  revert x.
  apply (ascii_all (λ x, forallb (λ y,
    Bool.eqb (Ascii.eqb (lowerChar x) (lowerChar y)) (sameLetter x y))
    (map ascii_of_nat (seq 0 256)))).
  vm_compute. reflexivity.
Qed.

Lemma isAscii_rev_app s : ∀ acc,
  isAscii (String.rev_app s acc) = isAscii s && isAscii acc.
Proof.
  induction s as [|c s IH]; intros acc; [done|]. cbn [String.rev_app isAscii].
  rewrite IH. cbn [isAscii].
  by destruct (Nat.ltb (nat_of_ascii c) 128), (isAscii s), (isAscii acc).
Qed.

Lemma isAscii_rev s : isAscii (String.rev s) = isAscii s.
Proof. unfold String.rev. rewrite isAscii_rev_app. apply andb_true_r. Qed.

Lemma isAscii_dropBlanks s : isAscii s = true → isAscii (dropBlanks s) = true.
Proof.
  induction s as [|c s IH]; [done|]. intros H. simpl.
  destruct (isBlank c); [|done]. simpl in H. apply andb_true_iff in H as [_ H]. by apply IH.
Qed.

Lemma isAscii_lowerAscii s : isAscii (lowerAscii s) = isAscii s.
Proof. induction s as [|c s IH]; [done|]. simpl. by rewrite isAscii_lowerChar, IH. Qed.

(** On an ASCII text the white space skipped is the leading blanks, in
    either direction. *)
Lemma skipWhiteSpace_dropBlanks backwards s :
  isAscii s = true → skipWhiteSpace backwards s = dropBlanks s.
Proof.
  induction s as [|a s IH]; [done|]. intros H.
  cbn [isAscii] in H. apply andb_true_iff in H as [Ha Hs].
  cbn [skipWhiteSpace dropBlanks]. rewrite isBlank_isWhiteSpace.
  destruct (isBlank a); [by apply IH|].
  apply Nat.ltb_lt in Ha.
  destruct s as [|b s2]; [done|].
  cbn [isAscii] in Hs. apply andb_true_iff in Hs as [Hb Hs2]. apply Nat.ltb_lt in Hb.
  assert ((if backwards then isWhiteSpace2 b a else isWhiteSpace2 a b) = false) as ->.
  { unfold isWhiteSpace2. destruct backwards.
    - destruct (Nat.eqb_spec (nat_of_ascii b) 194); [lia|done].
    - destruct (Nat.eqb_spec (nat_of_ascii a) 194); [lia|done]. }
  destruct s2 as [|c s3]; [done|].
  cbn [isAscii] in Hs2. apply andb_true_iff in Hs2 as [Hc _]. apply Nat.ltb_lt in Hc.
  assert (∀ x y z, nat_of_ascii x < 128 → isWhiteSpace3 x y z = false) as H3.
  { intros x y z Hx. unfold isWhiteSpace3.
    destruct (Nat.eqb_spec (nat_of_ascii x) 225); [lia|].
    destruct (Nat.eqb_spec (nat_of_ascii x) 226); [lia|].
    destruct (Nat.eqb_spec (nat_of_ascii x) 227); [lia|].
    destruct (Nat.eqb_spec (nat_of_ascii x) 239); [lia|]. done. }
  destruct backwards; by rewrite H3.
Qed.

Lemma trim_strip s : isAscii s = true → trim s = strip s.
Proof.
  intros H. unfold trim, trimEnd, trimStart, strip.
  rewrite (skipWhiteSpace_dropBlanks false s H).
  rewrite skipWhiteSpace_dropBlanks; [done|].
  rewrite isAscii_rev. by apply isAscii_dropBlanks.
Qed.

Lemma lowerAscii_rev_app s : ∀ acc,
  lowerAscii (String.rev_app s acc) = String.rev_app (lowerAscii s) (lowerAscii acc).
Proof. induction s as [|c s IH]; intros acc; [done|]. simpl. by rewrite IH. Qed.

Lemma lowerAscii_rev s : lowerAscii (String.rev s) = String.rev (lowerAscii s).
Proof. unfold String.rev. by rewrite lowerAscii_rev_app. Qed.

Lemma lowerAscii_dropBlanks s : dropBlanks (lowerAscii s) = lowerAscii (dropBlanks s).
Proof.
  induction s as [|c s IH]; [done|]. simpl. rewrite isBlank_lowerChar.
  by destruct (isBlank c).
Qed.

Lemma lowerAscii_strip s : strip (lowerAscii s) = lowerAscii (strip s).
Proof.
  unfold strip.
  by rewrite lowerAscii_dropBlanks, <- lowerAscii_rev, lowerAscii_dropBlanks, lowerAscii_rev.
Qed.

Lemma lowerAscii_sameLetters a : ∀ b,
  lowerAscii a = lowerAscii b ↔ sameLetters a b = true.
Proof.
  induction a as [|x a IH]; intros [|y b]; simpl; try done.
  rewrite andb_true_iff, <- IH, <- lowerChar_sameLetter, Ascii.eqb_eq.
  split; [intros H; by injection H|intros [-> ->]; done].
Qed.

(** On ASCII texts, equal once lowercased and trimmed is the match of the
    spec. *)
Lemma normalized_sameAddress a b :
  isAscii a = true → isAscii b = true →
  trim (toLowerCase a) = trim (toLowerCase b) ↔ sameAddress a b = true.
Proof.
  intros Ha Hb. unfold toLowerCase. rewrite Ha, Hb.
  rewrite !trim_strip by (by rewrite isAscii_lowerAscii).
  rewrite !lowerAscii_strip. apply lowerAscii_sameLetters.
Qed.

Lemma filter_iff_elem {A} (P Q : A → Prop) `{∀ x, Decision (P x)} `{∀ x, Decision (Q x)}
    (l : list A) :
  (∀ x, x ∈ l → P x ↔ Q x) → filter P l = filter Q l.
Proof.
  induction l as [|x l IH]; intros H1; [done|].
  rewrite !filter_cons.
  assert (filter P l = filter Q l) as ->.
  { apply IH. intros y Hy. apply H1. by right. }
  destruct (decide (P x)) as [HP|HP], (decide (Q x)) as [HQ|HQ]; try done.
  - exfalso. apply HQ, (H1 x); [by left|done].
  - exfalso. apply HP, (H1 x); [by left|done].
Qed.

(** C10.  [getByEmail] of a null, undefined or empty email returns the
    empty list and leaves the world as it is, the record of store and
    cache accesses included; for a non-empty email [e] it returns, in
    order, exactly the nodes of [getAllData()] whose email is non-empty
    and equal to [e] once both are lowercased and trimmed, and the world
    is the one [getAllData()] leaves.  On ASCII texts, equal once
    lowercased and trimmed says what the words say: the two texts without
    their leading and trailing blanks have the same length and, position
    by position, the same character or the same letter in either case; so
    for an ASCII [e] and nodes with ASCII emails the nodes returned are
    those whose non-empty email matches [e] in this sense. *)
Theorem email_lookup :
  (∀ w, getByEmail None w = ([], w))
  ∧ (∀ w, getByEmail (Some "") w = ([], w))
  ∧ (∀ e w, e ≠ "" →
       fst (getByEmail (Some e) w)
       = filter (λ n, Node.email n ≠ ""
                      ∧ trim (toLowerCase (Node.email n)) = trim (toLowerCase e))
           (fst (getAllData w))
       ∧ snd (getByEmail (Some e) w) = snd (getAllData w)
       ∧ (isAscii e = true →
          (∀ n, n ∈ fst (getAllData w) → isAscii (Node.email n) = true) →
          fst (getByEmail (Some e) w)
          = filter (λ n, Node.email n ≠ "" ∧ sameAddress (Node.email n) e = true)
              (fst (getAllData w))))
  ∧ (∀ a b, isAscii a = true → isAscii b = true →
       trim (toLowerCase a) = trim (toLowerCase b) ↔ sameAddress a b = true).
Proof.
  split; [done|]. split; [done|]. split; [|apply normalized_sameAddress].
  intros e w He. unfold getByEmail.
  apply nonEmpty_true in He. rewrite He. simpl.
  destruct (getAllData w) as [data w']. simpl.
  assert (List.filter (λ p, nonEmpty (Node.email p)
                            && (trim (toLowerCase (Node.email p)) =? trim (toLowerCase e))%string)
            data
          = filter (λ n, Node.email n ≠ ""
                         ∧ trim (toLowerCase (Node.email n)) = trim (toLowerCase e)) data)
    as Hfilter.
  { apply filter_bool_prop. intros n.
    rewrite andb_true_iff, nonEmpty_true, String.eqb_eq. done. }
  split; [done|]. split; [done|].
  intros Hascii Hnodes. rewrite Hfilter. apply filter_iff_elem.
  intros n Hn. by rewrite (normalized_sameAddress _ _ (Hnodes n Hn) Hascii).
Qed.

(** The director is found whatever the case and the surrounding spaces,
    and so is an address with a letter outside ASCII, asked for in
    capitals after a no-break space. *)
Lemma email_lookup_witness :
  map Node.id (fst (getByEmail (Some "  DIRECTOR@example.ORG ") worldA)) = ["100-001"]
  ∧ sameAddress "Director@Example.org" "  DIRECTOR@example.ORG " = true
  ∧ map Node.id (fst (getByEmail (Some queryRene) worldRene)) = ["410-030"].
Proof.
  destruct email_lookup as (_ & _ & H & Hsame).
  destruct (H "  DIRECTOR@example.ORG " worldA) as (Hget & _ & Hascii); [discriminate|].
  destruct (H queryRene worldRene) as (Hrene & _); [discriminate|].
  split; [|split].
  - rewrite Hascii; [vm_compute; reflexivity|reflexivity|].
    intros n Hn. apply list_elem_of_In in Hn. vm_compute in Hn.
    repeat (destruct Hn as [<-|Hn]; [reflexivity|]). destruct Hn.
  - apply Hsame; reflexivity.
  - rewrite Hrene. vm_compute. reflexivity.
Defined.

(** *** Write path *)

Lemma findRowFrom_none colMap id rows : ∀ i,
  (∀ row, row ∈ rows → rowHasUpid colMap id row = false) →
  findRowFrom colMap id i rows = None.
Proof.
  induction rows as [|r rows IH]; intros i H; [done|]. simpl.
  rewrite (H r) by (apply elem_of_cons; by left).
  apply IH. intros row Hrow. apply H, elem_of_cons. by right.
Qed.

(** The search stops at the first row that carries the UPID. *)
Lemma findRowFrom_some colMap id rows : ∀ i row,
  row ∈ rows → rowHasUpid colMap id row = true →
  ∃ k r, findRowFrom colMap id i rows = Some (i + k)
    ∧ rows !! k = Some r ∧ rowHasUpid colMap id r = true
    ∧ ∀ j r', j < k → rows !! j = Some r' → rowHasUpid colMap id r' = false.
Proof.
  induction rows as [|r rows IH]; intros i row Hin Hrow.
  - by apply elem_of_nil in Hin.
  - simpl. destruct (rowHasUpid colMap id r) eqn:Hr.
    + exists 0, r. rewrite Nat.add_0_r. repeat split; try done. intros; lia.
    + apply elem_of_cons in Hin as [->|Hin]; [congruence|].
      destruct (IH (S i) row Hin Hrow) as (k & r0 & Hf & Hk & Hr0 & Hmin).
      exists (S k), r0. rewrite <- Nat.add_succ_comm. repeat split; try done.
      intros [|j] r' Hj Hl; simpl in Hl; [by inversion Hl; subst|].
      apply (Hmin j); [lia|done].
Qed.

(** C8.  For a caller that passes the permission gate: when no row of the
    Team List has the UPID [id] (the comparison of the source: both sides
    as strings, trimmed), [updatePerson(id, updates)] returns
    [{success: false, error}] and, for an [id] that does not start with
    'VAC-', so does [deletePerson(id)]; no exception escapes and the world
    after the call is the world before it: no cell is written and no cache
    entry is touched.  The same holds when there is no Team List at all,
    with the message of that error. *)
Theorem not_found_is_structured (w : World) (id : string) (updates : Updates) :
  permitted w = true →
  (∀ sheet row, teamList w = Some sheet → row ∈ body sheet →
     rowHasUpid (colMapOf (headers sheet)) id row = false) →
  updatePerson id updates w
  = (Returned (failed (match teamList w with
                       | Some _ => "Person not found with UPID: " +:+ id
                       | None => SHEET_NOT_FOUND
                       end)), w)
  ∧ (startsWith id "VAC-" = false →
     deletePerson id w
     = (Returned (failed (match teamList w with
                          | Some _ => "Person not found with UPID: " +:+ id
                          | None => SHEET_NOT_FOUND
                          end)), w)).
Proof.
  intros Hp Hnone. unfold updatePerson, deletePerson, _getTeamListSheet.
  rewrite Hp. simpl.
  destruct (teamList w) as [sheet|] eqn:Hs.
  - assert (findRow id sheet = None) as ->.
    { unfold findRow. apply findRowFrom_none. intros row Hrow. by apply (Hnone sheet). }
    split; [done|]. intros ->. by rewrite andb_false_r.
  - split; [done|]. intros ->. by rewrite andb_false_r.
Qed.

(** No row of [sheetA] has the UPID 999-999. *)
Lemma not_found_is_structured_witness :
  updatePerson "999-999" [("title", AVal (CStr "Chief"))] worldA
  = (Returned (failed "Person not found with UPID: 999-999"), worldA)
  ∧ deletePerson "999-999" worldA
    = (Returned (failed "Person not found with UPID: 999-999"), worldA).
Proof.
  destruct (not_found_is_structured worldA "999-999" [("title", AVal (CStr "Chief"))])
    as [H1 H2].
  - reflexivity.
  - intros sheet row Hs Hrow. inversion Hs; subst sheet.
    repeat (apply elem_of_cons in Hrow as [->|Hrow]; [by vm_compute|]).
    by apply elem_of_nil in Hrow.
  - split; [exact H1 | exact (H2 eq_refl)].
Defined.

Lemma setTeamList_same w sheet : teamList w = Some sheet → setTeamList sheet w = w.
Proof. destruct w; simpl; intros ->; reflexivity. Qed.

Lemma teamList_invalidateCache w : teamList (_invalidateCache w) = teamList w.
Proof. unfold _invalidateCache. by destruct (appCache w). Qed.

(** C9.  For a caller that passes the permission gate and an [id] that is
    the UPID of a row: [updatePerson(id, {parentId: p})] with [p] equal to
    'root' or starting with 'task:' or 'team:' returns
    [{success: true, id}], only invalidates the cache, and leaves the sheet
    as it was.  With any other [p] the call returns the same, and the one
    cell written is the Supervisor UPID cell of the first row carrying the
    UPID: in the sheet that the call leaves, the header row, the number of
    rows and every other row are as before, the matched row keeps its width
    and its cells outside the Supervisor UPID column, and its Supervisor
    UPID cell reads [p]; nothing is written when the sheet has no such
    column. *)
Theorem structural_parent_dropped (w : World) (sheet : Sheet) (id p : string) :
  permitted w = true → teamList w = Some sheet →
  (∃ row, row ∈ body sheet ∧ rowHasUpid (colMapOf (headers sheet)) id row = true) →
  (isStructuralId p = true →
     updatePerson id [("parentId", AVal (CStr p))] w
     = (Returned (succeeded id), _invalidateCache w)
     ∧ teamList (snd (updatePerson id [("parentId", AVal (CStr p))] w)) = Some sheet)
  ∧ (isStructuralId p = false →
     ∃ i, findRow id sheet = Some i
       ∧ updatePerson id [("parentId", AVal (CStr p))] w
         = (Returned (succeeded id),
            _invalidateCache
              (setTeamList
                 (match colMapOf (headers sheet) !! "Supervisor UPID" with
                  | Some c => setValue (i + 1) (c + 1) (CStr p) sheet
                  | None => sheet
                  end) w))
       ∧ ∃ row sheet' row',
           body sheet !! (i - 1) = Some row
           ∧ rowHasUpid (colMapOf (headers sheet)) id row = true
           ∧ teamList (snd (updatePerson id [("parentId", AVal (CStr p))] w)) = Some sheet'
           ∧ headers sheet' = headers sheet
           ∧ List.length (body sheet') = List.length (body sheet)
           ∧ (∀ j, j ≠ i - 1 → body sheet' !! j = body sheet !! j)
           ∧ body sheet' !! (i - 1) = Some row'
           ∧ List.length row' = List.length row
           ∧ (∀ j, colMapOf (headers sheet) !! "Supervisor UPID" ≠ Some j →
                row' !! j = row !! j)
           ∧ (∀ c, colMapOf (headers sheet) !! "Supervisor UPID" = Some c →
                c < List.length row →
                row' !! c = Some (CStr p)
                ∧ cell (colMapOf (headers sheet')) row' "Supervisor UPID" = Some (CStr p))).
Proof.
  intros Hp Hs (row & Hin & Hrow).
  destruct (findRowFrom_some _ _ _ 1 _ Hin Hrow) as (k & r & Hf & Hk & Hr & _).
  unfold updatePerson, _getTeamListSheet. rewrite Hp, Hs. simpl.
  unfold findRow. rewrite Hf.
  unfold isStructuralId, parentToSupervisor, ID_ROOT, ID_PREFIX_TASK, ID_PREFIX_TEAM.
  change (getProp [("parentId", AVal (CStr p))] "parentId") with (AVal (CStr p)).
  cbv beta iota.
  split; intros Hst.
  - assert (negb (startsWith p "task:") && negb (startsWith p "team:")
            && negb (p =? "root")%string = false) as ->.
    { destruct (p =? "root")%string, (startsWith p "task:"), (startsWith p "team:");
        simpl in *; congruence. }
    unfold writeUpdates. simpl.
    rewrite (setTeamList_same _ _ Hs). split; [done|].
    simpl. by rewrite teamList_invalidateCache.
  - exists (1 + k). split; [done|].
    assert (negb (startsWith p "task:") && negb (startsWith p "team:")
            && negb (p =? "root")%string = true) as ->.
    { destruct (p =? "root")%string, (startsWith p "task:"), (startsWith p "team:");
        simpl in *; congruence. }
    unfold writeUpdates. simpl.
    replace (k - 0) with k by lia.
    destruct (colMapOf (headers sheet) !! "Supervisor UPID") as [c|] eqn:Hc.
    + split; [done|].
      exists r, (setValue (S k + 1) (c + 1) (CStr p) sheet), (<[c := CStr p]> r).
      replace (S k + 1) with (S (S k)) by lia. unfold setValue. cbn [headers body snd].
      replace (c + 1 - 1) with c by lia. replace (k + 1) with (S k) by lia.
      split; [done|]. split; [done|].
      split; [by rewrite teamList_invalidateCache|].
      split; [done|]. split; [apply length_alter|].
      split; [intros j Hj; apply list_lookup_alter_ne; congruence|].
      split; [by rewrite list_lookup_alter_eq, Hk|].
      split; [apply length_insert|].
      split.
      * intros j Hj. apply list_lookup_insert_ne. congruence.
      * intros c' Hc' Hlt. injection Hc' as <-.
        assert (<[c := CStr p]> r !! c = Some (CStr p)) as Hcell
          by (by apply list_lookup_insert_eq).
        split; [done|]. unfold cell. by rewrite Hc.
    + split; [done|]. exists r, sheet, r.
      split; [done|]. split; [done|].
      split; [cbn [snd]; rewrite teamList_invalidateCache; by rewrite (setTeamList_same _ _ Hs)|].
      repeat split; try done.
Qed.

(** Moving the lead 310-003 under a team node writes nothing; moving the
    same person, supervised by 100-001, under 410-007 leaves a row whose
    Supervisor UPID cell reads 410-007. *)
Lemma structural_parent_dropped_witness :
  updatePerson "310-003" [("parentId", AVal (CStr "team:TEAM-001"))] worldA
  = (Returned (succeeded "310-003"), _invalidateCache worldA)
  ∧ cell (colMapOf (headers sheetA)) rowScenarioA "Supervisor UPID" = Some (CStr "100-001")
  ∧ ∃ sheet' row',
      teamList (snd (updatePerson "310-003" [("parentId", AVal (CStr "410-007"))] worldA))
      = Some sheet'
      ∧ body sheet' !! 1%nat = Some row'
      ∧ cell (colMapOf (headers sheet')) row' "Supervisor UPID" = Some (CStr "410-007").
Proof.
  assert (∃ row, row ∈ body sheetA
            ∧ rowHasUpid (colMapOf (headers sheetA)) "310-003" row = true) as Hrow.
  { exists rowScenarioA. split; [|vm_compute; reflexivity].
    apply elem_of_cons; right. apply elem_of_cons; by left. }
  split; [|split; [vm_compute; reflexivity|]].
  - destruct (structural_parent_dropped worldA sheetA "310-003" "team:TEAM-001"
                eq_refl eq_refl Hrow) as [H _].
    apply (H eq_refl).
  - destruct (structural_parent_dropped worldA sheetA "310-003" "410-007"
                eq_refl eq_refl Hrow) as [_ H].
    destruct (H eq_refl)
      as (i & Hi & _ & row & sheet' & row' & Hr & _ & Htl & _ & _ & _ & Hr' & _ & _ & Hcell).
    vm_compute in Hi. inversion Hi; subst i.
    exists sheet', row'. split; [exact Htl|]. split; [exact Hr'|].
    apply (Hcell 16).
    + vm_compute. reflexivity.
    + apply Nat.ltb_lt. vm_compute in Hr. inversion Hr; subst row. vm_compute. reflexivity.
Defined.

(** *** HID generation *)

(** With a coherent cache, [_readTeamListRaw] returns the records of the
    sheet and leaves sheet and permission as they are. *)
Lemma readTeamListRaw_fresh (w : World) (sheet : Sheet) :
  coherent w → teamList w = Some sheet →
  fst (_readTeamListRaw w) = Ok (readRows sheet)
  ∧ teamList (snd (_readTeamListRaw w)) = Some sheet
  ∧ permitted (snd (_readTeamListRaw w)) = permitted w.
Proof.
  intros Hc Hs. unfold coherent in Hc. rewrite Hs in Hc.
  unfold _readTeamListRaw, _getTeamListSheet.
  destruct w as [tl tc ac pm acc]. simpl in *. subst tl.
  destruct ac as [[ad tr]|]; simpl in *.
  - destruct Hc as [Hr _]. destruct tr as [r|]; simpl in *; [by subst|].
    destruct (body sheet) eqn:Hb; [by rewrite (readRows_nil _ Hb)|done].
  - destruct (body sheet) eqn:Hb; [by rewrite (readRows_nil _ Hb)|done].
Qed.

(** Up to 2^53 every integer is a double, and prints as its decimal. *)
Lemma nearestDouble_exact n : (0 ≤ n ≤ 2 ^ 53)%Z → nearestDouble n = n.
Proof.
  intros [H0 H1]. unfold nearestDouble.
  destruct (Z.eq_dec n (2 ^ 53)%Z) as [->|Hne]; [by vm_compute|].
  assert (Z.log2 n < 53)%Z as Hlog.
  { destruct (Z.eq_dec n 0%Z) as [->|Hn0]; [by vm_compute|]. apply Z.log2_lt_pow2; lia. }
  destruct (Z.leb_spec (Z.log2 n - 52) 0%Z); [done|lia].
Qed.

Lemma toNumber_exact z : (Z.abs z ≤ 2 ^ 53)%Z → toNumber z = Int z.
Proof.
  intros H. unfold toNumber. rewrite nearestDouble_exact by lia.
  assert (2 ^ 53 < 2 ^ 1024)%Z as Hbig by (apply Z.pow_lt_mono_r; lia).
  destruct (Z.leb_spec (2 ^ 1024)%Z (Z.abs z)); [lia|].
  f_equal. destruct z; simpl; lia.
Qed.

Lemma numberToString_exact z :
  (0 ≤ z ≤ 2 ^ 53)%Z → numberToString (Int z) = pretty z.
Proof.
  intros [H0 H1]. unfold numberToString.
  destruct (Z.ltb_spec z 0%Z); [lia|].
  replace (Z.abs z) with z by lia.
  destruct (Z.ltb_spec z (2 ^ 53)%Z); [done|].
  assert (z = 2 ^ 53)%Z as -> by lia. by vm_compute.
Qed.

Lemma safeInteger_bound z : safeInteger z = true → (Z.abs z < 2 ^ 53)%Z.
Proof. unfold safeInteger. intros H. by apply Z.ltb_lt in H. Qed.

Lemma parseInt10_safe s n :
  readInteger s = Some n → safeInteger n = true → parseInt10 s = Some (Int n).
Proof.
  intros Hs Hn%safeInteger_bound. unfold parseInt10. rewrite Hs. simpl.
  f_equal. apply toNumber_exact. lia.
Qed.

Lemma parseInt10_None s : readInteger s = None → parseInt10 s = None.
Proof. intros H. unfold parseInt10. by rewrite H. Qed.

Lemma safeHids_elem personnel p n :
  safeHids personnel = true → p ∈ personnel → readInteger (Person.hid p) = Some n →
  safeInteger n = true.
Proof.
  unfold safeHids. rewrite forallb_forall. intros H Hp Hn.
  apply list_elem_of_In, H in Hp. by rewrite Hn in Hp.
Qed.

Lemma maxParseableHid_cons p ps :
  maxParseableHid (p :: ps)
  = match readInteger (Person.hid p) with
    | Some n => Z.max n (maxParseableHid ps)
    | None => maxParseableHid ps
    end.
Proof. unfold maxParseableHid. simpl. by destruct (readInteger (Person.hid p)). Qed.

Lemma maxParseableHid_nonneg personnel : (0 ≤ maxParseableHid personnel)%Z.
Proof.
  unfold maxParseableHid.
  induction (omap (λ p, readInteger (Person.hid p)) personnel); simpl; lia.
Qed.

Lemma maxParseableHid_bound personnel p n :
  p ∈ personnel → readInteger (Person.hid p) = Some n → (n ≤ maxParseableHid personnel)%Z.
Proof.
  induction personnel as [|q qs IH]; intros Hin Hn.
  - by apply elem_of_nil in Hin.
  - rewrite maxParseableHid_cons.
    apply elem_of_cons in Hin as [->|Hin].
    + rewrite Hn. lia.
    + specialize (IH Hin Hn). destruct (readInteger (Person.hid q)); lia.
Qed.

Lemma maxParseableHid_safe personnel :
  safeHids personnel = true → (maxParseableHid personnel < 2 ^ 53)%Z.
Proof.
  induction personnel as [|p ps IH]; intros Hs; [by vm_compute|].
  rewrite maxParseableHid_cons.
  assert (safeHids ps = true) as Hps.
  { unfold safeHids in *. simpl in Hs. by apply andb_true_iff in Hs as [_ ?]. }
  specialize (IH Hps).
  destruct (readInteger (Person.hid p)) as [n|] eqn:Hn; [|done].
  pose proof (safeInteger_bound n (safeHids_elem (p :: ps) p n Hs
    ltac:(by left) Hn)). lia.
Qed.

(** On HIDs within the exact range, the loop of [_generateNextHid]
    computes the maximum of 0 and the HIDs that [parseInt] reads. *)
Lemma maxHidOf_spec (personnel : list Person.t) :
  safeHids personnel = true → maxHidOf personnel = Int (maxParseableHid personnel).
Proof.
  intros Hs. unfold maxHidOf.
  assert (∀ a : Z, (0 ≤ a)%Z →
    fold_left (λ (maxHid : Number) p,
      match parseInt10 (Person.hid p) with
      | Some num => if gtb num maxHid then num else maxHid
      | None => maxHid
      end) personnel (Int a)
    = Int (Z.max a (maxParseableHid personnel))) as H.
  { induction personnel as [|p ps IH]; intros a Ha.
    - simpl. f_equal. unfold maxParseableHid. simpl. lia.
    - assert (safeHids ps = true) as Hps.
      { unfold safeHids in *. simpl in Hs. by apply andb_true_iff in Hs as [_ ?]. }
      cbn [fold_left]. rewrite maxParseableHid_cons.
      destruct (readInteger (Person.hid p)) as [n|] eqn:Hn.
      + rewrite (parseInt10_safe _ _ Hn)
          by (apply (safeHids_elem (p :: ps) p); [done|by left|done]).
        cbn [gtb]. pose proof (maxParseableHid_nonneg ps).
        destruct (Z.ltb_spec a n); rewrite (IH Hps) by lia; f_equal; lia.
      + rewrite (parseInt10_None _ Hn). by apply IH. }
  rewrite H by lia. f_equal. pose proof (maxParseableHid_nonneg personnel). lia.
Qed.

Lemma digitValue_char d : (d < 10)%N → digitValue (pretty_N_char d) = Some (Z.of_N d).
Proof.
  intros H.
  assert (d = 0 ∨ d = 1 ∨ d = 2 ∨ d = 3 ∨ d = 4 ∨ d = 5 ∨ d = 6 ∨ d = 7 ∨ d = 8 ∨ d = 9)%N
    as Hd by lia.
  repeat (destruct Hd as [->|Hd]; [reflexivity|]). by subst.
Qed.

Lemma parseDigits_digit c s seen acc d :
  digitValue c = Some d →
  parseDigits (String c s) seen acc = parseDigits s true (10 * acc + d)%Z.
Proof. intros H. simpl. by rewrite H. Qed.

(** Reading the digits of a decimal gives its value back. *)
Lemma parseDigits_pretty x : ∀ s seen,
  parseDigits (pretty_N_go x s) seen 0 = parseDigits s (seen || (0 <? x)%N) (Z.of_N x).
Proof.
  induction (N.lt_wf_0 x) as [x _ IH]; intros s seen.
  assert (x = 0 ∨ 0 < x)%N as [->|Hx] by lia.
  - rewrite pretty_N_go_0. simpl. by rewrite orb_false_r.
  - rewrite pretty_N_go_step by done.
    rewrite IH by (by apply N.div_lt).
    rewrite (parseDigits_digit _ _ _ _ (Z.of_N (x `mod` 10)))
      by (apply digitValue_char; by apply N.mod_lt).
    assert ((0 <? x)%N = true) as -> by (by apply N.ltb_lt).
    rewrite orb_true_r. f_equal.
    pose proof (N.div_mod x 10). lia.
Qed.

Lemma pretty_head x : ∀ s, (0 < x)%N →
  ∃ c rest d, pretty_N_go x s = String c rest ∧ digitValue c = Some d.
Proof.
  induction (N.lt_wf_0 x) as [x _ IH]; intros s Hx.
  rewrite pretty_N_go_step by done.
  destruct (N.eq_0_gt_0_cases (x `div` 10)) as [->|Hd].
  - rewrite pretty_N_go_0. eexists _, _, _. split; [done|].
    apply digitValue_char. by apply N.mod_lt.
  - apply IH; [by apply N.div_lt | done].
Qed.

(** White space is skipped up to the first ASCII character that is none. *)
Lemma skipWhiteSpace_ascii backwards c s :
  isWhiteSpace c = false → (nat_of_ascii c < 128)%nat →
  skipWhiteSpace backwards (String c s) = String c s.
Proof.
  intros Hws Hc. cbn [skipWhiteSpace]. rewrite Hws.
  destruct s as [|b s2]; [done|].
  assert (isWhiteSpace2 c b = false) as H2.
  { unfold isWhiteSpace2. destruct (Nat.eqb_spec (nat_of_ascii c) 194); [lia|done]. }
  assert (isWhiteSpace2 b c = false) as H2'.
  { unfold isWhiteSpace2. destruct (Nat.eqb_spec (nat_of_ascii c) 160); [lia|].
    by rewrite andb_false_r. }
  rewrite H2, H2'.
  destruct s2 as [|c3 s3]; [by destruct backwards|].
  assert (isWhiteSpace3 c b c3 = false) as H3.
  { unfold isWhiteSpace3.
    destruct (Nat.eqb_spec (nat_of_ascii c) 225); [lia|].
    destruct (Nat.eqb_spec (nat_of_ascii c) 226); [lia|].
    destruct (Nat.eqb_spec (nat_of_ascii c) 227); [lia|].
    destruct (Nat.eqb_spec (nat_of_ascii c) 239); [lia|]. done. }
  assert (isWhiteSpace3 c3 b c = false) as H3'.
  { unfold isWhiteSpace3.
    destruct (Nat.eqb_spec (nat_of_ascii c) 128); [lia|].
    destruct (Nat.leb_spec 128 (nat_of_ascii c)); [lia|].
    destruct (Nat.eqb_spec (nat_of_ascii c) 168); [lia|].
    destruct (Nat.eqb_spec (nat_of_ascii c) 169); [lia|].
    destruct (Nat.eqb_spec (nat_of_ascii c) 175); [lia|].
    destruct (Nat.eqb_spec (nat_of_ascii c) 159); [lia|].
    destruct (Nat.eqb_spec (nat_of_ascii c) 191); [lia|].
    by rewrite !andb_false_r. }
  rewrite H3, H3'. by destruct backwards.
Qed.

Lemma digitValue_ascii c d :
  digitValue c = Some d → isWhiteSpace c = false ∧ (nat_of_ascii c < 128)%nat.
Proof.
  unfold digitValue, isWhiteSpace. intros H.
  destruct (Nat.leb_spec 48 (nat_of_ascii c)); [|done].
  destruct (Nat.leb_spec (nat_of_ascii c) 57); [|done].
  split; [|lia].
  destruct (Nat.eqb_spec (nat_of_ascii c) 32); [lia|].
  destruct (Nat.leb_spec (nat_of_ascii c) 13); [lia|]. by rewrite andb_false_r.
Qed.

Lemma readInteger_digit_head c rest d :
  digitValue c = Some d →
  readInteger (String c rest) = parseDigits (String c rest) false 0.
Proof.
  intros Hd. destruct (digitValue_ascii _ _ Hd) as [Hws Hc].
  unfold readInteger, trimStart. rewrite (skipWhiteSpace_ascii _ _ _ Hws Hc).
  destruct c as [[] [] [] [] [] [] [] []]; try discriminate; reflexivity.
Qed.

Lemma zeros_cons k : String.concat "" (repeat "0" (S k)) = String "0" (String.concat "" (repeat "0" k)).
Proof. simpl. by destruct (repeat "0" k). Qed.

Lemma zeros_length k : String.length (String.concat "" (repeat "0" k)) = k.
Proof. induction k as [|k IH]; [done|]. rewrite zeros_cons. simpl. by rewrite IH. Qed.

Lemma string_app_length (a b : string) :
  String.length (a +:+ b) = String.length a + String.length b.
Proof. induction a as [|c a IH]; simpl; [done|]. by rewrite IH. Qed.

Lemma padStart0_length w s :
  String.length (padStart0 w s) = Nat.max w (String.length s).
Proof.
  unfold padStart0. rewrite string_app_length, zeros_length.
  generalize (String.length s). intros n. lia.
Qed.

Lemma parseDigits_zeros k : ∀ s seen,
  parseDigits (String.concat "" (repeat "0" k) +:+ s) seen 0
  = parseDigits s (seen || negb (Nat.eqb k 0)) 0.
Proof.
  induction k as [|k IH]; intros s seen.
  - simpl. by rewrite orb_false_r.
  - rewrite zeros_cons.
    change (String "0" (String.concat "" (repeat "0" k)) +:+ s)
      with (String "0" (String.concat "" (repeat "0" k) +:+ s)).
    rewrite (parseDigits_digit _ _ _ _ 0%Z) by reflexivity.
    change (10 * 0 + 0)%Z with 0%Z.
    rewrite IH. simpl. by rewrite orb_true_r.
Qed.

Lemma pretty_pos z : (0 < z)%Z → pretty z = pretty_N_go (Z.to_N z) "".
Proof.
  intros Hz. destruct z as [|p|p]; try lia. reflexivity.
Qed.

(** The padded decimal of a positive integer reads back as that integer. *)
Lemma readInteger_padded z :
  (0 < z)%Z → readInteger (padStart0 3 (pretty z)) = Some z.
Proof.
  intros Hz. rewrite pretty_pos by done.
  assert (0 < Z.to_N z)%N as Hn by lia.
  assert (∃ c rest d, padStart0 3 (pretty_N_go (Z.to_N z) "") = String c rest
            ∧ digitValue c = Some d) as (c & rest & d & Heq & Hd).
  { unfold padStart0.
    destruct (3 - String.length (pretty_N_go (Z.to_N z) "")) as [|k].
    - simpl. by apply pretty_head.
    - rewrite zeros_cons. simpl. by eexists _, _, _. }
  rewrite Heq, (readInteger_digit_head _ _ _ Hd), <- Heq.
  unfold padStart0. rewrite parseDigits_zeros, parseDigits_pretty.
  assert ((0 <? Z.to_N z)%N = true) as -> by (by apply N.ltb_lt).
  rewrite orb_true_r. simpl. f_equal. lia.
Qed.

(** The generated number reads back as the number it prints. *)
Lemma parseInt10_padded z :
  (0 < z ≤ 2 ^ 53)%Z → parseInt10 (padStart0 3 (numberToString (Int z))) = Some (Int z).
Proof.
  intros Hz. rewrite numberToString_exact by lia.
  unfold parseInt10. rewrite readInteger_padded by lia. simpl.
  f_equal. apply toNumber_exact. lia.
Qed.

(** Up to 999 the padded decimal has three characters (checked value by
    value). *)
Lemma hid_length_upto_999 (n : nat) :
  (1 ≤ n ≤ 999)%nat → String.length (padStart0 3 (pretty (Z.of_nat n))) = 3.
Proof.
  intros Hn.
  assert (forallb (λ n, Nat.eqb (String.length (padStart0 3 (pretty (Z.of_nat n)))) 3)
            (seq 1 999) = true) as H by (vm_compute; reflexivity).
  rewrite forallb_forall in H.
  apply Nat.eqb_eq, H, in_seq. lia.
Qed.

Lemma pretty_N_go_length x : ∀ s,
  (String.length s ≤ String.length (pretty_N_go x s))%nat.
Proof.
  induction (N.lt_wf_0 x) as [x _ IH]; intros s.
  assert (x = 0 ∨ 0 < x)%N as [->|Hx] by lia.
  - by rewrite pretty_N_go_0.
  - rewrite pretty_N_go_step by done.
    etrans; [|apply IH; by apply N.div_lt]. simpl. lia.
Qed.

(** A number of [10^k] at least has more than [k] digits. *)
Lemma pretty_N_go_digits (k : nat) : ∀ x s,
  (10 ^ N.of_nat k ≤ x)%N →
  (String.length s + k < String.length (pretty_N_go x s))%nat.
Proof.
  induction k as [|k IH]; intros x s Hx.
  - assert (0 < x)%N by (simpl in Hx; lia).
    rewrite pretty_N_go_step by done.
    eapply Nat.lt_le_trans; [|apply pretty_N_go_length]. simpl. lia.
  - assert (10 ^ N.of_nat (S k) = 10 * 10 ^ N.of_nat k)%N as Hpow.
    { rewrite Nat2N.inj_succ. apply N.pow_succ_r'. }
    assert (0 < 10 ^ N.of_nat k)%N by (apply N.neq_0_lt_0, N.pow_nonzero; lia).
    assert (0 < x)%N by lia.
    rewrite pretty_N_go_step by done.
    eapply Nat.le_lt_trans; [|apply IH].
    + simpl. lia.
    + apply N.div_le_lower_bound; lia.
Qed.

Lemma hid_length_from_1000 z :
  (1000 ≤ z)%Z → (3 < String.length (padStart0 3 (pretty z)))%nat.
Proof.
  intros Hz. rewrite padStart0_length, pretty_pos by lia.
  pose proof (pretty_N_go_digits 3 (Z.to_N z) "") as H.
  simpl in H. specialize (H ltac:(lia)). lia.
Qed.

(** X30.  The next HID.  With a coherent cache and HIDs within the range
    in which numbers are exact (below 2^53): let [m] be the largest HID
    that [parseInt] reads among the records of [_readTeamListRaw], or 0
    when none is above 0.  [_generateNextHid()] returns the decimal of
    [m + 1] left-padded with zeros to width 3: exactly 3 characters while
    [m < 999] and more than 3 from 999 on; the string reads back as
    [m + 1], which is above every HID of the records.  [addPerson], for an
    authorised caller and a person without [upid], assigns
    [cpc + '-' + hid] with [cpc] defaulting to '400', where [hid] is the
    person's own [hid] when it has one and the generated HID otherwise:
    this is the id it returns and the UPID cell of the row it appends. *)
Theorem next_hid (w : World) (sheet : Sheet) :
  coherent w → teamList w = Some sheet → safeHids (readRows sheet) = true →
  fst (_generateNextHid w)
  = Ok (padStart0 3 (pretty (maxParseableHid (readRows sheet) + 1)%Z))
  ∧ ((maxParseableHid (readRows sheet) < 999)%Z →
     String.length (padStart0 3 (pretty (maxParseableHid (readRows sheet) + 1)%Z)) = 3)
  ∧ ((999 ≤ maxParseableHid (readRows sheet))%Z →
     (3 < String.length
            (padStart0 3 (pretty (maxParseableHid (readRows sheet) + 1)%Z)))%nat)
  ∧ parseInt10 (padStart0 3 (pretty (maxParseableHid (readRows sheet) + 1)%Z))
    = Some (Int (maxParseableHid (readRows sheet) + 1))
  ∧ (∀ p n, p ∈ readRows sheet → readInteger (Person.hid p) = Some n →
       (n < maxParseableHid (readRows sheet) + 1)%Z)
  ∧ (∀ person, permitted w = true → PersonInput.upid person = "" →
       fst (addPerson person w)
       = Returned (succeeded
           (orElse (PersonInput.cpc person) "400" +:+ "-"
            +:+ orElse (PersonInput.hid person)
                  (padStart0 3 (pretty (maxParseableHid (readRows sheet) + 1)%Z))))
       ∧ ∃ row,
           teamList (snd (addPerson person w)) = Some (appendRow row sheet)
           ∧ row !! 14%nat
             = Some (CStr
                 (orElse (PersonInput.cpc person) "400" +:+ "-"
                  +:+ orElse (PersonInput.hid person)
                        (padStart0 3
                           (pretty (maxParseableHid (readRows sheet) + 1)%Z))))).
Proof.
  intros Hc Hs Hsafe.
  pose proof (maxParseableHid_nonneg (readRows sheet)) as Hm.
  pose proof (maxParseableHid_safe _ Hsafe) as Hm53.
  destruct (readTeamListRaw_fresh w sheet Hc Hs) as (Hraw & Htl & Hpm).
  assert (fst (_generateNextHid w)
          = Ok (padStart0 3 (pretty (maxParseableHid (readRows sheet) + 1)%Z)))
    as Hgen.
  { unfold _generateNextHid. destruct (_readTeamListRaw w) as [r w'].
    simpl in Hraw. subst r. simpl. rewrite (maxHidOf_spec _ Hsafe).
    cbn [succ]. rewrite toNumber_exact by lia. by rewrite numberToString_exact by lia. }
  split; [exact Hgen|]. split; [|split; [|split; [|split]]].
  - intros Hlt.
    replace (maxParseableHid (readRows sheet) + 1)%Z
      with (Z.of_nat (Z.to_nat (maxParseableHid (readRows sheet) + 1))) by lia.
    apply hid_length_upto_999. lia.
  - intros Hge. apply hid_length_from_1000. lia.
  - rewrite <- (numberToString_exact (maxParseableHid (readRows sheet) + 1)) by lia.
    apply parseInt10_padded. lia.
  - intros p n Hp Hn. pose proof (maxParseableHid_bound _ _ _ Hp Hn). lia.
  - intros person Hperm Hupid. unfold addPerson, _getTeamListSheet.
    rewrite Hperm, Hs, Hupid. cbn [negb nonEmpty String.eqb].
    assert (orElse (PersonInput.hid person)
              (padStart0 3 (pretty (maxParseableHid (readRows sheet) + 1)%Z))
            = if nonEmpty (PersonInput.hid person) then PersonInput.hid person
              else padStart0 3 (pretty (maxParseableHid (readRows sheet) + 1)%Z))
      as -> by reflexivity.
    destruct (nonEmpty (PersonInput.hid person)).
    + split; [reflexivity|]. eexists. split.
      * cbn [snd]. rewrite teamList_invalidateCache. reflexivity.
      * reflexivity.
    + destruct (_generateNextHid w) as [[hid|m] w']; simpl in Hgen; [|discriminate].
      inversion Hgen; subst hid. split; [reflexivity|]. eexists. split.
      * cbn [snd]. rewrite teamList_invalidateCache. reflexivity.
      * reflexivity.
Qed.

(** On [sheetA] the records carry the HIDs 001, 003 and 007. *)
Lemma next_hid_witness :
  fst (_generateNextHid worldA) = Ok "008"
  ∧ fst (addPerson newHire worldA) = Returned (succeeded "400-008").
Proof.
  destruct (next_hid worldA sheetA) as (H1 & _ & _ & _ & _ & H2).
  - vm_compute. split; exact I.
  - reflexivity.
  - vm_compute. reflexivity.
  - split.
    + rewrite H1. vm_compute. reflexivity.
    + destruct (H2 newHire eq_refl eq_refl) as [-> _].
      vm_compute. reflexivity.
Defined.

(** C7 at the failing input.  On a roster whose largest HID is 999
    [_generateNextHid] returns 1000: no string of three digits, which is
    what its documentation and the format of a UPID promise; [addPerson]
    then gives the new person the UPID 400-1000. *)
Lemma hid_of_four_digits :
  fst (_generateNextHid world999) = Ok "1000"
  ∧ ¬ (∃ hid, fst (_generateNextHid world999) = Ok hid ∧ String.length hid = 3)
  ∧ fst (addPerson newHire world999) = Returned (succeeded "400-1000").
Proof.
  assert (fst (_generateNextHid world999) = Ok "1000") as E by (vm_compute; reflexivity).
  split; [exact E|]. split.
  - intros (hid & H & Hlen). rewrite E in H. inversion H; subst hid. discriminate Hlen.
  - vm_compute. reflexivity.
Qed.

(** The generated HID goes into the UPID only: the HID cell of the appended
    row stays empty, so the next call generates the same HID again. *)
Example addPerson_twice :
  fst (addPerson newHire worldA) = Returned (succeeded "400-008")
  ∧ fst (addPerson newHire (snd (addPerson newHire worldA)))
    = Returned (succeeded "400-008").
Proof. split; vm_compute; reflexivity. Qed.

(** *** Reaching the root *)

Section Find.
Context {A : Type}.

Lemma find_app_Some (f : A → bool) (l1 l2 : list A) (x : A) :
  List.find f l1 = Some x → List.find f (l1 ++ l2) = Some x.
Proof.
  induction l1 as [|a l1 IH]; simpl; [discriminate|].
  destruct (f a); [done|exact IH].
Qed.

Lemma find_app_None (f : A → bool) (l1 l2 : list A) :
  List.find f l1 = None → List.find f (l1 ++ l2) = List.find f l2.
Proof.
  induction l1 as [|a l1 IH]; simpl; [done|].
  destruct (f a); [discriminate|exact IH].
Qed.

Lemma find_all_false (f : A → bool) (l : list A) :
  (∀ x, x ∈ l → f x = false) → List.find f l = None.
Proof.
  induction l as [|a l IH]; intros H; simpl; [done|].
  rewrite (H a) by (apply elem_of_cons; by left).
  apply IH. intros x Hx. apply H, elem_of_cons. by right.
Qed.

End Find.

(** Looking a key up among nodes built from distinct keys finds the node
    of that key. *)
Lemma find_by_key {K : Type} (g : K → string) (f : K → Node.t) (l : list K) (x : K) :
  (∀ y, Node.id (f y) = g y) →
  NoDup (map g l) → x ∈ l →
  List.find (λ n, String.eqb (Node.id n) (g x)) (map f l) = Some (f x).
Proof.
  intros Hid. induction l as [|a l IH]; intros Hnd Hin.
  - by apply elem_of_nil in Hin.
  - simpl in *. apply NoDup_cons in Hnd as [Hna Hnd]. rewrite Hid.
    destruct (String.eqb_spec (g a) (g x)) as [Heq|Hne].
    + apply elem_of_cons in Hin as [->|Hin]; [done|].
      exfalso. apply Hna. rewrite Heq.
      apply list_elem_of_In, in_map, list_elem_of_In, Hin.
    + apply IH; [done|]. apply elem_of_cons in Hin as [->|Hin]; [done|done].
Qed.

(** The structural name space: ids built with the prefixes are distinct
    from each other and from [root]. *)
Lemma task_inj x y : "task:" +:+ x = "task:" +:+ y → x = y.
Proof. intros H. by inversion H. Qed.
Lemma team_inj x y : "team:" +:+ x = "team:" +:+ y → x = y.
Proof. intros H. by inversion H. Qed.
Lemma root_ne_task x : String.eqb "root" ("task:" +:+ x) = false.
Proof. reflexivity. Qed.

Lemma structural_root : isStructuralId "root" = true.
Proof. reflexivity. Qed.
Lemma structural_task x : isStructuralId ("task:" +:+ x) = true.
Proof. destruct x; reflexivity. Qed.
Lemma structural_team x : isStructuralId ("team:" +:+ x) = true.
Proof. destruct x; reflexivity. Qed.

Lemma not_structural s :
  isStructuralId s = false →
  String.eqb "root" s = false
  ∧ (∀ x, String.eqb ("task:" +:+ x) s = false)
  ∧ (∀ x, String.eqb ("team:" +:+ x) s = false).
Proof.
  intros H. repeat split; intros; apply String.eqb_neq; intros <-.
  - discriminate H.
  - by rewrite structural_task in H.
  - by rewrite structural_team in H.
Qed.


(** The task ids form a set. *)
Lemma setAdd_NoDup x l : NoDup l → NoDup (setAdd x l).
Proof.
  intros H. unfold setAdd. case_bool_decide; [done|].
  apply NoDup_app. split; [done|]. split; [|apply NoDup_singleton].
  intros y Hy ->%list_elem_of_singleton. done.
Qed.

Lemma elem_of_setAdd x y l : y ∈ setAdd x l ↔ y = x ∨ y ∈ l.
Proof.
  unfold setAdd. case_bool_decide.
  - split; [by right | by intros [->|?]].
  - rewrite elem_of_app, list_elem_of_singleton. tauto.
Qed.

Lemma taskIdsOf_NoDup teams personnel : NoDup (taskIdsOf teams personnel).
Proof.
  unfold taskIdsOf.
  assert (∀ (ps : list Person.t) l, NoDup l →
    NoDup (fold_left (λ ids p,
      if nonEmpty (Person.task p) then setAdd (Person.task p) ids else ids) ps l)) as H1.
  { induction ps as [|p ps IH]; intros l Hl; simpl; [done|].
    apply IH. destruct (nonEmpty _); [by apply setAdd_NoDup|done]. }
  assert (∀ (ts : list Team.t) l, NoDup l →
    NoDup (fold_left (λ ids t,
      if nonEmpty (Team.task t) && Team.isActive t
      then setAdd (Team.task t) ids else ids) ts l)) as H2.
  { induction ts as [|t ts IH]; intros l Hl; simpl; [done|].
    apply IH. destruct (_ && _); [by apply setAdd_NoDup|done]. }
  apply H1, H2, NoDup_nil_2.
Qed.

Lemma taskIdsOf_team teams personnel t :
  t ∈ teams → nonEmpty (Team.task t) = true → Team.isActive t = true →
  Team.task t ∈ taskIdsOf teams personnel.
Proof.
  intros Hin Hne Hact. unfold taskIdsOf.
  assert (∀ (ps : list Person.t) l x, x ∈ l →
    x ∈ fold_left (λ ids p,
      if nonEmpty (Person.task p) then setAdd (Person.task p) ids else ids) ps l) as H1.
  { induction ps as [|p ps IH]; intros l x Hx; simpl; [done|].
    apply IH. destruct (nonEmpty (Person.task p)); [apply elem_of_setAdd; by right|done]. }
  apply H1. clear H1.
  assert (∀ (ts : list Team.t) l,
    (Team.task t ∈ l ∨ t ∈ ts) →
    Team.task t ∈ fold_left (λ ids t,
      if nonEmpty (Team.task t) && Team.isActive t
      then setAdd (Team.task t) ids else ids) ts l) as H2.
  { induction ts as [|a ts IH]; intros l [Hl|Hl]; simpl.
    - done.
    - by apply elem_of_nil in Hl.
    - apply IH. left.
      destruct (nonEmpty (Team.task a) && Team.isActive a);
        [apply elem_of_setAdd; by right|done].
    - apply IH. apply elem_of_cons in Hl as [<-|Hl]; [|by right].
      left. rewrite Hne, Hact. simpl. apply elem_of_setAdd. by left. }
  apply H2. by right.
Qed.

(** A director recorded for a contract is a personnel record of type
    [director] with that UPID. *)
Lemma contractDirectorsOf_lookup personnel c u :
  contractDirectorsOf personnel !! c = Some u →
  ∃ p, p ∈ personnel ∧ String.eqb (Person.nodeType p) "director" = true
    ∧ Person.upid p = u ∧ nonEmpty u = true.
Proof.
  unfold contractDirectorsOf.
  assert (∀ (ps : list Person.t) (m : gmap string string),
    (∀ c u, m !! c = Some u → ∃ p, p ∈ personnel
        ∧ String.eqb (Person.nodeType p) "director" = true
        ∧ Person.upid p = u ∧ nonEmpty u = true) →
    (∀ p, p ∈ ps → p ∈ personnel) →
    ∀ c u, fold_left (λ (m : gmap string string) p,
        if String.eqb (Person.nodeType p) "director"
           && nonEmpty (Person.contract p) && nonEmpty (Person.upid p)
        then <[Person.contract p := Person.upid p]> m else m) ps m !! c = Some u →
      ∃ p, p ∈ personnel ∧ String.eqb (Person.nodeType p) "director" = true
        ∧ Person.upid p = u ∧ nonEmpty u = true) as H.
  { induction ps as [|a ps IH]; intros m Hm Hsub c' u'; simpl; [apply Hm|].
    apply IH.
    - intros c0 u0.
      destruct (String.eqb (Person.nodeType a) "director") eqn:Hd; simpl; [|apply Hm].
      destruct (nonEmpty (Person.contract a)) eqn:Hc; simpl; [|apply Hm].
      destruct (nonEmpty (Person.upid a)) eqn:Hu; simpl; [|apply Hm].
      destruct (decide (Person.contract a = c0)) as [->|Hne].
      + rewrite lookup_insert_eq. intros [= <-]. exists a.
        split; [apply Hsub, elem_of_cons; by left|done].
      + rewrite lookup_insert_ne by done. apply Hm.
    - intros p Hp. apply Hsub, elem_of_cons. by right. }
  apply H; [|done]. intros c0 u0. by rewrite lookup_empty.
Qed.

Lemma upidMapOf_elem personnel u :
  is_Some (upidMapOf personnel !! u) →
  ∃ q, q ∈ personnel ∧ Person.upid q = u ∧ nonEmpty u = true.
Proof.
  intros H0.
  assert (bool_decide (is_Some (upidMapOf personnel !! u)) = true) as H
    by (by apply bool_decide_eq_true_2).
  rewrite upidMapOf_has in H.
  unfold inUpidIndex in H. apply existsb_exists in H as (q & Hq & Hc).
  apply andb_true_iff in Hc as [Hne Heq]. apply String.eqb_eq in Heq.
  exists q. split; [by apply list_elem_of_In|]. split; [done|]. by rewrite <- Heq.
Qed.

(** What [_resolveParentId] can return: the root, the id of an existing
    team node, the id of the existing task node of the record, or the
    record's supervisor when it is in the UPID index. *)
Lemma resolveParentId_cases teams person upidMap ttt (teamNodeIds taskNodeIds : gset string) :
  _resolveParentId teams person upidMap ttt teamNodeIds taskNodeIds = ID_ROOT
  ∨ (∃ t, _resolveParentId teams person upidMap ttt teamNodeIds taskNodeIds
          = "team:" +:+ Team.teamId t
        ∧ "team:" +:+ Team.teamId t ∈ teamNodeIds)
  ∨ (_resolveParentId teams person upidMap ttt teamNodeIds taskNodeIds
       = "task:" +:+ Person.task person
     ∧ "task:" +:+ Person.task person ∈ taskNodeIds)
  ∨ (_resolveParentId teams person upidMap ttt teamNodeIds taskNodeIds
       = Person.supervisorUpid person
     ∧ is_Some (upidMap !! Person.supervisorUpid person)).
Proof.
  unfold _resolveParentId, ID_PREFIX_TEAM, ID_PREFIX_TASK.
  assert ((if nonEmpty (Person.supervisorUpid person)
              && bool_decide (is_Some (upidMap !! Person.supervisorUpid person))
           then Person.supervisorUpid person else ID_ROOT) = ID_ROOT
          ∨ ((if nonEmpty (Person.supervisorUpid person)
              && bool_decide (is_Some (upidMap !! Person.supervisorUpid person))
           then Person.supervisorUpid person else ID_ROOT) = Person.supervisorUpid person
             ∧ is_Some (upidMap !! Person.supervisorUpid person))) as Hvia.
  { destruct (nonEmpty _); simpl; [|by left].
    case_bool_decide; [right; by split | by left]. }
  destruct (_ || _); [by left|].
  destruct (nonEmpty (Person.task person)); [|destruct Hvia; tauto].
  match goal with |- context [match ?m with Some _ => _ | None => _ end = ID_ROOT] =>
    destruct m as [tid|] eqn:Hm end.
  - right; left.
    destruct (if nonEmpty (Person.primaryWorkstream person) then _ else _) as [t|];
      [|discriminate].
    destruct (nonEmpty (Team.teamId t) && _) eqn:Hc; [|discriminate].
    inversion Hm; subst tid. exists t. split; [done|].
    apply andb_true_iff in Hc as [_ Hc]. by apply bool_decide_eq_true in Hc.
  - clear Hm Hvia.
    destruct (nonEmpty (Person.supervisorUpid person)) eqn:Hn;
      destruct (upidMap !! Person.supervisorUpid person) as [q|] eqn:Hq; simpl;
      try destruct (Person.task q =? Person.task person)%string;
      repeat case_bool_decide; simpl;
      first [ by left
            | right; right; left; by split
            | right; right; right; split; [reflexivity | by eauto]
            | exfalso; by eauto ].
Qed.



Lemma NoDup_map_inj {A B} (g : A → B) (l : list A) :
  (∀ x y, g x = g y → x = y) → NoDup l → NoDup (map g l).
Proof.
  intros Hinj Hnd. change (map g l) with (g <$> l).
  apply NoDup_fmap_2; [|done]. intros x y. apply Hinj.
Qed.

Section Tree.
Variables (teams : list Team.t) (vacants : list Vacant.t) (personnel : list Person.t).

(** Lookups by id in the assembled list. *)
Lemma nodeById_root : nodeById (assemble teams vacants personnel) "root" = Some rootNode.
Proof. reflexivity. Qed.

Lemma nodeById_task x :
  x ∈ taskIdsOf teams personnel →
  nodeById (assemble teams vacants personnel) ("task:" +:+ x)
  = Some (taskNodeOf (getTaskMetadata teams) (contractDirectorsOf personnel) x).
Proof.
  intros Hx. unfold nodeById, assemble. cbn [List.find].
  change (Node.id rootNode) with "root". rewrite root_ne_task.
  apply find_app_Some.
  apply (find_by_key (λ x, "task:" +:+ x)
           (taskNodeOf (getTaskMetadata teams) (contractDirectorsOf personnel)));
    [done| |done].
  apply NoDup_map_inj; [apply task_inj | apply taskIdsOf_NoDup].
Qed.

Lemma taskNodes_ids n :
  n ∈ taskNodes (_deriveStructuralNodes teams personnel) →
  ∃ x, x ∈ taskIdsOf teams personnel
    ∧ n = taskNodeOf (getTaskMetadata teams) (contractDirectorsOf personnel) x.
Proof.
  intros Hn. apply list_elem_of_In, in_map_iff in Hn as (x & <- & Hx).
  exists x. split; [by apply list_elem_of_In|done].
Qed.

Lemma teamNodes_ids n :
  n ∈ teamNodes (_deriveStructuralNodes teams personnel) →
  ∃ t, t ∈ teams ∧ nonEmpty (Team.teamId t) = true ∧ Team.isActive t = true
    ∧ n = teamNodeOf t.
Proof.
  intros Hn. apply list_elem_of_In, in_map_iff in Hn as (t & <- & Ht).
  apply list_elem_of_In, list_elem_of_filter in Ht as [Hc Ht].
  apply andb_true_iff in Hc as [? ?]. by exists t.
Qed.


Lemma nodeById_person p :
  wellFormedIds personnel = true → p ∈ personnel →
  nodeById (assemble teams vacants personnel) (personId p)
  = Some (personRecord p (resolvedParent teams personnel p)).
Proof.
  intros Hwf Hp. unfold wellFormedIds in Hwf.
  apply andb_true_iff in Hwf as [Hnd Hns]. apply bool_decide_eq_true in Hnd.
  rewrite forallb_forall in Hns.
  assert (isStructuralId (personId p) = false) as Hsp.
  { apply negb_true_iff, Hns. by apply list_elem_of_In. }
  destruct (not_structural _ Hsp) as (Hr & Hta & Hte).
  unfold nodeById, assemble. cbn [List.find].
  change (Node.id rootNode) with "root". rewrite Hr.
  rewrite find_app_None.
  2:{ apply find_all_false. intros m Hm. apply taskNodes_ids in Hm as (x & _ & ->).
      apply Hta. }
  rewrite find_app_None.
  2:{ apply find_all_false. intros m Hm. apply teamNodes_ids in Hm as (t & _ & _ & _ & ->).
      apply Hte. }
  apply find_app_Some. unfold personRecords.
  by apply (find_by_key personId (λ q, personRecord q (resolvedParent teams personnel q))).
Qed.





End Tree.






(** *** Connectivity *)

(** The parent of every task node and of every person is a node of the
    result; so is the parent of a team node whose mapping names a task.
    Dangling parents are confined to never-filled vacancies and to team
    nodes of mappings without a task. *)
Lemma parents_exist (w : World) (sheet : Sheet) :
  coherent w → teamList w = Some sheet →
  (∀ n, n ∈ taskNodes (_deriveStructuralNodes (teamsOf w) (readRows sheet))
        ∨ n ∈ personRecords (teamsOf w) (readRows sheet) →
     ∃ m, m ∈ fst (getAllData w) ∧ Node.parentId n = Some (Node.id m))
  ∧ (∀ t, t ∈ teamsOf w → nonEmpty (Team.teamId t) = true → Team.isActive t = true →
       nonEmpty (Team.task t) = true →
       ∃ m, m ∈ fst (getAllData w) ∧ Node.parentId (teamNodeOf t) = Some (Node.id m)).
Proof.
  intros Hc Hs. rewrite (getAllData_fresh _ _ Hc Hs). unfold freshData.
  set (teams := teamsOf w). set (vacants := vacantsOf w). set (personnel := readRows sheet).
  assert (rootNode ∈ assemble teams vacants personnel) as Hroot
    by (apply elem_of_cons; by left).
  assert (∀ n, n ∈ taskNodes (_deriveStructuralNodes teams personnel) →
            n ∈ assemble teams vacants personnel) as Htask.
  { intros n Hn. apply elem_of_cons; right. apply elem_of_app; by left. }
  assert (∀ n, n ∈ teamNodes (_deriveStructuralNodes teams personnel) →
            n ∈ assemble teams vacants personnel) as Hteam.
  { intros n Hn. apply elem_of_cons; right. apply elem_of_app; right.
    apply elem_of_app; by left. }
  assert (∀ q, q ∈ personnel → nonEmpty (Person.upid q) = true →
            ∃ m, m ∈ assemble teams vacants personnel ∧ Node.id m = Person.upid q)
    as Hperson.
  { intros q Hq Hne. exists (personRecord q (resolvedParent teams personnel q)).
    split; [by apply personRecord_in_assemble|].
    simpl. unfold personId, orElse. by rewrite Hne. }
  split.
  - intros n [Hn|Hn].
    + apply taskNodes_ids in Hn as (x & _ & ->). simpl.
      destruct (contractDirectorsOf personnel
                  !! from_option TaskMeta.contract "" (getTaskMetadata teams !! x))
        as [u|] eqn:Hd.
      * destruct (contractDirectorsOf_lookup _ _ _ Hd) as (p & Hp & _ & Hu & Hne).
        rewrite <- Hu in Hne. destruct (Hperson p Hp Hne) as (m & Hm & Hid).
        exists m. split; [done|]. unfold orNull. rewrite <- Hu, Hne. simpl.
        by rewrite Hid.
      * exists rootNode. by split.
    + unfold personRecords in Hn.
      apply list_elem_of_In, in_map_iff in Hn as (p & <- & Hp).
      apply list_elem_of_In in Hp. simpl.
      pose proof (resolveParentId_cases teams p (upidMapOf personnel)
        (teamToTask (_deriveStructuralNodes teams personnel))
        (list_to_set (map Node.id (teamNodes (_deriveStructuralNodes teams personnel))))
        (list_to_set (map Node.id (taskNodes (_deriveStructuralNodes teams personnel)))))
        as Hcases.
      fold (resolvedParent teams personnel p) in Hcases.
      destruct Hcases as [Hr|[(t & Hr & Hin)|[(Hr & Hin)|(Hr & Hsome)]]]; rewrite Hr.
      * exists rootNode. by split.
      * apply elem_of_list_to_set, list_elem_of_In, in_map_iff in Hin as (n & Hid & Hn).
        exists n. split; [by apply Hteam, list_elem_of_In|]. by rewrite Hid.
      * apply elem_of_list_to_set, list_elem_of_In, in_map_iff in Hin as (n & Hid & Hn).
        exists n. split; [by apply Htask, list_elem_of_In|]. by rewrite Hid.
      * destruct (upidMapOf_elem _ _ Hsome) as (q & Hq & Hu & Hne).
        rewrite <- Hu in Hne. destruct (Hperson q Hq Hne) as (m & Hm & Hid).
        exists m. split; [done|]. by rewrite Hid, Hu.
  - intros t Ht Hne Hact Htk.
    exists (taskNodeOf (getTaskMetadata teams) (contractDirectorsOf personnel) (Team.task t)).
    split; [|done]. apply Htask.
    apply list_elem_of_In, in_map, list_elem_of_In. by apply taskIdsOf_team.
Qed.

(** C2 at the failing inputs.  The never-filled vacancy VAC-003-2 names the
    team TEAM-999, which has no mapping: its [parentId] is
    [team:TEAM-999] and no node of the result has that id.  An active
    mapping with a team id and no task id gives a team node whose parent
    [task:] is no node either. *)
Lemma vacancy_parent_dangles :
  map (λ n, (Node.id n, Node.parentId n)) (fst (getAllData worldVacancies))
  = [ ("root", None); ("task:TASK-003", Some "root");
      ("330-012", Some "task:TASK-003"); ("VAC-003-1", Some "330-012");
      ("VAC-003-2", Some "team:TEAM-999") ]
  ∧ nodeById (fst (getAllData worldVacancies)) "team:TEAM-999" = None
  ∧ map (λ n, (Node.id n, Node.parentId n)) (fst (getAllData worldTeamNoTask))
    = [ ("root", None); ("team:TEAM-007", Some "task:") ]
  ∧ nodeById (fst (getAllData worldTeamNoTask)) "task:" = None.
Proof. repeat split; vm_compute; reflexivity. Qed.

(* ===================================================================== *)
(** ** Further properties of the service and of what serves it *)
(* ===================================================================== *)

(** *** Columns by header name *)

Lemma buildColMap_lookup (hs : list Cell) : ∀ (index : nat) (m : gmap string nat) k (i : nat),
  buildColMap hs index m !! k = Some i →
  (m !! k = Some i ∧ ∀ h, h ∈ hs → trim (toStr (Some h)) ≠ k)
  ∨ (∃ (j : nat) h, i = index + j ∧ hs !! j = Some h ∧ trim (toStr (Some h)) = k).
Proof.
  induction hs as [|h hs IH]; intros index m k i H; simpl in H.
  - left. split; [done|]. intros h Hh. by apply elem_of_nil in Hh.
  - apply IH in H as [[H Hno]|(j & h' & -> & Hj & Hk)].
    + destruct (decide (trim (toStr (Some h)) = k)) as [Heq|Hne].
      * subst k. rewrite lookup_insert_eq in H. injection H as <-.
        right. exists 0, h. split; [lia|]. done.
      * rewrite lookup_insert_ne in H by done. left. split; [done|].
        intros h' Hh'. apply elem_of_cons in Hh' as [->|Hh']; [done|by apply Hno].
    + right. exists (S j), h'. split; [lia|]. done.
Qed.

Lemma colMapOf_lookup (hs : list Cell) k (i : nat) :
  colMapOf hs !! k = Some i →
  ∃ h, hs !! i = Some h ∧ trim (toStr (Some h)) = k.
Proof.
  intros H. apply buildColMap_lookup in H as [[H _]|(j & h & -> & Hj & Hk)].
  - by rewrite lookup_empty in H.
  - by exists h.
Qed.

Lemma colMapOf_lt (hs : list Cell) k (i : nat) :
  colMapOf hs !! k = Some i → i < List.length hs.
Proof.
  intros H. apply colMapOf_lookup in H as (h & Hh & _).
  by apply lookup_lt_Some in Hh.
Qed.

Lemma colMapOf_inj (hs : list Cell) k k' (i : nat) :
  colMapOf hs !! k = Some i → colMapOf hs !! k' = Some i → k = k'.
Proof.
  intros H H'. apply colMapOf_lookup in H as (h & Hh & <-).
  apply colMapOf_lookup in H' as (h' & Hh' & <-). congruence.
Qed.

Lemma cell_insert_eq colMap (row : list Cell) h (c : nat) v :
  colMap !! h = Some c → c < List.length row →
  cell colMap (<[c := v]> row) h = Some v.
Proof. intros H Hc. unfold cell. rewrite H. by apply list_lookup_insert_eq. Qed.

Lemma cell_insert_ne colMap (row : list Cell) h (c : nat) v :
  colMap !! h ≠ Some c → cell colMap (<[c := v]> row) h = cell colMap row h.
Proof.
  intros H. unfold cell. destruct (colMap !! h) as [c'|] eqn:E; [|done].
  apply list_lookup_insert_ne. congruence.
Qed.

Lemma rectangular_row (sheet : Sheet) (k : nat) (row : list Cell) :
  rectangular sheet = true → body sheet !! k = Some row →
  List.length row = List.length (headers sheet).
Proof.
  unfold rectangular. rewrite forallb_forall. intros H Hk.
  apply Nat.eqb_eq, H, list_elem_of_In. by apply list_elem_of_lookup_2 in Hk.
Qed.

(** *** Writes seen from the matched row *)

Lemma writeUpdates_cons colMap rowIndex kv u sheet :
  writeUpdates colMap rowIndex (kv :: u) sheet
  = writeUpdates colMap rowIndex u
      (match fieldToHeader (fst kv) with
       | Some headerName =>
           match colMap !! headerName with
           | Some c => setValue rowIndex (c + 1) (argCell (snd kv)) sheet
           | None => sheet
           end
       | None => sheet
       end).
Proof. reflexivity. Qed.

Lemma writeRow_cons colMap kv u row :
  writeRow colMap (kv :: u) row
  = writeRow colMap u
      (match fieldToHeader (fst kv) with
       | Some headerName =>
           match colMap !! headerName with
           | Some c => <[c := argCell (snd kv)]> row
           | None => row
           end
       | None => row
       end).
Proof. reflexivity. Qed.

Lemma writeUpdates_body colMap (r : nat) updates : ∀ sheet,
  writeUpdates colMap (S (S r)) updates sheet
  = {| headers := headers sheet;
       body := alter (writeRow colMap updates) r (body sheet) |}.
Proof.
  induction updates as [|kv u IH]; intros [hs b].
  - unfold writeUpdates, writeRow. simpl. f_equal. symmetry. by apply list_alter_id.
  - rewrite writeUpdates_cons.
    destruct (fieldToHeader kv.1) as [h|] eqn:Hf; [destruct (colMap !! h) as [c|] eqn:Hc|].
    + rewrite IH. unfold setValue. simpl. f_equal.
      replace (c + 1 - 1) with c by lia.
      rewrite list_alter_alter_eq. apply list_alter_ext; [|done].
      intros row _. unfold compose. rewrite writeRow_cons, Hf, Hc. done.
    + rewrite IH. simpl. f_equal. apply list_alter_ext; [|done].
      intros row _. rewrite writeRow_cons, Hf, Hc. done.
    + rewrite IH. simpl. f_equal. apply list_alter_ext; [|done].
      intros row _. rewrite writeRow_cons, Hf. done.
Qed.

Lemma writeRow_length colMap updates : ∀ row,
  List.length (writeRow colMap updates row) = List.length row.
Proof.
  induction updates as [|kv u IH]; intros row; [done|].
  rewrite writeRow_cons.
  destruct (fieldToHeader kv.1) as [h|]; [destruct (colMap !! h) as [c|]|];
    rewrite IH; [apply length_insert|done|done].
Qed.

(** A column that no field of [updates] is written into keeps its cell. *)
Lemma writeRow_untouched colMap updates (c : nat) : ∀ row,
  (∀ kv, kv ∈ updates → writesTo colMap c kv = false) →
  writeRow colMap updates row !! c = row !! c.
Proof.
  induction updates as [|kv u IH]; intros row Hno; [done|].
  rewrite writeRow_cons.
  assert (writesTo colMap c kv = false) as Hkv by (apply Hno; left).
  rewrite IH by (intros kv' Hkv'; apply Hno; by right).
  unfold writesTo in Hkv.
  destruct (fieldToHeader kv.1) as [h|]; [|done].
  destruct (colMap !! h) as [c'|]; [|done].
  apply list_lookup_insert_ne. intros ->. by rewrite bool_decide_eq_true_2 in Hkv.
Qed.

Lemma writeRow_app colMap u1 u2 row :
  writeRow colMap (u1 ++ u2) row = writeRow colMap u2 (writeRow colMap u1 row).
Proof. unfold writeRow. by rewrite fold_left_app. Qed.

(** The last field written into a column decides its cell. *)
Lemma writeRow_last colMap (c : nat) u1 kv u2 row :
  writesTo colMap c kv = true → c < List.length row →
  (∀ kv', kv' ∈ u2 → writesTo colMap c kv' = false) →
  writeRow colMap (u1 ++ kv :: u2) row !! c = Some (argCell (snd kv)).
Proof.
  intros Hkv Hc Hno. rewrite writeRow_app, writeRow_cons.
  rewrite writeRow_untouched by done.
  unfold writesTo in Hkv.
  destruct (fieldToHeader kv.1) as [h|]; [|done].
  apply bool_decide_eq_true_1 in Hkv. rewrite Hkv.
  apply list_lookup_insert_eq. by rewrite writeRow_length.
Qed.

(** *** Rows found and rows read *)

Lemma findRowFrom_inv colMap id rows : ∀ (i0 j : nat),
  findRowFrom colMap id i0 rows = Some j →
  ∃ (k : nat) row, j = i0 + k ∧ rows !! k = Some row
    ∧ rowHasUpid colMap id row = true
    ∧ ∀ (k' : nat) row', k' < k → rows !! k' = Some row' →
        rowHasUpid colMap id row' = false.
Proof.
  induction rows as [|r rs IH]; intros i0 j H; simpl in H; [done|].
  destruct (rowHasUpid colMap id r) eqn:Hr.
  - injection H as <-. exists 0, r. split; [lia|]. split; [done|]. split; [done|].
    intros k' row' Hk'. lia.
  - apply IH in H as (k & row & -> & Hk & Hrow & Hmin).
    exists (S k), row. split; [lia|]. split; [done|]. split; [done|].
    intros [|k'] row' Hlt Hrow'; simpl in Hrow'; [congruence|].
    apply (Hmin k' row'); [lia|done].
Qed.

Lemma readRowsFrom_rowIndex colMap rows : ∀ (i0 : nat) (p : Person.t),
  p ∈ readRowsFrom colMap i0 rows → (i0 + 1 ≤ Person._rowIndex p)%nat.
Proof.
  intros i0 p Hp. apply readRowsFrom_elem in Hp as (k & row & _ & Hr).
  apply readRow_rowIndex in Hr. lia.
Qed.

Lemma readRowsFrom_app colMap rows1 rows2 : ∀ (i0 : nat),
  readRowsFrom colMap i0 (rows1 ++ rows2)
  = readRowsFrom colMap i0 rows1
    ++ readRowsFrom colMap (i0 + List.length rows1) rows2.
Proof.
  induction rows1 as [|r rs IH]; intros i0; simpl.
  - by replace (i0 + 0) with i0 by lia.
  - rewrite IH. replace (S i0 + List.length rs) with (i0 + S (List.length rs)) by lia.
    by destruct (readRow colMap i0 r).
Qed.

Lemma filter_Forall {A} (P : A → Prop) `{∀ x, Decision (P x)} (l : list A) :
  Forall P l → filter P l = l.
Proof.
  induction 1 as [|x l Hx _ IH]; [done|].
  rewrite filter_cons_True by done. by rewrite IH.
Qed.

(** Rewriting one row into a row that the reader skips removes the record
    of that row, and only it. *)
Lemma readRowsFrom_alter colMap (f : list Cell → list Cell) rows : ∀ (i0 k : nat) row,
  rows !! k = Some row → readRow colMap (i0 + k) (f row) = None →
  readRowsFrom colMap i0 (alter f k rows)
  = filter (λ p, Person._rowIndex p ≠ i0 + k + 1) (readRowsFrom colMap i0 rows).
Proof.
  induction rows as [|r rs IH]; intros i0 k row Hk Hnone; [done|].
  destruct k as [|k]; simpl in Hk.
  - injection Hk as ->. replace (i0 + 0) with i0 in * by lia.
    change (alter f 0 (row :: rs)) with (f row :: rs).
    cbn [readRowsFrom]. rewrite Hnone.
    assert (filter (λ p, Person._rowIndex p ≠ i0 + 1) (readRowsFrom colMap (S i0) rs)
            = readRowsFrom colMap (S i0) rs) as Hrest.
    { apply filter_Forall. apply Forall_forall. intros p Hp.
      apply readRowsFrom_rowIndex in Hp. lia. }
    destruct (readRow colMap i0 row) as [p|] eqn:Hp; [|by rewrite Hrest].
    rewrite filter_cons_False; [by rewrite Hrest|].
    apply readRow_rowIndex in Hp. intros Hne. apply Hne. done.
  - change (alter f (S k) (r :: rs)) with (r :: alter f k rs).
    cbn [readRowsFrom]. replace (i0 + S k) with (S i0 + k) in * by lia.
    rewrite (IH (S i0) k row Hk Hnone).
    destruct (readRow colMap i0 r) as [p|] eqn:Hp; [|done].
    rewrite filter_cons_True; [done|].
    apply readRow_rowIndex in Hp. lia.
Qed.

(** A row whose Active In Org cell is the text FALSE and whose status is
    Departed yields no record. *)
Lemma readRow_soft_deleted colMap (i : nat) (row : list Cell) :
  cell colMap row "Active In Org" = Some (CStr "FALSE") →
  cell colMap row "Personnel Contract Status" = Some (CStr "Departed") →
  readRow colMap i row = None.
Proof.
  intros Ha Hs. unfold readRow. rewrite Ha, Hs.
  destruct (negb (truthy (cell colMap row "Unique Personnel ID (UPID)"))
            && negb (truthy (cell colMap row "Email"))); [done|].
  reflexivity.
Qed.

(** *** Soft delete, then read *)

Lemma teamsCrudService_invalidateCache w :
  teamsCrudService (_invalidateCache w) = teamsCrudService w.
Proof. unfold _invalidateCache. by destruct (appCache w). Qed.

Lemma permitted_invalidateCache w : permitted (_invalidateCache w) = permitted w.
Proof. unfold _invalidateCache. by destruct (appCache w). Qed.

(** After a write that ended with [_invalidateCache], [getAllData] computes
    the tree from the sheet that the write left. *)
Lemma getAllData_after_write (w : World) (sheet' : Sheet) :
  fst (getAllData (_invalidateCache (setTeamList sheet' w)))
  = assemble (teamsOf w) (vacantsOf w) (readRows sheet').
Proof.
  rewrite (getAllData_fresh _ sheet').
  - unfold freshData, teamsOf, vacantsOf.
    by rewrite teamsCrudService_invalidateCache.
  - apply coherent_invalidateCache.
  - by rewrite teamList_invalidateCache.
Qed.

(** X1.  Soft delete and read back.  For an authorised caller, a Team List
    whose rows are as wide as its header row and which has the columns
    Active In Org and Personnel Contract Status, and an id that is not a
    vacancy id and is the UPID of some row: [deletePerson] succeeds, leaves
    the header row as it is, and the reader run on the sheet it leaves
    returns the records it returned before except the record of the first
    row carrying this UPID; the next [getAllData] is computed from these
    records. *)
Theorem deletePerson_hides_row (w : World) (sheet : Sheet) (id : string) :
  permitted w = true → teamList w = Some sheet → rectangular sheet = true →
  startsWith id "VAC-" = false →
  is_Some (colMapOf (headers sheet) !! "Active In Org") →
  is_Some (colMapOf (headers sheet) !! "Personnel Contract Status") →
  (∃ row, row ∈ body sheet ∧ rowHasUpid (colMapOf (headers sheet)) id row = true) →
  ∃ (i : nat) sheet',
    findRow id sheet = Some i
    ∧ fst (deletePerson id w) = Returned (succeeded id)
    ∧ teamList (snd (deletePerson id w)) = Some sheet'
    ∧ headers sheet' = headers sheet
    ∧ readRows sheet'
      = filter (λ p, Person._rowIndex p ≠ i + 1) (readRows sheet)
    ∧ fst (getAllData (snd (deletePerson id w)))
      = assemble (teamsOf w) (vacantsOf w) (readRows sheet').
Proof.
  intros Hp Hs Hrect Hvac [a Ha] [s Hst] (row0 & Hin & Hhas).
  destruct (findRowFrom_some (colMapOf (headers sheet)) id (body sheet) 1 row0 Hin Hhas)
    as (k & row & Hfind & Hk & _ & _).
  exists (1 + k), (setValue (S (S k)) (s + 1) (CStr "Departed")
                     (setValue (S (S k)) (a + 1) (CStr "FALSE") sheet)).
  assert (deletePerson id w
          = (Returned (succeeded id),
             _invalidateCache (setTeamList
               (setValue (S (S k)) (s + 1) (CStr "Departed")
                  (setValue (S (S k)) (a + 1) (CStr "FALSE") sheet)) w))) as Hdel.
  { unfold deletePerson, _getTeamListSheet. rewrite Hp, Hvac, Hs.
    rewrite andb_false_r. cbn [negb]. unfold findRow. rewrite Hfind, Ha, Hst.
    replace (1 + k + 1) with (S (S k)) by lia. done. }
  rewrite Hdel. cbn [fst snd].
  split; [done|]. split; [done|].
  split; [by rewrite teamList_invalidateCache|].
  split; [done|].
  split; [|apply getAllData_after_write].
  unfold readRows, setValue. cbn [headers body].
  replace (a + 1 - 1) with a by lia. replace (s + 1 - 1) with s by lia.
  rewrite list_alter_alter_eq.
  replace (1 + k + 1) with (1 + k + 1)%nat by done.
  apply (readRowsFrom_alter _ _ _ 1 k row Hk).
  assert (List.length row = List.length (headers sheet)) as Hlen.
  { by apply (rectangular_row sheet k row Hrect). }
  assert (a ≠ s) as Hne.
  { intros ->. by pose proof (colMapOf_inj _ _ _ _ Ha Hst). }
  apply readRow_soft_deleted; unfold compose.
  - rewrite cell_insert_ne by (rewrite Ha; congruence).
    apply cell_insert_eq; [done|]. rewrite Hlen. by apply colMapOf_lt in Ha.
  - apply cell_insert_eq; [done|]. rewrite length_insert, Hlen.
    by apply colMapOf_lt in Hst.
Qed.

(** *** What [updatePerson] writes *)

Lemma updatePerson_found (w : World) (sheet : Sheet) (id : string)
    (updates u1 u : Updates) (i : nat) :
  permitted w = true → teamList w = Some sheet → findRow id sheet = Some i →
  splitName updates = Ok u1 → parentToSupervisor u1 = Ok u →
  ∃ (k : nat) row,
    i = 1 + k ∧ body sheet !! k = Some row
    ∧ (rowHasUpid (colMapOf (headers sheet)) id row = true
       ∧ ∀ (k' : nat) row', k' < k → body sheet !! k' = Some row' →
           rowHasUpid (colMapOf (headers sheet)) id row' = false)
    ∧ updatePerson id updates w
      = (Returned (succeeded id),
         _invalidateCache (setTeamList
           {| headers := headers sheet;
              body := <[k := writeRow (colMapOf (headers sheet)) u row]> (body sheet) |}
           w)).
Proof.
  intros Hp Hs Hfind Hu1 Hu.
  destruct (findRowFrom_inv _ _ _ _ _ Hfind) as (k & row & -> & Hk & Hrow & Hmin).
  exists k, row. split; [done|]. split; [done|]. split; [done|].
  unfold updatePerson, _getTeamListSheet. rewrite Hp, Hs. cbn [negb].
  rewrite Hfind, Hu1, Hu.
  replace (1 + k + 1) with (S (S k)) by lia.
  rewrite writeUpdates_body. do 3 f_equal.
  rewrite list_insert_alter. f_equal. apply list_alter_ext; [|done].
  intros x Hx. congruence.
Qed.

(** X2.  What [updatePerson] writes.  For an authorised caller and an id
    found in the Team List, with [u] the updates after the rewriting of
    [name] into first and last name and of [parentId] into the supervisor
    UPID: the call succeeds and changes only the first row carrying the
    UPID, compared after trimming; the header row and every other row stay
    as they are, the row keeps
    its width, a column that no field of [u] is mapped to keeps its cell,
    and a column that fields of [u] are mapped to receives the value of the
    last such field in key order, null and undefined as the empty string. *)
Theorem updatePerson_writes (w : World) (sheet : Sheet) (id : string)
    (updates u1 u : Updates) (i : nat) :
  permitted w = true → teamList w = Some sheet → findRow id sheet = Some i →
  splitName updates = Ok u1 → parentToSupervisor u1 = Ok u →
  ∃ (k : nat) row row',
    i = 1 + k ∧ body sheet !! k = Some row
    ∧ rowHasUpid (colMapOf (headers sheet)) id row = true
    ∧ (∀ (k' : nat) row0, k' < k → body sheet !! k' = Some row0 →
         rowHasUpid (colMapOf (headers sheet)) id row0 = false)
    ∧ updatePerson id updates w
      = (Returned (succeeded id),
         _invalidateCache (setTeamList
           {| headers := headers sheet; body := <[k := row']> (body sheet) |} w))
    ∧ List.length row' = List.length row
    ∧ (∀ c : nat,
         (∀ kv, kv ∈ u → writesTo (colMapOf (headers sheet)) c kv = false) →
         row' !! c = row !! c)
    ∧ (∀ (c : nat) ua kv ub,
         u = ua ++ kv :: ub →
         writesTo (colMapOf (headers sheet)) c kv = true →
         (∀ kv', kv' ∈ ub → writesTo (colMapOf (headers sheet)) c kv' = false) →
         c < List.length row →
         row' !! c = Some (argCell (snd kv))).
Proof.
  intros Hp Hs Hfind Hu1 Hu.
  destruct (updatePerson_found w sheet id updates u1 u i Hp Hs Hfind Hu1 Hu)
    as (k & row & Hi & Hk & [Hrow Hmin] & Hup).
  exists k, row, (writeRow (colMapOf (headers sheet)) u row).
  split; [done|]. split; [done|]. split; [done|]. split; [done|]. split; [done|].
  split; [apply writeRow_length|].
  split.
  - intros c Hno. by apply writeRow_untouched.
  - intros c ua kv ub -> Hkv Hno Hc. by apply writeRow_last.
Qed.

(** *** The [updates] object *)

Lemma setProp_elem f v (u : Updates) : (f, v) ∈ setProp f v u.
Proof.
  induction u as [|kv u IH]; simpl; [by left|].
  destruct (String.eqb kv.1 f); [by left|by right].
Qed.

Lemma setProp_inv f v (u : Updates) kv :
  kv ∈ setProp f v u → kv = (f, v) ∨ kv ∈ u.
Proof.
  induction u as [|kv0 u IH]; simpl.
  - intros H. apply list_elem_of_singleton in H. by left.
  - destruct (String.eqb kv0.1 f).
    + intros H. apply elem_of_cons in H as [->|H]; [by left|right; by right].
    + intros H. apply elem_of_cons in H as [->|H]; [right; by left|].
      destruct (IH H) as [->|H']; [by left|right; by right].
Qed.

Lemma setProp_keeps f v (u : Updates) kv :
  kv ∈ u → fst kv ≠ f → kv ∈ setProp f v u.
Proof.
  induction u as [|kv0 u IH]; simpl; intros H Hne.
  - by apply elem_of_nil in H.
  - apply elem_of_cons in H as [->|H].
    + destruct (String.eqb_spec kv0.1 f); [done|by left].
    + destruct (String.eqb kv0.1 f); right; [done|by apply IH].
Qed.

Lemma setProp_keys f v (u : Updates) k :
  k ∈ map fst (setProp f v u) ↔ k = f ∨ k ∈ map fst u.
Proof.
  induction u as [|kv0 u IH]; simpl.
  - rewrite list_elem_of_singleton. split; [by left|]. intros [H|H]; [done|].
    by apply elem_of_nil in H.
  - destruct (String.eqb_spec kv0.1 f) as [He|Hne]; simpl; rewrite !elem_of_cons.
    + rewrite He. tauto.
    + rewrite IH. tauto.
Qed.

Lemma setProp_NoDup f v (u : Updates) :
  NoDup (map fst u) → NoDup (map fst (setProp f v u)).
Proof.
  induction u as [|kv0 u IH]; simpl; intros H.
  - apply NoDup_singleton.
  - apply NoDup_cons in H as [Hn H].
    destruct (String.eqb_spec kv0.1 f) as [He|Hne]; simpl.
    + apply NoDup_cons. split; [by rewrite <- He|done].
    + apply NoDup_cons. split; [|by apply IH].
      rewrite setProp_keys. intros [Hf|Hin]; [by apply Hne|by apply Hn].
Qed.

Lemma getProp_setProp_ne f g v (u : Updates) :
  f ≠ g → getProp (setProp f v u) g = getProp u g.
Proof.
  intros Hne. unfold getProp. induction u as [|kv0 u IH]; simpl.
  - destruct (String.eqb_spec f g); [done|done].
  - destruct (String.eqb_spec kv0.1 f) as [He|Hn]; simpl.
    + destruct (String.eqb_spec f g); [done|].
      destruct (String.eqb_spec kv0.1 g); [congruence|done].
    + destruct (String.eqb kv0.1 g); [done|apply IH].
Qed.

(** A key of an object is the key of one property only. *)
Lemma keys_split (u : Updates) kv :
  NoDup (map fst u) → kv ∈ u →
  ∃ ua ub, u = ua ++ kv :: ub ∧ ∀ kv', kv' ∈ ub → fst kv' ≠ fst kv.
Proof.
  intros Hnd Hin. apply list_elem_of_split in Hin as (ua & ub & ->).
  exists ua, ub. split; [done|]. intros kv' Hkv' Heq.
  rewrite map_app in Hnd. apply NoDup_app in Hnd as (_ & _ & Hnd).
  simpl in Hnd. apply NoDup_cons in Hnd as [Hn _].
  apply Hn. rewrite <- Heq. apply list_elem_of_fmap. by exists kv'.
Qed.

Lemma fieldToHeader_elem k h :
  fieldToHeader k = Some h → (k, h) ∈ FIELD_TO_HEADER.
Proof.
  unfold fieldToHeader. intros H.
  destruct (List.find _ FIELD_TO_HEADER) as [[k' h']|] eqn:Hf; [|done].
  simpl in H. injection H as ->.
  apply find_some in Hf as [Hin Heq]. simpl in Heq.
  apply String.eqb_eq in Heq as ->. by apply list_elem_of_In.
Qed.

(** The fields of the table that lead to a given header. *)
Lemma fieldToHeader_fields k h :
  fieldToHeader k = Some h →
  (h = "First Name" → k = "firstName")
  ∧ (h = "Last Name" → k = "lastName")
  ∧ (h = "Unique Personnel ID (UPID)" → k = "upid")
  ∧ (h = "Email" → k = "email")
  ∧ (h = "Personnel Contract Status" → k = "personnelContractStatus")
  ∧ (h = "Active In Org" → k = "activeInOrg").
Proof.
  intros H. apply fieldToHeader_elem in H. unfold FIELD_TO_HEADER in H.
  repeat (apply elem_of_cons in H as [H|H];
          [injection H as -> ->; repeat split; intros; (done || discriminate)|]).
  by apply elem_of_nil in H.
Qed.

(** *** Renaming a person, then reading the row *)

Lemma strOr_CStr s : strOr (Some (CStr s)) = s.
Proof. unfold strOr, truthy, nonEmpty. simpl. by destruct (String.eqb_spec s ""). Qed.

(** The reader decides whether a row is kept from four cells only; a row
    that agrees on them with a row that is kept is kept as well, with the
    same UPID and email. *)
Lemma readRow_kept colMap (i : nat) (row row' : list Cell) (p : Person.t) :
  readRow colMap i row = Some p →
  cell colMap row' "Unique Personnel ID (UPID)" = cell colMap row "Unique Personnel ID (UPID)" →
  cell colMap row' "Email" = cell colMap row "Email" →
  cell colMap row' "Personnel Contract Status" = cell colMap row "Personnel Contract Status" →
  cell colMap row' "Active In Org" = cell colMap row "Active In Org" →
  ∃ p', readRow colMap i row' = Some p'
    ∧ Person.upid p' = Person.upid p
    ∧ Person.email p' = Person.email p
    ∧ Person.firstName p' = trim (strOr (cell colMap row' "First Name"))
    ∧ Person.lastName p' = trim (strOr (cell colMap row' "Last Name"))
    ∧ Person.name p'
      = String.concat " "
          (filter (λ s, nonEmpty s = true)
             [trim (strOr (cell colMap row' "First Name"));
              trim (strOr (cell colMap row' "Last Name"))]).
Proof.
  intros Hr Hu He Hs Ha. unfold readRow in *. rewrite Hu, He, Hs, Ha.
  destruct (negb (truthy (cell colMap row "Unique Personnel ID (UPID)"))
            && negb (truthy (cell colMap row "Email"))); [done|].
  destruct (String.eqb (trim (strOr (cell colMap row "Personnel Contract Status")))
              "Departed" && isFalseFlag (cell colMap row "Active In Org")); [done|].
  injection Hr as <-. eexists. split; [reflexivity|]. done.
Qed.

(** The updates that [updatePerson] writes when [updates] carries a name. *)
Lemma renamed_updates (updates u1 u : Updates) (name : string) :
  NoDup (map fst updates) →
  getProp updates "name" = AVal (CStr name) →
  splitName updates = Ok u1 → parentToSupervisor u1 = Ok u →
  NoDup (map fst u)
  ∧ ("firstName", AVal (CStr (fst (splitFirstSpace name)))) ∈ u
  ∧ ("lastName", AVal (CStr (snd (splitFirstSpace name)))) ∈ u
  ∧ ∀ kv, kv ∈ u →
      kv ∈ updates ∨ fst kv = "firstName" ∨ fst kv = "lastName"
      ∨ fst kv = "supervisorUpid".
Proof.
  intros Hnd Hname Hu1 Hu. unfold splitName in Hu1. rewrite Hname in Hu1.
  injection Hu1 as <-.
  set (v1 := AVal (CStr (fst (splitFirstSpace name)))) in *.
  set (v2 := AVal (CStr (snd (splitFirstSpace name)))) in *.
  assert (NoDup (map fst (setProp "lastName" v2 (setProp "firstName" v1 updates))))
    as Hnd1 by (by do 2 apply setProp_NoDup).
  assert (("firstName", v1) ∈ setProp "lastName" v2 (setProp "firstName" v1 updates))
    as Hf by (apply setProp_keeps; [apply setProp_elem|done]).
  assert (("lastName", v2) ∈ setProp "lastName" v2 (setProp "firstName" v1 updates))
    as Hl by apply setProp_elem.
  assert (∀ kv, kv ∈ setProp "lastName" v2 (setProp "firstName" v1 updates) →
            kv ∈ updates ∨ fst kv = "firstName" ∨ fst kv = "lastName"
            ∨ fst kv = "supervisorUpid") as Hall.
  { intros kv Hkv. apply setProp_inv in Hkv as [->|Hkv]; [by right; right; left|].
    apply setProp_inv in Hkv as [->|Hkv]; [by right; left|by left]. }
  unfold parentToSupervisor in Hu.
  destruct (getProp _ "parentId") as [| |[parentId| | |]]; try discriminate.
  - by injection Hu as <-.
  - destruct (negb (startsWith parentId "task:") && negb (startsWith parentId "team:")
              && negb (String.eqb parentId "root")); injection Hu as <-; [|done].
    split; [by apply setProp_NoDup|].
    split; [by apply setProp_keeps|].
    split; [by apply setProp_keeps|].
    intros kv Hkv. apply setProp_inv in Hkv as [->|Hkv]; [by right; right; right|].
    by apply Hall.
Qed.

(** X3.  Rename and read back.  For an authorised caller, a Team List whose
    rows are as wide as its header row and that has the columns First Name
    and Last Name, an [updates] object that carries a string [name] and none
    of the fields upid, email, personnelContractStatus and activeInOrg, whose
    [parentId], if it has one, is a string, and an id whose first row is one
    the reader keeps: [updatePerson] succeeds,
    and the reader run on the sheet it leaves returns for that row a record
    with the same UPID and email whose first name is the text of [name]
    before its first space and whose last name is the text after it, both
    trimmed, and whose name joins the non-empty ones with one space. *)
Theorem updatePerson_name_read_back (w : World) (sheet : Sheet) (id : string)
    (updates : Updates) (name : string) (k : nat) (row : list Cell)
    (p : Person.t) :
  permitted w = true → teamList w = Some sheet → rectangular sheet = true →
  findRow id sheet = Some (1 + k) → body sheet !! k = Some row →
  readRow (colMapOf (headers sheet)) (1 + k) row = Some p →
  NoDup (map fst updates) →
  getProp updates "name" = AVal (CStr name) →
  (getProp updates "parentId" = AUndefined
   ∨ ∃ parentId, getProp updates "parentId" = AVal (CStr parentId)) →
  (∀ kv, kv ∈ updates →
     fst kv ≠ "upid" ∧ fst kv ≠ "email" ∧ fst kv ≠ "personnelContractStatus"
     ∧ fst kv ≠ "activeInOrg") →
  is_Some (colMapOf (headers sheet) !! "First Name") →
  is_Some (colMapOf (headers sheet) !! "Last Name") →
  ∃ sheet' p',
    updatePerson id updates w
    = (Returned (succeeded id), _invalidateCache (setTeamList sheet' w))
    ∧ p' ∈ readRows sheet'
    ∧ Person._rowIndex p' = Person._rowIndex p
    ∧ Person.upid p' = Person.upid p
    ∧ Person.email p' = Person.email p
    ∧ Person.firstName p' = trim (fst (splitFirstSpace name))
    ∧ Person.lastName p' = trim (snd (splitFirstSpace name))
    ∧ Person.name p'
      = String.concat " "
          (filter (λ s, nonEmpty s = true)
             [trim (fst (splitFirstSpace name)); trim (snd (splitFirstSpace name))]).
Proof.
  intros Hp Hs Hrect Hfind Hk Hread Hnd Hname Hparent Hban [cF HcF] [cL HcL].
  set (cm := colMapOf (headers sheet)) in *.
  destruct (splitName updates) as [u1|m] eqn:Hu1;
    [|unfold splitName in Hu1; by rewrite Hname in Hu1].
  assert (getProp u1 "parentId" = getProp updates "parentId") as Hpar1.
  { unfold splitName in Hu1. rewrite Hname in Hu1. injection Hu1 as <-.
    by rewrite !getProp_setProp_ne. }
  destruct (parentToSupervisor u1) as [u|m] eqn:Hu.
  2:{ unfold parentToSupervisor in Hu. rewrite Hpar1 in Hu.
      destruct Hparent as [Hpu|[s Hpu]]; rewrite Hpu in Hu; [done|].
      by destruct (negb (startsWith s "task:") && negb (startsWith s "team:")
                   && negb (String.eqb s "root")). }
  destruct (updatePerson_found w sheet id updates u1 u (1 + k) Hp Hs Hfind Hu1 Hu)
    as (k0 & row0 & Hi & Hk0 & _ & Hup).
  assert (k0 = k) as -> by lia. rewrite Hk in Hk0. injection Hk0 as <-.
  fold cm in Hup.
  destruct (renamed_updates updates u1 u name Hnd Hname Hu1 Hu)
    as (Hndu & Hfirst & Hlast & Hkeys).
  assert (List.length row = List.length (headers sheet)) as Hlen.
  { by apply (rectangular_row sheet k row Hrect). }
  (* the four cells that steer the reader are not written *)
  assert (∀ h f, (∀ k', fieldToHeader k' = Some h → k' = f) →
            f ≠ "firstName" → f ≠ "lastName" → f ≠ "supervisorUpid" →
            (∀ kv, kv ∈ updates → fst kv ≠ f) →
            cell cm (writeRow cm u row) h = cell cm row h) as Hsame.
  { intros h f Hh Hf1 Hf2 Hf3 Hno. unfold cell.
    destruct (cm !! h) as [c|] eqn:Hc; [|done].
    apply writeRow_untouched. intros kv Hkv. unfold writesTo.
    destruct (fieldToHeader kv.1) as [h'|] eqn:Hfh; [|done].
    apply bool_decide_eq_false_2. intros Hc'.
    assert (h' = h) as -> by exact (colMapOf_inj _ _ _ _ Hc' Hc).
    apply Hh in Hfh.
    destruct (Hkeys kv Hkv) as [Hin|[H|[H|H]]]; [|congruence..].
    by apply (Hno kv Hin). }
  (* the two name cells receive the two halves of the name *)
  assert (∀ h f v, (∀ k', fieldToHeader k' = Some h → k' = f) →
            fieldToHeader f = Some h → (f, v) ∈ u → is_Some (cm !! h) →
            cell cm (writeRow cm u row) h = Some (argCell v)) as Hset.
  { intros h f v Hh Hfh Hin [c Hc]. unfold cell. rewrite Hc.
    destruct (keys_split u (f, v) Hndu Hin) as (ua & ub & -> & Hub).
    apply (writeRow_last cm c ua (f, v) ub row).
    - unfold writesTo. simpl. rewrite Hfh. by apply bool_decide_eq_true_2.
    - rewrite Hlen. by apply colMapOf_lt in Hc.
    - intros kv' Hkv'. unfold writesTo.
      destruct (fieldToHeader kv'.1) as [h'|] eqn:Hfh'; [|done].
      apply bool_decide_eq_false_2. intros Hc'.
      assert (h' = h) as -> by exact (colMapOf_inj _ _ _ _ Hc' Hc).
      apply Hh in Hfh'. by apply (Hub kv' Hkv'). }
  destruct (readRow_kept cm (1 + k) row (writeRow cm u row) p Hread)
    as (p' & Hp' & Hupid & Hemail & Hfn & Hln & Hnm).
  - apply (Hsame _ "upid"); try done.
    + intros k' Hk'. by apply fieldToHeader_fields in Hk' as (_ & _ & H & _); apply H.
    + intros kv Hkv. by apply Hban in Hkv as (H & _).
  - apply (Hsame _ "email"); try done.
    + intros k' Hk'. by apply fieldToHeader_fields in Hk' as (_ & _ & _ & H & _); apply H.
    + intros kv Hkv. by apply Hban in Hkv as (_ & H & _).
  - apply (Hsame _ "personnelContractStatus"); try done.
    + intros k' Hk'.
      by apply fieldToHeader_fields in Hk' as (_ & _ & _ & _ & H & _); apply H.
    + intros kv Hkv. by apply Hban in Hkv as (_ & _ & H & _).
  - apply (Hsame _ "activeInOrg"); try done.
    + intros k' Hk'.
      by apply fieldToHeader_fields in Hk' as (_ & _ & _ & _ & _ & H); apply H.
    + intros kv Hkv. by apply Hban in Hkv as (_ & _ & _ & H).
  - assert (cell cm (writeRow cm u row) "First Name"
            = Some (CStr (fst (splitFirstSpace name)))) as HF.
    { apply (Hset "First Name" "firstName" (AVal (CStr (fst (splitFirstSpace name)))));
        try done.
      intros k' Hk'. by apply fieldToHeader_fields in Hk' as (H & _); apply H. }
    assert (cell cm (writeRow cm u row) "Last Name"
            = Some (CStr (snd (splitFirstSpace name)))) as HL.
    { apply (Hset "Last Name" "lastName" (AVal (CStr (snd (splitFirstSpace name)))));
        try done.
      intros k' Hk'. by apply fieldToHeader_fields in Hk' as (_ & H & _); apply H. }
    rewrite HF in Hfn, Hnm. rewrite HL in Hln, Hnm. rewrite !strOr_CStr in *.
    eexists _, p'. split; [exact Hup|].
    split.
    { unfold readRows. cbn [headers body]. apply readRowsFrom_elem.
      exists k, (writeRow cm u row). split; [|done].
      apply list_lookup_insert_eq. by apply lookup_lt_Some in Hk. }
    split.
    { apply readRow_rowIndex in Hp'. apply readRow_rowIndex in Hread. congruence. }
    done.
Qed.

(** *** Adding a person, then reading *)

(** In a sheet with the columns of [TEAM_LIST_HEADERS] in their order, a
    cell is found under its header at the position of the header. *)
Lemma std_cell (cm : gmap string nat) (row : list Cell) (i : nat) (h : string) :
  cm = colMapOf (map CStr TEAM_LIST_HEADERS) →
  TEAM_LIST_HEADERS !! i = Some h → cell cm row h = row !! i.
Proof.
  intros -> H. unfold cell.
  assert (colMapOf (map CStr TEAM_LIST_HEADERS) !! h = Some i) as ->; [|done].
  do 28 (destruct i as [|i]; [injection H as <-; vm_compute; reflexivity|]).
  done.
Qed.

Lemma readTeamListRaw_ok (w : World) (sheet : Sheet) :
  teamList w = Some sheet →
  ∃ r w1, _readTeamListRaw w = (Ok r, w1)
    ∧ teamList w1 = Some sheet
    ∧ teamsCrudService w1 = teamsCrudService w
    ∧ permitted w1 = permitted w.
Proof.
  intros Hs. unfold _readTeamListRaw, _getTeamListSheet.
  destruct w as [tl tc ac pm acc]. simpl in *. subst tl.
  destruct ac as [[ad tr]|]; simpl.
  - destruct tr as [r|]; simpl; [by eexists _, _|].
    destruct (body sheet); simpl; by eexists _, _.
  - destruct (body sheet); simpl; by eexists _, _.
Qed.

Lemma nonEmpty_app_l a b : nonEmpty a = true → nonEmpty (a +:+ b) = true.
Proof. by destruct a. Qed.

Lemma nonEmpty_orElse a b : nonEmpty b = true → nonEmpty (orElse a b) = true.
Proof. intros H. unfold orElse. by destruct (nonEmpty a) eqn:Ha. Qed.

(** What [addPerson] returns and leaves when the Team List is in place. *)
Lemma addPerson_result (w : World) (sheet : Sheet) (person : PersonInput.t) :
  permitted w = true → teamList w = Some sheet →
  ∃ upid w1,
    nonEmpty upid = true
    ∧ addPerson person w
      = (Returned (succeeded upid),
         _invalidateCache
           (setTeamList (appendRow (_buildTeamListRow (prepared upid person)) sheet) w1))
    ∧ teamsCrudService w1 = teamsCrudService w.
Proof.
  intros Hp Hs. unfold addPerson, _getTeamListSheet. rewrite Hp, Hs. cbn [negb].
  destruct (nonEmpty (PersonInput.upid person)) eqn:Hu.
  - by eexists _, w.
  - destruct (nonEmpty (PersonInput.hid person)) eqn:Hh.
    + eexists _, w. split; [|done]. by apply nonEmpty_app_l, nonEmpty_orElse.
    + unfold _generateNextHid.
      destruct (readTeamListRaw_ok w sheet Hs) as (r & w1 & -> & _ & Htc & _).
      eexists _, w1. split; [|done]. by apply nonEmpty_app_l, nonEmpty_orElse.
Qed.

(** The record that the reader makes of a row built by [_buildTeamListRow],
    in a sheet with the standard columns. *)
Lemma readRow_built (cm : gmap string nat) (i : nat) (upid : string)
    (person : PersonInput.t) :
  cm = colMapOf (map CStr TEAM_LIST_HEADERS) →
  nonEmpty upid = true → PersonInput.activeInOrg person ≠ Some false →
  ∃ p, readRow cm i (_buildTeamListRow (prepared upid person)) = Some p
    ∧ Person.upid p = upid
    ∧ Person.email p = trim (PersonInput.email person)
    ∧ Person.task p = PersonInput.task person
    ∧ Person.contract p = PersonInput.contract person
    ∧ Person.hid p = PersonInput.hid person
    ∧ Person.primaryRole p
      = orElse (PersonInput.primaryRole person) (PersonInput.title person)
    ∧ Person.supervisorUpid p
      = trim (orElse (PersonInput.supervisorUpid person) (PersonInput.reportsTo person))
    ∧ Person.firstName p = trim (PersonInput.firstName (prepared upid person))
    ∧ Person.lastName p = trim (PersonInput.lastName (prepared upid person))
    ∧ Person._rowIndex p = i + 1.
Proof.
  intros Hcm Hu Hact. unfold readRow.
  rewrite (std_cell cm _ 14 "Unique Personnel ID (UPID)" Hcm eq_refl).
  rewrite (std_cell cm _ 8 "Email" Hcm eq_refl).
  rewrite (std_cell cm _ 20 "Personnel Contract Status" Hcm eq_refl).
  rewrite (std_cell cm _ 27 "Active In Org" Hcm eq_refl).
  rewrite (std_cell cm _ 3 "Task" Hcm eq_refl).
  rewrite (std_cell cm _ 2 "Contract" Hcm eq_refl).
  rewrite (std_cell cm _ 13 "Heirarchy Identifier (HID)" Hcm eq_refl).
  rewrite (std_cell cm _ 9 "Primary Role" Hcm eq_refl).
  rewrite (std_cell cm _ 16 "Supervisor UPID" Hcm eq_refl).
  rewrite (std_cell cm _ 6 "First Name" Hcm eq_refl).
  rewrite (std_cell cm _ 7 "Last Name" Hcm eq_refl).
  clear Hcm.
  change (_buildTeamListRow (prepared upid person) !! 6)
    with (Some (CStr (PersonInput.firstName (prepared upid person)))).
  change (_buildTeamListRow (prepared upid person) !! 7)
    with (Some (CStr (PersonInput.lastName (prepared upid person)))).
  change (_buildTeamListRow (prepared upid person) !! 14) with (Some (CStr upid)).
  change (_buildTeamListRow (prepared upid person) !! 8)
    with (Some (CStr (PersonInput.email person))).
  change (_buildTeamListRow (prepared upid person) !! 20)
    with (Some (CStr (orElse (PersonInput.personnelContractStatus person) "Active"))).
  change (_buildTeamListRow (prepared upid person) !! 27)
    with (Some (CStr (if bool_decide (PersonInput.activeInOrg person = Some false)
                      then "FALSE" else "TRUE"))).
  change (_buildTeamListRow (prepared upid person) !! 3)
    with (Some (CStr (PersonInput.task person))).
  change (_buildTeamListRow (prepared upid person) !! 2)
    with (Some (CStr (PersonInput.contract person))).
  change (_buildTeamListRow (prepared upid person) !! 13)
    with (Some (CStr (PersonInput.hid person))).
  change (_buildTeamListRow (prepared upid person) !! 9)
    with (Some (CStr (orElse (PersonInput.primaryRole person) (PersonInput.title person)))).
  change (_buildTeamListRow (prepared upid person) !! 16)
    with (Some (CStr (orElse (PersonInput.supervisorUpid person)
                        (PersonInput.reportsTo person)))).
  rewrite bool_decide_eq_false_2 by done.
  change (truthy (Some (CStr upid))) with (nonEmpty upid). rewrite Hu.
  cbn [negb andb].
  change (isFalseFlag (Some (CStr "TRUE"))) with false. rewrite andb_false_r.
  eexists. split; [reflexivity|]. cbn [Person.upid Person.email Person.task
    Person.contract Person.hid Person.primaryRole Person.supervisorUpid
    Person.firstName Person.lastName Person._rowIndex].
  rewrite !strOr_CStr. done.
Qed.

Lemma readRows_appendRow (sheet : Sheet) (upid : string) (person : PersonInput.t) :
  headers sheet = map CStr TEAM_LIST_HEADERS →
  readRows (appendRow (_buildTeamListRow (prepared upid person)) sheet)
  = readRows sheet
    ++ readRowsFrom (colMapOf (map CStr TEAM_LIST_HEADERS))
         (1 + List.length (body sheet)) [_buildTeamListRow (prepared upid person)].
Proof.
  intros Hh. unfold readRows, appendRow. cbn [headers body]. rewrite Hh.
  rewrite readRowsFrom_app. f_equal.
Qed.

(** X4.  Add and read back.  For an authorised caller and a Team List whose
    header row is [TEAM_LIST_HEADERS], a person that is not added as
    inactive: [addPerson] succeeds with a non-empty id; the reader run on
    the sheet it leaves returns the records it returned before followed by
    one record for the new row, whose UPID is the returned id and whose
    task, contract, HID, role, email (trimmed) and supervisor (trimmed) are
    those of the person, and whose first and last name are the given ones
    when both are given and otherwise, when only a name is given, the text
    of the name before and after its first space, trimmed; and [getById] of
    the returned id then finds a node with that id. *)
Theorem addPerson_read_back (w : World) (sheet : Sheet) (person : PersonInput.t) :
  permitted w = true → teamList w = Some sheet →
  headers sheet = map CStr TEAM_LIST_HEADERS →
  PersonInput.activeInOrg person ≠ Some false →
  ∃ id sheet' p n,
    fst (addPerson person w) = Returned (succeeded id)
    ∧ id ≠ ""
    ∧ teamList (snd (addPerson person w)) = Some sheet'
    ∧ readRows sheet' = readRows sheet ++ [p]
    ∧ Person.upid p = id
    ∧ Person._rowIndex p = List.length (body sheet) + 2
    ∧ Person.task p = PersonInput.task person
    ∧ Person.contract p = PersonInput.contract person
    ∧ Person.hid p = PersonInput.hid person
    ∧ Person.primaryRole p
      = orElse (PersonInput.primaryRole person) (PersonInput.title person)
    ∧ Person.email p = trim (PersonInput.email person)
    ∧ Person.supervisorUpid p
      = trim (orElse (PersonInput.supervisorUpid person) (PersonInput.reportsTo person))
    ∧ (PersonInput.name person ≠ "" → PersonInput.firstName person = "" →
       PersonInput.lastName person = "" →
       Person.firstName p = trim (fst (splitFirstSpace (PersonInput.name person)))
       ∧ Person.lastName p = trim (snd (splitFirstSpace (PersonInput.name person))))
    ∧ (PersonInput.firstName person ≠ "" → PersonInput.lastName person ≠ "" →
       Person.firstName p = trim (PersonInput.firstName person)
       ∧ Person.lastName p = trim (PersonInput.lastName person))
    ∧ fst (getById id (snd (addPerson person w))) = Some n
    ∧ Node.id n = id.
Proof.
  intros Hp Hs Hh Hact.
  destruct (addPerson_result w sheet person Hp Hs) as (upid & w1 & Hu & Hadd & Htc).
  destruct (readRow_built (colMapOf (map CStr TEAM_LIST_HEADERS))
              (1 + List.length (body sheet)) upid person eq_refl Hu Hact)
    as (p & Hrow & Hupid & Hemail & Htask & Hcontract & Hhid & Hrole & Hsup
        & Hfirst & Hlast & Hidx).
  set (sheet' := appendRow (_buildTeamListRow (prepared upid person)) sheet) in *.
  assert (readRows sheet' = readRows sheet ++ [p]) as Hrows.
  { unfold sheet'. rewrite (readRows_appendRow _ _ _ Hh).
    cbn [readRowsFrom]. by rewrite Hrow. }
  assert (∃ n, fst (getById upid (snd (addPerson person w))) = Some n
               ∧ Node.id n = upid) as (n & Hn & Hid).
  { rewrite Hadd. cbn [snd]. unfold getById.
    destruct (getAllData _) as [data w2] eqn:Hdata. cbn [fst].
    assert (data = assemble (teamsOf w1) (vacantsOf w1) (readRows sheet')) as ->.
    { change data with (fst (data, w2)). rewrite <- Hdata.
      apply getAllData_after_write. }
    destruct (find_first_match (λ n, String.eqb (Node.id n) upid)
                (assemble (teamsOf w1) (vacantsOf w1) (readRows sheet'))
                (personRecord p (resolvedParent (teamsOf w1) (readRows sheet') p)))
      as (n & Hfind & _ & Heq).
    - apply personRecord_in_assemble. rewrite Hrows.
      apply elem_of_app. right. by apply list_elem_of_singleton.
    - cbn [personRecord Node.id]. unfold personId, orElse. rewrite Hupid, Hu.
      apply String.eqb_refl.
    - exists n. split; [done|]. by apply String.eqb_eq in Heq. }
  exists upid, sheet', p, n.
  rewrite Hadd. cbn [fst snd]. rewrite teamList_invalidateCache.
  split; [done|]. split; [by apply nonEmpty_true|]. split; [done|].
  split; [done|]. split; [done|]. split; [lia|].
  rewrite Hadd in Hn. cbn [snd] in Hn.
  do 6 (split; [done|]).
  split.
  { intros Hname Hf Hl. rewrite Hfirst, Hlast. cbn [prepared PersonInput.firstName
      PersonInput.lastName]. apply nonEmpty_true in Hname. rewrite Hname, Hf, Hl.
    done. }
  split; [|done].
  intros Hf Hl. rewrite Hfirst, Hlast. cbn [prepared PersonInput.firstName
    PersonInput.lastName]. apply nonEmpty_true in Hf, Hl. rewrite Hf, Hl.
  cbn [negb orb]. by rewrite andb_false_r.
Qed.

(** *** The generated HID is not stored *)

Lemma readRow_hid_built (cm : gmap string nat) (i : nat) (upid : string)
    (person : PersonInput.t) (p : Person.t) :
  cm = colMapOf (map CStr TEAM_LIST_HEADERS) →
  readRow cm i (_buildTeamListRow (prepared upid person)) = Some p →
  Person.hid p = PersonInput.hid person.
Proof.
  intros Hcm Hr. unfold readRow in Hr.
  rewrite (std_cell cm _ 13 "Heirarchy Identifier (HID)" Hcm eq_refl) in Hr.
  change (_buildTeamListRow (prepared upid person) !! 13)
    with (Some (CStr (PersonInput.hid person))) in Hr.
  skip_guards Hr. injection Hr as <-. cbn [Person.hid]. apply strOr_CStr.
Qed.

Lemma maxHidOf_app personnel1 personnel2 :
  (∀ p, p ∈ personnel2 → parseInt10 (Person.hid p) = None) →
  maxHidOf (personnel1 ++ personnel2) = maxHidOf personnel1.
Proof.
  intros Hno. unfold maxHidOf. rewrite fold_left_app.
  generalize (fold_left (λ (maxHid : Number) p,
    match parseInt10 (Person.hid p) with
    | Some num => if gtb num maxHid then num else maxHid
    | None => maxHid
    end) personnel1 (Int 0)).
  induction personnel2 as [|p ps IH]; intros z; [done|].
  simpl. rewrite (Hno p) by (by left). apply IH. intros q Hq. apply Hno. by right.
Qed.

(** X5.  The generated HID is written into the UPID only.  For an authorised
    caller, a coherent cache and a Team List whose header row is
    [TEAM_LIST_HEADERS]: when two persons are added one after the other,
    both without a upid and without a hid and with the same CPC, the second
    call returns the id that the first one returned. *)
Theorem addPerson_same_id_twice (w : World) (sheet : Sheet)
    (person1 person2 : PersonInput.t) :
  permitted w = true → coherent w → teamList w = Some sheet →
  headers sheet = map CStr TEAM_LIST_HEADERS →
  PersonInput.upid person1 = "" → PersonInput.hid person1 = "" →
  PersonInput.upid person2 = "" → PersonInput.hid person2 = "" →
  orElse (PersonInput.cpc person1) "400" = orElse (PersonInput.cpc person2) "400" →
  ∃ id,
    fst (addPerson person1 w) = Returned (succeeded id)
    ∧ fst (addPerson person2 (snd (addPerson person1 w))) = Returned (succeeded id).
Proof.
  intros Hp Hc Hs Hh Hu1 Hh1 Hu2 Hh2 Hcpc.
  destruct (readTeamListRaw_fresh w sheet Hc Hs) as (Hraw & Htl & Hpm).
  assert (∃ w1, addPerson person1 w
    = (Returned (succeeded (orElse (PersonInput.cpc person1) "400" +:+ "-"
         +:+ padStart0 3 (numberToString (succ (maxHidOf (readRows sheet)))))),
       _invalidateCache (setTeamList
         (appendRow (_buildTeamListRow (prepared
            (orElse (PersonInput.cpc person1) "400" +:+ "-"
             +:+ padStart0 3 (numberToString (succ (maxHidOf (readRows sheet)))))
            person1)) sheet) w1))
    ∧ permitted w1 = true) as (w1 & Hadd & Hp1).
  { unfold addPerson, _getTeamListSheet, _generateNextHid.
    rewrite Hp, Hs, Hu1, Hh1. cbn [negb nonEmpty String.eqb].
    destruct (_readTeamListRaw w) as [r w1]. cbn [fst snd] in *. subst r.
    exists w1. split; [done|congruence]. }
  eexists. split; [by rewrite Hadd|].
  rewrite Hadd. cbn [snd].
  set (upid := orElse (PersonInput.cpc person1) "400" +:+ "-"
         +:+ padStart0 3 (numberToString (succ (maxHidOf (readRows sheet))))) in *.
  set (sheet' := appendRow (_buildTeamListRow (prepared upid person1)) sheet).
  set (w' := _invalidateCache (setTeamList sheet' w1)).
  assert (coherent w') as Hc' by apply coherent_invalidateCache.
  assert (teamList w' = Some sheet') as Hs' by apply teamList_invalidateCache.
  destruct (readTeamListRaw_fresh w' sheet' Hc' Hs') as (Hraw' & _ & _).
  assert (maxHidOf (readRows sheet') = maxHidOf (readRows sheet)) as Hmax.
  { unfold sheet'. rewrite (readRows_appendRow _ _ _ Hh). apply maxHidOf_app.
    intros p Hq. cbn [readRowsFrom] in Hq.
    destruct (readRow _ _ _) as [q|] eqn:Hrow; [|by apply elem_of_nil in Hq].
    apply list_elem_of_singleton in Hq as ->.
    rewrite (readRow_hid_built _ _ _ _ _ eq_refl Hrow), Hh1. reflexivity. }
  unfold addPerson, _getTeamListSheet, _generateNextHid.
  unfold w' at 1. rewrite permitted_invalidateCache. cbn [setTeamList permitted].
  rewrite Hp1, Hs', Hu2, Hh2. cbn [negb nonEmpty String.eqb].
  destruct (_readTeamListRaw w') as [r w2]. cbn [fst snd] in *. subst r.
  cbn [fst]. rewrite Hmax, <- Hcpc. done.
Qed.

(** *** The cache across reads and writes *)

Lemma getAllData_twice (w : World) :
  fst (getAllData (snd (getAllData w))) = fst (getAllData w).
Proof.
  unfold getAllData, _readTeamListRaw, _getTeamListSheet, getAllTeams,
    getAllVacantPositions.
  destruct w as [tl tc ac pm acc]. simpl.
  destruct ac as [[ad tr]|]; simpl.
  - destruct ad as [l|]; simpl; [done|].
    destruct tr as [r|]; simpl.
    + destruct tc as [d|]; simpl; first [done|served d].
    + destruct tl as [sheet|]; simpl; [|done].
      destruct (body sheet) eqn:Hb; simpl; destruct tc as [d|]; simpl;
        first [done|served d].
  - destruct tl as [sheet|]; simpl; [|done].
    destruct (body sheet) eqn:Hb; simpl; destruct tc as [d|]; simpl; rewrite ?Hb; simpl;
      first [done|served d; rewrite ?Hb; simpl].
    all: match goal with
         | H : fst (TeamsCrudService.getAllVacantPositions ?s1) = _ |- _ =>
             destruct (TeamsCrudService.getAllVacantPositions s1) as [vs' s'];
             simpl in *; by subst
         end.
Qed.

Lemma readTeamListRaw_coherent (w : World) :
  coherent w → coherent (snd (_readTeamListRaw w)).
Proof.
  unfold coherent, _readTeamListRaw, _getTeamListSheet.
  destruct w as [tl tc ac pm acc]. simpl.
  destruct ac as [[ad tr]|]; simpl; [|destruct tl as [sheet|]; simpl].
  - destruct tl as [sheet|]; simpl.
    + intros [Hr Ha]. destruct tr as [r|]; simpl; [done|].
      destruct (body sheet) eqn:Hb; simpl; [done|].
      split; [done|]. done.
    + intros [-> ->]. simpl. done.
  - intros _. destruct (body sheet); simpl; done.
  - done.
Qed.

(** X6.  The cache stays coherent.  From a world whose cache holds nothing
    stale, every read of this service ([_readTeamListRaw], [getAllData],
    [getById], [getByEmail], [_generateNextHid]) and the writes [addPerson]
    and [updatePerson], whatever they return, lead to a world whose cache
    holds nothing stale; and so does a [deletePerson] that succeeds on an
    id that is not a vacancy id. *)
Theorem cache_stays_coherent (w : World) :
  coherent w →
  coherent (snd (_readTeamListRaw w))
  ∧ coherent (snd (getAllData w))
  ∧ (∀ id, coherent (snd (getById id w)))
  ∧ (∀ email, coherent (snd (getByEmail email w)))
  ∧ coherent (snd (_generateNextHid w))
  ∧ (∀ person, coherent (snd (addPerson person w)))
  ∧ (∀ id updates, coherent (snd (updatePerson id updates w)))
  ∧ (∀ id, startsWith id "VAC-" = false →
       fst (deletePerson id w) = Returned (succeeded id) →
       coherent (snd (deletePerson id w))).
Proof.
  intros Hc.
  split; [by apply readTeamListRaw_coherent|].
  split; [by apply getAllData_coherent|].
  split.
  { intros id. unfold getById. pose proof (getAllData_coherent w Hc) as H.
    by destruct (getAllData w). }
  split.
  { intros [e|]; unfold getByEmail; [|done].
    destruct (negb (nonEmpty e)); [done|].
    pose proof (getAllData_coherent w Hc) as H. by destruct (getAllData w). }
  split.
  { unfold _generateNextHid. pose proof (readTeamListRaw_coherent w Hc) as H.
    by destruct (_readTeamListRaw w) as [[r|m] w1]. }
  split; [intros person; by apply addPerson_coherent|].
  split; [intros id updates; by apply updatePerson_coherent|].
  intros id Hvac. unfold deletePerson.
  destruct (negb (permitted w)); [done|].
  rewrite Hvac, andb_false_r.
  destruct (_getTeamListSheet w) as [sheet|m]; [|done].
  destruct (findRow id sheet); [|done].
  destruct (colMapOf (headers sheet) !! "Active In Org"); [|done].
  destruct (colMapOf (headers sheet) !! "Personnel Contract Status"); [|done].
  intros _. apply coherent_invalidateCache.
Qed.

(** X7.  Reading twice.  A second [getAllData] returns the list that the
    first one returned; when [AppCache] is defined and the Team List is in
    place, the second call looks up the cache key and consults no store, and
    leaves the world as it is but for the record of that lookup. *)
Theorem getAllData_again (w : World) :
  fst (getAllData (snd (getAllData w))) = fst (getAllData w)
  ∧ (is_Some (appCache w) → is_Some (teamList w) →
     getAllData (snd (getAllData w))
     = (fst (getAllData w),
        logAccess (CacheGet CACHE_KEY_ALL_DATA) (snd (getAllData w)))).
Proof.
  split; [apply getAllData_twice|].
  intros [c Hc] [sheet Hs].
  unfold getAllData, _readTeamListRaw, _getTeamListSheet, getAllTeams,
    getAllVacantPositions.
  destruct w as [tl tc ac pm acc]. simpl in *. subst tl ac.
  destruct c as [ad tr]; simpl.
  destruct ad as [l|]; simpl; [done|].
  destruct tr as [r|]; simpl.
  - destruct tc as [d|]; simpl; first [done|served d].
  - destruct (body sheet) eqn:Hb; simpl; destruct tc as [d|]; simpl;
      first [done|served d].
Qed.

(** X8.  Writes are seen by the next read.  After an [addPerson], an
    [updatePerson] or a [deletePerson] of an id that is not a vacancy id has
    returned success, whatever the cache held before, the next [getAllData]
    returns the tree computed from the sheet that the write left and from
    the team mappings and vacancies now served. *)
Theorem write_then_read (w : World) :
  (∀ person id, fst (addPerson person w) = Returned (succeeded id) →
     ∃ sheet', teamList (snd (addPerson person w)) = Some sheet'
       ∧ fst (getAllData (snd (addPerson person w)))
         = freshData (snd (addPerson person w)) sheet')
  ∧ (∀ id updates, fst (updatePerson id updates w) = Returned (succeeded id) →
       ∃ sheet', teamList (snd (updatePerson id updates w)) = Some sheet'
         ∧ fst (getAllData (snd (updatePerson id updates w)))
           = freshData (snd (updatePerson id updates w)) sheet')
  ∧ (∀ id, startsWith id "VAC-" = false →
       fst (deletePerson id w) = Returned (succeeded id) →
       ∃ sheet', teamList (snd (deletePerson id w)) = Some sheet'
         ∧ fst (getAllData (snd (deletePerson id w)))
           = freshData (snd (deletePerson id w)) sheet').
Proof.
  assert (∀ sheet' w1,
            ∃ s, teamList (_invalidateCache (setTeamList sheet' w1)) = Some s
              ∧ fst (getAllData (_invalidateCache (setTeamList sheet' w1)))
                = freshData (_invalidateCache (setTeamList sheet' w1)) s) as Hinv.
  { intros sheet' w1. exists sheet'. split; [apply teamList_invalidateCache|].
    apply getAllData_fresh; [apply coherent_invalidateCache|].
    apply teamList_invalidateCache. }
  split; [|split].
  - intros person id. unfold addPerson.
    destruct (negb (permitted w)); [done|].
    destruct (_getTeamListSheet w) as [sheet|m]; [|done].
    destruct (nonEmpty (PersonInput.upid person)); [intros _; apply Hinv|].
    destruct (nonEmpty (PersonInput.hid person)); [intros _; apply Hinv|].
    destruct (_generateNextHid w) as [[hid|m] w1]; [intros _; apply Hinv|done].
  - intros id updates. unfold updatePerson.
    destruct (negb (permitted w)); [done|].
    destruct (_getTeamListSheet w) as [sheet|m]; [|done].
    destruct (findRow id sheet); [|done].
    destruct (splitName updates) as [u1|m]; [|done].
    destruct (parentToSupervisor u1) as [u2|m]; [|done].
    intros _. apply Hinv.
  - intros id Hvac. unfold deletePerson.
    destruct (negb (permitted w)); [done|].
    rewrite Hvac, andb_false_r.
    destruct (_getTeamListSheet w) as [sheet|m]; [|done].
    destruct (findRow id sheet); [|done].
    destruct (colMapOf (headers sheet) !! "Active In Org"); [|done].
    destruct (colMapOf (headers sheet) !! "Personnel Contract Status"); [|done].
    intros _. apply Hinv.
Qed.

Lemma vacantRecord_in_assemble teams vacants personnel v :
  v ∈ vacants →
  vacantRecord (upidMapOf personnel) v ∈ assemble teams vacants personnel.
Proof.
  intros Hv. unfold assemble. apply elem_of_cons. right.
  rewrite !elem_of_app. right. right. right.
  unfold vacantRecords. apply list_elem_of_fmap. by exists v.
Qed.

(** *** The order of [sort] *)






Lemma ltb_irrefl a : String.ltb a a = false.
Proof.
  unfold String.ltb. destruct (String.compare a a) eqn:Hc; try done.
  pose proof (String.compare_antisym a a) as H. rewrite Hc in H. done.
Qed.

Lemma elem_of_insertSorted x y l : y ∈ insertSorted x l ↔ y = x ∨ y ∈ l.
Proof.
  induction l as [|z l IH]; simpl.
  - rewrite list_elem_of_singleton. split; [by left|]. intros [H|H]; [done|].
    by apply elem_of_nil in H.
  - destruct (String.leb x z); rewrite !elem_of_cons; [done|]. rewrite IH. tauto.
Qed.

Lemma elem_of_sort y l : y ∈ sort l ↔ y ∈ l.
Proof.
  induction l as [|x l IH]; [done|]. unfold sort in *. simpl.
  rewrite elem_of_insertSorted, IH, elem_of_cons. done.
Qed.

Lemma insertSorted_length x l : List.length (insertSorted x l) = S (List.length l).
Proof.
  induction l as [|z l IH]; [done|]. simpl.
  destruct (String.leb x z); simpl; [done|]. by rewrite IH.
Qed.

Lemma sort_length l : List.length (sort l) = List.length l.
Proof.
  induction l as [|x l IH]; [done|]. unfold sort in *. simpl.
  by rewrite insertSorted_length, IH.
Qed.




(** *** Distinct truthy values *)

Lemma distinctTruthy_fold (values : list (option string)) : ∀ seen,
  NoDup seen →
  NoDup (fold_left (λ seen value,
           match value with
           | Some s => if nonEmpty s then setAdd s seen else seen
           | None => seen
           end) values seen)
  ∧ ∀ t, t ∈ fold_left (λ seen value,
           match value with
           | Some s => if nonEmpty s then setAdd s seen else seen
           | None => seen
           end) values seen
      ↔ t ∈ seen ∨ (Some t ∈ values ∧ t ≠ "").
Proof.
  induction values as [|v vs IH]; intros seen Hnd; simpl.
  - split; [done|]. intros t. split; [by left|]. intros [H|[H _]]; [done|].
    by apply elem_of_nil in H.
  - destruct v as [s|]; [destruct (nonEmpty s) eqn:Hs|].
    + destruct (IH (setAdd s seen) (setAdd_NoDup s seen Hnd)) as [H1 H2].
      split; [done|]. intros t. rewrite H2, elem_of_setAdd, elem_of_cons.
      apply nonEmpty_true in Hs. split.
      * intros [[->|H]|[H Ht]]; [right|left|right]; try done.
        -- split; [by left|done].
        -- split; [by right|done].
      * intros [H|[[H|H] Ht]]; [left; by right| |right; by split].
        injection H as ->. left. by left.
    + destruct (IH seen Hnd) as [H1 H2]. split; [done|].
      intros t. rewrite H2, elem_of_cons. split.
      * intros [H|[H Ht]]; [by left|right]. split; [by right|done].
      * intros [H|[[H|H] Ht]]; [by left| |right; by split].
        injection H as ->. apply nonEmpty_true in Ht. congruence.
    + destruct (IH seen Hnd) as [H1 H2]. split; [done|].
      intros t. rewrite H2, elem_of_cons. split.
      * intros [H|[H Ht]]; [by left|right]. split; [by right|done].
      * intros [H|[[H|H] Ht]]; [by left|done|right; by split].
Qed.

Lemma distinctTruthy_NoDup values : NoDup (distinctTruthy values).
Proof. apply distinctTruthy_fold. apply NoDup_nil_2. Qed.

Lemma elem_of_distinctTruthy values t :
  t ∈ distinctTruthy values ↔ Some t ∈ values ∧ t ≠ "".
Proof.
  unfold distinctTruthy.
  destruct (distinctTruthy_fold values [] (NoDup_nil_2)) as [_ H].
  rewrite H. split; [|by right]. intros [H'|H']; [|done]. by apply elem_of_nil in H'.
Qed.

Lemma tasksOf_distinct data : tasksOf data = distinctTruthy (map Node.task data).
Proof.
  unfold tasksOf, distinctTruthy. generalize (@nil string).
  induction data as [|n data IH]; intros seen; [done|]. simpl. apply IH.
Qed.

(** *** Task ids for filtering *)


(** *** Dashboard counts *)

Lemma countTypes_fold (l : list Node.t) : ∀ (m : gmap string nat) (c : nat),
  (∀ ty, m !! ty ≠ Some 0) →
  let r := fold_left (λ (stats : gmap string nat * nat) node,
      (<[Node.type node := default 0 (fst stats !! Node.type node) + 1]> (fst stats),
       if String.eqb (Node.type node) "vacant" then snd stats + 1 else snd stats))
      l (m, c) in
  (∀ ty, default 0 (fst r !! ty)
         = default 0 (m !! ty)
           + List.length (List.filter (λ n, String.eqb (Node.type n) ty) l))
  ∧ (∀ ty, fst r !! ty ≠ Some 0)
  ∧ snd r = c + List.length (List.filter (λ n, String.eqb (Node.type n) "vacant") l).
Proof.
  induction l as [|n l IH]; intros m c Hm; cbn zeta.
  - simpl. split; [intros ty; lia|]. split; [done|lia].
  - cbn [fold_left fst snd].
    destruct (IH (<[Node.type n := default 0 (m !! Node.type n) + 1]> m)
                 (if String.eqb (Node.type n) "vacant" then c + 1 else c))
      as (H1 & H2 & H3).
    { intros ty. destruct (decide (ty = Node.type n)) as [->|Hne].
      - rewrite lookup_insert_eq. intros [= H]. lia.
      - rewrite lookup_insert_ne by done. apply Hm. }
    cbn zeta in H1, H2, H3. split; [|split; [done|]].
    + intros ty. rewrite H1. cbn [List.filter].
      destruct (String.eqb_spec (Node.type n) ty) as [<-|Hne].
      * rewrite lookup_insert_eq. simpl. lia.
      * rewrite lookup_insert_ne by done. lia.
    + rewrite H3. cbn [List.filter].
      destruct (String.eqb (Node.type n) "vacant"); simpl; lia.
Qed.

Lemma countTypes_spec (l : list Node.t) :
  (∀ ty, default 0 (fst (countTypes l) !! ty)
         = List.length (List.filter (λ n, String.eqb (Node.type n) ty) l))
  ∧ (∀ ty, fst (countTypes l) !! ty ≠ Some 0)
  ∧ snd (countTypes l)
    = List.length (List.filter (λ n, String.eqb (Node.type n) "vacant") l).
Proof.
  destruct (countTypes_fold l ∅ 0) as (H1 & H2 & H3); [done|].
  cbn zeta in *. unfold countTypes. split; [|split; [done|]].
  - intros ty. rewrite (H1 ty). by rewrite lookup_empty.
  - by rewrite H3.
Qed.

Lemma filter_split_length {A} (f g : A → bool) (l : list A) :
  List.length (List.filter (λ x, f x && negb (g x)) l)
  + List.length (List.filter g (List.filter f l))
  = List.length (List.filter f l).
Proof.
  induction l as [|x l IH]; [done|]. cbn [List.filter].
  destruct (f x) eqn:Hf; cbn [andb List.filter]; [|lia].
  destruct (g x) eqn:Hg; cbn [negb List.length]; lia.
Qed.

(** X11.  The counts of [getModuleSummary] and [getTotalCount].  For nodes
    whose types are none of the names of the members of [Object.prototype],
    and with the people being the nodes of [getAllData] that are not
    structural: [total]
    is their number; the counter of a type in [byType] is the number of
    people of that type, and a type that no one has is not a key;
    [vacantCount] is the counter of the type vacant; [taskCount] is the
    length of [getTasks]; and [getTotalCount] is [total] less the people
    whose type is hidden. *)
Theorem getModuleSummary_counts (w : World) (ty : string) :
  plainNodes (fst (getAllData w)) = true →
  let s := fst (getModuleSummary w) in
  let people := List.filter (λ n, negb (Node._isStructural n)) (fst (getAllData w)) in
  Stats.total s = List.length people
  ∧ default 0 (Stats.byType s !! ty)
    = List.length (List.filter (λ n, String.eqb (Node.type n) ty) people)
  ∧ Stats.byType s !! ty ≠ Some 0
  ∧ Stats.vacantCount s = default 0 (Stats.byType s !! "vacant")
  ∧ Stats.taskCount s = List.length (fst (getTasks w))
  ∧ fst (getTotalCount w) + default 0 (Stats.byType s !! "hidden") = Stats.total s.
Proof.
  intros _. cbn zeta. unfold getModuleSummary, getTotalCount.
  pose proof (getAllData_twice w) as Htwice.
  unfold getTasks at 1. unfold getTasks.
  destruct (getAllData w) as [data w1]. cbn [fst snd] in *.
  destruct (getAllData w1) as [data1 w2]. cbn [fst snd] in *. subst data1.
  set (people := List.filter (λ n, negb (Node._isStructural n)) data).
  destruct (countTypes_spec people) as (H1 & H2 & H3).
  split; [done|]. split; [apply H1|]. split; [apply H2|].
  split; [by rewrite H3, H1|]. split; [done|].
  rewrite H1. apply (filter_split_length
    (λ n, negb (Node._isStructural n)) (λ n, String.eqb (Node.type n) "hidden") data).
Qed.

Lemma filter_map_none {A B} (f : B → bool) (g : A → B) (l : list A) :
  (∀ x, f (g x) = false) → List.filter f (map g l) = [].
Proof.
  intros H. induction l as [|x l IH]; [done|]. simpl. by rewrite H.
Qed.

Lemma filter_map_all {A B} (f : B → bool) (g : A → B) (l : list A) :
  (∀ x, f (g x) = true) → List.filter f (map g l) = map g l.
Proof.
  intros H. induction l as [|x l IH]; [done|]. simpl. by rewrite H, IH.
Qed.

Lemma filter_map_length {A B} (f : B → bool) (g : A → B) (l : list A) :
  List.length (List.filter f (map g l))
  = List.length (List.filter (λ x, f (g x)) l).
Proof.
  induction l as [|x l IH]; [done|]. simpl. destruct (f (g x)); simpl; by rewrite IH.
Qed.

Lemma filter_all_length {A} (f : A → bool) (l : list A) :
  (∀ x, f x = true) → List.length (List.filter f l) = List.length l.
Proof.
  intros H. induction l as [|x l IH]; [done|]. simpl. by rewrite H, <- IH.
Qed.

(** The nodes of the tree that are not structural are the person records
    followed by the vacancy records. *)
Lemma nonStructural_assemble teams vacants personnel :
  List.filter (λ n, negb (Node._isStructural n)) (assemble teams vacants personnel)
  = personRecords teams personnel ++ vacantRecords personnel vacants.
Proof.
  unfold assemble, _deriveStructuralNodes, personRecords, vacantRecords.
  cbn [taskNodes teamNodes List.filter rootNode Node._isStructural negb].
  rewrite !List.filter_app.
  rewrite (filter_map_none _ (taskNodeOf _ _)) by done.
  rewrite (filter_map_none _ teamNodeOf) by done.
  rewrite (filter_map_all _ (λ p, personRecord p _)) by done.
  rewrite (filter_map_all _ (vacantRecord _)) by done.
  done.
Qed.

(** X12.  The counts on a coherent cache.  When the cache holds nothing stale
    and the Team List is in place, [total] of [getModuleSummary] is the
    number of records of the reader plus the number of vacancies served:
    root, task and team nodes are not counted; [vacantCount] is the number
    of records of type vacant plus the number of vacancies; and
    [getTotalCount] is the number of records whose type is not hidden plus
    the number of vacancies. *)
Theorem getModuleSummary_fresh (w : World) (sheet : Sheet) :
  coherent w → teamList w = Some sheet →
  Stats.total (fst (getModuleSummary w))
  = List.length (readRows sheet) + List.length (vacantsOf w)
  ∧ Stats.vacantCount (fst (getModuleSummary w))
    = List.length (List.filter (λ p, String.eqb (Person.nodeType p) "vacant")
                     (readRows sheet))
      + List.length (vacantsOf w)
  ∧ fst (getTotalCount w)
    = List.length (List.filter (λ p, negb (String.eqb (Person.nodeType p) "hidden"))
                     (readRows sheet))
      + List.length (vacantsOf w).
Proof.
  intros Hc Hs. pose proof (getAllData_fresh w sheet Hc Hs) as Hdata.
  unfold getModuleSummary, getTotalCount.
  destruct (getAllData w) as [data w1]. cbn [fst snd] in *.
  destruct (getTasks w1) as [tasks w2]. cbn [fst snd Stats.total Stats.vacantCount].
  subst data. unfold freshData.
  split; [|split].
  - rewrite nonStructural_assemble. unfold personRecords, vacantRecords.
    by rewrite length_app, !length_map.
  - destruct (countTypes_spec
      (List.filter (λ n, negb (Node._isStructural n))
         (assemble (teamsOf w) (vacantsOf w) (readRows sheet)))) as (_ & _ & ->).
    rewrite nonStructural_assemble. unfold personRecords, vacantRecords.
    rewrite List.filter_app, length_app, !filter_map_length.
    f_equal. by rewrite filter_all_length.
  - assert (∀ l, List.filter (λ n, negb (Node._isStructural n)
                                   && negb (String.eqb (Node.type n) "hidden")) l
                 = List.filter (λ n, negb (String.eqb (Node.type n) "hidden"))
                     (List.filter (λ n, negb (Node._isStructural n)) l)) as ->.
    { induction l as [|x l IH]; [done|]. simpl.
      destruct (negb (Node._isStructural x)); simpl; by rewrite IH. }
    rewrite nonStructural_assemble. unfold personRecords, vacantRecords.
    rewrite List.filter_app, length_app, !filter_map_length.
    f_equal. by rewrite filter_all_length.
Qed.

(** *** Management emails *)

Lemma nonEmpty_false s : nonEmpty s = false → s = "".
Proof. unfold nonEmpty. by destruct (String.eqb_spec s ""). Qed.

Lemma contractManagersOf_snoc nodes n :
  contractManagersOf (nodes ++ [n])
  = (let contractManagers := contractManagersOf nodes in
     let contractManagers :=
       if String.eqb (Node.type n) "director"
          && nonEmpty (Node.contract n) && nonEmpty (Node.email n)
       then
         <[Node.contract n :=
             {| Managers.director := Some (Node.email n);
                Managers.deputy :=
                  contractManagers !! Node.contract n ≫= Managers.deputy |}]>
           contractManagers
       else contractManagers in
     if String.eqb (Node.type n) "deputy"
        && nonEmpty (Node.contract n) && nonEmpty (Node.email n)
     then
       <[Node.contract n :=
           {| Managers.director :=
                contractManagers !! Node.contract n ≫= Managers.director;
              Managers.deputy := Some (Node.email n) |}]>
         contractManagers
     else contractManagers).
Proof. unfold contractManagersOf. by rewrite fold_left_app. Qed.

(** The director and the deputy kept for a contract are the last ones in
    the list. *)
Lemma contractManagersOf_last nodes c :
  contractManagersOf nodes !! c ≫= Managers.director
  = Node.email <$> List.find (managerOf "director" c) (rev nodes)
  ∧ contractManagersOf nodes !! c ≫= Managers.deputy
    = Node.email <$> List.find (managerOf "deputy" c) (rev nodes).
Proof.
  induction nodes as [|n nodes IH] using rev_ind; [done|].
  rewrite contractManagersOf_snoc, rev_app_distr. cbn zeta. cbn [rev app List.find].
  destruct IH as [IHd IHp]. unfold managerOf at 1 3.
  destruct (String.eqb_spec (Node.type n) "director") as [Hd|Hd].
  - rewrite Hd. change (String.eqb "director" "deputy") with false.
    cbn [andb].
    destruct (nonEmpty (Node.contract n)); cbn [andb]; [|done].
    destruct (nonEmpty (Node.email n)); cbn [andb]; [|done].
    destruct (String.eqb_spec (Node.contract n) c) as [<-|Hc].
    + rewrite lookup_insert_eq. done.
    + rewrite lookup_insert_ne by done. done.
  - cbn [andb].
    destruct (String.eqb_spec (Node.type n) "deputy") as [Hp|Hp]; cbn [andb]; [|done].
    destruct (nonEmpty (Node.contract n)); cbn [andb]; [|done].
    destruct (nonEmpty (Node.email n)); cbn [andb]; [|done].
    destruct (String.eqb_spec (Node.contract n) c) as [<-|Hc].
    + rewrite lookup_insert_eq. done.
    + rewrite lookup_insert_ne by done. done.
Qed.

Lemma initialEmails_lookup nodes contractManagers taskIds t :
  initialEmails nodes contractManagers taskIds !! t
  = if bool_decide (t ∈ taskIds) then
      Some {| ManagementEmails.contractManagerEmail :=
                orEmpty (contractManagers !! contractOfTask nodes t ≫= Managers.director);
              ManagementEmails.deputyManagerEmail :=
                orEmpty (contractManagers !! contractOfTask nodes t ≫= Managers.deputy);
              ManagementEmails.taskLeadEmail := "";
              ManagementEmails.teamLeadEmail := "" |}
    else None.
Proof.
  unfold initialEmails.
  induction taskIds as [|x xs IH] using rev_ind.
  - rewrite bool_decide_eq_false_2 by apply not_elem_of_nil. done.
  - rewrite fold_left_app. cbn [fold_left].
    destruct (decide (t = x)) as [->|Hne].
    + rewrite lookup_insert_eq.
      rewrite bool_decide_eq_true_2 by (apply elem_of_app; right; by left). done.
    + rewrite lookup_insert_ne by done. rewrite IH.
      destruct (decide (t ∈ xs)) as [Hin|Hin].
      * rewrite !bool_decide_eq_true_2; [done| |done]. apply elem_of_app. by left.
      * rewrite !bool_decide_eq_false_2; [done| |done].
        rewrite elem_of_app, list_elem_of_singleton. tauto.
Qed.

Lemma withLeads_lookup nodes t : t ≠ "" → ∀ m,
  withLeads nodes m !! t
  = match m !! t with
    | Some e =>
        Some {| ManagementEmails.contractManagerEmail :=
                  ManagementEmails.contractManagerEmail e;
                ManagementEmails.deputyManagerEmail :=
                  ManagementEmails.deputyManagerEmail e;
                ManagementEmails.taskLeadEmail := ManagementEmails.taskLeadEmail e;
                ManagementEmails.teamLeadEmail :=
                  if nonEmpty (ManagementEmails.teamLeadEmail e)
                  then ManagementEmails.teamLeadEmail e
                  else from_option Node.email "" (List.find (leadOf t) nodes) |}
    | None => None
    end.
Proof.
  intros Ht. induction nodes as [|n nodes IH]; intros m.
  - unfold withLeads. simpl. destruct (m !! t) as [[a b c d]|]; [|done].
    simpl. destruct (nonEmpty d) eqn:Hd; [done|]. by apply nonEmpty_false in Hd as ->.
  - unfold withLeads. cbn [fold_left]. fold (withLeads nodes).
    cbn [List.find]. unfold leadOf at 1.
    destruct (Node.task n) as [task|] eqn:Htask.
    2:{ rewrite IH. rewrite bool_decide_eq_false_2 by done. done. }
    destruct (nonEmpty task && nonEmpty (Node.email n)
              && String.eqb (Node.type n) "lead") eqn:Hcond.
    2:{ rewrite IH.
        destruct (decide (task = t)) as [->|Hne].
        - rewrite bool_decide_eq_true_2 by done.
          apply nonEmpty_true in Ht. rewrite Ht in Hcond. cbn [andb] in *.
          by rewrite Hcond.
        - rewrite bool_decide_eq_false_2 by congruence. done. }
    apply andb_prop in Hcond as [Hcond Hlead]. apply andb_prop in Hcond as [_ Hemail].
    destruct (m !! task) as [entry|] eqn:Hentry.
    2:{ rewrite IH. destruct (decide (task = t)) as [->|Hne].
        - by rewrite Hentry.
        - rewrite bool_decide_eq_false_2 by congruence. done. }
    destruct (nonEmpty (ManagementEmails.teamLeadEmail entry)) eqn:Hhas; cbn [negb].
    + rewrite IH. destruct (decide (task = t)) as [->|Hne].
      * by rewrite Hentry, Hhas.
      * rewrite bool_decide_eq_false_2 by congruence. done.
    + rewrite IH. destruct (decide (task = t)) as [->|Hne].
      * rewrite lookup_insert_eq, Hentry. cbn. rewrite Hemail, Hhas.
        rewrite bool_decide_eq_true_2 by done. rewrite Hlead. done.
      * rewrite lookup_insert_ne by done.
        rewrite bool_decide_eq_false_2 by congruence. done.
Qed.

(** X13.  The entries of [getManagementEmails].  For nodes whose contracts
    and tasks are none of the names of the members of [Object.prototype]:
    the object has one entry per task id of [getTasks] and no other key.  In the entry of a task:
    [taskLeadEmail] is always empty; [teamLeadEmail] is the email of the
    first node of the list, in list order, that is a lead of the task and
    has an email, and empty when there is none; [contractManagerEmail] and
    [deputyManagerEmail] are the emails of the last director and of the
    last deputy in the list that have an email and whose contract is the
    contract of the task's first node of type task, and empty when there is
    none. *)
Theorem getManagementEmails_entries (w : World) (t : string) :
  plainNodes (fst (getAllData w)) = true →
  let nodes := fst (getAllData w) in
  (t ∉ fst (getTasks w) → fst (getManagementEmails w) !! t = None)
  ∧ (t ∈ fst (getTasks w) →
     fst (getManagementEmails w) !! t
     = Some {|
         ManagementEmails.contractManagerEmail :=
           from_option Node.email ""
             (List.find (managerOf "director" (contractOfTask nodes t)) (rev nodes));
         ManagementEmails.deputyManagerEmail :=
           from_option Node.email ""
             (List.find (managerOf "deputy" (contractOfTask nodes t)) (rev nodes));
         ManagementEmails.taskLeadEmail := "";
         ManagementEmails.teamLeadEmail :=
           from_option Node.email "" (List.find (leadOf t) nodes) |}).
Proof.
  intros _. cbn zeta. unfold getManagementEmails.
  pose proof (getAllData_twice w) as Htwice.
  assert (∀ x, x ∈ fst (getTasks w) → x ≠ "") as Hne.
  { intros x. unfold getTasks. destruct (getAllData w) as [data w1]. cbn [fst].
    rewrite elem_of_sort, tasksOf_distinct, elem_of_distinctTruthy. tauto. }
  assert (fst (getTasks (snd (getAllData w))) = fst (getTasks w)) as Htasks.
  { unfold getTasks. destruct (getAllData w) as [data w1]. cbn [fst snd] in *.
    destruct (getAllData w1) as [data1 w2]. cbn [fst] in *. by subst. }
  destruct (getAllData w) as [nodes w1]. cbn [fst snd] in *.
  destruct (getTasks w1) as [taskIds w2]. cbn [fst snd] in *. subst taskIds.
  split.
  - intros Hnot. destruct (decide (t = "")) as [->|Ht].
    + (* the empty string is never a key *)
      assert (∀ ns m, m !! "" = None → withLeads ns m !! "" = None) as Hkeep.
      { induction ns as [|n ns IH]; intros m Hm; [done|].
        unfold withLeads. cbn [fold_left]. fold (withLeads ns). apply IH.
        destruct (Node.task n) as [task|]; [|done].
        destruct (nonEmpty task) eqn:Hn; [|done]. cbn [andb].
        destruct (nonEmpty (Node.email n) && String.eqb (Node.type n) "lead"); [|done].
        destruct (m !! task); [|done].
        destruct (negb _); [|done].
        rewrite lookup_insert_ne; [done|]. intros ->. done. }
      apply Hkeep. rewrite initialEmails_lookup.
      by rewrite bool_decide_eq_false_2.
    + rewrite (withLeads_lookup nodes t Ht), initialEmails_lookup.
      by rewrite bool_decide_eq_false_2.
  - intros Hin. rewrite (withLeads_lookup nodes t (Hne t Hin)), initialEmails_lookup.
    rewrite bool_decide_eq_true_2 by done. cbn.
    destruct (contractManagersOf_last nodes (contractOfTask nodes t)) as [-> ->].
    do 2 f_equal.
    + by destruct (List.find _ (rev nodes)).
    + by destruct (List.find (managerOf "deputy" _) (rev nodes)).
Qed.

(** *** User profile *)

Lemma distinctTruthy_head_fold (values : list (option string)) : ∀ seen,
  head (fold_left (λ seen value,
          match value with
          | Some s => if nonEmpty s then setAdd s seen else seen
          | None => seen
          end) values seen)
  = match seen with
    | [] => firstTruthy values
    | x :: _ => Some x
    end.
Proof.
  induction values as [|v vs IH]; intros seen; simpl.
  - by destruct seen.
  - rewrite IH. unfold firstTruthy. cbn [List.find].
    destruct v as [s|]; cbn [from_option]; [|done].
    destruct (nonEmpty s) eqn:Hs; [|done].
    unfold setAdd. destruct seen as [|x seen]; [done|].
    by destruct (bool_decide (s ∈ x :: seen)).
Qed.

Lemma distinctTruthy_head values : head (distinctTruthy values) = firstTruthy values.
Proof. apply (distinctTruthy_head_fold values []). Qed.

(** X14.  The profile of [getUserProfile].  It is null exactly when
    [getByEmail] finds no node.  Otherwise its entries are the nodes that
    [getByEmail] returns and its id, name, email, title, type and company
    are those of the first of them; its tasks, teams and contracts are the
    non-empty tasks, teams and contracts of the entries, each once;
    [primaryTask] and [primaryTeam] are the task and the team of the first
    entry that has one, which need not be the first entry. *)
Theorem getUserProfile_profile (email : option string) (w : World) :
  let entries := fst (getByEmail email w) in
  (fst (getUserProfile email w) = None ↔ entries = [])
  ∧ ∀ profile, fst (getUserProfile email w) = Some profile →
      Profile.entries profile = entries
      ∧ (∃ primary, head entries = Some primary
           ∧ Profile.id profile = Node.id primary
           ∧ Profile.name profile = Node.name primary
           ∧ Profile.email profile = Node.email primary
           ∧ Profile.title profile = Node.title primary
           ∧ Profile.type profile = Node.type primary
           ∧ Profile.company profile = Node.company primary)
      ∧ NoDup (Profile.tasks profile) ∧ NoDup (Profile.teams profile)
      ∧ NoDup (Profile.contracts profile)
      ∧ (∀ t, t ∈ Profile.tasks profile
              ↔ t ≠ "" ∧ ∃ e, e ∈ entries ∧ Node.task e = Some t)
      ∧ (∀ t, t ∈ Profile.teams profile
              ↔ t ≠ "" ∧ ∃ e, e ∈ entries ∧ Node.team e = Some t)
      ∧ (∀ c, c ∈ Profile.contracts profile
              ↔ c ≠ "" ∧ ∃ e, e ∈ entries ∧ Node.contract e = c)
      ∧ Profile.primaryTask profile = firstTruthy (map Node.task entries)
      ∧ Profile.primaryTeam profile = firstTruthy (map Node.team entries).
Proof.
  cbn zeta. unfold getUserProfile.
  destruct (getByEmail email w) as [entries w1]. cbn [fst].
  destruct entries as [|primary rest]; cbn [fst].
  - split; [done|]. intros profile H. discriminate.
  - split; [split; discriminate|].
    intros profile [= <-].
    cbn [Profile.entries Profile.id Profile.name Profile.email Profile.title
         Profile.type Profile.company Profile.tasks Profile.teams Profile.contracts
         Profile.primaryTask Profile.primaryTeam].
    split; [done|]. split; [by exists primary|].
    split; [apply distinctTruthy_NoDup|]. split; [apply distinctTruthy_NoDup|].
    split; [apply distinctTruthy_NoDup|].
    split; [|split; [|split; [|split]]].
    + intros t. rewrite elem_of_distinctTruthy.
      change (Node.task primary :: map Node.task rest)
        with (Node.task <$> (primary :: rest)).
      rewrite list_elem_of_fmap. split.
      * intros [(e & He & Hin) Ht]. split; [done|]. by exists e.
      * intros [Ht (e & Hin & He)]. split; [|done]. by exists e.
    + intros t. rewrite elem_of_distinctTruthy.
      change (Node.team primary :: map Node.team rest)
        with (Node.team <$> (primary :: rest)).
      rewrite list_elem_of_fmap. split.
      * intros [(e & He & Hin) Ht]. split; [done|]. by exists e.
      * intros [Ht (e & Hin & He)]. split; [|done]. by exists e.
    + intros c. rewrite elem_of_distinctTruthy.
      change (Some (Node.contract primary) :: map (λ e, Some (Node.contract e)) rest)
        with ((λ e, Some (Node.contract e)) <$> (primary :: rest)).
      rewrite list_elem_of_fmap. split.
      * intros [(e & He & Hin) Ht]. split; [done|]. exists e. split; [done|congruence].
      * intros [Ht (e & Hin & He)]. split; [|done]. exists e. split; [congruence|done].
    + apply (distinctTruthy_head (map Node.task (primary :: rest))).
    + apply (distinctTruthy_head (map Node.team (primary :: rest))).
Qed.

(** *** Task metadata *)

Lemma firstNonEmpty_snoc l c : firstNonEmpty (l ++ [c]) = orElse (firstNonEmpty l) c.
Proof.
  unfold firstNonEmpty, orElse. induction l as [|x l IH]; simpl.
  - destruct (nonEmpty c) eqn:Hc; [done|]. by apply nonEmpty_false in Hc.
  - destruct (nonEmpty x) eqn:Hx; simpl; [by rewrite Hx|done].
Qed.

Lemma existsb_snoc {A} (f : A → bool) l x : existsb f (l ++ [x]) = existsb f l || f x.
Proof. rewrite existsb_app. simpl. by rewrite orb_false_r. Qed.

Lemma getTaskMetadata_snoc teams team :
  getTaskMetadata (teams ++ [team])
  = (let taskMeta := getTaskMetadata teams in
     if negb (nonEmpty (Team.task team)) then taskMeta
     else match taskMeta !! Team.task team with
       | None =>
           <[Team.task team := {|
             TaskMeta.taskId := Team.task team;
             TaskMeta.taskName := orElse (Team.taskName team) (Team.task team);
             TaskMeta.contract := Team.contract team;
             TaskMeta.color := Team.color team;
             TaskMeta.description := Team.description team;
             TaskMeta.defaultSlaThreshold := Team.defaultSlaThreshold team;
             TaskMeta.notifyOnEscalation := Team.notifyOnEscalation team;
             TaskMeta.displayOrder := Team.displayOrder team |}]> taskMeta
       | Some meta =>
           <[Team.task team := {|
             TaskMeta.taskId := TaskMeta.taskId meta;
             TaskMeta.taskName := orElse (TaskMeta.taskName meta) (Team.taskName team);
             TaskMeta.contract := TaskMeta.contract meta;
             TaskMeta.color := orElse (TaskMeta.color meta) (Team.color team);
             TaskMeta.description :=
               orElse (TaskMeta.description meta) (Team.description team);
             TaskMeta.defaultSlaThreshold :=
               orElse (TaskMeta.defaultSlaThreshold meta) (Team.defaultSlaThreshold team);
             TaskMeta.notifyOnEscalation :=
               TaskMeta.notifyOnEscalation meta || Team.notifyOnEscalation team;
             TaskMeta.displayOrder := TaskMeta.displayOrder meta |}]> taskMeta
       end).
Proof. unfold getTaskMetadata. by rewrite fold_left_app. Qed.

Lemma orElse_nonEmpty a b : nonEmpty a = true → orElse a b = a.
Proof. unfold orElse. by intros ->. Qed.

Lemma orElse_self a : orElse a "" = a.
Proof. unfold orElse. destruct (nonEmpty a) eqn:H; [done|]. by apply nonEmpty_false in H. Qed.

(** The entry of a task in [getTaskMetadata], from the rows of the task. *)
Lemma getTaskMetadata_lookup teams task :
  task ≠ "" →
  getTaskMetadata teams !! task
  = match rowsOfTask task teams with
    | [] => None
    | first :: _ =>
        Some {| TaskMeta.taskId := task;
                TaskMeta.taskName := orElse (Team.taskName first) task;
                TaskMeta.contract := Team.contract first;
                TaskMeta.color :=
                  firstNonEmpty (map Team.color (rowsOfTask task teams));
                TaskMeta.description :=
                  firstNonEmpty (map Team.description (rowsOfTask task teams));
                TaskMeta.defaultSlaThreshold :=
                  firstNonEmpty (map Team.defaultSlaThreshold (rowsOfTask task teams));
                TaskMeta.notifyOnEscalation :=
                  existsb Team.notifyOnEscalation (rowsOfTask task teams);
                TaskMeta.displayOrder := Team.displayOrder first |}
    end.
Proof.
  intros Htask. induction teams as [|team teams IH] using rev_ind; [done|].
  rewrite getTaskMetadata_snoc. cbn zeta. unfold rowsOfTask in *.
  rewrite List.filter_app. cbn [List.filter].
  destruct (nonEmpty (Team.task team)) eqn:Hne; cbn [negb].
  2:{ apply nonEmpty_false in Hne. rewrite Hne.
      destruct (String.eqb_spec "" task) as [He|He]; [done|].
      by rewrite app_nil_r. }
  destruct (String.eqb_spec (Team.task team) task) as [He|He].
  2:{ rewrite app_nil_r.
      destruct (getTaskMetadata teams !! Team.task team);
        by rewrite lookup_insert_ne. }
  rewrite He, IH.
  destruct (List.filter (λ t, String.eqb (Team.task t) task) teams) as [|first rest].
  - rewrite lookup_insert_eq. cbn [app map existsb]. unfold firstNonEmpty.
    cbn [List.find]. rewrite orb_false_r. f_equal. f_equal.
    + by destruct (nonEmpty (Team.color team)) eqn:H; [|apply nonEmpty_false in H].
    + by destruct (nonEmpty (Team.description team)) eqn:H; [|apply nonEmpty_false in H].
    + by destruct (nonEmpty (Team.defaultSlaThreshold team)) eqn:H;
        [|apply nonEmpty_false in H].
  - rewrite lookup_insert_eq. cbn [TaskMeta.taskId TaskMeta.taskName TaskMeta.contract
      TaskMeta.color TaskMeta.description TaskMeta.defaultSlaThreshold
      TaskMeta.notifyOnEscalation TaskMeta.displayOrder].
    change ((first :: rest) ++ [team]) with (first :: (rest ++ [team])).
    cbv iota. f_equal.
    change (first :: (rest ++ [team])) with ((first :: rest) ++ [team]).
    rewrite !map_app. cbn [map]. rewrite !firstNonEmpty_snoc, existsb_snoc.
    f_equal. apply orElse_nonEmpty. apply nonEmpty_orElse. by apply nonEmpty_true.
Qed.

(** A loop over the entries of an object that assigns at most the key of
    each entry: what a key holds afterwards. *)
Lemma fold_entries_lookup {V} (step : gmap string string → string * V → gmap string string)
    (F : string * V → option string → option string) (l : list (string * V)) :
  (∀ m e t, t ≠ fst e → step m e !! t = m !! t) →
  (∀ m e, step m e !! fst e = F e (m !! fst e)) →
  NoDup (map fst l) →
  ∀ init t,
    (∀ v, (t, v) ∈ l → fold_left step l init !! t = F (t, v) (init !! t))
    ∧ (t ∉ map fst l → fold_left step l init !! t = init !! t).
Proof.
  intros Hne Heq. induction l as [|[k v] l IH]; intros Hnd init t.
  - split; [intros v Hv; by apply elem_of_nil in Hv|done].
  - cbn [map fst] in Hnd. apply NoDup_cons in Hnd as [Hk Hnd].
    cbn [fold_left]. destruct (IH Hnd (step init (k, v)) t) as [IH1 IH2].
    split.
    + intros v0 Hin. apply elem_of_cons in Hin as [[= -> ->]|Hin].
      * rewrite IH2 by done. apply (Heq init (k, v)).
      * assert (t ≠ k) as Htk.
        { intros ->. apply Hk. apply list_elem_of_fmap. by exists (k, v0). }
        rewrite (IH1 v0 Hin). by rewrite (Hne init (k, v) t).
    + intros Hnot. cbn [map fst] in Hnot. apply not_elem_of_cons in Hnot as [Htk Hnot].
      rewrite IH2 by done. by apply (Hne init (k, v) t).
Qed.

Lemma getTaskColors_lookup teams task :
  TeamsCrudService.getTaskColors teams !! task
  = match getTaskMetadata teams !! task with
    | Some meta =>
        if nonEmpty (TaskMeta.color meta) then Some (TaskMeta.color meta)
        else ({["default" := "#95a5a6"]} : gmap string string) !! task
    | None => ({["default" := "#95a5a6"]} : gmap string string) !! task
    end.
Proof.
  unfold TeamsCrudService.getTaskColors. cbn zeta.
  edestruct (fold_entries_lookup
    (λ (colors : gmap string string) (entry : string * TaskMeta.t),
       if nonEmpty (TaskMeta.color (snd entry))
       then <[fst entry := TaskMeta.color (snd entry)]> colors else colors)
    (λ e o, if nonEmpty (TaskMeta.color (snd e)) then Some (TaskMeta.color (snd e)) else o)
    (map_to_list (getTaskMetadata teams))) as [H1 H2].
  { intros m e t Ht. destruct (nonEmpty _); [by rewrite lookup_insert_ne|done]. }
  { intros m e. destruct (nonEmpty _); [by rewrite lookup_insert_eq|done]. }
  { apply NoDup_fst_map_to_list. }
  destruct (getTaskMetadata teams !! task) as [meta|] eqn:Hm.
  - apply elem_of_map_to_list in Hm. by rewrite (H1 meta Hm).
  - apply H2. intros Hin. apply list_elem_of_fmap in Hin as ([k v] & -> & Hin).
    apply elem_of_map_to_list in Hin. simpl in Hm. congruence.
Qed.

Lemma getTaskFriendlyNames_lookup teams task :
  TeamsCrudService.getTaskFriendlyNames teams !! task
  = (λ meta, orElse (TaskMeta.taskName meta) task) <$> getTaskMetadata teams !! task.
Proof.
  unfold TeamsCrudService.getTaskFriendlyNames. cbn zeta.
  edestruct (fold_entries_lookup
    (λ (names : gmap string string) (entry : string * TaskMeta.t),
       <[fst entry := orElse (TaskMeta.taskName (snd entry)) (fst entry)]> names)
    (λ e _, Some (orElse (TaskMeta.taskName (snd e)) (fst e)))
    (map_to_list (getTaskMetadata teams))) as [H1 H2].
  { intros m e t Ht. by rewrite lookup_insert_ne. }
  { intros m e. by rewrite lookup_insert_eq. }
  { apply NoDup_fst_map_to_list. }
  destruct (getTaskMetadata teams !! task) as [meta|] eqn:Hm.
  - apply elem_of_map_to_list in Hm. by rewrite (H1 meta Hm).
  - rewrite H2; [done|]. intros Hin.
    apply list_elem_of_fmap in Hin as ([k v] & -> & Hin).
    apply elem_of_map_to_list in Hin. simpl in Hm. congruence.
Qed.

Lemma getTaskMetadata_empty_key teams : getTaskMetadata teams !! "" = None.
Proof.
  induction teams as [|team teams IH] using rev_ind; [done|].
  rewrite getTaskMetadata_snoc. cbn zeta.
  destruct (nonEmpty (Team.task team)) eqn:Hne; cbn [negb]; [|done].
  apply nonEmpty_true in Hne.
  destruct (getTaskMetadata teams !! Team.task team); by rewrite lookup_insert_ne.
Qed.

(** X15.  Task metadata from the mapping rows.  For mapping rows whose
    tasks are none of the names of the members of [Object.prototype], and a
    non-empty task id that is none of them either, the entry of
    [getTaskMetadata] exists exactly when some Team Mappings row,
    active or not, names the task.  The first such row alone decides the
    contract, the display order and the task name, which is the id itself
    when that row has no name, whatever later rows say; colour, description
    and default SLA threshold are the first non-empty value among the rows
    of the task, and the escalation flag is set when any of them sets it. *)
Theorem getTaskMetadata_rows (teams : list Team.t) (task : string) :
  plainTasks teams = true → ownKey task = true →
  task ≠ "" →
  getTaskMetadata teams !! task
  = match rowsOfTask task teams with
    | [] => None
    | first :: _ =>
        Some {| TaskMeta.taskId := task;
                TaskMeta.taskName := orElse (Team.taskName first) task;
                TaskMeta.contract := Team.contract first;
                TaskMeta.color :=
                  firstNonEmpty (map Team.color (rowsOfTask task teams));
                TaskMeta.description :=
                  firstNonEmpty (map Team.description (rowsOfTask task teams));
                TaskMeta.defaultSlaThreshold :=
                  firstNonEmpty (map Team.defaultSlaThreshold (rowsOfTask task teams));
                TaskMeta.notifyOnEscalation :=
                  existsb Team.notifyOnEscalation (rowsOfTask task teams);
                TaskMeta.displayOrder := Team.displayOrder first |}
    end.
Proof. intros _ _. apply getTaskMetadata_lookup. Qed.

(** X16.  Task colours and friendly names.  For mapping rows whose tasks
    are none of the names of the members of [Object.prototype], and a task
    id that is none of them either and neither empty nor the word default:
    [getTaskColors] has the first non-empty
    colour among the mapping rows of the task, and no entry when no row of
    the task has a colour; [getTaskFriendlyNames] has the name of the first
    mapping row of the task, or the id itself when that row has no name,
    and never an empty name.  The key default holds #95a5a6 unless mapping
    rows name a task default that has a colour, and the empty string is a
    key of neither object. *)
Theorem task_colors_and_names (teams : list Team.t) (task : string) :
  plainTasks teams = true → ownKey task = true →
  task ≠ "" → task ≠ "default" →
  TeamsCrudService.getTaskColors teams !! task
  = orNull (firstNonEmpty (map Team.color (rowsOfTask task teams)))
  ∧ TeamsCrudService.getTaskFriendlyNames teams !! task
    = (λ first, orElse (Team.taskName first) task) <$> head (rowsOfTask task teams)
  ∧ (∀ name, TeamsCrudService.getTaskFriendlyNames teams !! task = Some name →
       name ≠ "")
  ∧ TeamsCrudService.getTaskColors teams !! "default"
    = Some (orElse (firstNonEmpty (map Team.color (rowsOfTask "default" teams)))
              "#95a5a6")
  ∧ TeamsCrudService.getTaskColors teams !! "" = None
  ∧ TeamsCrudService.getTaskFriendlyNames teams !! "" = None.
Proof.
  intros _ _ Ht Hd.
  assert (TeamsCrudService.getTaskFriendlyNames teams !! task
          = (λ first, orElse (Team.taskName first) task) <$> head (rowsOfTask task teams))
    as Hnames.
  { rewrite getTaskFriendlyNames_lookup, (getTaskMetadata_lookup teams task Ht).
    destruct (rowsOfTask task teams) as [|first rest]; [done|].
    cbn. f_equal. apply orElse_nonEmpty, nonEmpty_orElse. by apply nonEmpty_true. }
  split; [|split; [done|split; [|split; [|split]]]].
  - rewrite getTaskColors_lookup, (getTaskMetadata_lookup teams task Ht).
    destruct (rowsOfTask task teams) as [|first rest] eqn:Hrows.
    + by rewrite lookup_singleton_ne.
    + cbn [TaskMeta.color]. unfold orNull.
      destruct (nonEmpty _); [done|]. by rewrite lookup_singleton_ne.
  - intros name. rewrite Hnames. destruct (head _) as [first|]; [|done].
    intros [= <-]. apply nonEmpty_true, nonEmpty_orElse. by apply nonEmpty_true.
  - rewrite getTaskColors_lookup, (getTaskMetadata_lookup teams "default") by done.
    rewrite lookup_singleton_eq.
    destruct (rowsOfTask "default" teams) as [|first rest] eqn:Hrows; [done|].
    cbn [TaskMeta.color]. unfold orElse. by destruct (nonEmpty _).
  - rewrite getTaskColors_lookup, getTaskMetadata_empty_key.
    by rewrite lookup_singleton_ne.
  - by rewrite getTaskFriendlyNames_lookup, getTaskMetadata_empty_key.
Qed.

(** *** Team ids *)

Lemma isDigit_char d : (d < 10)%N → TeamsCrudService.isDigit (pretty_N_char d) = true.
Proof.
  intros H. unfold TeamsCrudService.isDigit. by rewrite (digitValue_char d H).
Qed.

Lemma digitsPrefix_pretty x : ∀ s,
  TeamsCrudService.digitsPrefix (pretty_N_go x s)
  = pretty_N_go x (TeamsCrudService.digitsPrefix s).
Proof.
  induction (N.lt_wf_0 x) as [x _ IH]; intros s.
  assert (x = 0 ∨ 0 < x)%N as [->|Hx] by lia.
  - by rewrite !pretty_N_go_0.
  - rewrite (pretty_N_go_step x s) by done.
    rewrite IH by (by apply N.div_lt). cbn [TeamsCrudService.digitsPrefix].
    rewrite isDigit_char by (by apply N.mod_lt).
    symmetry. by apply pretty_N_go_step.
Qed.

Lemma digitsPrefix_zeros k s :
  TeamsCrudService.digitsPrefix (String.concat "" (repeat "0" k) +:+ s)
  = String.concat "" (repeat "0" k) +:+ TeamsCrudService.digitsPrefix s.
Proof.
  induction k as [|k IH]; [done|]. rewrite zeros_cons.
  change (String "0" (String.concat "" (repeat "0" k)) +:+ s)
    with (String "0" (String.concat "" (repeat "0" k) +:+ s)).
  cbn [TeamsCrudService.digitsPrefix].
  change (TeamsCrudService.isDigit "0") with true. cbv iota. by rewrite IH.
Qed.

Lemma digitsPrefix_padded z :
  (0 < z)%Z →
  TeamsCrudService.digitsPrefix (padStart0 3 (pretty z)) = padStart0 3 (pretty z).
Proof.
  intros Hz. rewrite pretty_pos by done. unfold padStart0.
  by rewrite digitsPrefix_zeros, digitsPrefix_pretty.
Qed.

Lemma nonEmpty_padded s : nonEmpty (padStart0 3 s) = true.
Proof.
  pose proof (padStart0_length 3 s) as H.
  destruct (padStart0 3 s); [|done]. simpl in H. lia.
Qed.

Lemma matchTeamNumber_prefixed d :
  nonEmpty (TeamsCrudService.digitsPrefix d) = true →
  TeamsCrudService.matchTeamNumber ("TEAM-" +:+ d)
  = Some (TeamsCrudService.digitsPrefix d).
Proof.
  intros H. change ("TEAM-" +:+ d) with (String "T" ("EAM-" +:+ d)).
  cbn [TeamsCrudService.matchTeamNumber].
  assert (startsWith (String "T" ("EAM-" +:+ d)) "TEAM-" = true) as ->
    by (by destruct d).
  change (TeamsCrudService.slice 5 (String "T" ("EAM-" +:+ d))) with d.
  by rewrite H.
Qed.

Lemma teamNumbers_cons t ts :
  teamNumbers (t :: ts)
  = match TeamsCrudService.matchTeamNumber (Team.teamId t) ≫= readInteger with
    | Some n => n :: teamNumbers ts
    | None => teamNumbers ts
    end.
Proof. reflexivity. Qed.

Lemma maxReadTeamNumber_nonneg teams : (0 ≤ maxReadTeamNumber teams)%Z.
Proof. unfold maxReadTeamNumber. induction (teamNumbers teams); simpl; lia. Qed.

Lemma maxReadTeamNumber_bound teams t ds n :
  t ∈ teams → TeamsCrudService.matchTeamNumber (Team.teamId t) = Some ds →
  readInteger ds = Some n → (n ≤ maxReadTeamNumber teams)%Z.
Proof.
  induction teams as [|q qs IH]; intros Hin Hm Hn.
  - by apply elem_of_nil in Hin.
  - unfold maxReadTeamNumber in *. rewrite teamNumbers_cons.
    apply elem_of_cons in Hin as [->|Hin].
    + rewrite Hm. simpl. rewrite Hn. simpl. lia.
    + specialize (IH Hin Hm Hn).
      destruct (_ ≫= readInteger); simpl; lia.
Qed.

Lemma maxReadTeamNumber_safe teams :
  safeTeamNumbers teams = true → (maxReadTeamNumber teams < 2 ^ 53)%Z.
Proof.
  unfold safeTeamNumbers, maxReadTeamNumber.
  induction (teamNumbers teams) as [|n ns IH]; intros Hs; [by vm_compute|].
  simpl in Hs. apply andb_true_iff in Hs as [Hn%safeInteger_bound Hns].
  specialize (IH Hns). simpl. lia.
Qed.

(** On team numbers within the exact range, the loop of [_generateTeamId]
    computes the maximum of 0 and the numbers read. *)
Lemma maxTeamNumber_spec teams :
  safeTeamNumbers teams = true →
  TeamsCrudService.maxTeamNumber teams = Int (maxReadTeamNumber teams).
Proof.
  intros Hs. unfold TeamsCrudService.maxTeamNumber.
  assert (∀ a : Z, (0 ≤ a)%Z →
    fold_left (λ (maxNum : Number) team,
      match TeamsCrudService.matchTeamNumber (Team.teamId team) with
      | Some digits =>
          match parseInt10 digits with
          | Some num => if gtb num maxNum then num else maxNum
          | None => maxNum
          end
      | None => maxNum
      end) teams (Int a)
    = Int (Z.max a (maxReadTeamNumber teams))) as H.
  { induction teams as [|t ts IH]; intros a Ha.
    - simpl. f_equal. unfold maxReadTeamNumber. simpl. lia.
    - cbn [fold_left]. unfold maxReadTeamNumber, safeTeamNumbers in *.
      rewrite teamNumbers_cons in *.
      pose proof (maxReadTeamNumber_nonneg ts) as Hnn. unfold maxReadTeamNumber in Hnn.
      destruct (TeamsCrudService.matchTeamNumber (Team.teamId t)) as [ds|];
        [|simpl in *; by apply IH].
      simpl in Hs |- *.
      destruct (readInteger ds) as [n|] eqn:Hn; simpl in Hs |- *.
      + apply andb_true_iff in Hs as [Hsafe Hts].
        rewrite (parseInt10_safe _ _ Hn Hsafe). cbn [gtb].
        destruct (Z.ltb_spec a n); rewrite (IH Hts) by lia; f_equal; lia.
      + rewrite (parseInt10_None _ Hn). by apply IH. }
  rewrite H by lia. f_equal. pose proof (maxReadTeamNumber_nonneg teams). lia.
Qed.

(** X17.  A generated team id is fresh, as long as the numbers in the team
    ids are integers that a Number holds exactly (below 2^53).  With [m]
    the largest number that [/TEAM-(\d+)/] and [parseInt] read in the ids
    of the teams (0 when they read none), [_generateTeamId] returns TEAM-
    followed by the decimal of [m + 1], padded with zeros to three digits
    at least; the pattern reads that number back from the new id, it is
    above the number of every team, and no team carries the new id, so
    [getTeamById] of it finds nothing. *)
Theorem generateTeamId_fresh (teams : list Team.t) :
  safeTeamNumbers teams = true →
  let m := maxReadTeamNumber teams in
  let digits := padStart0 3 (pretty (m + 1)%Z) in
  TeamsCrudService._generateTeamId teams = "TEAM-" +:+ digits
  ∧ (3 ≤ String.length digits)%nat
  ∧ TeamsCrudService.matchTeamNumber (TeamsCrudService._generateTeamId teams)
    = Some digits
  ∧ parseInt10 digits = Some (Int (m + 1))
  ∧ (∀ t ds n, t ∈ teams →
       TeamsCrudService.matchTeamNumber (Team.teamId t) = Some ds →
       readInteger ds = Some n → (n < m + 1)%Z)
  ∧ (∀ t, t ∈ teams → Team.teamId t ≠ TeamsCrudService._generateTeamId teams)
  ∧ TeamsCrudService.getTeamById (TeamsCrudService._generateTeamId teams) teams = None.
Proof.
  intros Hs. cbn zeta.
  pose proof (maxReadTeamNumber_nonneg teams) as Hnn.
  pose proof (maxReadTeamNumber_safe teams Hs) as Hlt.
  set (m := maxReadTeamNumber teams) in *.
  assert (0 < m + 1)%Z as Hpos by lia.
  assert (TeamsCrudService._generateTeamId teams = "TEAM-" +:+ padStart0 3 (pretty (m + 1)%Z))
    as Hid.
  { unfold TeamsCrudService._generateTeamId. rewrite (maxTeamNumber_spec teams Hs). fold m.
    assert (succ (Int m) = Int (m + 1)) as ->
      by (unfold succ; apply toNumber_exact; lia).
    rewrite numberToString_exact by lia. done. }
  assert (TeamsCrudService.matchTeamNumber ("TEAM-" +:+ padStart0 3 (pretty (m + 1)%Z))
          = Some (padStart0 3 (pretty (m + 1)%Z))) as Hmatch.
  { rewrite matchTeamNumber_prefixed; rewrite digitsPrefix_padded by done;
      [done|apply nonEmpty_padded]. }
  assert (∀ t, t ∈ teams →
            Team.teamId t ≠ "TEAM-" +:+ padStart0 3 (pretty (m + 1)%Z)) as Hfresh.
  { intros t Ht Heq.
    pose proof (maxReadTeamNumber_bound teams t (padStart0 3 (pretty (m + 1)%Z)) (m + 1)%Z Ht)
      as H.
    rewrite Heq in H. specialize (H Hmatch (readInteger_padded _ Hpos)). fold m in H. lia. }
  rewrite Hid.
  split; [done|].
  split; [rewrite padStart0_length; lia|].
  split; [done|].
  split.
  { unfold parseInt10. rewrite readInteger_padded by done. simpl. f_equal.
    apply toNumber_exact. lia. }
  split.
  { intros t ds n Ht Hm Hp.
    pose proof (maxReadTeamNumber_bound teams t ds n Ht Hm Hp). fold m in H. lia. }
  split; [done|].
  unfold TeamsCrudService.getTeamById. apply find_all_false.
  intros t Ht. apply String.eqb_neq. by apply Hfresh.
Qed.

(** *** The Vacant Positions sheet *)

Lemma buildColIdx_lookup (hs : list Cell) : ∀ (index : nat) (m : gmap string nat) k (i : nat),
  TeamsCrudService.buildColIdx hs index m !! k = Some i →
  m !! k = Some i
  ∨ (∃ (j : nat) h, i = index + j ∧ hs !! j = Some h ∧ toStr (Some h) = k).
Proof.
  induction hs as [|h hs IH]; intros index m k i H; simpl in H; [by left|].
  apply IH in H as [H|(j & h' & -> & Hj & Hk)].
  - destruct (decide (toStr (Some h) = k)) as [Heq|Hne].
    + subst k. rewrite lookup_insert_eq in H. injection H as <-.
      right. exists 0, h. split; [lia|]. done.
    + rewrite lookup_insert_ne in H by done. by left.
  - right. exists (S j), h'. split; [lia|]. done.
Qed.

Lemma colIdxOf_lookup (hs : list Cell) k (i : nat) :
  TeamsCrudService.colIdxOf hs !! k = Some i →
  ∃ h, hs !! i = Some h ∧ toStr (Some h) = k.
Proof.
  intros H. apply buildColIdx_lookup in H as [H|(j & h & -> & Hj & Hk)].
  - by rewrite lookup_empty in H.
  - by exists h.
Qed.

Lemma readVacantRow_rowIndex colIdx (i : nat) row v :
  TeamsCrudService.readVacantRow colIdx i row = Some v → Vacant.rowIndex v = i + 1.
Proof.
  unfold TeamsCrudService.readVacantRow. intros H. skip_guards H. by injection H as <-.
Qed.

Lemma readVacantRowsFrom_elem colIdx rows : ∀ (i : nat) v,
  v ∈ TeamsCrudService.readVacantRowsFrom colIdx i rows ↔
  ∃ (k : nat) row, rows !! k = Some row
    ∧ TeamsCrudService.readVacantRow colIdx (i + k) row = Some v.
Proof.
  induction rows as [|r rs IH]; intros i v; simpl.
  - split; [intros H; by apply elem_of_nil in H|]. by intros (k & row & H & _).
  - destruct (TeamsCrudService.readVacantRow colIdx i r) as [v0|] eqn:Hr.
    + rewrite elem_of_cons, IH. split.
      * intros [->|(k & row & Hk & Hrow)].
        -- exists 0, r. by rewrite Nat.add_0_r.
        -- exists (S k), row. by replace (i + S k) with (S i + k) by lia.
      * intros ([|k] & row & Hk & Hrow); simpl in Hk.
        -- injection Hk as <-. rewrite Nat.add_0_r in Hrow. left. congruence.
        -- right. exists k, row. by replace (S i + k) with (i + S k) by lia.
    + rewrite IH. split.
      * intros (k & row & Hk & Hrow). exists (S k), row.
        by replace (i + S k) with (S i + k) by lia.
      * intros ([|k] & row & Hk & Hrow); simpl in Hk.
        -- injection Hk as <-. rewrite Nat.add_0_r in Hrow. congruence.
        -- exists k, row. by replace (S i + k) with (i + S k) by lia.
Qed.

Lemma readVacantRowsFrom_app colIdx rows1 rows2 : ∀ (i0 : nat),
  TeamsCrudService.readVacantRowsFrom colIdx i0 (rows1 ++ rows2)
  = TeamsCrudService.readVacantRowsFrom colIdx i0 rows1
    ++ TeamsCrudService.readVacantRowsFrom colIdx (i0 + List.length rows1) rows2.
Proof.
  induction rows1 as [|r rs IH]; intros i0; simpl.
  - by replace (i0 + 0) with i0 by lia.
  - rewrite IH. replace (S i0 + List.length rs) with (i0 + S (List.length rs)) by lia.
    by destruct (TeamsCrudService.readVacantRow colIdx i0 r).
Qed.

Lemma readVacantRowsFrom_alter colIdx (f : list Cell → list Cell) rows :
  ∀ (i0 k : nat) row,
  rows !! k = Some row → TeamsCrudService.readVacantRow colIdx (i0 + k) (f row) = None →
  TeamsCrudService.readVacantRowsFrom colIdx i0 (alter f k rows)
  = filter (λ v, Vacant.rowIndex v ≠ i0 + k + 1)
      (TeamsCrudService.readVacantRowsFrom colIdx i0 rows).
Proof.
  induction rows as [|r rs IH]; intros i0 k row Hk Hnone; [done|].
  destruct k as [|k]; simpl in Hk.
  - injection Hk as ->. replace (i0 + 0) with i0 in * by lia.
    change (alter f 0 (row :: rs)) with (f row :: rs).
    cbn [TeamsCrudService.readVacantRowsFrom]. rewrite Hnone.
    assert (filter (λ v, Vacant.rowIndex v ≠ i0 + 1)
              (TeamsCrudService.readVacantRowsFrom colIdx (S i0) rs)
            = TeamsCrudService.readVacantRowsFrom colIdx (S i0) rs) as Hrest.
    { apply filter_Forall. apply Forall_forall. intros v Hv.
      apply readVacantRowsFrom_elem in Hv as (j & r' & _ & Hr').
      apply readVacantRow_rowIndex in Hr'. lia. }
    destruct (TeamsCrudService.readVacantRow colIdx i0 row) as [v|] eqn:Hv;
      [|by rewrite Hrest].
    rewrite filter_cons_False; [by rewrite Hrest|].
    apply readVacantRow_rowIndex in Hv. intros Hne. by apply Hne.
  - change (alter f (S k) (r :: rs)) with (r :: alter f k rs).
    cbn [TeamsCrudService.readVacantRowsFrom].
    replace (i0 + S k) with (S i0 + k) in * by lia.
    rewrite (IH (S i0) k row Hk Hnone).
    destruct (TeamsCrudService.readVacantRow colIdx i0 r) as [v|] eqn:Hv; [|done].
    rewrite filter_cons_True; [done|].
    apply readVacantRow_rowIndex in Hv. lia.
Qed.

(** With a coherent cache entry, [getAllVacantPositions] serves what the
    sheet holds. *)
Lemma getAllVacantPositions_fresh (s : TeamsCrudService.Store) :
  vacantsCoherent s →
  fst (TeamsCrudService.getAllVacantPositions s)
  = from_option TeamsCrudService.readVacantRows [] (TeamsCrudService.vacantSheet s)
  ∧ (∀ sheet, TeamsCrudService.vacantSheet s = Some sheet →
       TeamsCrudService.vacantSheet (snd (TeamsCrudService.getAllVacantPositions s))
       = Some sheet)
  ∧ vacantsCoherent (snd (TeamsCrudService.getAllVacantPositions s)).
Proof.
  unfold vacantsCoherent, TeamsCrudService.getAllVacantPositions,
    TeamsCrudService._getVacantSheet.
  destruct s as [[sheet|] [[cached|]|]]; cbn; intros Hc.
  - subst cached. done.
  - destruct (body sheet) eqn:Hb; cbn; [|done].
    unfold TeamsCrudService.readVacantRows. by rewrite Hb.
  - destruct (body sheet) eqn:Hb; cbn; [|done].
    unfold TeamsCrudService.readVacantRows. by rewrite Hb.
  - subst cached. done.
  - done.
  - done.
Qed.

(** What [deleteVacantPosition] does when a served vacancy carries the id:
    the cell it writes and what is served afterwards. *)
Lemma deleteVacantPosition_found (s : TeamsCrudService.Store) (sheet : Sheet)
    (vacantId : string) (vacant : Vacant.t) :
  TeamsCrudService.vacantSheet s = Some sheet → vacantsCoherent s →
  rectangular sheet = true →
  TeamsCrudService.colIdxOf (headers sheet) !! "Is Active" = Some 8 →
  List.find (λ v, String.eqb (Vacant.vacantId v) vacantId)
    (TeamsCrudService.readVacantRows sheet) = Some vacant →
  fst (TeamsCrudService.deleteVacantPosition vacantId s)
  = {| success := true; id := None; error := None |}
  ∧ TeamsCrudService.vacantSheet (snd (TeamsCrudService.deleteVacantPosition vacantId s))
    = Some (setValue (Vacant.rowIndex vacant) 9 (CBool false) sheet)
  ∧ fst (TeamsCrudService.getAllVacantPositions
           (snd (TeamsCrudService.deleteVacantPosition vacantId s)))
    = filter (λ v, Vacant.rowIndex v ≠ Vacant.rowIndex vacant)
        (TeamsCrudService.readVacantRows sheet)
  ∧ vacantsCoherent (snd (TeamsCrudService.deleteVacantPosition vacantId s)).
Proof.
  intros Hs Hc Hrect Hact Hfind.
  destruct (getAllVacantPositions_fresh s Hc) as (Hserved & Hkeep & Hc1).
  rewrite Hs in Hserved. cbn [from_option] in Hserved. specialize (Hkeep sheet Hs).
  unfold TeamsCrudService.deleteVacantPosition.
  destruct (TeamsCrudService.getAllVacantPositions s) as [vacants s1].
  cbn [fst snd] in *. subst vacants. rewrite Hfind.
  apply find_some in Hfind as [Hin _]. apply list_elem_of_In in Hin.
  unfold TeamsCrudService.readVacantRows in Hin.
  apply readVacantRowsFrom_elem in Hin as (k & row & Hk & Hrow).
  pose proof (readVacantRow_rowIndex _ _ _ _ Hrow) as Hidx.
  unfold TeamsCrudService._getVacantSheet. rewrite Hkeep. cbn [fst snd].
  split; [done|]. split; [done|].
  assert (List.length row = List.length (headers sheet)) as Hlen.
  { by apply (rectangular_row sheet k row Hrect). }
  assert (8 < List.length (headers sheet)) as Hwide.
  { apply colIdxOf_lookup in Hact as (h & Hh & _). by apply lookup_lt_Some in Hh. }
  assert (TeamsCrudService.readVacantRows
            (setValue (Vacant.rowIndex vacant) 9 (CBool false) sheet)
          = filter (λ v, Vacant.rowIndex v ≠ Vacant.rowIndex vacant)
              (TeamsCrudService.readVacantRows sheet)) as Hread.
  { rewrite Hidx. replace (1 + k + 1) with (S (S k)) by lia.
    unfold TeamsCrudService.readVacantRows, setValue. cbn [headers body].
    replace (S (S k)) with (1 + k + 1) by lia.
    apply (readVacantRowsFrom_alter _ _ _ 1 k row Hk).
    unfold TeamsCrudService.readVacantRow.
    change (9 - 1) with 8.
    rewrite (cell_insert_eq _ row "Is Active" 8) by (done || lia).
    destruct (negb (truthy _)); [done|].
    by rewrite bool_decide_eq_true_2. }
  assert (body (setValue (Vacant.rowIndex vacant) 9 (CBool false) sheet) ≠ []) as Hbody.
  { rewrite Hidx. replace (1 + k + 1) with (S (S k)) by lia.
    unfold setValue. cbn [body]. intros Hnil.
    apply (f_equal List.length) in Hnil. rewrite length_alter in Hnil.
    apply lookup_lt_Some in Hk. simpl in Hnil. lia. }
  unfold TeamsCrudService.getAllVacantPositions, TeamsCrudService.invalidateVacants,
    TeamsCrudService._getVacantSheet, vacantsCoherent.
  cbn [TeamsCrudService.vacantSheet TeamsCrudService.vacantsCache].
  destruct (TeamsCrudService.vacantsCache s1) as [o|]; cbn [fst snd].
  - destruct (body (setValue _ _ _ _)) eqn:Hb; [done|].
    cbn [fst snd TeamsCrudService.vacantsCache TeamsCrudService.vacantSheet].
    done.
  - destruct (body (setValue _ _ _ _)) eqn:Hb; [done|].
    cbn [fst snd TeamsCrudService.vacantsCache TeamsCrudService.vacantSheet].
    done.
Qed.

(** X18.  Deleting a vacancy in the sheet.  For a Vacant Positions sheet
    whose rows are as wide as its header row and whose ninth column is Is
    Active, and a cache entry that holds nothing stale: when a served
    vacancy carries the id, [deleteVacantPosition] succeeds and the
    vacancies served afterwards are those served before except the ones of
    the row of the first vacancy of that id; when none carries it, the call
    fails with a message and the sheet is as before. *)
Theorem deleteVacantPosition_round_trip (s : TeamsCrudService.Store) (sheet : Sheet)
    (vacantId : string) :
  TeamsCrudService.vacantSheet s = Some sheet → vacantsCoherent s →
  rectangular sheet = true →
  TeamsCrudService.colIdxOf (headers sheet) !! "Is Active" = Some 8 →
  fst (TeamsCrudService.getAllVacantPositions s) = TeamsCrudService.readVacantRows sheet
  ∧ match List.find (λ v, String.eqb (Vacant.vacantId v) vacantId)
            (TeamsCrudService.readVacantRows sheet) with
    | Some vacant =>
        fst (TeamsCrudService.deleteVacantPosition vacantId s)
        = {| success := true; id := None; error := None |}
        ∧ fst (TeamsCrudService.getAllVacantPositions
                 (snd (TeamsCrudService.deleteVacantPosition vacantId s)))
          = filter (λ v, Vacant.rowIndex v ≠ Vacant.rowIndex vacant)
              (TeamsCrudService.readVacantRows sheet)
        ∧ vacantsCoherent (snd (TeamsCrudService.deleteVacantPosition vacantId s))
    | None =>
        fst (TeamsCrudService.deleteVacantPosition vacantId s)
        = failed ("Vacant position not found: " +:+ vacantId)
        ∧ TeamsCrudService.vacantSheet
            (snd (TeamsCrudService.deleteVacantPosition vacantId s)) = Some sheet
    end.
Proof.
  intros Hs Hc Hrect Hact.
  destruct (getAllVacantPositions_fresh s Hc) as (Hserved & Hkeep & Hc1).
  rewrite Hs in Hserved. cbn [from_option] in Hserved. specialize (Hkeep sheet Hs).
  split; [done|].
  destruct (List.find _ (TeamsCrudService.readVacantRows sheet)) as [vacant|] eqn:Hfind.
  - by destruct (deleteVacantPosition_found s sheet vacantId vacant Hs Hc Hrect Hact Hfind)
      as (? & _ & ? & ?).
  - unfold TeamsCrudService.deleteVacantPosition.
    destruct (TeamsCrudService.getAllVacantPositions s) as [vacants s1].
    cbn [fst snd] in *. subst vacants. by rewrite Hfind.
Qed.

(** *** Deleting a vacancy through [deletePerson] *)

(** X9.  A vacancy deleted through [deletePerson] stays in a warm cache.  For
    an authorised caller, a coherent cache that holds the tree, a Vacant
    Positions sheet whose rows are as wide as its header row and whose ninth
    column is Is Active, a cache entry of the vacancies that holds nothing
    stale, and an id of the form VAC-... whose first served vacancy is [v]:
    [deletePerson] succeeds, the ninth cell of the row of [v] is set to
    false, the vacancies served afterwards are those served before except
    the ones of that row, so [v] is served no more; the Team List is not
    touched, and the next [getAllData] still returns the cached list, in
    which the node of [v] is present. *)
Theorem deletePerson_vacancy_stale (w : World) (sheet : Sheet) (c : Cache)
    (l : list Node.t) (d : TeamsData) (vsheet : Sheet) (id : string) (v : Vacant.t) :
  permitted w = true → coherent w → teamList w = Some sheet →
  appCache w = Some c → all_data c = Some l →
  teamsCrudService w = Some d →
  TeamsCrudService.vacantSheet (vacantStore d) = Some vsheet →
  vacantsCoherent (vacantStore d) → rectangular vsheet = true →
  TeamsCrudService.colIdxOf (headers vsheet) !! "Is Active" = Some 8 →
  startsWith id "VAC-" = true →
  List.find (λ v, String.eqb (Vacant.vacantId v) id) (vacantsOf w) = Some v →
  fst (deletePerson id w) = Returned {| success := true; id := None; error := None |}
  ∧ (∃ d', teamsCrudService (snd (deletePerson id w)) = Some d'
       ∧ TeamsCrudService.vacantSheet (vacantStore d')
         = Some (setValue (Vacant.rowIndex v) 9 (CBool false) vsheet))
  ∧ vacantsOf (snd (deletePerson id w))
    = filter (λ v', Vacant.rowIndex v' ≠ Vacant.rowIndex v) (vacantsOf w)
  ∧ (v ∉ vacantsOf (snd (deletePerson id w)))
  ∧ teamList (snd (deletePerson id w)) = Some sheet
  ∧ fst (getAllData (snd (deletePerson id w))) = l
  ∧ vacantRecord (upidMapOf (readRows sheet)) v
      ∈ fst (getAllData (snd (deletePerson id w))).
Proof.
  intros Hp Hc Hs Hac Had Hd Hvs Hvc Hrect Hact Hvac Hfind.
  assert (nonEmpty id = true) as Hne by (by destruct id).
  assert (vacantsOf w = TeamsCrudService.readVacantRows vsheet) as Hserved.
  { unfold vacantsOf, allVacantPositions. rewrite Hd. cbn [from_option].
    destruct (getAllVacantPositions_fresh _ Hvc) as (-> & _ & _). by rewrite Hvs. }
  rewrite Hserved in Hfind |- *.
  destruct (deleteVacantPosition_found _ vsheet id v Hvs Hvc Hrect Hact Hfind)
    as (Hres & Hsheet & Hafter & _).
  assert (l = freshData w sheet) as Hl.
  { unfold coherent in Hc. rewrite Hac, Hs in Hc. destruct Hc as [_ Hc].
    by rewrite Had in Hc. }
  unfold deletePerson, deleteVacantPosition. rewrite Hp, Hne, Hvac, Hd.
  cbn [negb andb].
  destruct (TeamsCrudService.deleteVacantPosition id (vacantStore d)) as [r s1].
  cbn [fst snd] in *. subst r.
  split; [done|].
  split; [by eexists|].
  assert (vacantsOf (logAccess VacantsRead
            (setTeamsData {| allTeams := allTeams d; vacantStore := s1 |} w))
          = filter (λ v', Vacant.rowIndex v' ≠ Vacant.rowIndex v)
              (TeamsCrudService.readVacantRows vsheet)) as Hv.
  { done. }
  split; [done|].
  split.
  { rewrite Hv. intros Hin. apply list_elem_of_filter in Hin as [Hne' _]. by apply Hne'. }
  split; [done|].
  assert (fst (getAllData (logAccess VacantsRead
            (setTeamsData {| allTeams := allTeams d; vacantStore := s1 |} w))) = l) as Hg.
  { unfold getAllData. cbn [setTeamsData logAccess appCache]. rewrite Hac, Had. done. }
  rewrite Hg. split; [done|].
  rewrite Hl. unfold freshData. apply vacantRecord_in_assemble.
  rewrite Hserved. apply find_some in Hfind as [Hin _]. by apply list_elem_of_In.
Qed.

Lemma vacant_cell (colIdx : gmap string nat) (row : list Cell) (i : nat) (h : string) :
  colIdx = TeamsCrudService.colIdxOf (map CStr TeamsCrudService.VACANT_HEADERS) →
  TeamsCrudService.VACANT_HEADERS !! i = Some h → cell colIdx row h = row !! i.
Proof.
  intros -> H. unfold cell.
  assert (TeamsCrudService.colIdxOf (map CStr TeamsCrudService.VACANT_HEADERS) !! h
          = Some i) as ->; [|done].
  do 9 (destruct i as [|i]; [injection H as <-; vm_compute; reflexivity|]).
  done.
Qed.

(** The vacancy that the reader makes of a row built by
    [createVacantPosition], in a sheet with the standard columns. *)
Lemma readVacantRow_built (colIdx : gmap string nat) (i : nat) (vacantId : string)
    (vacantData : TeamsCrudService.VacantInput.t) :
  colIdx = TeamsCrudService.colIdxOf (map CStr TeamsCrudService.VACANT_HEADERS) →
  nonEmpty vacantId = true →
  TeamsCrudService.readVacantRow colIdx i
    (TeamsCrudService.vacantRowData vacantId vacantData)
  = Some {|
      Vacant.vacantId := vacantId;
      Vacant.contract := TeamsCrudService.VacantInput.contract vacantData;
      Vacant.task := default "" (TeamsCrudService.VacantInput.task vacantData);
      Vacant.team := TeamsCrudService.VacantInput.team vacantData;
      Vacant.title :=
        orElse (TeamsCrudService.VacantInput.title vacantData) "Vacant Position";
      Vacant.supervisorUpid := TeamsCrudService.VacantInput.supervisorUpid vacantData;
      Vacant.targetHireDate := TeamsCrudService.VacantInput.targetHireDate vacantData;
      Vacant.requirements := TeamsCrudService.VacantInput.requirements vacantData;
      Vacant.rowIndex := i + 1 |}.
Proof.
  intros Hc Hid. unfold TeamsCrudService.readVacantRow.
  rewrite (vacant_cell colIdx _ 0 "Vacant ID" Hc eq_refl).
  rewrite (vacant_cell colIdx _ 1 "Contract" Hc eq_refl).
  rewrite (vacant_cell colIdx _ 2 "Task ID" Hc eq_refl).
  rewrite (vacant_cell colIdx _ 3 "Team ID" Hc eq_refl).
  rewrite (vacant_cell colIdx _ 4 "Title" Hc eq_refl).
  rewrite (vacant_cell colIdx _ 5 "Supervisor UPID" Hc eq_refl).
  rewrite (vacant_cell colIdx _ 6 "Target Hire Date" Hc eq_refl).
  rewrite (vacant_cell colIdx _ 7 "Requirements" Hc eq_refl).
  rewrite (vacant_cell colIdx _ 8 "Is Active" Hc eq_refl).
  clear Hc. unfold TeamsCrudService.vacantRowData.
  cbn [lookup list_lookup].
  change (truthy (Some (CStr vacantId))) with (nonEmpty vacantId). rewrite Hid.
  cbn [negb]. rewrite !bool_decide_eq_false_2 by done. cbn [orb toStr].
  f_equal. unfold isoOr. rewrite !strOr_CStr. f_equal.
  unfold TeamsCrudService.strOrElse.
  change (truthy (Some (CStr ?s))) with (nonEmpty s).
  rewrite nonEmpty_orElse by done. done.
Qed.

Lemma nonEmpty_newVacantId vacantData existing :
  nonEmpty (TeamsCrudService.newVacantId vacantData existing) = true.
Proof. unfold TeamsCrudService.newVacantId. by apply nonEmpty_orElse. Qed.

(** X19.  Creating a vacancy and reading it back.  For a cache entry that
    holds nothing stale and a Vacant Positions sheet that does not exist
    yet or whose header row is [VACANT_HEADERS]: [createVacantPosition]
    succeeds and returns a non-empty id, the given one or VAC-, the task
    without its first TASK-, and one plus the number of served vacancies of
    that task;
    the vacancies served afterwards are those served before followed by the
    new one, with that id, the given fields, the title Vacant Position when
    none is given, and the row number of the appended row. *)
Theorem createVacantPosition_read_back (s : TeamsCrudService.Store)
    (vacantData : TeamsCrudService.VacantInput.t) :
  vacantsCoherent s →
  (∀ sheet, TeamsCrudService.vacantSheet s = Some sheet →
     headers sheet = map CStr TeamsCrudService.VACANT_HEADERS) →
  let served := fst (TeamsCrudService.getAllVacantPositions s) in
  let vacantId := TeamsCrudService.newVacantId vacantData served in
  fst (TeamsCrudService.createVacantPosition vacantData s)
  = {| TeamsCrudService.VacantResult.success := true;
       TeamsCrudService.VacantResult.vacantId := Some vacantId;
       TeamsCrudService.VacantResult.error := None |}
  ∧ vacantId ≠ ""
  ∧ fst (TeamsCrudService.getAllVacantPositions
           (snd (TeamsCrudService.createVacantPosition vacantData s)))
    = served ++ [ {|
        Vacant.vacantId := vacantId;
        Vacant.contract := TeamsCrudService.VacantInput.contract vacantData;
        Vacant.task := default "" (TeamsCrudService.VacantInput.task vacantData);
        Vacant.team := TeamsCrudService.VacantInput.team vacantData;
        Vacant.title :=
          orElse (TeamsCrudService.VacantInput.title vacantData) "Vacant Position";
        Vacant.supervisorUpid := TeamsCrudService.VacantInput.supervisorUpid vacantData;
        Vacant.targetHireDate := TeamsCrudService.VacantInput.targetHireDate vacantData;
        Vacant.requirements := TeamsCrudService.VacantInput.requirements vacantData;
        Vacant.rowIndex :=
          List.length (from_option body [] (TeamsCrudService.vacantSheet s)) + 2 |} ].
Proof.
  intros Hc Hh. cbn zeta.
  set (sheet0 := default {| headers := map CStr TeamsCrudService.VACANT_HEADERS;
                            body := [] |} (TeamsCrudService.vacantSheet s)).
  assert (headers sheet0 = map CStr TeamsCrudService.VACANT_HEADERS) as Hh0.
  { unfold sheet0. destruct (TeamsCrudService.vacantSheet s) as [sh|] eqn:Hs; [|done].
    by apply Hh. }
  assert (fst (TeamsCrudService.getAllVacantPositions s)
          = TeamsCrudService.readVacantRows sheet0) as Hserved.
  { destruct (getAllVacantPositions_fresh s Hc) as (-> & _ & _).
    unfold sheet0. by destruct (TeamsCrudService.vacantSheet s). }
  assert (from_option body [] (TeamsCrudService.vacantSheet s) = body sheet0) as Hbody.
  { unfold sheet0. by destruct (TeamsCrudService.vacantSheet s). }
  rewrite Hbody, Hserved.
  (* the store after [_getVacantSheet] *)
  unfold TeamsCrudService.createVacantPosition.
  destruct (TeamsCrudService._getVacantSheet s) as [sheet s1] eqn:Hget.
  assert (sheet = sheet0 ∧ TeamsCrudService.vacantSheet s1 = Some sheet0
          ∧ vacantsCoherent s1) as (-> & Hs1 & Hc1).
  { unfold TeamsCrudService._getVacantSheet in Hget. unfold sheet0, vacantsCoherent in *.
    destruct (TeamsCrudService.vacantSheet s) as [sh|] eqn:Hs;
      injection Hget as <- <-; [by rewrite Hs|].
    cbn. split; [done|]. split; [done|].
    destruct (TeamsCrudService.vacantsCache s) as [[cached|]|]; done. }
  destruct (getAllVacantPositions_fresh s1 Hc1) as (Hserved1 & Hkeep1 & _).
  rewrite Hs1 in Hserved1. cbn [from_option] in Hserved1. specialize (Hkeep1 sheet0 Hs1).
  destruct (TeamsCrudService.getAllVacantPositions s1) as [existing s2].
  cbn [fst snd] in *. subst existing.
  set (vid := TeamsCrudService.newVacantId vacantData
                (TeamsCrudService.readVacantRows sheet0)).
  split; [done|]. split; [apply nonEmpty_true, nonEmpty_newVacantId|].
  unfold TeamsCrudService.getAllVacantPositions, TeamsCrudService.invalidateVacants,
    TeamsCrudService._getVacantSheet.
  cbn [TeamsCrudService.vacantSheet TeamsCrudService.vacantsCache].
  assert (TeamsCrudService.readVacantRows
            (appendRow (TeamsCrudService.vacantRowData vid vacantData) sheet0)
          = TeamsCrudService.readVacantRows sheet0
            ++ [ {| Vacant.vacantId := vid;
                    Vacant.contract := TeamsCrudService.VacantInput.contract vacantData;
                    Vacant.task :=
                      default "" (TeamsCrudService.VacantInput.task vacantData);
                    Vacant.team := TeamsCrudService.VacantInput.team vacantData;
                    Vacant.title :=
                      orElse (TeamsCrudService.VacantInput.title vacantData)
                        "Vacant Position";
                    Vacant.supervisorUpid :=
                      TeamsCrudService.VacantInput.supervisorUpid vacantData;
                    Vacant.targetHireDate :=
                      TeamsCrudService.VacantInput.targetHireDate vacantData;
                    Vacant.requirements :=
                      TeamsCrudService.VacantInput.requirements vacantData;
                    Vacant.rowIndex := List.length (body sheet0) + 2 |} ]) as Hread.
  { unfold TeamsCrudService.readVacantRows, appendRow. cbn [headers body].
    rewrite Hh0, readVacantRowsFrom_app. f_equal.
    change (List.length (map CStr TeamsCrudService.VACANT_HEADERS)
            - List.length (TeamsCrudService.vacantRowData vid vacantData)) with 0.
    cbn [repeat]. rewrite app_nil_r. cbn [TeamsCrudService.readVacantRowsFrom].
    rewrite (readVacantRow_built _ _ vid vacantData eq_refl)
      by apply nonEmpty_newVacantId.
    do 2 f_equal. lia. }
  assert (body (appendRow (TeamsCrudService.vacantRowData vid vacantData) sheet0) ≠ [])
    as Hne.
  { unfold appendRow. cbn [body]. intros Hnil. by apply app_eq_nil in Hnil as [_ ?]. }
  destruct (TeamsCrudService.vacantsCache s2) as [o|]; cbn [fst snd].
  - destruct (body (appendRow _ _)) eqn:Hb; [done|]. by cbn.
  - destruct (body (appendRow _ _)) eqn:Hb; [done|]. by cbn.
Qed.

(** *** Updates that cannot be applied *)

(** X20.  A name or a parent that is not a string.  For an authorised caller
    and an id found in the Team List: when [updates.name] or
    [updates.parentId] is null or a value that is not a string,
    [updatePerson] returns a failure with a message and the world is as it
    was before: no field of [updates] is written, whatever the other fields
    are, and the cache is not invalidated. *)
Theorem updatePerson_type_error (w : World) (sheet : Sheet) (id : string)
    (updates : Updates) (i : nat) :
  permitted w = true → teamList w = Some sheet → findRow id sheet = Some i →
  undefinedOrString (getProp updates "name") = false
  ∨ undefinedOrString (getProp updates "parentId") = false →
  ∃ message, updatePerson id updates w = (Returned (failed message), w).
Proof.
  intros Hp Hs Hfind Hbad.
  unfold updatePerson, _getTeamListSheet. rewrite Hp, Hs, Hfind. cbn [negb].
  destruct (splitName updates) as [u1|m] eqn:Hu1; [|by eexists].
  assert (getProp u1 "parentId" = getProp updates "parentId") as Hpar.
  { unfold splitName in Hu1.
    destruct (getProp updates "name") as [| |[s| | |]]; try discriminate;
      injection Hu1 as <-; [done|]. by rewrite !getProp_setProp_ne. }
  destruct Hbad as [Hname|Hparent].
  { unfold splitName in Hu1.
    by destruct (getProp updates "name") as [| |[s| | |]]. }
  unfold parentToSupervisor. rewrite Hpar.
  destruct (getProp updates "parentId") as [| |[s| | |]]; try done; by eexists.
Qed.

(** *** Headers, rows and records *)

Lemma buildColMap_last (hs : list Cell) : ∀ (index : nat) (m : gmap string nat) k,
  buildColMap hs index m !! k
  = match List.find (λ jh, String.eqb (trim (toStr (Some (snd jh)))) k)
            (rev (imap (λ j h, (index + j, h)) hs)) with
    | Some jh => Some (fst jh)
    | None => m !! k
    end.
Proof.
  induction hs as [|h hs IH]; intros index m k; [done|].
  cbn [buildColMap]. rewrite IH. cbn [imap rev].
  rewrite (imap_ext ((λ j h0, (index + j, h0)) ∘ S) (λ j h0, (S index + j, h0)) hs)
    by (intros; simpl; f_equal; lia).
  destruct (List.find _ (rev (imap (λ j h0, (S index + j, h0)) hs))) as [jh|] eqn:Hf.
  - by rewrite (find_app_Some _ _ _ _ Hf).
  - rewrite (find_app_None _ _ _ Hf). cbn [List.find snd fst].
    destruct (String.eqb_spec (trim (toStr (Some h))) k) as [<-|Hne].
    + rewrite lookup_insert_eq. simpl. f_equal. lia.
    + by rewrite lookup_insert_ne.
Qed.

(** X21.  Columns by header name.  The column that the reader and the writes
    use for a header name is the last column of the header row whose
    header, converted to a string and trimmed, is that name; no column is
    found when no header is that name.  Two different names never lead to
    the same column, and a column found lies within the header row. *)
Theorem header_lookup_last (hs : list Cell) (name : string) :
  colMapOf hs !! name
  = fst <$> List.find (λ jh, String.eqb (trim (toStr (Some (snd jh)))) name)
              (rev (imap (λ j h, (j, h)) hs))
  ∧ (∀ i, colMapOf hs !! name = Some i →
       i < List.length hs
       ∧ (∃ h, hs !! i = Some h ∧ trim (toStr (Some h)) = name)
       ∧ (∀ j h, i < j → hs !! j = Some h → trim (toStr (Some h)) ≠ name)
       ∧ ∀ name', colMapOf hs !! name' = Some i → name' = name).
Proof.
  assert (colMapOf hs !! name
          = fst <$> List.find (λ jh, String.eqb (trim (toStr (Some (snd jh)))) name)
                      (rev (imap (λ j h, (j, h)) hs))) as Hlast.
  { unfold colMapOf. rewrite buildColMap_last.
    rewrite (imap_ext (λ j h, (0 + j, h)) (λ j h, (j, h))) by done.
    by destruct (List.find _ _). }
  split; [done|]. intros i Hi.
  split; [by apply colMapOf_lt in Hi|].
  split; [by apply colMapOf_lookup in Hi|].
  split; [|intros name' Hi'; exact (colMapOf_inj _ _ _ _ Hi' Hi)].
  intros j h Hij Hj Hname. rewrite Hlast in Hi.
  destruct (List.find _ _) as [[i' h']|] eqn:Hf; [|done].
  cbn in Hi. injection Hi as ->.
  (* the entry of column j comes before the entry of column i in the reversed list *)
  assert (∀ (l : list Cell) (base : nat) (i j : nat) hi hj,
            i < j → l !! i = Some hi → l !! j = Some hj →
            String.eqb (trim (toStr (Some hj))) name = true →
            List.find (λ jh, String.eqb (trim (toStr (Some (snd jh)))) name)
              (rev (imap (λ j h, (base + j, h)) l)) ≠ Some (base + i, hi)) as Hno.
  { clear. induction l as [|x l IH]; intros base i j hi hj Hij Hi Hj Hm; [done|].
    cbn [imap rev].
    rewrite (imap_ext ((λ j h0, (base + j, h0)) ∘ S) (λ j h0, (S base + j, h0)) l)
      by (intros; simpl; f_equal; lia).
    destruct j as [|j]; [lia|]. simpl in Hj.
    destruct (List.find (λ jh, String.eqb (trim (toStr (Some (snd jh)))) name)
                (rev (imap (λ j0 h0, (S base + j0, h0)) l))) as [jh|] eqn:Hf.
    - rewrite (find_app_Some _ _ _ _ Hf). destruct i as [|i].
      + intros [= ->]. apply find_some in Hf as [Hin _].
        apply in_rev, list_elem_of_In, elem_of_lookup_imap in Hin as (j' & h' & Heq & _).
        injection Heq as Heq _. lia.
      + simpl in Hi. replace (base + S i) with (S base + i) by lia.
        rewrite <- Hf. apply (IH (S base) i j hi hj); [lia|done..].
    - exfalso. assert (In (S base + j, hj)
                         (rev (imap (λ j0 h0, (S base + j0, h0)) l))) as Hin.
      { apply in_rev. rewrite rev_involutive.
        apply list_elem_of_In, elem_of_lookup_imap. by exists j, hj. }
      pose proof (find_none _ _ Hf _ Hin) as Hnone. cbn [snd] in Hnone. congruence. }
  apply (Hno hs 0 i j h' h Hij); [|done|by apply String.eqb_eq|].
  - apply find_some in Hf as [Hin _].
    apply in_rev, list_elem_of_In, elem_of_lookup_imap in Hin as (j' & h'' & Heq & Hl).
    by injection Heq as -> ->.
  - exact Hf.
Qed.

(** *** What the reader returns *)

Lemma deriveNodeType_nonEmpty colMap row : nonEmpty (deriveNodeType colMap row) = true.
Proof.
  unfold deriveNodeType.
  destruct (String.eqb _ "Departed" && negb _); [done|].
  destruct (nonEmpty (toLowerCase _)) eqn:He; [done|].
  assert (nonEmpty
    (if nonEmpty (strOr (cell colMap row "Contract Personnel Code (CPC)")) then
       match CPC_LEVEL_MAP
               !! charAt0 (strOr (cell colMap row "Contract Personnel Code (CPC)")) with
       | Some ty => orElse ty "person"
       | None => "person"
       end
     else "person") = true) as Hcpc.
  { destruct (nonEmpty (strOr _)); [|done].
    destruct (CPC_LEVEL_MAP !! _); [by apply nonEmpty_orElse|done]. }
  destruct (isTrueFlag _); [|done].
  by destruct (String.eqb _ "person").
Qed.

Lemma readRowsFrom_ascending colMap rows : ∀ (i0 i j : nat) p q,
  i < j → readRowsFrom colMap i0 rows !! i = Some p →
  readRowsFrom colMap i0 rows !! j = Some q →
  Person._rowIndex p < Person._rowIndex q.
Proof.
  induction rows as [|r rs IH]; intros i0 i j p q Hij Hi Hj; [done|].
  cbn [readRowsFrom] in Hi, Hj.
  destruct (readRow colMap i0 r) as [p0|] eqn:Hr.
  - destruct j as [|j]; [lia|]. simpl in Hj. destruct i as [|i]; simpl in Hi.
    + injection Hi as <-. apply readRow_rowIndex in Hr.
      apply list_elem_of_lookup_2, readRowsFrom_rowIndex in Hj. lia.
    + apply (IH (S i0) i j); [lia|done..].
  - by apply (IH (S i0) i j).
Qed.

Lemma readRowsFrom_length colMap rows : ∀ (i0 : nat),
  (List.length (readRowsFrom colMap i0 rows) ≤ List.length rows)%nat.
Proof.
  induction rows as [|r rs IH]; intros i0; [done|]. cbn [readRowsFrom].
  specialize (IH (S i0)). destruct (readRow colMap i0 r); simpl; lia.
Qed.

(** X22.  The records of the reader.  Every record that the loop of
    [_readTeamListRaw] returns comes from one row below the header row and
    carries its 1-based row number as [_rowIndex]; the records are in row
    order, so the row numbers strictly increase along the list, and there
    are at most as many records as rows.  A record always has a non-empty
    node type, and no record is both Departed and inactive. *)
Theorem reader_records (sheet : Sheet) :
  (∀ p, p ∈ readRows sheet →
     (2 ≤ Person._rowIndex p ≤ List.length (body sheet) + 1)%nat
     ∧ (∃ row, body sheet !! (Person._rowIndex p - 2) = Some row
          ∧ readRow (colMapOf (headers sheet)) (Person._rowIndex p - 1) row = Some p)
     ∧ Person.nodeType p ≠ ""
     ∧ ¬ (Person.personnelContractStatus p = "Departed"
          ∧ Person.activeInOrg p = false))
  ∧ (∀ (i j : nat) p q, i < j →
       readRows sheet !! i = Some p → readRows sheet !! j = Some q →
       Person._rowIndex p < Person._rowIndex q)
  ∧ (List.length (readRows sheet) ≤ List.length (body sheet))%nat.
Proof.
  split; [|split; [apply readRowsFrom_ascending|apply readRowsFrom_length]].
  intros p Hp. unfold readRows in Hp.
  apply readRowsFrom_elem in Hp as (k & row & Hk & Hrow).
  pose proof (readRow_rowIndex _ _ _ _ Hrow) as Hidx.
  pose proof (lookup_lt_Some _ _ _ Hk) as Hlt.
  split; [lia|]. split.
  { exists row. rewrite Hidx. replace (1 + k + 1 - 2) with k by lia.
    by replace (1 + k + 1 - 1) with (1 + k) by lia. }
  split.
  { rewrite (readRow_nodeType _ _ _ _ Hrow). apply nonEmpty_true.
    apply deriveNodeType_nonEmpty. }
  unfold readRow in Hrow.
  destruct (negb _ && negb _); [done|].
  destruct (String.eqb_spec
              (trim (strOr (cell (colMapOf (headers sheet)) row "Personnel Contract Status")))
              "Departed") as [Hd|Hd]; cbn [andb] in Hrow.
  - destruct (isFalseFlag _) eqn:Hf; [done|]. injection Hrow as <-.
    cbn [Person.personnelContractStatus Person.activeInOrg].
    by intros [_ ?].
  - injection Hrow as <-. cbn [Person.personnelContractStatus Person.activeInOrg].
    by intros [? _].
Qed.

(** *** Lookup by id *)

(** X23.  Lookup by id.  When the cache holds nothing stale, the Team List is
    in place and the ids of the persons are pairwise distinct and outside
    the name space of the structural ids: [getById] of the id of a record
    (its UPID, else its email, else its employee code) returns the node of
    that record; [getById] of root returns the root node, which is the
    first node and the only one without a parent; [getById] of the id of a
    task named by an active mapping or by a record returns its task node;
    and [getById] of an id that no node carries returns null. *)
Theorem getById_finds (w : World) (sheet : Sheet) :
  coherent w → teamList w = Some sheet →
  wellFormedIds (readRows sheet) = true →
  (∀ p, p ∈ readRows sheet →
     fst (getById (personId p) w)
     = Some (personRecord p (resolvedParent (teamsOf w) (readRows sheet) p)))
  ∧ fst (getById "root" w) = Some rootNode
  ∧ (∃ rest, fst (getAllData w) = rootNode :: rest
       ∧ ∀ n, n ∈ rest → is_Some (Node.parentId n))
  ∧ (∀ x, x ∈ taskIdsOf (teamsOf w) (readRows sheet) →
       fst (getById ("task:" +:+ x) w)
       = Some (taskNodeOf (getTaskMetadata (teamsOf w))
                 (contractDirectorsOf (readRows sheet)) x))
  ∧ (∀ id, (∀ n, n ∈ fst (getAllData w) → Node.id n ≠ id) →
       fst (getById id w) = None).
Proof.
  intros Hc Hs Hwf. pose proof (getAllData_fresh w sheet Hc Hs) as Hdata.
  assert (∀ id, fst (getById id w) = nodeById (fst (getAllData w)) id) as Hget.
  { intros id. unfold getById. by destruct (getAllData w). }
  split; [|split; [|split; [|split]]].
  - intros p Hp. rewrite Hget, Hdata. by apply nodeById_person.
  - rewrite Hget, Hdata. apply nodeById_root.
  - rewrite Hdata. unfold freshData, assemble. eexists. split; [reflexivity|].
    intros n Hn. rewrite !elem_of_app in Hn.
    destruct Hn as [Hn|[Hn|[Hn|Hn]]].
    + apply taskNodes_ids in Hn as (x & _ & ->). by eexists.
    + apply teamNodes_ids in Hn as (t & _ & _ & _ & ->). by eexists.
    + apply list_elem_of_fmap in Hn as (p & -> & _). by eexists.
    + apply list_elem_of_fmap in Hn as (v & -> & _). by eexists.
  - intros x Hx. rewrite Hget, Hdata. by apply nodeById_task.
  - intros id Hno. rewrite Hget. apply find_all_false. intros n Hn.
    apply String.eqb_neq. by apply Hno.
Qed.

(** *** Task nodes *)

Lemma elem_of_setAdd_fold {A} (c : A → bool) (g : A → string) (l : list A) :
  ∀ init x,
    x ∈ fold_left (λ ids a, if c a then setAdd (g a) ids else ids) l init
    ↔ x ∈ init ∨ ∃ a, a ∈ l ∧ c a = true ∧ g a = x.
Proof.
  induction l as [|a l IH]; intros init x; simpl.
  - split; [by left|]. intros [H|(a & Ha & _)]; [done|by apply elem_of_nil in Ha].
  - rewrite IH. destruct (c a) eqn:Hc.
    + rewrite elem_of_setAdd. split.
      * intros [[->|H]|(b & Hb & Hcb & Hg)].
        -- right. exists a. split; [by left|done].
        -- by left.
        -- right. exists b. split; [by right|done].
      * intros [H|(b & Hb & Hcb & Hg)]; [left; by right|].
        apply elem_of_cons in Hb as [->|Hb]; [left; by left|].
        right. by exists b.
    + split.
      * intros [H|(b & Hb & Hcb & Hg)]; [by left|].
        right. exists b. split; [by right|done].
      * intros [H|(b & Hb & Hcb & Hg)]; [by left|].
        apply elem_of_cons in Hb as [->|Hb]; [congruence|].
        right. by exists b.
Qed.

Lemma elem_of_taskIdsOf teams personnel x :
  x ∈ taskIdsOf teams personnel
  ↔ x ≠ ""
    ∧ ((∃ t, t ∈ teams ∧ Team.isActive t = true ∧ Team.task t = x)
       ∨ (∃ p, p ∈ personnel ∧ Person.task p = x)).
Proof.
  unfold taskIdsOf.
  rewrite (elem_of_setAdd_fold (λ p, nonEmpty (Person.task p)) Person.task).
  rewrite (elem_of_setAdd_fold (λ t, nonEmpty (Team.task t) && Team.isActive t) Team.task).
  split.
  - intros [[H|(t & Ht & Hc & Hg)]|(p & Hp & Hc & Hg)].
    + by apply elem_of_nil in H.
    + apply andb_prop in Hc as [Hne Hact]. subst x.
      split; [by apply nonEmpty_true|]. left. by exists t.
    + subst x. split; [by apply nonEmpty_true|]. right. by exists p.
  - intros [Hne [(t & Ht & Hact & Hg)|(p & Hp & Hg)]].
    + left. right. exists t. split; [done|]. split; [|done]. subst x.
      apply nonEmpty_true in Hne. by rewrite Hne, Hact.
    + right. exists p. split; [done|]. split; [|done]. subst x.
      by apply nonEmpty_true.
Qed.

Lemma contractDirectorsOf_snoc personnel p :
  contractDirectorsOf (personnel ++ [p])
  = (if String.eqb (Person.nodeType p) "director"
        && nonEmpty (Person.contract p) && nonEmpty (Person.upid p)
     then <[Person.contract p := Person.upid p]> (contractDirectorsOf personnel)
     else contractDirectorsOf personnel).
Proof. unfold contractDirectorsOf. by rewrite fold_left_app. Qed.

(** The director kept for a contract is the last one in row order. *)
Lemma contractDirectorsOf_last personnel c :
  contractDirectorsOf personnel !! c
  = Person.upid <$> List.find (directorOf c) (rev personnel).
Proof.
  induction personnel as [|p personnel IH] using rev_ind; [done|].
  rewrite contractDirectorsOf_snoc, rev_app_distr. cbn [rev app List.find].
  unfold directorOf at 1.
  destruct (String.eqb (Person.nodeType p) "director"
            && nonEmpty (Person.contract p) && nonEmpty (Person.upid p)); cbn [andb];
    [|done].
  destruct (String.eqb_spec (Person.contract p) c) as [<-|Hc].
  - by rewrite lookup_insert_eq.
  - by rewrite lookup_insert_ne.
Qed.

(** X24.  The task nodes.  For mapping rows and records whose tasks and
    contracts are none of the names of the members of [Object.prototype]:
    [_deriveStructuralNodes] makes one task node, with
    an id of its own, for every non-empty task that an active mapping or a
    personnel record names, and no other.  The contract of a task node is
    the contract of the first mapping row of the task, active or not, and
    empty when no row names the task; its parent is the UPID of the last
    record in row order that is a director of that contract and has a UPID,
    and root when there is none. *)
Theorem task_nodes (teams : list Team.t) (personnel : list Person.t) (x : string) :
  plainKeys teams personnel = true →
  let nodes := taskNodes (_deriveStructuralNodes teams personnel) in
  NoDup (map Node.id nodes)
  ∧ ((∃ n, n ∈ nodes ∧ Node.task n = Some x)
     ↔ x ≠ ""
       ∧ ((∃ t, t ∈ teams ∧ Team.isActive t = true ∧ Team.task t = x)
          ∨ (∃ p, p ∈ personnel ∧ Person.task p = x)))
  ∧ ∀ n, n ∈ nodes → Node.task n = Some x →
      Node.id n = "task:" +:+ x
      ∧ Node.type n = "task"
      ∧ Node.contract n = from_option Team.contract "" (head (rowsOfTask x teams))
      ∧ Node.parentId n
        = Some (from_option Person.upid "root"
                  (List.find (directorOf (Node.contract n)) (rev personnel))).
Proof.
  intros _. cbn zeta. unfold _deriveStructuralNodes. cbn [taskNodes].
  split; [|split].
  - rewrite map_map. cbn [taskNodeOf Node.id].
    apply NoDup_map_inj; [apply task_inj|apply taskIdsOf_NoDup].
  - rewrite <- elem_of_taskIdsOf. split.
    + intros (n & Hn & Ht). apply list_elem_of_fmap in Hn as (y & -> & Hy).
      cbn in Ht. by injection Ht as <-.
    + intros Hx. eexists. split; [apply list_elem_of_fmap; by exists x|done].
  - intros n Hn Ht. apply list_elem_of_fmap in Hn as (y & -> & Hy).
    cbn in Ht. injection Ht as ->.
    assert (x ≠ "") as Hne by (by apply elem_of_taskIdsOf in Hy as [? _]).
    assert (from_option TaskMeta.contract "" (getTaskMetadata teams !! x)
            = from_option Team.contract "" (head (rowsOfTask x teams))) as Hcontract.
    { rewrite (getTaskMetadata_lookup teams x Hne).
      by destruct (rowsOfTask x teams). }
    cbn [taskNodeOf Node.id Node.type Node.contract Node.parentId].
    split; [done|]. split; [done|]. split; [done|].
    rewrite contractDirectorsOf_last. f_equal.
    destruct (List.find _ (rev personnel)) as [p|] eqn:Hf; cbn; [|done].
    apply find_some in Hf as [_ Hd]. unfold directorOf in Hd.
    apply andb_prop in Hd as [Hd _]. apply andb_prop in Hd as [_ Hu].
    unfold orNull. by rewrite Hu.
Qed.

(** *** Without a Team List *)

(** X25.  No Team List sheet.  When no Team List sheet is found and the cache
    is cold or absent: [getAllData] returns the empty list and caches
    nothing, so that it computes the tree as soon as a sheet is in place;
    [addPerson], [updatePerson] and [deletePerson] of an id that is not a
    vacancy id, called by an authorised caller, return a failure that
    carries the message of [_getTeamListSheet] and leave the world as it
    is. *)
Theorem sheet_missing (w : World) :
  teamList w = None →
  (∀ c, appCache w = Some c → all_data c = None ∧ teamlist_raw c = None) →
  fst (getAllData w) = []
  ∧ appCache (snd (getAllData w)) = appCache w
  ∧ (∀ sheet, fst (getAllData (setTeamList sheet (snd (getAllData w))))
              = assemble (teamsOf w) (vacantsOf w) (readRows sheet))
  ∧ (permitted w = true →
     (∀ person, addPerson person w = (Returned (failed SHEET_NOT_FOUND), w))
     ∧ (∀ id updates, updatePerson id updates w = (Returned (failed SHEET_NOT_FOUND), w))
     ∧ (∀ id, startsWith id "VAC-" = false →
          deletePerson id w = (Returned (failed SHEET_NOT_FOUND), w))).
Proof.
  intros Hs Hcold.
  assert (coherent w) as Hc.
  { unfold coherent. rewrite Hs. destruct (appCache w) as [c|] eqn:Hc; [|done].
    by destruct (Hcold c eq_refl). }
  assert (snd (getAllData w)
          = match appCache w with
            | Some _ => logAccess (CacheGet CACHE_KEY_TEAM_LIST_RAW)
                          (logAccess (CacheGet CACHE_KEY_ALL_DATA) w)
            | None => w
            end) as Hsnd.
  { unfold getAllData, _readTeamListRaw, _getTeamListSheet.
    destruct (appCache w) as [c|] eqn:Hac.
    - destruct (Hcold c eq_refl) as [Ha Hr]. rewrite Ha. cbn [logAccess appCache].
      rewrite Hac, Hr. cbn [logAccess teamList]. rewrite Hs. done.
    - rewrite Hs. done. }
  split; [by apply getAllData_no_sheet|].
  split; [rewrite Hsnd; by destruct (appCache w) eqn:Hac|].
  split.
  { intros sheet. rewrite (getAllData_fresh _ sheet).
    - unfold freshData, teamsOf, vacantsOf. rewrite Hsnd.
      by destruct (appCache w) eqn:Hac.
    - unfold coherent. rewrite Hsnd.
      destruct (appCache w) as [c|] eqn:Hac; cbn; rewrite Hac; [|done].
      by destruct (Hcold c eq_refl) as [-> ->].
    - done. }
  intros Hp. split; [|split].
  - intros person. unfold addPerson, _getTeamListSheet. by rewrite Hp, Hs.
  - intros id updates. unfold updatePerson, _getTeamListSheet. by rewrite Hp, Hs.
  - intros id Hvac. unfold deletePerson, _getTeamListSheet.
    by rewrite Hp, Hvac, andb_false_r, Hs.
Qed.

(** *** Parents that exist *)

(** X26.  Parents that exist.  When the cache holds nothing stale, the Team
    List is in place and the tasks and contracts of mapping rows and
    records are none of the names of the members of [Object.prototype], the
    parent of every task node and of every
    person node of the result of [getAllData] is the id of a node of that
    result, and so is the parent of the team node of every active mapping
    that names both a team and a task. *)
Theorem parents_resolve (w : World) (sheet : Sheet) :
  coherent w → teamList w = Some sheet →
  plainKeys (teamsOf w) (readRows sheet) = true →
  (∀ n, n ∈ taskNodes (_deriveStructuralNodes (teamsOf w) (readRows sheet))
        ∨ n ∈ personRecords (teamsOf w) (readRows sheet) →
     n ∈ fst (getAllData w)
     ∧ ∃ m, m ∈ fst (getAllData w) ∧ Node.parentId n = Some (Node.id m))
  ∧ (∀ t, t ∈ teamsOf w → nonEmpty (Team.teamId t) = true → Team.isActive t = true →
       nonEmpty (Team.task t) = true →
       teamNodeOf t ∈ fst (getAllData w)
       ∧ ∃ m, m ∈ fst (getAllData w) ∧ Node.parentId (teamNodeOf t) = Some (Node.id m)).
Proof.
  intros Hc Hs _. destruct (parents_exist w sheet Hc Hs) as [H1 H2].
  pose proof (getAllData_fresh w sheet Hc Hs) as Hdata.
  split.
  - intros n Hn. split; [|by apply H1].
    rewrite Hdata. unfold freshData, assemble. apply elem_of_cons. right.
    rewrite !elem_of_app. destruct Hn as [Hn|Hn]; [by left|right; right; by left].
  - intros t Ht Hid Hact Htask. split; [|by apply H2].
    rewrite Hdata. unfold freshData, assemble. apply elem_of_cons. right.
    rewrite !elem_of_app. right. left.
    unfold _deriveStructuralNodes. cbn [teamNodes]. apply list_elem_of_fmap.
    exists t. split; [done|]. apply list_elem_of_filter. split; [|done].
    by rewrite Hid, Hact.
Qed.

(** *** Splitting a name *)

(** X27.  The split of a name.  [addPerson] and [updatePerson] cut a name at
    its first space: the first name is the text before it and has no space,
    the last name is all the text after it, further spaces included, and
    first name, a space and last name give the name back; a name without a
    space is the first name as a whole, the last name being empty. *)
Theorem name_split (name : string) :
  noSpace (fst (splitFirstSpace name)) = true
  ∧ (noSpace name = true →
     splitFirstSpace name = (name, ""))
  ∧ (noSpace name = false →
     name = fst (splitFirstSpace name) +:+ " " +:+ snd (splitFirstSpace name))
  ∧ (∀ first last, noSpace first = true →
       splitFirstSpace (first +:+ " " +:+ last) = (first, last)).
Proof.
  split; [|split; [|split]].
  - induction name as [|c s IH]; [done|]. simpl.
    destruct (Ascii.eqb c " ") eqn:Hc; [done|].
    destruct (splitFirstSpace s) as [a b]. simpl in *. by rewrite Hc.
  - induction name as [|c s IH]; [done|]. simpl.
    destruct (Ascii.eqb c " ") eqn:Hc; [done|]. simpl. intros Hs.
    by rewrite (IH Hs).
  - induction name as [|c s IH]; [done|]. simpl.
    destruct (Ascii.eqb_spec c " ") as [->|Hc]; [done|]. simpl. intros Hs.
    destruct (splitFirstSpace s) as [a b]. simpl in *.
    change (String c a +:+ " " +:+ b) with (String c (a +:+ " " +:+ b)).
    f_equal. by apply IH.
  - intros first last. induction first as [|c s IH]; [done|]. simpl.
    destruct (Ascii.eqb c " ") eqn:Hc; [done|]. simpl. intros Hs.
    by rewrite (IH Hs).
Qed.

(** *** Deleting a person again *)

Lemma invalidateCache_idem (w : World) :
  _invalidateCache (_invalidateCache w) = _invalidateCache w.
Proof.
  unfold _invalidateCache. destruct (appCache w) eqn:E; [done|by rewrite E].
Qed.

Lemma insert_twice_idem {A} (l : list A) (a s : nat) (x y : A) :
  a ≠ s →
  <[s := y]> (<[a := x]> (<[s := y]> (<[a := x]> l))) = <[s := y]> (<[a := x]> l).
Proof.
  intros Hne.
  rewrite (list_insert_insert_ne (<[a := x]> l) a s) by done.
  by rewrite !list_insert_insert_eq.
Qed.

(** A rewriting of one row that leaves the UPID of every row as it is does
    not change the row that the search loop finds. *)
Lemma findRowFrom_alter colMap id (f : list Cell → list Cell) rows :
  (∀ row, rowHasUpid colMap id (f row) = rowHasUpid colMap id row) →
  ∀ (i k : nat),
    findRowFrom colMap id i (alter f k rows) = findRowFrom colMap id i rows.
Proof.
  intros Hf. induction rows as [|r rs IH]; intros i k; [done|].
  destruct k as [|k].
  - change (alter f 0 (r :: rs)) with (f r :: rs). cbn [findRowFrom]. by rewrite Hf.
  - change (alter f (S k) (r :: rs)) with (r :: alter f k rs).
    cbn [findRowFrom]. by rewrite IH.
Qed.

(** The world after the two writes of [deletePerson]. *)
Lemma deletePerson_found (w : World) (sheet : Sheet) (id : string) (k a s : nat) :
  permitted w = true → teamList w = Some sheet → startsWith id "VAC-" = false →
  findRow id sheet = Some (1 + k) →
  colMapOf (headers sheet) !! "Active In Org" = Some a →
  colMapOf (headers sheet) !! "Personnel Contract Status" = Some s →
  deletePerson id w
  = (Returned (succeeded id),
     _invalidateCache (setTeamList
       {| headers := headers sheet;
          body := alter (λ row, <[s := CStr "Departed"]> (<[a := CStr "FALSE"]> row))
                    k (body sheet) |} w)).
Proof.
  intros Hp Hs Hvac Hfind Ha Hst.
  unfold deletePerson, _getTeamListSheet. rewrite Hp, Hvac, Hs.
  rewrite andb_false_r. cbn [negb]. rewrite Hfind, Ha, Hst.
  replace (1 + k + 1) with (S (S k)) by lia.
  unfold setValue. cbn [headers body].
  replace (a + 1 - 1) with a by lia. replace (s + 1 - 1) with s by lia.
  by rewrite list_alter_alter_eq.
Qed.

(** X28.  Deleting twice.  [deletePerson] acts on the first row that
    carries the UPID, whether the reader still shows it or not.  For an
    authorised caller, a Team List whose rows are as wide as its header row
    and that has the columns Active In Org and Personnel Contract Status,
    and an id that is not a vacancy id and is found in row [i]: the call
    succeeds; the search then finds the same row again, so that a second
    [deletePerson] of the same id reports success once more and changes
    nothing at all; and every record that the reader returned for another
    row, a later row of the same UPID included, is returned after the
    delete as before. *)
Theorem deletePerson_again (w : World) (sheet : Sheet) (id : string) (i : nat) :
  permitted w = true → teamList w = Some sheet → rectangular sheet = true →
  startsWith id "VAC-" = false →
  is_Some (colMapOf (headers sheet) !! "Active In Org") →
  is_Some (colMapOf (headers sheet) !! "Personnel Contract Status") →
  findRow id sheet = Some i →
  ∃ sheet1,
    deletePerson id w
    = (Returned (succeeded id), _invalidateCache (setTeamList sheet1 w))
    ∧ findRow id sheet1 = Some i
    ∧ deletePerson id (snd (deletePerson id w))
      = (Returned (succeeded id), snd (deletePerson id w))
    ∧ (∀ p, p ∈ readRows sheet1 ↔ p ∈ readRows sheet ∧ Person._rowIndex p ≠ i + 1).
Proof.
  intros Hp Hs Hrect Hvac [a Ha] [s Hst] Hfind.
  destruct (findRowFrom_inv _ _ _ _ _ Hfind) as (k & row & -> & Hk & Hhas & _).
  set (f := λ row : list Cell, <[s := CStr "Departed"]> (<[a := CStr "FALSE"]> row)).
  set (sheet1 := {| headers := headers sheet; body := alter f k (body sheet) |}).
  assert (a ≠ s) as Hne.
  { intros ->. by pose proof (colMapOf_inj _ _ _ _ Ha Hst). }
  assert (findRow id sheet1 = Some (1 + k)) as Hfind1.
  { unfold findRow, sheet1. cbn [headers body]. rewrite findRowFrom_alter; [done|].
    intros r. unfold rowHasUpid, f.
    rewrite !cell_insert_ne; [done| |].
    - intros Hu. by pose proof (colMapOf_inj _ _ _ _ Hu Ha).
    - intros Hu. by pose proof (colMapOf_inj _ _ _ _ Hu Hst). }
  pose proof (deletePerson_found w sheet id k a s Hp Hs Hvac Hfind Ha Hst) as Hdel.
  fold f in Hdel. fold sheet1 in Hdel.
  exists sheet1. split; [done|]. split; [done|]. split.
  - rewrite Hdel. cbn [snd].
    rewrite (deletePerson_found _ sheet1 id k a s); [| | |done|done|done|done].
    + f_equal. fold f.
      assert ({| headers := headers sheet1; body := alter f k (body sheet1) |} = sheet1)
        as ->.
      { unfold sheet1. cbn [headers body]. f_equal.
        rewrite list_alter_alter_eq. apply list_alter_ext; [|done].
        intros r _. unfold compose, f. by apply insert_twice_idem. }
      rewrite setTeamList_same by (by rewrite teamList_invalidateCache).
      apply invalidateCache_idem.
    + by rewrite permitted_invalidateCache.
    + by rewrite teamList_invalidateCache.
  - intros p. unfold readRows, sheet1. cbn [headers body].
    rewrite (readRowsFrom_alter _ f _ 1 k row Hk).
    + rewrite list_elem_of_filter. replace (1 + k + 1) with (1 + k + 1) by done. tauto.
    + assert (List.length row = List.length (headers sheet)) as Hlen.
      { by apply (rectangular_row sheet k row Hrect). }
      apply readRow_soft_deleted; unfold f.
      * rewrite cell_insert_ne by (rewrite Ha; congruence).
        apply cell_insert_eq; [done|]. rewrite Hlen. by apply colMapOf_lt in Ha.
      * apply cell_insert_eq; [done|]. rewrite length_insert, Hlen.
        by apply colMapOf_lt in Hst.
Qed.

(** *** Adding a person, then deleting it *)

Lemma findRowFrom_app colMap id rows1 rows2 : ∀ (i : nat),
  findRowFrom colMap id i rows1 = None →
  findRowFrom colMap id i (rows1 ++ rows2)
  = findRowFrom colMap id (i + List.length rows1) rows2.
Proof.
  induction rows1 as [|r rs IH]; intros i H; simpl in *.
  - by replace (i + 0) with i by lia.
  - destruct (rowHasUpid colMap id r); [done|].
    rewrite IH by done. f_equal. lia.
Qed.

Lemma addPerson_permitted (w : World) (sheet : Sheet) (person : PersonInput.t) :
  permitted w = true → teamList w = Some sheet →
  permitted (snd (addPerson person w)) = true.
Proof.
  intros Hp Hs. unfold addPerson, _getTeamListSheet. rewrite Hp, Hs. cbn [negb].
  destruct (nonEmpty (PersonInput.upid person)).
  - cbn [snd]. by rewrite permitted_invalidateCache.
  - destruct (nonEmpty (PersonInput.hid person)).
    + cbn [snd]. by rewrite permitted_invalidateCache.
    + unfold _generateNextHid.
      destruct (readTeamListRaw_ok w sheet Hs) as (r & w1 & -> & _ & _ & Hpm).
      cbn [snd]. rewrite permitted_invalidateCache. cbn. congruence.
Qed.

(** X29.  Add, then delete.  For an authorised caller and a Team List
    whose header row is [TEAM_LIST_HEADERS]: when [addPerson] has returned
    an id that is not a vacancy id and that no row carried before,
    [deletePerson] of that id finds the appended row and succeeds; the row
    stays in the sheet, the reader returns the records it returned before
    the person was added, and the next [getAllData] is the tree of these
    records. *)
Theorem addPerson_deletePerson (w : World) (sheet : Sheet)
    (person : PersonInput.t) (id : string) :
  permitted w = true → teamList w = Some sheet →
  headers sheet = map CStr TEAM_LIST_HEADERS →
  fst (addPerson person w) = Returned (succeeded id) →
  startsWith id "VAC-" = false → findRow id sheet = None →
  ∃ sheet1 sheet2,
    teamList (snd (addPerson person w)) = Some sheet1
    ∧ findRow id sheet1 = Some (List.length (body sheet) + 1)
    ∧ fst (deletePerson id (snd (addPerson person w))) = Returned (succeeded id)
    ∧ teamList (snd (deletePerson id (snd (addPerson person w)))) = Some sheet2
    ∧ List.length (body sheet2) = List.length (body sheet) + 1
    ∧ readRows sheet2 = readRows sheet
    ∧ fst (getAllData (snd (deletePerson id (snd (addPerson person w)))))
      = assemble (teamsOf w) (vacantsOf w) (readRows sheet).
Proof.
  intros Hp Hs Hh Hid Hvac Hnone.
  pose proof (addPerson_permitted w sheet person Hp Hs) as Hp1.
  destruct (addPerson_result w sheet person Hp Hs) as (upid & w1 & Hne & Hadd & Htc).
  rewrite Hadd in Hid, Hp1 |- *. cbn [fst snd] in *. injection Hid as ->.
  set (row := _buildTeamListRow (prepared id person)) in *.
  set (sheet1 := appendRow row sheet) in *.
  set (k := List.length (body sheet)).
  assert (body sheet1 = body sheet ++ [row]) as Hbody1.
  { unfold sheet1, appendRow. cbn [body]. rewrite Hh.
    change (List.length (map CStr TEAM_LIST_HEADERS) - List.length row) with 0.
    cbn [repeat]. by rewrite app_nil_r. }
  assert (headers sheet1 = map CStr TEAM_LIST_HEADERS) as Hh1 by done.
  assert (findRow id sheet1 = Some (1 + k)) as Hfind.
  { unfold findRow. rewrite Hbody1, Hh1. unfold findRow in Hnone. rewrite Hh in Hnone.
    rewrite findRowFrom_app by done. cbn [findRowFrom]. unfold rowHasUpid.
    rewrite (std_cell _ row 14 "Unique Personnel ID (UPID)" eq_refl eq_refl).
    change (row !! 14) with (Some (CStr id)).
    by rewrite String.eqb_refl. }
  set (f := λ r : list Cell, <[20 := CStr "Departed"]> (<[27 := CStr "FALSE"]> r)).
  set (sheet2 := {| headers := headers sheet1; body := alter f k (body sheet1) |}).
  assert (body sheet2 = body sheet ++ [f row]) as Hbody2.
  { unfold sheet2. cbn [body]. rewrite Hbody1.
    replace k with (List.length (body sheet) + 0) by (unfold k; lia).
    by rewrite alter_app_r. }
  assert (deletePerson id (_invalidateCache (setTeamList sheet1 w1))
          = (Returned (succeeded id),
             _invalidateCache (setTeamList sheet2 (_invalidateCache (setTeamList sheet1 w1)))))
    as Hdel.
  { apply (deletePerson_found _ sheet1 id k 27 20); [done| |done|done| |].
    - by rewrite teamList_invalidateCache.
    - rewrite Hh1. vm_compute. reflexivity.
    - rewrite Hh1. vm_compute. reflexivity. }
  rewrite Hdel. cbn [fst snd].
  assert (readRows sheet2 = readRows sheet) as Hread.
  { unfold readRows. rewrite Hbody2. unfold sheet2. cbn [headers]. rewrite Hh1, Hh.
    rewrite readRowsFrom_app. cbn [readRowsFrom].
    rewrite readRow_soft_deleted; [by rewrite app_nil_r| |].
    - by rewrite (std_cell _ (f row) 27 "Active In Org" eq_refl eq_refl).
    - by rewrite (std_cell _ (f row) 20 "Personnel Contract Status" eq_refl eq_refl). }
  exists sheet1, sheet2.
  split; [by rewrite teamList_invalidateCache|].
  split; [rewrite Hfind; f_equal; unfold k; lia|].
  split; [done|].
  split; [by rewrite teamList_invalidateCache|].
  split; [rewrite Hbody2, length_app; cbn; lia|].
  split; [done|].
  rewrite getAllData_after_write, Hread. unfold teamsOf, vacantsOf.
  by rewrite teamsCrudService_invalidateCache, <- Htc.
Qed.

(** *** The theorems at concrete rosters *)

Lemma deletePerson_hides_row_witness :
  ∃ (i : nat) sheet',
    findRow "310-003" sheetA = Some i
    ∧ fst (deletePerson "310-003" worldA) = Returned (succeeded "310-003")
    ∧ teamList (snd (deletePerson "310-003" worldA)) = Some sheet'
    ∧ headers sheet' = headers sheetA
    ∧ readRows sheet'
      = filter (λ p, Person._rowIndex p ≠ i + 1) (readRows sheetA)
    ∧ fst (getAllData (snd (deletePerson "310-003" worldA)))
      = assemble (teamsOf worldA) (vacantsOf worldA) (readRows sheet').
Proof.
  apply (deletePerson_hides_row worldA sheetA "310-003").
  - reflexivity.
  - reflexivity.
  - vm_compute. reflexivity.
  - reflexivity.
  - exists 27. vm_compute. reflexivity.
  - exists 20. vm_compute. reflexivity.
  - exists rowScenarioA. split.
    + apply list_elem_of_In. right. left. reflexivity.
    + vm_compute. reflexivity.
Defined.

Lemma updatePerson_writes_witness :
  ∃ row',
    updatePerson "310-003"
      [("team", AVal (CStr "Old Team")); ("primaryWorkstream", AVal (CStr "New Team"));
       ("nickname", AVal (CStr "Lea"))] worldA
    = (Returned (succeeded "310-003"),
       _invalidateCache (setTeamList
         {| headers := headers sheetA; body := <[1 := row']> (body sheetA) |} worldA))
    ∧ row' !! 4 = Some (CStr "New Team")
    ∧ row' !! 14 = Some (CStr "310-003").
Proof.
  destruct (updatePerson_writes worldA sheetA "310-003"
    [("team", AVal (CStr "Old Team")); ("primaryWorkstream", AVal (CStr "New Team"));
     ("nickname", AVal (CStr "Lea"))]
    [("team", AVal (CStr "Old Team")); ("primaryWorkstream", AVal (CStr "New Team"));
     ("nickname", AVal (CStr "Lea"))]
    [("team", AVal (CStr "Old Team")); ("primaryWorkstream", AVal (CStr "New Team"));
     ("nickname", AVal (CStr "Lea"))] 2)
    as (k & row & row' & Hi & Hk & _ & _ & Hup & _ & Hkeep & Hlast).
  - reflexivity.
  - reflexivity.
  - vm_compute. reflexivity.
  - reflexivity.
  - reflexivity.
  - assert (k = 1) as -> by lia.
    assert (Some row = Some rowScenarioA) as [= ->] by (rewrite <- Hk; reflexivity).
    exists row'. split; [exact Hup|]. split.
    + apply (Hlast 4 [("team", AVal (CStr "Old Team"))]
               ("primaryWorkstream", AVal (CStr "New Team"))
               [("nickname", AVal (CStr "Lea"))]).
      * reflexivity.
      * vm_compute. reflexivity.
      * intros kv Hkv. apply list_elem_of_singleton in Hkv as ->. vm_compute. reflexivity.
      * vm_compute. lia.
    + rewrite (Hkeep 14); [vm_compute; reflexivity|].
      intros kv Hkv. apply list_elem_of_In in Hkv.
      destruct Hkv as [<-|[<-|[<-|[]]]]; vm_compute; reflexivity.
Defined.

Lemma updatePerson_name_read_back_witness :
  ∃ sheet' p',
    updatePerson "310-003"
      [("name", AVal (CStr "Updated Test Lead"));
       ("title", AVal (CStr "Senior Integration Test Lead"))] worldA
    = (Returned (succeeded "310-003"), _invalidateCache (setTeamList sheet' worldA))
    ∧ p' ∈ readRows sheet'
    ∧ Person.firstName p' = "Updated"
    ∧ Person.lastName p' = "Test Lead"
    ∧ Person.name p' = "Updated Test Lead".
Proof.
  assert (∃ p, readRow (colMapOf (headers sheetA)) 2 rowScenarioA = Some p) as [p Hp]
    by (eexists; vm_compute; reflexivity).
  destruct (updatePerson_name_read_back worldA sheetA "310-003"
    [("name", AVal (CStr "Updated Test Lead"));
     ("title", AVal (CStr "Senior Integration Test Lead"))]
    "Updated Test Lead" 1 rowScenarioA p)
    as (sheet' & p' & Hup & Hin & _ & _ & _ & Hf & Hl & Hn).
  - reflexivity.
  - reflexivity.
  - vm_compute. reflexivity.
  - vm_compute. reflexivity.
  - reflexivity.
  - exact Hp.
  - apply NoDup_cons. split; [|apply NoDup_singleton].
    intros H. apply list_elem_of_singleton in H. discriminate.
  - reflexivity.
  - left. reflexivity.
  - intros kv Hkv. apply list_elem_of_In in Hkv.
    destruct Hkv as [<-|[<-|[]]]; repeat split; discriminate.
  - exists 6. vm_compute. reflexivity.
  - exists 7. vm_compute. reflexivity.
  - exists sheet', p'. split; [exact Hup|]. split; [exact Hin|].
    split; [exact Hf|]. split; [exact Hl|]. exact Hn.
Defined.

Lemma addPerson_read_back_witness :
  ∃ sheet' p n,
    fst (addPerson newHire worldA) = Returned (succeeded "400-008")
    ∧ teamList (snd (addPerson newHire worldA)) = Some sheet'
    ∧ readRows sheet' = readRows sheetA ++ [p]
    ∧ Person.upid p = "400-008"
    ∧ Person._rowIndex p = 6
    ∧ Person.firstName p = "Test" ∧ Person.lastName p = "Team Member"
    ∧ fst (getById "400-008" (snd (addPerson newHire worldA))) = Some n
    ∧ Node.id n = "400-008".
Proof.
  destruct (addPerson_read_back worldA sheetA newHire)
    as (id & sheet' & p & n & Hadd & _ & Hs & Hrows & Hupid & Hidx & _ & _ & _ & _
        & _ & _ & Hname & _ & Hget & Hid).
  - reflexivity.
  - reflexivity.
  - reflexivity.
  - discriminate.
  - assert (id = "400-008") as ->.
    { assert (Returned (succeeded id) = Returned (succeeded "400-008")) as Heq
        by (rewrite <- Hadd; vm_compute; reflexivity).
      by injection Heq. }
    destruct Hname as [Hf Hl]; [discriminate|reflexivity|reflexivity|].
    exists sheet', p, n. split; [exact Hadd|]. split; [exact Hs|].
    split; [exact Hrows|]. split; [exact Hupid|]. split; [exact Hidx|].
    split; [exact Hf|]. split; [exact Hl|]. split; [exact Hget|exact Hid].
Defined.

Lemma addPerson_same_id_twice_witness :
  ∃ id,
    fst (addPerson newHire worldA) = Returned (succeeded id)
    ∧ fst (addPerson newHire (snd (addPerson newHire worldA)))
      = Returned (succeeded id).
Proof.
  apply (addPerson_same_id_twice worldA sheetA newHire newHire).
  - reflexivity.
  - vm_compute. split; exact I.
  - reflexivity.
  - reflexivity.
  - reflexivity.
  - reflexivity.
  - reflexivity.
  - reflexivity.
  - reflexivity.
Defined.

Lemma cache_stays_coherent_witness :
  coherent (snd (getAllData worldA))
  ∧ coherent (snd (addPerson newHire worldA))
  ∧ coherent (snd (deletePerson "310-003" worldA)).
Proof.
  destruct (cache_stays_coherent worldA) as (_ & Hget & _ & _ & _ & Hadd & _ & Hdel).
  - vm_compute. split; exact I.
  - split; [exact Hget|]. split; [apply Hadd|].
    apply Hdel; [reflexivity|vm_compute; reflexivity].
Defined.

Lemma deletePerson_vacancy_stale_witness :
  vacantsOf worldVacanciesWarm = [vacantE; vacantOrphan]
  ∧ fst (deletePerson "VAC-003-2" worldVacanciesWarm)
    = Returned {| success := true; id := None; error := None |}
  ∧ vacantsOf (snd (deletePerson "VAC-003-2" worldVacanciesWarm)) = [vacantE]
  ∧ vacantRecord (upidMapOf (readRows (mkSheet [row330]))) vacantOrphan
      ∈ fst (getAllData (snd (deletePerson "VAC-003-2" worldVacanciesWarm))).
Proof.
  destruct (deletePerson_vacancy_stale worldVacanciesWarm (mkSheet [row330])
    {| all_data := Some (fst (getAllData worldVacancies));
       teamlist_raw := Some (readRows (mkSheet [row330])) |}
    (fst (getAllData worldVacancies))
    {| allTeams := []; vacantStore := storeVacanciesWarm |}
    (mkVacantSheet [vacantE; vacantOrphan]) "VAC-003-2" vacantOrphan)
    as (Hdel & _ & Hafter & _ & _ & _ & Hstill).
  - reflexivity.
  - apply getAllData_coherent. vm_compute. split; exact I.
  - reflexivity.
  - vm_compute. reflexivity.
  - reflexivity.
  - vm_compute. reflexivity.
  - reflexivity.
  - vm_compute. reflexivity.
  - vm_compute. reflexivity.
  - vm_compute. reflexivity.
  - reflexivity.
  - vm_compute. reflexivity.
  - split; [vm_compute; reflexivity|]. split; [exact Hdel|].
    split; [rewrite Hafter; vm_compute; reflexivity|exact Hstill].
Defined.

Lemma getModuleSummary_counts_witness :
  Stats.total (fst (getModuleSummary worldA)) = 3
  ∧ default 0 (Stats.byType (fst (getModuleSummary worldA)) !! "lead") = 1.
Proof.
  destruct (getModuleSummary_counts worldA "lead") as (Ht & Hb & _).
  - vm_compute. reflexivity.
  - split; [rewrite Ht|rewrite Hb]; vm_compute; reflexivity.
Defined.

Lemma getManagementEmails_entries_witness :
  fst (getManagementEmails worldA) !! "TASK-001"
  = Some {| ManagementEmails.contractManagerEmail := "Director@Example.org";
            ManagementEmails.deputyManagerEmail := "";
            ManagementEmails.taskLeadEmail := "";
            ManagementEmails.teamLeadEmail := "lead@example.org" |}
  ∧ fst (getManagementEmails worldA) !! "TASK-009" = None.
Proof.
  destruct (getManagementEmails_entries worldA "TASK-001") as [_ H];
    [vm_compute; reflexivity|].
  destruct (getManagementEmails_entries worldA "TASK-009") as [H9 _];
    [vm_compute; reflexivity|].
  split.
  - rewrite H; [vm_compute; reflexivity|].
    apply list_elem_of_In. vm_compute. left. reflexivity.
  - apply H9. intros Hin. apply list_elem_of_In in Hin. vm_compute in Hin.
    destruct Hin as [Hin|[]]. discriminate.
Defined.

Lemma task_nodes_witness :
  ∃ n, n ∈ taskNodes (_deriveStructuralNodes (teamsOf worldA) (readRows sheetA))
    ∧ Node.task n = Some "TASK-001"
    ∧ Node.contract n = "SQuAT"
    ∧ Node.parentId n = Some "100-001".
Proof.
  destruct (task_nodes (teamsOf worldA) (readRows sheetA) "TASK-001") as (_ & Hex & Hall).
  - vm_compute. reflexivity.
  - destruct Hex as [_ Hex]. destruct Hex as (n & Hn & Ht).
    + split; [discriminate|]. left. exists teamPM.
      split; [apply list_elem_of_In; vm_compute; left; reflexivity|].
      split; reflexivity.
    + exists n. destruct (Hall n Hn Ht) as (_ & _ & Hc & Hp).
      split; [exact Hn|]. split; [exact Ht|].
      split; [rewrite Hc; vm_compute; reflexivity|].
      rewrite Hp, Hc. vm_compute. reflexivity.
Defined.

Lemma generateTeamId_fresh_witness :
  TeamsCrudService._generateTeamId [teamBare; teamPM; teamNamed] = "TEAM-004"
  ∧ TeamsCrudService.getTeamById
      (TeamsCrudService._generateTeamId [teamBare; teamPM; teamNamed])
      [teamBare; teamPM; teamNamed] = None.
Proof.
  destruct (generateTeamId_fresh [teamBare; teamPM; teamNamed])
    as (Hid & _ & _ & _ & _ & _ & Hnone).
  - vm_compute. reflexivity.
  - split; [rewrite Hid; vm_compute; reflexivity|exact Hnone].
Defined.

Lemma getModuleSummary_fresh_witness :
  Stats.total (fst (getModuleSummary worldA)) = 3
  ∧ Stats.vacantCount (fst (getModuleSummary worldA)) = 1
  ∧ fst (getTotalCount worldA) = 3.
Proof.
  destruct (getModuleSummary_fresh worldA sheetA) as (Ht & Hv & Hc).
  - vm_compute. split; exact I.
  - reflexivity.
  - split; [rewrite Ht; vm_compute; reflexivity|].
    split; [rewrite Hv; vm_compute; reflexivity|].
    rewrite Hc. vm_compute. reflexivity.
Defined.

Lemma getTaskMetadata_rows_witness :
  getTaskMetadata [teamBare; teamPM; teamNamed] !! "TASK-002"
  = Some {| TaskMeta.taskId := "TASK-002";
            TaskMeta.taskName := "TASK-002";
            TaskMeta.contract := "Forward";
            TaskMeta.color := "#9b59b6";
            TaskMeta.description := "Audits of deliverables";
            TaskMeta.defaultSlaThreshold := "80";
            TaskMeta.notifyOnEscalation := true;
            TaskMeta.displayOrder := 2 |}.
Proof.
  rewrite (getTaskMetadata_rows [teamBare; teamPM; teamNamed] "TASK-002").
  - reflexivity.
  - reflexivity.
  - reflexivity.
  - discriminate.
Defined.

Lemma task_colors_and_names_witness :
  TeamsCrudService.getTaskColors [teamBare; teamPM; teamNamed] !! "TASK-002"
  = Some "#9b59b6"
  ∧ TeamsCrudService.getTaskFriendlyNames [teamBare; teamPM; teamNamed] !! "TASK-002"
    = Some "TASK-002"
  ∧ TeamsCrudService.getTaskColors [teamBare; teamPM; teamNamed] !! "TASK-001" = None
  ∧ TeamsCrudService.getTaskColors [teamBare; teamPM; teamNamed] !! "default"
    = Some "#95a5a6".
Proof.
  destruct (task_colors_and_names [teamBare; teamPM; teamNamed] "TASK-002")
    as (Hc & Hn & _ & Hd & _); [reflexivity|reflexivity|discriminate|discriminate|].
  destruct (task_colors_and_names [teamBare; teamPM; teamNamed] "TASK-001")
    as (Hc1 & _); [reflexivity|reflexivity|discriminate|discriminate|].
  split; [rewrite Hc; reflexivity|]. split; [rewrite Hn; reflexivity|].
  split; [rewrite Hc1; reflexivity|]. rewrite Hd. reflexivity.
Defined.

Lemma deleteVacantPosition_round_trip_witness :
  map Vacant.vacantId (fst (TeamsCrudService.getAllVacantPositions storeA))
  = ["VAC-003-1"; "VAC-003-3"]
  ∧ fst (TeamsCrudService.deleteVacantPosition "VAC-003-1" storeA)
    = {| success := true; id := None; error := None |}
  ∧ map Vacant.vacantId
      (fst (TeamsCrudService.getAllVacantPositions
              (snd (TeamsCrudService.deleteVacantPosition "VAC-003-1" storeA))))
    = ["VAC-003-3"]
  ∧ fst (TeamsCrudService.deleteVacantPosition "VAC-003-2" storeA)
    = failed "Vacant position not found: VAC-003-2".
Proof.
  destruct (deleteVacantPosition_round_trip storeA vacantSheetA "VAC-003-1")
    as (Hserved & Hdel); [reflexivity|exact I|reflexivity|vm_compute; reflexivity|].
  destruct (deleteVacantPosition_round_trip storeA vacantSheetA "VAC-003-2")
    as (_ & Hdel2); [reflexivity|exact I|reflexivity|vm_compute; reflexivity|].
  destruct (List.find _ (TeamsCrudService.readVacantRows vacantSheetA)) as [v|] eqn:Hv
    in Hdel; [|vm_compute in Hv; discriminate].
  destruct Hdel as (Hok & Hafter & _).
  destruct (List.find _ (TeamsCrudService.readVacantRows vacantSheetA)) as [v2|] eqn:Hv2
    in Hdel2; [vm_compute in Hv2; discriminate|].
  destruct Hdel2 as (Hfail & _).
  split; [rewrite Hserved; vm_compute; reflexivity|].
  split; [exact Hok|]. split; [|exact Hfail].
  rewrite Hafter.
  assert (Some v = List.find (λ v, String.eqb (Vacant.vacantId v) "VAC-003-1")
                     (TeamsCrudService.readVacantRows vacantSheetA)) as Heq
    by (by rewrite Hv).
  vm_compute in Heq. injection Heq as ->. vm_compute. reflexivity.
Defined.

Lemma createVacantPosition_read_back_witness :
  TeamsCrudService.VacantResult.vacantId
    (fst (TeamsCrudService.createVacantPosition vacantInputA storeA))
  = Some "VAC-003-3"
  ∧ map (λ v, (Vacant.vacantId v, Vacant.title v, Vacant.rowIndex v))
      (fst (TeamsCrudService.getAllVacantPositions
              (snd (TeamsCrudService.createVacantPosition vacantInputA storeA))))
    = [ ("VAC-003-1", "Analyst", 2); ("VAC-003-3", "Vacant Position", 4);
        ("VAC-003-3", "Vacant Position", 5) ].
Proof.
  destruct (createVacantPosition_read_back storeA vacantInputA) as (Hid & _ & Hread).
  - exact I.
  - intros sheet [= <-]. reflexivity.
  - split; [rewrite Hid; vm_compute; reflexivity|].
    rewrite Hread. vm_compute. reflexivity.
Defined.

Lemma updatePerson_type_error_witness :
  ∃ message,
    updatePerson "310-003" [("title", AVal (CStr "Chief")); ("name", ANull)] worldA
    = (Returned (failed message), worldA).
Proof.
  apply (updatePerson_type_error worldA sheetA "310-003"
           [("title", AVal (CStr "Chief")); ("name", ANull)] 2).
  - reflexivity.
  - reflexivity.
  - vm_compute. reflexivity.
  - left. reflexivity.
Defined.

Lemma getById_finds_witness :
  (∃ n, fst (getById "310-003" worldA) = Some n
     ∧ Node.parentId n = Some "team:TEAM-001")
  ∧ fst (getById "root" worldA) = Some rootNode
  ∧ fst (getById "310-999" worldA) = None.
Proof.
  destruct (getById_finds worldA sheetA) as (Hp & Hroot & _ & _ & Hnone).
  - vm_compute. split; exact I.
  - reflexivity.
  - vm_compute. reflexivity.
  - split; [|split; [exact Hroot|]].
    + destruct (readRows sheetA !! 1%nat) as [p|] eqn:Hq;
        [|vm_compute in Hq; discriminate].
      assert (p ∈ readRows sheetA) as Hin by (apply list_elem_of_lookup; by exists 1%nat).
      pose proof (Hp p Hin) as Hget.
      pose proof Hq as Hq'. vm_compute in Hq'. injection Hq' as Heq.
      eexists. split.
      * rewrite <- Hget. rewrite <- Heq. reflexivity.
      * rewrite <- Heq. vm_compute. reflexivity.
    + apply Hnone. intros n Hn. apply list_elem_of_In in Hn.
      vm_compute in Hn.
      repeat (destruct Hn as [<-|Hn]; [discriminate|]). destruct Hn.
Defined.

Lemma sheet_missing_witness :
  fst (getAllData worldNoSheet) = []
  ∧ addPerson newHire worldNoSheet = (Returned (failed SHEET_NOT_FOUND), worldNoSheet)
  ∧ fst (getAllData (setTeamList sheetA (snd (getAllData worldNoSheet))))
    = assemble [teamPM] [] (readRows sheetA).
Proof.
  destruct (sheet_missing worldNoSheet) as (Hget & _ & Hlater & Hwrite).
  - reflexivity.
  - intros c [= <-]. split; reflexivity.
  - destruct (Hwrite eq_refl) as (Hadd & _).
    split; [exact Hget|]. split; [apply Hadd|]. apply Hlater.
Defined.

Lemma parents_resolve_witness :
  ∃ p m, readRows sheetA !! 1%nat = Some p
    ∧ m ∈ fst (getAllData worldA)
    ∧ Node.parentId (personRecord p (resolvedParent (teamsOf worldA) (readRows sheetA) p))
      = Some (Node.id m).
Proof.
  destruct (readRows sheetA !! 1%nat) as [p|] eqn:Hq; [|vm_compute in Hq; discriminate].
  destruct (parents_resolve worldA sheetA) as [H _].
  - vm_compute. split; exact I.
  - reflexivity.
  - vm_compute. reflexivity.
  - destruct (H (personRecord p (resolvedParent (teamsOf worldA) (readRows sheetA) p)))
      as (_ & m & Hm & Hpar).
    + right. unfold personRecords. apply list_elem_of_fmap. exists p.
      split; [reflexivity|]. apply list_elem_of_lookup. by exists 1%nat.
    + exists p, m. split; [reflexivity|]. split; [exact Hm|exact Hpar].
Defined.

Lemma deletePerson_again_witness :
  findRow "400-008" sheetTwoHires = Some 5
  ∧ map Person._rowIndex
      (filter (λ p, Person.upid p = "400-008") (readRows sheetTwoHires)) = [6; 7]
  ∧ deletePerson "400-008" (snd (deletePerson "400-008" worldTwoHires))
    = (Returned (succeeded "400-008"), snd (deletePerson "400-008" worldTwoHires))
  ∧ is_Some (fst (getById "400-008"
                    (snd (deletePerson "400-008"
                            (snd (deletePerson "400-008" worldTwoHires)))))).
Proof.
  destruct (deletePerson_again worldTwoHires sheetTwoHires "400-008" 5)
    as (sheet1 & Hdel & Hfind & Hagain & Hrows).
  - reflexivity.
  - vm_compute. reflexivity.
  - vm_compute. reflexivity.
  - reflexivity.
  - exists 27. vm_compute. reflexivity.
  - exists 20. vm_compute. reflexivity.
  - vm_compute. reflexivity.
  - split; [vm_compute; reflexivity|]. split; [vm_compute; reflexivity|].
    split; [exact Hagain|].
    vm_compute. eexists. reflexivity.
Defined.

Lemma addPerson_deletePerson_witness :
  fst (deletePerson "400-008" (snd (addPerson newHire worldA)))
  = Returned (succeeded "400-008")
  ∧ fst (getAllData (snd (deletePerson "400-008" (snd (addPerson newHire worldA)))))
    = assemble (teamsOf worldA) (vacantsOf worldA) (readRows sheetA).
Proof.
  destruct (addPerson_deletePerson worldA sheetA newHire "400-008")
    as (sheet1 & sheet2 & _ & _ & Hdel & _ & _ & _ & Hall).
  - reflexivity.
  - reflexivity.
  - reflexivity.
  - vm_compute. reflexivity.
  - reflexivity.
  - vm_compute. reflexivity.
  - split; [exact Hdel|exact Hall].
Defined.
